(* ===== verification/_CoqProject ===== *)
-Q . S2P
Prelude.v
Cstring.v
Kalloc.v
Bytes.v
Spinlock.v
Sleeplock.v
Pipe.v
Proc.v
ProcTable.v
ProcInv.v
ProcDemo.v
Ulib.v
Grep.v
Umalloc.v
UmallocSpec.v
Sh.v
ShSpec.v
ShGrammar.v
Syscall.v
Vm.v
VmSpec.v
VmUser.v
VmSpace.v
VmMem.v
VmFork.v
VmDemo.v
Store.v
Dlist.v
Bio.v
Log.v
Txn.v
Storage.v
Fs.v
File.v
FileSpec.v
Sysfile.v
SysfileSpec.v
FsBlock.v
FsFile.v
FsIo.v
FsInode.v
FsTrunc.v
FsDir.v
FsPath.v
FsDemo.v
Exec.v
ExecSpec.v
ExecFs.v
SysfileDemo.v
Kbd.v
Console.v
ConsoleSpec.v
Sim.v
SimSpec.v
