(* ===== verification/Prelude.v ===== *)
(** * A verification library for the xv6 kernel and its companion programs

    The repository holds the xv6 teaching kernel (src/xv6), extended by the
    exercises of an operating-systems course, and the programs of the course
    (src/lab-01 to src/lab-08).  This library is a shallow embedding of the
    kernel: each C function is a Rocq function with the same name, and the
    theorems are about these functions.

    ** The program and its model

    A C function that changes the state [S] is a computation [ST S A]
    ([Prelude.v]): it returns a value and a new state, stops with [Panic],
    blocks in [Sleep], or runs out of fuel.  [wp] is total correctness (the
    function returns) and [wlp] partial correctness.  Integers are [Z] with
    the wrap-around of their C type ([u8], [u16], [u32], [s16], [s32]).

    - [Cstring.v]: string.c on a byte memory.  [Bytes.v]: byte arrays and
      little-endian fields, used wherever the code casts a buffer to a struct.
    - [Kalloc.v]: kalloc.c, with the free list in the memory that it manages.
    - [Spinlock.v], [Sleeplock.v]: spinlock.c, sleeplock.c, and machines in
      which any number of CPUs or processes use a lock.
    - [Pipe.v]: pipe.c as the critical sections of readers and writers, with
      sleep and wakeup, interleaved in any order.
    - [Proc.v]: proc.c over the class [ProcEnv] of the functions of other
      files it calls; [ProcTable.v]: the effect of each of its critical
      sections; [ProcInv.v]: the machine that interleaves them and its
      invariants; [ProcDemo.v]: instances.
    - [Syscall.v]: the argument functions and the dispatcher of syscall.c.
    - [Vm.v]: vm.c and sys_pgcnt, on pages that are page tables or data;
      [VmSpec.v], [VmUser.v]: the map of a page directory, mappages,
      deallocuvm and allocuvm; [VmDemo.v]: an instance.
    - [Store.v]: the class [BufCache] of what the log needs of the buffer cache.
      [Dlist.v], [Bio.v]: bio.c on its doubly linked list over the disk of
      memide.c, an instance of the class.
    - [Log.v]: log.c over any [BufCache].  [Storage.v]: log and buffer cache
      together with crashes.  [Txn.v]: the class [TxnStore] of what the file
      system needs of log and cache.
    - [Fs.v]: fs.c over any [TxnStore]; [FsBlock.v] (bitmap), [FsFile.v],
      [FsIo.v] (contents), [FsInode.v] (cache), [FsTrunc.v] (truncation) and
      [FsDir.v] (directories, paths) prove it; [FsDemo.v]: a small disk.
    - [File.v], [FileSpec.v]: file.c and pipealloc.  [Sysfile.v],
      [SysfileSpec.v], [SysfileDemo.v]: sysfile.c.
    - [Ulib.v]: ulib.c and printf.c.  [Grep.v]: grep.c.  [Sh.v], [ShSpec.v],
      [ShGrammar.v]: the parser of sh.c.

    ** What the theorems show

    - Storage: a transaction survives crashes whole or not at all, also when
      recovery crashes again ([end_op_crash_safe]); the log has room for the
      operations that are admitted, as long as each stays below the limit that
      log_write really has ([log_write_never_full]); a block written is the
      block read ([bio_write_then_read]); recycling is least recently used.
    - File system: writei, readi and itrunc implement replacement, slices and
      truncation of a byte sequence and leave every other file alone; a
      directory is a finite map from names to inodes that dirlookup and
      dirlink look up and extend; balloc, bfree, iget keep the bitmap and the
      inode cache; skipelem splits paths as the reference does.
    - Descriptors: reference counts are the numbers of descriptors after any
      sequence of calls ([descriptors_counted]).
    - Processes: the process table is well formed in every interleaving
      ([process_table_invariant]), wait and kill do what they should, and a
      pass of the scheduler runs every runnable process.
    - Memory: allocuvm maps fresh zeroed pages or undoes what it did
      ([allocuvm_correct]); kalloc never hands out a page twice
      ([kalloc_partition]); system-call arguments stay in bounds.
    - Locks and pipes: mutual exclusion; bytes leave a pipe in the order in
      which they entered; no wakeup is lost, except by a killed writer
      ([pipe_killed_writer_loses_wakeup]).
    - User programs: the matcher of grep accepts the language of its pattern;
      printf and atoi are inverse; the parser of the shell terminates on every
      input, parses the grammar and inverts the printer.

    ** Bounds and fuel

    Loops whose bound the code computes are structural ([forM]) or take the
    bound as fuel; the total-correctness theorems show that it is enough.  The
    parser of the shell takes 4 units for each character of the line, one for
    each function on a cycle of calls that consumes it.  Sizes are those of
    param.h and fs.h (NPROC, NFILE, NINODE, BSIZE, LOGSIZE).

    ** Not modelled

    Hardware: the boot code, the assembly files, lapic.c, ioapic.c, picirq.c,
    mp.c, uart.c, the IDE disk of ide.c (the model uses memide.c), the segment
    and task registers of vm.c, swtch and the trap entry.  The machine is
    sequentially consistent.  Fields that exist only for debugging (names of
    locks, recorded program counters) are left out.  System calls that block
    are modelled up to the point where they sleep, and from where they are
    woken up.  The test programs and most of the course's programs only call
    the kernel or the C library of the host and have no model. *)

From stdpp Require Export base tactics decidable numbers list gmap strings.
From Stdlib Require Export ZArith Lia.

#[export] Set Warnings "-clear-no-such-hyp".

Declare Scope xv6_scope.
Delimit Scope xv6_scope with xv6.
Global Open Scope Z_scope.
Global Open Scope xv6_scope.

(** ** Machine integers

    A C value of a w-bit type is a [Z]; the wrap-around of the unsigned types
    and the two's complement conversion to the signed ones are written out. *)

Definition u8 (z : Z) : Z := z mod 256.
Definition u16 (z : Z) : Z := z mod 65536.
Definition u32 (z : Z) : Z := z mod 4294967296.
Definition s16 (z : Z) : Z := (z + 32768) mod 65536 - 32768.
Definition s32 (z : Z) : Z := (z + 2147483648) mod 4294967296 - 2147483648.

(** [INT_MIN] and [INT_MAX] bound an [int]; [UINT_LIM] is 2^32. *)
Definition UINT_LIM : Z := 4294967296.

Create HintDb xv6.
Create Rewrite HintDb xv6.

Lemma u8_range z : 0 <= u8 z < 256.
Proof. apply Z.mod_pos_bound. lia. Qed.
Lemma u16_range z : 0 <= u16 z < 65536.
Proof. apply Z.mod_pos_bound. lia. Qed.
Lemma u32_range z : 0 <= u32 z < 4294967296.
Proof. apply Z.mod_pos_bound. lia. Qed.

Lemma u8_small z : 0 <= z < 256 -> u8 z = z.
Proof. apply Z.mod_small. Qed.
Lemma u16_small z : 0 <= z < 65536 -> u16 z = z.
Proof. apply Z.mod_small. Qed.
Lemma u32_small z : 0 <= z < 4294967296 -> u32 z = z.
Proof. apply Z.mod_small. Qed.
Lemma s32_small z : -2147483648 <= z < 2147483648 -> s32 z = z.
Proof. intros. unfold s32. rewrite Z.mod_small; lia. Qed.
Lemma s16_small z : -32768 <= z < 32768 -> s16 z = z.
Proof. intros. unfold s16. rewrite Z.mod_small; lia. Qed.

Lemma u32_idem z : u32 (u32 z) = u32 z.
Proof. apply u32_small, u32_range. Qed.

Lemma u32_add_l a b : u32 (u32 a + b) = u32 (a + b).
Proof. unfold u32. apply Z.add_mod_idemp_l. lia. Qed.
Lemma u32_add_r a b : u32 (a + u32 b) = u32 (a + b).
Proof. unfold u32. apply Z.add_mod_idemp_r. lia. Qed.
Lemma u32_sub_l a b : u32 (u32 a - b) = u32 (a - b).
Proof. unfold u32. apply Zminus_mod_idemp_l. Qed.
Lemma u32_sub_r a b : u32 (a - u32 b) = u32 (a - b).
Proof. unfold u32. apply Zminus_mod_idemp_r. Qed.

(** A divisor of 2^32 commutes with the wrap-around: the reason the ring
    buffers of the kernel may let their 32-bit counters overflow. *)
Lemma u32_mod_div z d : 0 < d -> (d | 4294967296) -> u32 z mod d = z mod d.
Proof. intros Hd Hdiv. by apply Z.mod_mod_divide. Qed.

#[export] Hint Rewrite u32_idem u32_add_l u32_add_r u32_sub_l u32_sub_r : xv6.
#[export] Hint Resolve u8_range u16_range u32_range : xv6.

(** ** Results

    A kernel computation returns a value, stops the machine with [panic] or
    has to give up the CPU in [sleep] on a channel.  [Sleep] in a sequential
    run means that no other process can run to wake the caller up.  [NoFuel]
    is the result of a loop whose fuel was too small; total correctness
    ([wp] below) excludes it. *)

Inductive res (A : Type) : Type :=
| Ok (a : A)
| Panic (msg : string)
| Sleep (chan : string)
| NoFuel.
Arguments Ok {A} _.
Arguments Panic {A} _%_string.
Arguments Sleep {A} _%_string.
Arguments NoFuel {A}.

(** State passing with results: [ST S A] is the type of a C function that
    returns an [A] and changes the global state [S]. *)
Definition ST (S A : Type) : Type := S -> res (A * S).

Definition ret {S A} (a : A) : ST S A := fun s => Ok (a, s).
Definition bind {S A B} (m : ST S A) (k : A -> ST S B) : ST S B :=
  fun s => match m s with
           | Ok (a, s') => k a s'
           | Panic msg => Panic msg
           | Sleep c => Sleep c
           | NoFuel => NoFuel
           end.
Definition panic {S A} (msg : string) : ST S A := fun _ => Panic msg.
Definition nofuel {S A} : ST S A := fun _ => NoFuel.
Definition sleep_on {S A} (chan : string) : ST S A := fun _ => Sleep chan.
Definition get {S} : ST S S := fun s => Ok (s, s).
Definition gets {S A} (f : S -> A) : ST S A := fun s => Ok (f s, s).
Definition put {S} (s : S) : ST S unit := fun _ => Ok (tt, s).
Definition modify {S} (f : S -> S) : ST S unit := fun s => Ok (tt, f s).

Notation "x <- m ;; k" := (bind m (fun x => k))
  (at level 100, m at next level, right associativity) : xv6_scope.
Notation "m ;;; k" := (bind m (fun _ => k))
  (at level 100, right associativity) : xv6_scope.

(** [if(c) panic(msg)] at the head of a C function. *)
Definition panic_if {S} (c : bool) (msg : string) : ST S unit :=
  if c then panic msg else ret tt.
Definition when {S} (c : bool) (m : ST S unit) : ST S unit :=
  if c then m else ret tt.

(** A function of a component run in the state of a larger system. *)
Definition zoom {S T A} (prj : S -> T) (inj : T -> S -> S) (m : ST T A) : ST S A :=
  fun s => match m (prj s) with
           | Ok (a, t) => Ok (a, inj t s)
           | Panic msg => Panic msg
           | Sleep c => Sleep c
           | NoFuel => NoFuel
           end.

(** [for(i = i0; n more times; i++) body]. *)
Fixpoint forM {S} (n : nat) (i : Z) (body : Z -> ST S unit) : ST S unit :=
  match n with
  | O => ret tt
  | Datatypes.S n' => body i ;;; forM n' (i + 1) body
  end.

(** The same loop, whose body may return from the function ([Some a]). *)
Fixpoint forR {S A} (n : nat) (i : Z) (body : Z -> ST S (option A))
    : ST S (option A) :=
  match n with
  | O => ret None
  | Datatypes.S n' =>
      r <- body i ;;
      match r with
      | Some a => ret (Some a)
      | None => forR n' (i + 1) body
      end
  end.

(** ** Total and partial correctness of a computation *)

(** [wp m s Q]: [m] run in [s] returns, and what it returns satisfies [Q]. *)
Definition wp {S A} (m : ST S A) (s : S) (Q : A -> S -> Prop) : Prop :=
  match m s with
  | Ok (a, s') => Q a s'
  | _ => False
  end.

(** [wlp m s Q]: if [m] returns, then what it returns satisfies [Q]. *)
Definition wlp {S A} (m : ST S A) (s : S) (Q : A -> S -> Prop) : Prop :=
  match m s with
  | Ok (a, s') => Q a s'
  | _ => True
  end.

Arguments wp : simpl never.
Arguments wlp : simpl never.

Section wp_rules.
Context {S : Type}.

Lemma wp_ok {A} (m : ST S A) s Q :
  wp m s Q <-> exists a s', m s = Ok (a, s') /\ Q a s'.
Proof.
  unfold wp. split.
  - destruct (m s) as [[a s']| | |]; naive_solver.
  - by intros (a & s' & -> & HQ).
Qed.

Lemma wp_ret {A} (a : A) (s : S) (Q : A -> S -> Prop) : Q a s -> wp (ret a) s Q.
Proof. done. Qed.

Lemma wp_bind {A B} (m : ST S A) (k : A -> ST S B) s Q :
  wp m s (fun a s' => wp (k a) s' Q) -> wp (bind m k) s Q.
Proof. unfold wp, bind. by destruct (m s) as [[a s']| | |]. Qed.

Lemma wp_mono {A} (m : ST S A) s (P Q : A -> S -> Prop) :
  wp m s P -> (forall a s', P a s' -> Q a s') -> wp m s Q.
Proof. unfold wp. destruct (m s) as [[a s']| | |]; auto. Qed.

Lemma wp_conj {A} (m : ST S A) s (P Q : A -> S -> Prop) :
  wp m s P -> wlp m s Q -> wp m s (fun a s' => P a s' /\ Q a s').
Proof. unfold wp, wlp. destruct (m s) as [[a s']| | |]; auto. Qed.

Lemma wp_gets {A} (f : S -> A) s (Q : A -> S -> Prop) : Q (f s) s -> wp (gets f) s Q.
Proof. done. Qed.
Lemma wp_get s (Q : S -> S -> Prop) : Q s s -> wp get s Q.
Proof. done. Qed.
Lemma wp_put s s' (Q : unit -> S -> Prop) : Q tt s' -> wp (put s') s Q.
Proof. done. Qed.
Lemma wp_modify f s (Q : unit -> S -> Prop) : Q tt (f s) -> wp (modify f) s Q.
Proof. done. Qed.
Lemma wp_panic_if c msg s (Q : unit -> S -> Prop) :
  c = false -> Q tt s -> wp (panic_if c msg) s Q.
Proof. by intros ->. Qed.
Lemma wp_when c (m : ST S unit) s (Q : unit -> S -> Prop) :
  (c = true -> wp m s Q) -> (c = false -> Q tt s) -> wp (when c m) s Q.
Proof. destruct c; [intros H _ | intros _ H]; by apply H. Qed.

Lemma wp_zoom {T A} (prj : S -> T) (inj : T -> S -> S) (m : ST T A) s Q :
  wp m (prj s) (fun a t => Q a (inj t s)) -> wp (zoom prj inj m) s Q.
Proof. unfold wp, zoom. by destruct (m (prj s)) as [[a t]| | |]. Qed.

Lemma wlp_bind {A B} (m : ST S A) (k : A -> ST S B) s Q :
  wlp m s (fun a s' => wlp (k a) s' Q) -> wlp (bind m k) s Q.
Proof. unfold wlp, bind. by destruct (m s) as [[a s']| | |]. Qed.

Lemma wlp_mono {A} (m : ST S A) s (P Q : A -> S -> Prop) :
  wlp m s P -> (forall a s', P a s' -> Q a s') -> wlp m s Q.
Proof. unfold wlp. destruct (m s) as [[a s']| | |]; auto. Qed.

(** Loop rule: [I j] holds before the iteration with counter [j]. *)
Lemma wp_forM (n : nat) (i : Z) (body : Z -> ST S unit) (I : Z -> S -> Prop) s
    (Q : unit -> S -> Prop) :
  I i s ->
  (forall j s, i <= j < i + Z.of_nat n -> I j s ->
     wp (body j) s (fun _ s' => I (j + 1) s')) ->
  (forall s', I (i + Z.of_nat n) s' -> Q tt s') ->
  wp (forM n i body) s Q.
Proof.
  revert i s. induction n as [|n IH]; intros i s HI Hbody HQ; simpl.
  - apply wp_ret, HQ. by rewrite Z.add_0_r.
  - apply wp_bind. eapply wp_mono; [apply Hbody; [lia | done]|].
    intros [] s' HI'. apply IH; [done | |].
    + intros j s'' Hj. apply Hbody. lia.
    + intros s'' HI''. apply HQ. replace (i + Z.of_nat (Datatypes.S n))
        with (i + 1 + Z.of_nat n) by lia. done.
Qed.

(** The rules of partial correctness. *)
Lemma wlp_elim {A} (m : ST S A) s Q a s' : wlp m s Q -> m s = Ok (a, s') -> Q a s'.
Proof. unfold wlp. by intros HQ Hm; rewrite Hm in HQ. Qed.
Lemma wp_wlp {A} (m : ST S A) s Q : wp m s Q -> wlp m s Q.
Proof. unfold wp, wlp. by destruct (m s) as [[a s']| | |]. Qed.
Lemma wlp_ret {A} (a : A) (s : S) (Q : A -> S -> Prop) : Q a s -> wlp (ret a) s Q.
Proof. done. Qed.
Lemma wlp_panic {A} msg s (Q : A -> S -> Prop) : wlp (panic msg) s Q.
Proof. done. Qed.
Lemma wlp_gets {A} (f : S -> A) s (Q : A -> S -> Prop) : Q (f s) s -> wlp (gets f) s Q.
Proof. done. Qed.
Lemma wlp_get s (Q : S -> S -> Prop) : Q s s -> wlp get s Q.
Proof. done. Qed.
Lemma wlp_modify f s (Q : unit -> S -> Prop) : Q tt (f s) -> wlp (modify f) s Q.
Proof. done. Qed.
Lemma wlp_panic_if c msg s (Q : unit -> S -> Prop) :
  (c = false -> Q tt s) -> wlp (panic_if c msg) s Q.
Proof. destruct c; unfold wlp; simpl; auto. Qed.
Lemma wlp_when c (m : ST S unit) s (Q : unit -> S -> Prop) :
  (c = true -> wlp m s Q) -> (c = false -> Q tt s) -> wlp (when c m) s Q.
Proof. destruct c; [intros H _ | intros _ H]; by apply H. Qed.
Lemma wlp_zoom {T A} (prj : S -> T) (inj : T -> S -> S) (m : ST T A) s Q :
  wlp m (prj s) (fun a t => Q a (inj t s)) -> wlp (zoom prj inj m) s Q.
Proof. unfold wlp, zoom. by destruct (m (prj s)) as [[a t]| | |]. Qed.
Lemma wlp_forM (n : nat) (i : Z) (body : Z -> ST S unit) (I : Z -> S -> Prop) s
    (Q : unit -> S -> Prop) :
  I i s ->
  (forall j s, i <= j < i + Z.of_nat n -> I j s ->
     wlp (body j) s (fun _ s' => I (j + 1) s')) ->
  (forall s', I (i + Z.of_nat n) s' -> Q tt s') ->
  wlp (forM n i body) s Q.
Proof.
  revert i s. induction n as [|n IH]; intros i s HI Hbody HQ; simpl.
  - apply wlp_ret, HQ. by rewrite Z.add_0_r.
  - apply wlp_bind. eapply wlp_mono; [apply Hbody; [lia | done]|].
    intros [] s' HI'. apply IH; [done | |].
    + intros j s'' Hj. apply Hbody. lia.
    + intros s'' HI''. apply HQ. by replace (i + Z.of_nat (Datatypes.S n))
        with (i + 1 + Z.of_nat n) by lia.
Qed.

(** Loop rule for a body that may return early. *)
Lemma wp_forR {A} (n : nat) (i : Z) (body : Z -> ST S (option A))
    (I : Z -> S -> Prop) s (Q : option A -> S -> Prop) :
  I i s ->
  (forall j s, i <= j < i + Z.of_nat n -> I j s ->
     wp (body j) s (fun r s' =>
       match r with Some a => Q (Some a) s' | None => I (j + 1) s' end)) ->
  (forall s', I (i + Z.of_nat n) s' -> Q None s') ->
  wp (forR n i body) s Q.
Proof.
  revert i s. induction n as [|n IH]; intros i s HI Hbody HQ; simpl.
  - apply wp_ret, HQ. by rewrite Z.add_0_r.
  - apply wp_bind. eapply wp_mono; [apply Hbody; [lia | done]|].
    intros [a|] s' HI'; [done|]. apply IH; [done | |].
    + intros j s'' Hj. apply Hbody. lia.
    + intros s'' HI''. apply HQ. replace (i + Z.of_nat (Datatypes.S n))
        with (i + 1 + Z.of_nat n) by lia. done.
Qed.

Lemma wlp_forR {A} (n : nat) (i : Z) (body : Z -> ST S (option A))
    (I : Z -> S -> Prop) s (Q : option A -> S -> Prop) :
  I i s ->
  (forall j s, i <= j < i + Z.of_nat n -> I j s ->
     wlp (body j) s (fun r s' =>
       match r with Some a => Q (Some a) s' | None => I (j + 1) s' end)) ->
  (forall s', I (i + Z.of_nat n) s' -> Q None s') ->
  wlp (forR n i body) s Q.
Proof.
  revert i s. induction n as [|n IH]; intros i s HI Hbody HQ; simpl.
  - apply wlp_ret, HQ. by rewrite Z.add_0_r.
  - apply wlp_bind. eapply wlp_mono; [apply Hbody; [lia | done]|].
    intros [a|] s' HI'; [done|]. apply IH; [done | |].
    + intros j s'' Hj. apply Hbody. lia.
    + intros s'' HI''. apply HQ. by replace (i + Z.of_nat (Datatypes.S n))
        with (i + 1 + Z.of_nat n) by lia.
Qed.
End wp_rules.

(** ** Finite runs of a step relation *)

Inductive star {A} (R : A -> A -> Prop) : A -> A -> Prop :=
| star_refl a : star R a a
| star_step a b c : R a b -> star R b c -> star R a c.

Lemma star_trans {A} (R : A -> A -> Prop) a b c :
  star R a b -> star R b c -> star R a c.
Proof. induction 1; eauto using @star. Qed.

Lemma star_one {A} (R : A -> A -> Prop) a b : R a b -> star R a b.
Proof. eauto using @star. Qed.

(** Rule induction for an invariant. *)
Lemma star_invariant {A} (R : A -> A -> Prop) (I : A -> Prop) :
  (forall a b, I a -> R a b -> I b) -> forall a b, star R a b -> I a -> I b.
Proof. intros Hstep a b Hs. induction Hs; eauto. Qed.

(** ** Tactics of the library *)

(** One step of symbolic execution. *)
Ltac wp_step :=
  lazymatch goal with
  | |- wp (bind _ _) _ _ => apply wp_bind
  | |- wp (ret _) _ _ => apply wp_ret
  | |- wp get _ _ => apply wp_get
  | |- wp (gets _) _ _ => apply wp_gets
  | |- wp (put _) _ _ => apply wp_put
  | |- wp (modify _) _ _ => apply wp_modify
  | |- wp (panic_if _ _) _ _ => apply wp_panic_if
  | |- wp (when _ _) _ _ => apply wp_when; intros
  end.
Ltac wlp_step :=
  lazymatch goal with
  | |- wlp (bind _ _) _ _ => apply wlp_bind
  | |- wlp (ret _) _ _ => apply wlp_ret
  | |- wlp get _ _ => apply wlp_get
  | |- wlp (gets _) _ _ => apply wlp_gets
  | |- wlp (modify _) _ _ => apply wlp_modify
  | |- wlp (panic _) _ _ => apply wlp_panic
  | |- wlp (panic_if _ _) _ _ => apply wlp_panic_if; intros
  | |- wlp (when _ _) _ _ => apply wlp_when; intros
  end.
Ltac wp_steps := repeat (wp_step; cbv beta).

(** Boolean tests of the code to propositions. *)
Ltac bool_to_prop :=
  repeat match goal with
  | H : (_ && _) = true |- _ => apply andb_true_iff in H as [? ?]
  | H : (_ || _) = false |- _ => apply orb_false_iff in H as [? ?]
  | H : (_ && _) = false |- _ => apply andb_false_iff in H as [?|?]
  | H : (_ || _) = true |- _ => apply orb_true_iff in H as [?|?]
  | H : negb _ = true |- _ => apply negb_true_iff in H
  | H : negb _ = false |- _ => apply negb_false_iff in H
  | H : (_ =? _) = true |- _ => apply Z.eqb_eq in H
  | H : (_ =? _) = false |- _ => apply Z.eqb_neq in H
  | H : (_ <? _) = true |- _ => apply Z.ltb_lt in H
  | H : (_ <? _) = false |- _ => apply Z.ltb_ge in H
  | H : (_ <=? _) = true |- _ => apply Z.leb_le in H
  | H : (_ <=? _) = false |- _ => apply Z.leb_gt in H
  | H : bool_decide _ = true |- _ => apply bool_decide_eq_true in H
  | H : bool_decide _ = false |- _ => apply bool_decide_eq_false in H
  end.

(** Case analysis on the innermost test of the goal. *)
Ltac case_test :=
  match goal with
  | |- context [if ?b then _ else _] =>
      lazymatch b with
      | context [if _ then _ else _] => fail
      | _ => let E := fresh "E" in destruct b eqn:E; bool_to_prop
      end
  end.

(** Decide a goal about nested integer tests. *)
Ltac test_solver := repeat case_test; bool_to_prop; try done; try lia; try congruence.

(** Side conditions of rewriting. *)
Ltac side := first [done | lia | by auto with xv6].

(** Linear arithmetic with division and modulo by constants. *)
Ltac zlia := Z.to_euclidean_division_equations; lia.

(** ** Arrays

    A C array is a list; [arr !!! i] reads and [upd arr i x] writes at a [Z]
    index.  The code never indexes out of range where these are used; the
    component invariants give the bounds. *)

Definition rd {A} `{Inhabited A} (l : list A) (i : Z) : A := l !!! Z.to_nat i.
Definition upd {A} (l : list A) (i : Z) (x : A) : list A := <[Z.to_nat i := x]> l.
Definition lenZ {A} (l : list A) : Z := Z.of_nat (length l).

Section arrays.
Context {A : Type} `{Inhabited A}.
Implicit Types (l : list A) (i j : Z).

Lemma upd_len l i x : length (upd l i x) = length l.
Proof. apply length_insert. Qed.

Lemma upd_lenZ l i x : lenZ (upd l i x) = lenZ l.
Proof. unfold lenZ. by rewrite upd_len. Qed.

Lemma rd_upd_eq l i x : 0 <= i < lenZ l -> rd (upd l i x) i = x.
Proof.
  unfold lenZ, rd, upd. intros Hi. apply list_lookup_total_insert_eq. lia.
Qed.

Lemma rd_upd_ne l i j x : 0 <= i -> 0 <= j -> i <> j -> rd (upd l i x) j = rd l j.
Proof. unfold rd, upd. intros. apply list_lookup_total_insert_ne. lia. Qed.

Lemma rd_upd l i j x :
  0 <= i < lenZ l -> 0 <= j ->
  rd (upd l i x) j = if i =? j then x else rd l j.
Proof.
  intros Hi Hj. case_test; subst; [by apply rd_upd_eq | by apply rd_upd_ne; lia].
Qed.

Lemma upd_rd l i : 0 <= i < lenZ l -> upd l i (rd l i) = l.
Proof.
  unfold lenZ, rd, upd. intros Hi. apply list_insert_id, list_lookup_lookup_total_lt. lia.
Qed.

Lemma rd_lookup l i x : 0 <= i -> l !! Z.to_nat i = Some x -> rd l i = x.
Proof. intros _ Hx. by apply list_lookup_total_correct. Qed.

Lemma rd_lookup_Some l i : 0 <= i < lenZ l -> l !! Z.to_nat i = Some (rd l i).
Proof. unfold lenZ, rd. intros. apply list_lookup_lookup_total_lt. lia. Qed.

(** Arrays of the same length with the same elements are equal. *)
Lemma arr_eq l1 l2 :
  lenZ l1 = lenZ l2 -> (forall i, 0 <= i < lenZ l1 -> rd l1 i = rd l2 i) -> l1 = l2.
Proof.
  unfold lenZ. intros Hlen Heq. apply list_eq_same_length with (n := length l1);
    [lia | done |].
  intros i x y Hi Hx Hy. specialize (Heq (Z.of_nat i) ltac:(lia)).
  unfold rd in Heq. rewrite Nat2Z.id in Heq.
  apply list_lookup_total_correct in Hx, Hy. congruence.
Qed.

Lemma lenZ_nonneg l : 0 <= lenZ l.
Proof. unfold lenZ. lia. Qed.

Lemma rd_app_l l1 l2 i : 0 <= i < lenZ l1 -> rd (l1 ++ l2) i = rd l1 i.
Proof. unfold lenZ, rd. intros. apply lookup_total_app_l. lia. Qed.

Lemma rd_app_r l1 l2 i : lenZ l1 <= i -> rd (l1 ++ l2) i = rd l2 (i - lenZ l1).
Proof.
  unfold lenZ, rd. intros. rewrite lookup_total_app_r by lia. f_equal. lia.
Qed.

Lemma rd_Forall (P : A -> Prop) l i : Forall P l -> P inhabitant -> P (rd l i).
Proof.
  intros Hl Hd. unfold rd. rewrite list_lookup_total_alt.
  destruct (l !! Z.to_nat i) as [x|] eqn:E; [|done]. by apply (Forall_lookup_1 _ _ _ _ Hl E).
Qed.

Lemma rd_replicate n (x : A) i : 0 <= i < Z.of_nat n -> rd (replicate n x) i = x.
Proof. unfold rd. intros. apply lookup_total_replicate_2. lia. Qed.
End arrays.

Lemma lenZ_app {A} (l1 l2 : list A) : lenZ (l1 ++ l2) = lenZ l1 + lenZ l2.
Proof. unfold lenZ. rewrite length_app. lia. Qed.
Lemma lenZ_cons {A} (x : A) l : lenZ (x :: l) = lenZ l + 1.
Proof. unfold lenZ. cbn [length]. lia. Qed.
Lemma lenZ_replicate {A} n (x : A) : lenZ (replicate n x) = Z.of_nat n.
Proof. unfold lenZ. by rewrite length_replicate. Qed.

#[export] Hint Rewrite @upd_len @upd_lenZ @lenZ_app @lenZ_replicate : xv6.
#[export] Hint Resolve lenZ_nonneg : xv6.

(** An access to the middle of an array that is given as a sequence. *)
Lemma drop_lenZ {A} (l s : list A) : drop (Z.to_nat (lenZ l)) (l ++ s) = s.
Proof. unfold lenZ. by rewrite Nat2Z.id, drop_app_length. Qed.
Lemma upd_lenZ_mid {A} (l s : list A) x y : upd (l ++ x :: s) (lenZ l) y = l ++ y :: s.
Proof. unfold upd, lenZ. by rewrite Nat2Z.id, insert_app_r_alt, Nat.sub_diag by lia. Qed.

(** Arrays given by a function of the index. *)
Lemma lenZ_tab {A} (f : Z -> A) off n : 0 <= n -> lenZ (f <$> seqZ off n) = n.
Proof. intros. unfold lenZ. rewrite length_fmap, length_seqZ. lia. Qed.
Lemma rd_tab {A} `{Inhabited A} (f : Z -> A) off n i :
  0 <= i < n -> rd (f <$> seqZ off n) i = f (off + i).
Proof.
  intros Hi. apply rd_lookup; [lia|]. rewrite list_lookup_fmap.
  rewrite (proj2 (lookup_seqZ off n (Z.to_nat i) (off + i))) by lia. done.
Qed.

(** A bounded quantifier by evaluation. *)
Lemma forallb_seqZ (f : Z -> bool) a n :
  forallb f (seqZ a n) = true -> forall i, a <= i < a + n -> f i = true.
Proof.
  intros H i Hi. rewrite forallb_forall in H. apply H, list_elem_of_In, elem_of_seqZ. lia.
Qed.
