(* ===== verification/Cstring.v ===== *)
(** * The kernel's byte and string routines (src/xv6/string.c, src/xv6/x86.h)

    Memory is a function from addresses to bytes.  A [char*] that is only
    read is the function from offsets to the bytes behind it, so the readers
    ([memcmp], [strncmp], [strlen]) also run on the arrays of other files.
    [rep stosb]/[rep stosl] of x86.h are the loops they stand for. *)

From S2P Require Import Prelude.

Definition mem : Type := Z -> Z.

Definition store (m : mem) (a v : Z) : mem :=
  fun x => if x =? a then u8 v else m x.

(** [cld; rep stosb]: store the low byte of [data] [cnt] times. *)
Fixpoint stosb (m : mem) (addr data : Z) (cnt : nat) : mem :=
  match cnt with
  | O => m
  | S cnt' => stosb (store m addr data) (addr + 1) data cnt'
  end.

(** A 32-bit little-endian store. *)
Definition store32 (m : mem) (a v : Z) : mem :=
  store (store (store (store m a v) (a + 1) (Z.shiftr v 8)) (a + 2) (Z.shiftr v 16))
        (a + 3) (Z.shiftr v 24).

(** [cld; rep stosl]. *)
Fixpoint stosl (m : mem) (addr data : Z) (cnt : nat) : mem :=
  match cnt with
  | O => m
  | S cnt' => stosl (store32 m addr data) (addr + 4) data cnt'
  end.

Definition memset (m : mem) (dst c n : Z) : mem :=
  if (Z.rem (s32 dst) 4 =? 0) && (n mod 4 =? 0) then
    let c := Z.land c 255 in
    stosl m dst
      (Z.lor (Z.lor (Z.lor (Z.shiftl c 24) (Z.shiftl c 16)) (Z.shiftl c 8)) c)
      (Z.to_nat (n / 4))
  else stosb m dst c (Z.to_nat n).

Fixpoint memcmp_loop (s1 s2 : Z -> Z) (i : Z) (n : nat) : Z :=
  match n with
  | O => 0
  | S n' =>
      if negb (s1 i =? s2 i) then s1 i - s2 i else memcmp_loop s1 s2 (i + 1) n'
  end.

Definition memcmp (v1 v2 : Z -> Z) (n : Z) : Z := memcmp_loop v1 v2 0 (Z.to_nat n).

(** [while(n-- > 0) *--d = *--s;] *)
Fixpoint copy_down (m : mem) (d s : Z) (n : nat) : mem :=
  match n with
  | O => m
  | S n' => copy_down (store m (d - 1) (m (s - 1))) (d - 1) (s - 1) n'
  end.

(** [while(n-- > 0) *d++ = *s++;] *)
Fixpoint copy_up (m : mem) (d s : Z) (n : nat) : mem :=
  match n with
  | O => m
  | S n' => copy_up (store m d (m s)) (d + 1) (s + 1) n'
  end.

Definition memmove (m : mem) (dst src n : Z) : mem :=
  let s := src in
  let d := dst in
  if (s <? d) && (d <? s + n) then copy_down m (d + n) (s + n) (Z.to_nat n)
  else copy_up m d s (Z.to_nat n).

Definition memcpy (m : mem) (dst src n : Z) : mem := memmove m dst src n.

Fixpoint strncmp_loop (p q : Z -> Z) (i : Z) (n : nat) : Z :=
  match n with
  | O => 0
  | S n' =>
      if negb (p i =? 0) && (p i =? q i) then strncmp_loop p q (i + 1) n'
      else p i - q i
  end.

Definition strncmp (p q : Z -> Z) (n : Z) : Z := strncmp_loop p q 0 (Z.to_nat n).

(** First loop of [strncpy]; returns the memory, the advanced [s] and what is
    left of [n]. *)
Fixpoint strncpy_copy (m : mem) (s t : Z) (n : nat) : mem * Z * nat :=
  match n with
  | O => (m, s, O)
  | S n' =>
      let c := m t in
      let m' := store m s c in
      if negb (c =? 0) then strncpy_copy m' (s + 1) (t + 1) n'
      else (m', s + 1, n')
  end.

Fixpoint strncpy_pad (m : mem) (s : Z) (n : nat) : mem :=
  match n with
  | O => m
  | S n' => strncpy_pad (store m s 0) (s + 1) n'
  end.

Definition strncpy (m : mem) (s t n : Z) : mem :=
  let '(m', s', n') := strncpy_copy m s t (Z.to_nat n) in
  strncpy_pad m' s' n'.

(** [while(--n > 0 && ( *s++ = *t++) != 0)]: [n] counts the iterations left. *)
Fixpoint safestrcpy_copy (m : mem) (s t : Z) (n : nat) : mem * Z :=
  match n with
  | O => (m, s)
  | S n' =>
      let c := m t in
      let m' := store m s c in
      if negb (c =? 0) then safestrcpy_copy m' (s + 1) (t + 1) n'
      else (m', s + 1)
  end.

Definition safestrcpy (m : mem) (s t n : Z) : mem :=
  if n <=? 0 then m
  else
    let '(m', s') := safestrcpy_copy m s t (Z.to_nat (n - 1)) in
    store m' s' 0.

(** [strlen] reads until it finds a NUL; [fuel] bounds the bytes read. *)
Fixpoint strlen_loop (s : Z -> Z) (n : Z) (fuel : nat) : option Z :=
  match fuel with
  | O => None
  | S fuel' => if s n =? 0 then Some n else strlen_loop s (n + 1) fuel'
  end.

Definition strlen (s : Z -> Z) (fuel : nat) : option Z := strlen_loop s 0 fuel.

(** ** Specifications *)

(** The bytes of [m] are bytes. *)
Definition wf_mem (m : mem) : Prop := forall x, 0 <= m x < 256.

(** The C string behind [p], cut at [n] characters. *)
Fixpoint cstrn (p : Z -> Z) (i : Z) (n : nat) : list Z :=
  match n with
  | O => []
  | S n' => if p i =? 0 then [] else p i :: cstrn p (i + 1) n'
  end.

(** ** Lemmas *)

Lemma store_wf m a v : wf_mem m -> wf_mem (store m a v).
Proof. intros Hm x. unfold store. case_test; auto with xv6. Qed.

Lemma store_ne m a v x : x <> a -> store m a v x = m x.
Proof. unfold store. intros. by rewrite (proj2 (Z.eqb_neq x a)). Qed.

Lemma store_eq m a v : store m a v a = u8 v.
Proof. unfold store. by rewrite Z.eqb_refl. Qed.

(** [x] lies in the [n] bytes at [a]. *)
Definition in_range (a n x : Z) : bool := (a <=? x) && (x <? a + n).

Lemma stosb_spec m addr data cnt x :
  stosb m addr data cnt x
  = if in_range addr (Z.of_nat cnt) x then u8 data else m x.
Proof.
  unfold in_range. revert m addr.
  induction cnt as [|cnt IH]; intros m addr; cbn [stosb]; [test_solver|].
  rewrite IH. unfold store. test_solver.
Qed.

Lemma store32_spec m a v x :
  store32 m a v x
  = if in_range a 4 x then u8 (Z.shiftr v (8 * (x - a))) else m x.
Proof.
  unfold store32, store, in_range. test_solver; subst.
  - f_equal. f_equal. lia.
  - f_equal. f_equal. lia.
  - f_equal. f_equal. lia.
  - f_equal. replace (a - a) with 0 by lia. by rewrite Z.shiftr_0_r.
Qed.

(** Every byte of the word [memset] builds is the byte it was given. *)
Lemma memset_word_byte c k :
  0 <= c < 256 -> 0 <= k < 4 ->
  u8 (Z.shiftr (Z.lor (Z.lor (Z.lor (Z.shiftl c 24) (Z.shiftl c 16)) (Z.shiftl c 8)) c)
        (8 * k)) = c.
Proof.
  intros Hc Hk. rewrite <- (u8_small c) at 5 by done. unfold u8.
  change 256 with (2 ^ 8). rewrite <- !Z.land_ones by lia.
  apply Z.bits_inj'. intros n Hn. rewrite !Z.land_spec, Z.shiftr_spec, !Z.lor_spec by lia.
  destruct (Z.lt_ge_cases n 8); cycle 1.
  { rewrite Z.ones_spec_high by lia. by rewrite !andb_false_r. }
  rewrite Z.ones_spec_low, !andb_true_r by lia.
  assert (Hhi : forall i, 8 <= i -> Z.testbit c i = false).
  { intros i Hi. apply Z.testbit_false; [lia|].
    rewrite Z.div_small; [done|]. split; [lia|].
    eapply Z.lt_le_trans; [apply Hc|]. change 256 with (2 ^ 8).
    apply Z.pow_le_mono_r; lia. }
  rewrite !Z.shiftl_spec by lia.
  assert (k = 0 \/ k = 1 \/ k = 2 \/ k = 3) as Hk' by lia.
  destruct Hk' as [->|[->|[->| ->]]].
  - rewrite (Z.testbit_neg_r _ (n + 8 * 0 - 24)), (Z.testbit_neg_r _ (n + 8 * 0 - 16)),
      (Z.testbit_neg_r _ (n + 8 * 0 - 8)) by lia. simpl. f_equal. lia.
  - rewrite (Z.testbit_neg_r _ (n + 8 * 1 - 24)), (Z.testbit_neg_r _ (n + 8 * 1 - 16)),
      (Hhi (n + 8 * 1)) by lia. simpl. rewrite orb_false_r. f_equal. lia.
  - rewrite (Z.testbit_neg_r _ (n + 8 * 2 - 24)), (Hhi (n + 8 * 2 - 8)),
      (Hhi (n + 8 * 2)) by lia. simpl. rewrite !orb_false_r. f_equal. lia.
  - rewrite (Hhi (n + 8 * 3 - 16)), (Hhi (n + 8 * 3 - 8)),
      (Hhi (n + 8 * 3)) by lia. rewrite !orb_false_r. f_equal. lia.
Qed.

Lemma stosl_spec m addr data cnt x :
  stosl m addr data cnt x
  = if in_range addr (4 * Z.of_nat cnt) x
    then u8 (Z.shiftr data (8 * ((x - addr) mod 4))) else m x.
Proof.
  revert m addr. induction cnt as [|cnt IH]; intros m addr; cbn [stosl].
  { unfold in_range. test_solver. }
  rewrite IH, store32_spec. unfold in_range. test_solver.
  - f_equal. f_equal. f_equal. replace (x - addr) with (x - (addr + 4) + 1 * 4) by lia.
    by rewrite Z.mod_add by lia.
  - f_equal. f_equal. f_equal. rewrite Z.mod_small; lia.
Qed.

Lemma memset_spec_any m dst c n x :
  0 <= n ->
  memset m dst c n x = if in_range dst n x then u8 c else m x.
Proof.
  intros Hn. unfold memset. destruct (_ && _) eqn:Hal; cycle 1.
  { rewrite stosb_spec, Z2Nat.id by lia. done. }
  bool_to_prop.
  rewrite stosl_spec, Z2Nat.id by (apply Z.div_pos; lia).
  replace (4 * (n / 4)) with n by (Z.to_euclidean_division_equations; lia).
  destruct (in_range _ _ _); [|done].
  rewrite memset_word_byte.
  - unfold u8. change 255 with (Z.ones 8). by rewrite Z.land_ones by lia.
  - change 255 with (Z.ones 8). rewrite Z.land_ones by lia.
    apply Z.mod_pos_bound. lia.
  - apply Z.mod_pos_bound. lia.
Qed.

Lemma copy_up_spec m d s n x :
  wf_mem m -> (d <= s \/ s + Z.of_nat n <= d) ->
  copy_up m d s n x = if in_range d (Z.of_nat n) x then m (s + (x - d)) else m x.
Proof.
  unfold in_range. revert m d s. induction n as [|n IH]; intros m d s Hm Hd.
  { cbn [copy_up]. test_solver. }
  cbn [copy_up]. rewrite IH; [|by apply store_wf|lia].
  unfold store. test_solver.
  - f_equal. lia.
  - subst x. rewrite u8_small by apply Hm. f_equal. lia.
Qed.

Lemma copy_down_spec m d s n x :
  wf_mem m -> s <= d ->
  copy_down m d s n x
  = if in_range (d - Z.of_nat n) (Z.of_nat n) x then m (s + (x - d)) else m x.
Proof.
  unfold in_range. revert m d s. induction n as [|n IH]; intros m d s Hm Hd.
  { cbn [copy_down]. test_solver. }
  cbn [copy_down]. rewrite IH; [|by apply store_wf|lia].
  unfold store. test_solver.
  - f_equal. lia.
  - subst x. rewrite u8_small by apply Hm. f_equal. lia.
Qed.

Lemma memmove_spec_any m dst src n x :
  wf_mem m -> 0 <= n ->
  memmove m dst src n x = if in_range dst n x then m (src + (x - dst)) else m x.
Proof.
  intros Hm Hn. unfold memmove. cbv zeta. case_test.
  - rewrite copy_down_spec by (done || lia). rewrite Z2Nat.id by lia.
    replace (dst + n - n) with dst by lia. destruct (in_range _ _ _); [|done].
    f_equal. lia.
  - rewrite copy_up_spec by (done || lia). by rewrite Z2Nat.id by lia.
  - rewrite copy_up_spec by (done || lia). by rewrite Z2Nat.id by lia.
Qed.

(** C30: [memmove] copies the [n] bytes that [src] held before the call to
    [dst], whatever the overlap of the two ranges, and leaves every byte
    outside of the destination unchanged. *)
Theorem memmove_correct (m : mem) (dst src n : Z) :
  wf_mem m -> 0 <= n ->
  (forall i, 0 <= i < n -> memmove m dst src n (dst + i) = m (src + i)) /\
  (forall x, x < dst \/ dst + n <= x -> memmove m dst src n x = m x).
Proof.
  intros Hm Hn. split.
  - intros i Hi. rewrite memmove_spec_any by done. unfold in_range. test_solver.
    f_equal. lia.
  - intros x Hx. rewrite memmove_spec_any by done. unfold in_range. test_solver.
Qed.

(** An overlapping move to a higher address: the two ranges share bytes. *)
Lemma memmove_correct_witness :
  let m : mem := fun x => x mod 256 in
  (forall i, 0 <= i < 5 -> memmove m 12 10 5 (12 + i) = m (10 + i)) /\
  (forall x, x < 12 \/ 12 + 5 <= x -> memmove m 12 10 5 x = m x).
Proof.
  intros m. apply (memmove_correct m 12 10 5).
  - intros x. apply Z.mod_pos_bound. lia.
  - lia.
Defined.

(** [memset] stores the low byte of [c] in exactly the [n] bytes at
    [dst]: the word-at-a-time path taken for aligned ranges is equivalent to
    the byte path. *)
Theorem memset_correct (m : mem) (dst c n x : Z) :
  0 <= n ->
  memset m dst c n x
  = (if (dst <=? x) && (x <? dst + n) then u8 c else m x) /\
  memset m dst c n x = stosb m dst c (Z.to_nat n) x.
Proof.
  intros Hn. rewrite stosb_spec, Z2Nat.id by lia.
  split; by rewrite memset_spec_any.
Qed.

Lemma memset_correct_witness :
  memset (fun _ => 7) 8 258 4 11
  = (if (8 <=? 11) && (11 <? 8 + 4) then u8 258 else 7) /\
  memset (fun _ => 7) 8 258 4 11 = stosb (fun _ => 7) 8 258 (Z.to_nat 4) 11.
Proof. apply (memset_correct (fun _ => 7) 8 258 4 11). lia. Defined.

(** ** Strings *)

Lemma strncmp_loop_zero p q i n :
  strncmp_loop p q i n = 0 <-> cstrn p i n = cstrn q i n.
Proof.
  revert i. induction n as [|n IH]; intros i; cbn [strncmp_loop cstrn]; [done|].
  destruct (p i =? 0) eqn:Ep, (q i =? 0) eqn:Eq, (p i =? q i) eqn:Epq; cbn [negb andb];
    bool_to_prop; try lia;
    try (split; intros H; [first [done|lia] | first [lia | done | injection H; lia]]).
  rewrite IH, Epq. split; [by intros ->|]. intros H. by injection H.
Qed.

(** [strncmp] returns 0 exactly when the two strings agree up to the
    first NUL or the first [n] characters. *)
Theorem strncmp_zero_iff (p q : Z -> Z) (n : Z) :
  strncmp p q n = 0 <-> cstrn p 0 (Z.to_nat n) = cstrn q 0 (Z.to_nat n).
Proof. apply strncmp_loop_zero. Qed.

Lemma memcmp_loop_zero p q i n :
  memcmp_loop p q i n = 0 <-> forall j, i <= j < i + Z.of_nat n -> p j = q j.
Proof.
  revert i. induction n as [|n IH]; intros i; cbn [memcmp_loop].
  { split; [lia|done]. }
  destruct (p i =? q i) eqn:E; cbn [negb]; bool_to_prop.
  - rewrite IH. split; intros H j Hj.
    + destruct (decide (j = i)) as [->|]; [done|]. apply H. lia.
    + apply H. lia.
  - split; [lia|]. intros H. rewrite (H i) in E by lia. done.
Qed.

Lemma strlen_loop_spec s n k fuel :
  (forall i, 0 <= i < k -> s (n + i) <> 0) -> s (n + k) = 0 -> 0 <= k ->
  (Z.to_nat k < fuel)%nat -> strlen_loop s n fuel = Some (n + k).
Proof.
  revert n k. induction fuel as [|fuel IH]; intros n k Hnz Hz Hk Hf; [lia|].
  cbn [strlen_loop]. destruct (decide (k = 0)) as [->|].
  { rewrite Z.add_0_r in Hz. rewrite Hz. cbn. f_equal. lia. }
  pose proof (Hnz 0 ltac:(lia)) as H0. rewrite Z.add_0_r in H0.
  rewrite (proj2 (Z.eqb_neq _ _) H0).
  replace (n + k) with (n + 1 + (k - 1)) by lia. apply IH; [| |lia|lia].
  - intros i Hi. replace (n + 1 + i) with (n + (1 + i)) by lia. apply Hnz. lia.
  - rewrite <- Hz. f_equal. lia.
Qed.

Lemma cstrn_length p i n : (length (cstrn p i n) <= n)%nat.
Proof. revert i. induction n; intros i; cbn; [lia|]. case_test; cbn; [lia|].
  by apply le_n_S. Qed.

(** The loop of [strncpy] and [safestrcpy] on source and destination ranges
    that do not overlap: after [n] steps or the first NUL. *)
Lemma strncpy_copy_spec m s t n :
  wf_mem m -> (s + Z.of_nat n <= t \/ t + Z.of_nat n <= s) ->
  let k := Z.of_nat (length (cstrn (fun i => m (t + i)) 0 n)) in
  exists m',
    strncpy_copy m s t n
    = (m', s + (if k =? Z.of_nat n then k else k + 1),
       Z.to_nat (Z.of_nat n - (if k =? Z.of_nat n then k else k + 1))) /\
    wf_mem m' /\
    (forall i, 0 <= i < k -> m' (s + i) = m (t + i)) /\
    (k < Z.of_nat n -> m' (s + k) = 0) /\
    (forall x, x < s \/ s + Z.of_nat n <= x -> m' x = m x).
Proof.
  revert m s t. induction n as [|n IH]; intros m s t Hm Hd k.
  { exists m. subst k. cbn. rewrite Z.add_0_r. split_and!; try done; try lia. }
  subst k. cbn [strncpy_copy cstrn]. rewrite Z.add_0_r.
  destruct (m t =? 0) eqn:E; cbn [negb]; bool_to_prop.
  - exists (store m s (m t)). cbn [length].
    replace (Z.of_nat 0 =? Z.of_nat (S n)) with false by (symmetry; apply Z.eqb_neq; lia).
    split_and!.
    + repeat f_equal; lia.
    + by apply store_wf.
    + lia.
    + intros _. rewrite Z.add_0_r, store_eq, E. done.
    + intros x Hx. apply store_ne. lia.
  - destruct (IH (store m s (m t)) (s + 1) (t + 1)) as (m' & Heq & Hm' & Hc & Hz & Ho).
    { by apply store_wf. }
    { lia. }
    assert (Hk : cstrn (fun i => store m s (m t) (t + 1 + i)) 0 n
                 = cstrn (fun i => m (t + i)) (0 + 1) n).
    { clear -Hd. assert (forall l, (l <= n)%nat -> forall j, 0 <= j ->
        j + Z.of_nat l <= Z.of_nat n ->
        cstrn (fun i => store m s (m t) (t + 1 + i)) j l
        = cstrn (fun i => m (t + i)) (j + 1) l) as H.
      { induction l as [|l IHl]; intros Hl j Hj Hjl; [done|].
        cbn [cstrn]. rewrite store_ne by lia.
        replace (t + 1 + j) with (t + (j + 1)) by lia.
        rewrite IHl by lia. done. }
      apply (H n); lia. }
    rewrite Hk in Heq, Hc, Hz.
    set (k := Z.of_nat (length (cstrn (fun i => m (t + i)) (0 + 1) n))) in *.
    exists m'. cbn [length]. rewrite Nat2Z.inj_succ.
    fold k. replace (Z.succ k) with (k + 1) by lia.
    replace (k + 1 =? Z.of_nat (S n)) with (k =? Z.of_nat n)
      by (apply eq_bool_prop_intro; rewrite !Is_true_true, !Z.eqb_eq; lia).
    rewrite Heq. assert (0 <= k <= Z.of_nat n)
      by (pose proof (cstrn_length (fun i => m (t + i)) (0 + 1) n); lia).
    split_and!.
    + destruct (k =? Z.of_nat n); (f_equal; [f_equal; lia | lia]).
    + done.
    + intros i Hi. destruct (decide (i = 0)) as [->|].
      * rewrite Z.add_0_r, Ho by lia. rewrite store_eq, Z.add_0_r.
        by rewrite u8_small by apply Hm.
      * replace (s + i) with (s + 1 + (i - 1)) by lia. rewrite Hc by lia.
        rewrite store_ne by lia. f_equal. lia.
    + intros Hlt. replace (s + (k + 1)) with (s + 1 + k) by lia. apply Hz. lia.
    + intros x Hx. rewrite Ho by lia. apply store_ne. lia.
Qed.

Lemma strncpy_pad_spec m s n x :
  strncpy_pad m s n x = if in_range s (Z.of_nat n) x then 0 else m x.
Proof.
  unfold in_range. revert m s. induction n as [|n IH]; intros m s; cbn [strncpy_pad].
  { test_solver. }
  rewrite IH. unfold store. test_solver.
Qed.

(** [safestrcpy] runs the loop of [strncpy] and then stores a NUL. *)
Lemma safestrcpy_copy_strncpy m s t n :
  safestrcpy_copy m s t n = fst (strncpy_copy m s t n).
Proof.
  revert m s t. induction n as [|n IH]; intros; cbn [safestrcpy_copy strncpy_copy fst];
    [done|]. by destruct (negb _).
Qed.

Lemma cstrn_lookup p i n k :
  (k < length (cstrn p i n))%nat -> cstrn p i n !! k = Some (p (i + Z.of_nat k)) /\
  p (i + Z.of_nat k) <> 0.
Proof.
  revert i k. induction n as [|n IH]; intros i k; cbn; [lia|].
  destruct (p i =? 0) eqn:E; cbn; [lia|]. bool_to_prop. intros Hk.
  destruct k as [|k]; cbn.
  - by rewrite Z.add_0_r.
  - replace (i + Z.of_nat (S k)) with (i + 1 + Z.of_nat k) by lia. apply IH. lia.
Qed.

(** The string cut at [n] is determined by the bytes up to its end. *)
Lemma cstrn_intro p i n l :
  (length l <= n)%nat ->
  (forall k c, l !! k = Some c -> p (i + Z.of_nat k) = c /\ c <> 0) ->
  ((length l < n)%nat -> p (i + Z.of_nat (length l)) = 0) ->
  cstrn p i n = l.
Proof.
  revert i l. induction n as [|n IH]; intros i l Hlen Hl Hz.
  { by destruct l; cbn in *; [|lia]. }
  cbn. destruct l as [|c l].
  - cbn in Hz. rewrite Z.add_0_r in Hz. by rewrite Hz by lia.
  - destruct (Hl O c) as [Hc Hc0]; [done|]. rewrite Z.add_0_r in Hc.
    rewrite Hc, (proj2 (Z.eqb_neq c 0) Hc0). f_equal. apply IH.
    + cbn in Hlen. lia.
    + intros k d Hk. destruct (Hl (S k) d Hk) as [Hd ?]. split; [|done].
      rewrite <- Hd. f_equal. lia.
    + intros Hlt. rewrite <- Hz by (cbn; lia). f_equal. cbn. lia.
Qed.

(** on a source and a destination that do not overlap, [strncpy] writes
    the source string cut at [n] and pads the rest of the [n] bytes with NULs;
    nothing else changes. *)
Theorem strncpy_correct (m : mem) (s t n : Z) :
  wf_mem m -> 0 <= n -> (s + n <= t \/ t + n <= s) ->
  let src := cstrn (fun i => m (t + i)) 0 (Z.to_nat n) in
  cstrn (fun i => strncpy m s t n (s + i)) 0 (Z.to_nat n) = src /\
  (forall i, lenZ src <= i < n -> strncpy m s t n (s + i) = 0) /\
  (forall x, x < s \/ s + n <= x -> strncpy m s t n x = m x).
Proof.
  intros Hm Hn Hd src. unfold strncpy.
  destruct (strncpy_copy_spec m s t (Z.to_nat n) Hm) as (m' & Heq & Hm' & Hc & Hz & Ho);
    [lia|].
  rewrite Heq. clear Heq. fold src in Hc, Hz |- *. fold (lenZ src) in Hc, Hz |- *.
  rewrite Z2Nat.id in Hz, Ho |- * by lia.
  assert (Hls : 0 <= lenZ src <= n)
    by (pose proof (cstrn_length (fun i => m (t + i)) 0 (Z.to_nat n));
        subst src; unfold lenZ; lia).
  assert (Hpad : forall i, lenZ src <= i < n ->
    strncpy_pad m' (s + (if lenZ src =? n then lenZ src else lenZ src + 1))
      (Z.to_nat (n - (if lenZ src =? n then lenZ src else lenZ src + 1))) (s + i) = 0).
  { intros i Hi. rewrite strncpy_pad_spec, Z2Nat.id by (case_test; lia).
    unfold in_range. test_solver. replace i with (lenZ src) by lia. apply Hz. lia. }
  split_and!; [|done|].
  - apply cstrn_intro.
    + subst src. apply cstrn_length.
    + intros k c Hk. pose proof (lookup_lt_Some _ _ _ Hk) as Hlt.
      destruct (cstrn_lookup _ _ _ _ Hlt) as [Hk' Hnz]. fold src in Hk'.
      rewrite Hk in Hk'. injection Hk' as ->. split; [|done].
      rewrite !Z.add_0_l, strncpy_pad_spec.
      rewrite <- (Hc (Z.of_nat k)) by (unfold lenZ; lia).
      unfold in_range, lenZ in *. test_solver.
    + intros Hlt. rewrite Z.add_0_l. apply Hpad. unfold lenZ in *. lia.
  - intros x Hx. rewrite strncpy_pad_spec, Z2Nat.id by (case_test; lia).
    unfold in_range. rewrite <- Ho by done. test_solver.
Qed.

Definition demo_mem : mem := fun x =>
  if x =? 100 then 104 else if x =? 101 then 105 else 0.

Lemma strncpy_correct_witness :
  let src := cstrn (fun i => demo_mem (100 + i)) 0 (Z.to_nat 5) in
  cstrn (fun i => strncpy demo_mem 10 100 5 (10 + i)) 0 (Z.to_nat 5) = src /\
  (forall i, lenZ src <= i < 5 -> strncpy demo_mem 10 100 5 (10 + i) = 0) /\
  (forall x, x < 10 \/ 10 + 5 <= x -> strncpy demo_mem 10 100 5 x = demo_mem x).
Proof.
  apply (strncpy_correct demo_mem 10 100 5).
  - intros x. unfold demo_mem. repeat case_test; lia.
  - lia.
  - left. lia.
Defined.

(** [safestrcpy] leaves in the [n]-byte destination a NUL-terminated
    string, the source cut at [n - 1] characters, and writes nothing outside
    of the destination. *)
Theorem safestrcpy_correct (m : mem) (s t n : Z) :
  wf_mem m -> 0 < n -> (s + n <= t \/ t + n <= s) ->
  let src := cstrn (fun i => m (t + i)) 0 (Z.to_nat (n - 1)) in
  cstrn (fun i => safestrcpy m s t n (s + i)) 0 (Z.to_nat n) = src /\
  lenZ src < n /\ safestrcpy m s t n (s + lenZ src) = 0 /\
  (forall x, x < s \/ s + n <= x -> safestrcpy m s t n x = m x).
Proof.
  intros Hm Hn Hd src. unfold safestrcpy.
  rewrite (proj2 (Z.leb_gt n 0) Hn), safestrcpy_copy_strncpy.
  destruct (strncpy_copy_spec m s t (Z.to_nat (n - 1)) Hm)
    as (m' & Heq & Hm' & Hc & Hz & Ho); [lia|].
  rewrite Heq. clear Heq. cbn [fst].
  fold src in Hc, Hz |- *. fold (lenZ src) in Hc, Hz |- *.
  rewrite Z2Nat.id in Hz, Ho |- * by lia.
  assert (Hls : 0 <= lenZ src <= n - 1)
    by (pose proof (cstrn_length (fun i => m (t + i)) 0 (Z.to_nat (n - 1)));
        subst src; unfold lenZ; lia).
  set (e := if lenZ src =? n - 1 then lenZ src else lenZ src + 1).
  assert (He : lenZ src <= e <= n - 1) by (unfold e; case_test; lia).
  assert (Hend : store m' (s + e) 0 (s + lenZ src) = 0).
  { unfold store. destruct (Z.eqb_spec (s + lenZ src) (s + e)); [done|].
    apply Hz. lia. }
  split_and!; [| lia | done |].
  - apply cstrn_intro.
    + unfold lenZ in Hls. lia.
    + intros k c Hk. pose proof (lookup_lt_Some _ _ _ Hk) as Hlt.
      destruct (cstrn_lookup _ _ _ _ Hlt) as [Hk' Hnz]. fold src in Hk'.
      rewrite Hk in Hk'. injection Hk' as ->. split; [|done].
      rewrite !Z.add_0_l. rewrite <- (Hc (Z.of_nat k)) by (unfold lenZ; lia).
      apply store_ne. unfold lenZ in He. lia.
    + intros _. rewrite Z.add_0_l. apply Hend.
  - intros x Hx. rewrite store_ne by lia. apply Ho. lia.
Qed.

Lemma safestrcpy_correct_witness :
  let src := cstrn (fun i => demo_mem (100 + i)) 0 (Z.to_nat (2 - 1)) in
  cstrn (fun i => safestrcpy demo_mem 10 100 2 (10 + i)) 0 (Z.to_nat 2) = src /\
  lenZ src < 2 /\ safestrcpy demo_mem 10 100 2 (10 + lenZ src) = 0 /\
  (forall x, x < 10 \/ 10 + 2 <= x -> safestrcpy demo_mem 10 100 2 x = demo_mem x).
Proof.
  apply (safestrcpy_correct demo_mem 10 100 2).
  - intros x. unfold demo_mem. repeat case_test; lia.
  - lia.
  - left. lia.
Defined.
