(* ===== verification/Kalloc.v ===== *)
(** * The physical page allocator (src/xv6/kalloc.c)

    The free list lives in the free pages themselves: [kmem.freelist] is the
    address of the first free page and the first word of every free page is
    the address of the next one.  The state therefore holds the byte memory.
    [acquire]/[release] of [kmem.lock] bracket the list operations; a
    bracketed section is one atomic step here (mutual exclusion is the
    subject of Spinlock). *)

From S2P Require Import Prelude Cstring.

(** mmu.h, memlayout.h *)
Definition PGSIZE : Z := 4096.
Definition PHYSTOP : Z := 234881024. (* 0xE000000 *)
Definition KERNBASE : Z := 2147483648. (* 0x80000000 *)
Definition V2P (a : Z) : Z := u32 (u32 a - KERNBASE).
Definition P2V (a : Z) : Z := a + KERNBASE.
Definition PGROUNDUP (sz : Z) : Z := Z.land (u32 (sz + PGSIZE - 1)) (u32 (Z.lnot (PGSIZE - 1))).
Definition PGROUNDDOWN (a : Z) : Z := Z.land a (u32 (Z.lnot (PGSIZE - 1))).

Definition load32 (m : mem) (a : Z) : Z :=
  m a + 256 * m (a + 1) + 65536 * m (a + 2) + 16777216 * m (a + 3).

Record kmem_t := mkKmem { use_lock : bool; freelist : Z; ram : mem }.

Definition set_use_lock (b : bool) (k : kmem_t) : kmem_t := mkKmem b (freelist k) (ram k).
Definition set_freelist (r : Z) (k : kmem_t) : kmem_t := mkKmem (use_lock k) r (ram k).
Definition set_ram (m : mem) (k : kmem_t) : kmem_t := mkKmem (use_lock k) (freelist k) m.

Section kalloc.
(** [end] of kernel.ld: the first address after the kernel image. *)
Context (kend : Z).

Definition kfree (v : Z) : ST kmem_t unit :=
  panic_if (negb (u32 v mod PGSIZE =? 0) || (v <? kend) || (PHYSTOP <=? V2P v)) "kfree" ;;;
  (* Fill with junk to catch dangling refs. *)
  modify (fun k => set_ram (memset (ram k) v 1 PGSIZE) k) ;;;
  modify (fun k => set_ram (store32 (ram k) v (freelist k)) k) ;;;
  modify (set_freelist v).

Definition kalloc : ST kmem_t Z :=
  r <- gets freelist ;;
  when (negb (r =? 0)) (modify (fun k => set_freelist (load32 (ram k) r) k)) ;;;
  ret r.

Fixpoint freerange_loop (fuel : nat) (p vend : Z) : ST kmem_t unit :=
  match fuel with
  | O => nofuel
  | S fuel' =>
      if p + PGSIZE <=? vend then
        kfree p ;;; freerange_loop fuel' (p + PGSIZE) vend
      else ret tt
  end.

(** The loop runs once per page of the range. *)
Definition freerange (vstart vend : Z) : ST kmem_t unit :=
  let p := PGROUNDUP (u32 vstart) in
  freerange_loop (S (Z.to_nat ((vend - p) / PGSIZE))) p vend.

Definition kinit1 (vstart vend : Z) : ST kmem_t unit :=
  modify (set_use_lock false) ;;; freerange vstart vend.

Definition kinit2 (vstart vend : Z) : ST kmem_t unit :=
  freerange vstart vend ;;; modify (set_use_lock true).

(** ** Abstract view: a stack of free pages *)

(** A page the allocator may own. *)
Definition page_ok (v : Z) : Prop :=
  v mod PGSIZE = 0 /\ kend <= v /\ KERNBASE < v /\ v + PGSIZE <= KERNBASE + PHYSTOP.

(** [chain m r l]: following the next words from [r] visits the pages [l]. *)
Fixpoint chain (m : mem) (r : Z) (l : list Z) : Prop :=
  match l with
  | [] => r = 0
  | p :: l' => r = p /\ chain m (load32 m p) l'
  end.

Record kmem_rep (k : kmem_t) (l : list Z) : Prop := {
  rep_wf : wf_mem (ram k);
  rep_chain : chain (ram k) (freelist k) l;
  rep_ok : Forall page_ok l;
  rep_nodup : NoDup l;
}.

(** ** Lemmas *)

Lemma load32_store32 m a v :
  0 <= v < 4294967296 -> load32 (store32 m a v) a = v.
Proof.
  intros Hv. unfold load32. rewrite !store32_spec. unfold in_range. test_solver.
  replace (8 * (a - a)) with 0 by lia. replace (8 * (a + 1 - a)) with 8 by lia.
  replace (8 * (a + 2 - a)) with 16 by lia. replace (8 * (a + 3 - a)) with 24 by lia.
  rewrite Z.shiftr_0_r, !Z.shiftr_div_pow2 by lia. unfold u8.
  change (2 ^ 8) with 256. change (2 ^ 16) with 65536. change (2 ^ 24) with 16777216.
  zlia.
Qed.

Lemma load32_same m m' a :
  (forall i, 0 <= i < 4 -> m' (a + i) = m (a + i)) -> load32 m' a = load32 m a.
Proof.
  intros H. unfold load32. rewrite <- (Z.add_0_r a) at 1 5.
  by rewrite !H by lia.
Qed.

Lemma chain_frame m m' r l :
  (forall p i, p ∈ l -> 0 <= i < 4 -> m' (p + i) = m (p + i)) ->
  chain m r l -> chain m' r l.
Proof.
  revert r. induction l as [|p l IH]; intros r Hf; [done|]. cbn. intros [-> Hc].
  split; [done|]. rewrite (load32_same m m' p).
  - apply IH; [|done]. intros q i Hq. apply Hf. by right.
  - intros i Hi. apply Hf; [by left|done].
Qed.

Lemma page_ok_sep p q i :
  page_ok p -> page_ok q -> p <> q -> 0 <= i < PGSIZE -> q + i < p \/ p + PGSIZE <= q + i.
Proof. unfold page_ok, PGSIZE. intros (Hp & _) (Hq & _) Hne Hi. zlia. Qed.

Lemma kfree_guard v :
  page_ok v ->
  negb (u32 v mod PGSIZE =? 0) || (v <? kend) || (PHYSTOP <=? V2P v) = false.
Proof.
  unfold page_ok, V2P, PHYSTOP, KERNBASE, PGSIZE. intros (Hm & Hk & Hlo & Hhi).
  rewrite !(u32_small v) by lia. rewrite u32_small by lia.
  repeat apply orb_false_intro.
  - by rewrite Hm.
  - lia.
  - lia.
Qed.

Lemma store32_wf m a v : wf_mem m -> wf_mem (store32 m a v).
Proof. intros. unfold store32. by repeat apply store_wf. Qed.

Lemma memset_wf m dst c n : wf_mem m -> 0 <= n -> wf_mem (memset m dst c n).
Proof. intros Hm Hn x. rewrite memset_spec_any by done. case_test; auto with xv6. Qed.

Lemma chain_head_range k l :
  kmem_rep k l -> freelist k = 0 /\ l = [] \/ exists l', l = freelist k :: l' /\ page_ok (freelist k).
Proof.
  intros [_ Hc Hok _]. destruct l as [|p l]; cbn in Hc; [by left|].
  destruct Hc as [-> _]. right. exists l. split; [done|]. by inversion Hok.
Qed.

Lemma kmem_rep_freelist_range k l : kmem_rep k l -> 0 <= freelist k < 4294967296.
Proof.
  intros H. destruct (chain_head_range k l H) as [[-> _]|(l' & _ & Hp)]; [lia|].
  unfold page_ok, KERNBASE, PHYSTOP, PGSIZE in Hp. lia.
Qed.

Lemma kfree_spec k l v :
  kmem_rep k l -> page_ok v -> v ∉ l ->
  wp (kfree v) k (fun _ k' =>
    kmem_rep k' (v :: l) /\ use_lock k' = use_lock k /\
    (forall x, x < v \/ v + PGSIZE <= x -> ram k' x = ram k x)).
Proof.
  intros Hr Hv Hnin. unfold kfree. wp_step. wp_step; [by apply kfree_guard|].
  wp_steps. unfold set_freelist, set_ram. cbn [use_lock freelist ram].
  pose proof (kmem_rep_freelist_range _ _ Hr) as Hfl.
  destruct Hr as [Hwf Hc Hok Hnd].
  assert (Hsame : forall x, x < v \/ v + PGSIZE <= x ->
    store32 (memset (ram k) v 1 PGSIZE) v (freelist k) x = ram k x).
  { unfold PGSIZE. intros x Hx. rewrite store32_spec, memset_spec_any by lia.
    unfold in_range. test_solver. }
  split_and!; [|done|done]. split; cbn [ram freelist].
  - apply store32_wf, memset_wf; [done|unfold PGSIZE; lia].
  - cbn. split; [done|]. rewrite load32_store32 by done.
    eapply chain_frame; [|exact Hc]. intros p i Hp Hi. apply Hsame.
    apply page_ok_sep; [done| |by intros ->|unfold PGSIZE; lia].
    by eapply Forall_forall in Hok.
  - by constructor.
  - by constructor.
Qed.

Lemma kalloc_spec k l :
  kmem_rep k l ->
  wp kalloc k (fun r k' =>
    ram k' = ram k /\ use_lock k' = use_lock k /\
    match l with
    | [] => r = 0 /\ k' = k
    | p :: l' => r = p /\ kmem_rep k' l'
    end).
Proof.
  intros [Hwf Hc Hok Hnd]. unfold kalloc. wp_steps.
  - destruct l as [|p l']; cbn in Hc; [rewrite Hc in *; done|].
    destruct Hc as [Hfl Hc]. split_and!; try done. split; cbn [ram freelist]; try done.
    + by rewrite Hfl.
    + by inversion Hok.
    + by inversion Hnd.
  - bool_to_prop. destruct l as [|p l']; cbn in Hc; [done|].
    destruct Hc as [Hfl _]. inversion Hok as [|? ? Hp]. subst.
    unfold page_ok, KERNBASE in Hp. lia.
Qed.

(** The [n] consecutive pages from [p]. *)
Fixpoint pages_from (p : Z) (n : nat) : list Z :=
  match n with
  | O => []
  | S n' => p :: pages_from (p + PGSIZE) n'
  end.

Lemma freerange_loop_spec n p vend k l :
  kmem_rep k l -> (n = 0%nat \/ PGSIZE * Z.of_nat n <= vend - p) ->
  vend - p < PGSIZE * (Z.of_nat n + 1) -> p mod PGSIZE = 0 ->
  kend <= p -> KERNBASE < p -> vend <= KERNBASE + PHYSTOP ->
  (forall q, q ∈ l -> q < p) ->
  wp (freerange_loop (S n) p vend) k (fun _ k' =>
    kmem_rep k' (reverse (pages_from p n) ++ l) /\ use_lock k' = use_lock k).
Proof.
  revert p k l. induction n as [|n IH]; intros p k l Hr Hlo Hhi Hal Hk Hb Hv Hlt.
  - cbn [freerange_loop]. rewrite (proj2 (Z.leb_gt _ _)) by lia. by apply wp_ret.
  - cbn [freerange_loop]. destruct Hlo as [|Hlo]; [done|].
    rewrite (proj2 (Z.leb_le _ _)) by (unfold PGSIZE in *; lia). wp_step.
    assert (Hp : page_ok p).
    { unfold page_ok. split_and!; try done. unfold PGSIZE in *. lia. }
    eapply wp_mono; [apply kfree_spec; [exact Hr|done|]|].
    { intros Hin. specialize (Hlt _ Hin). lia. }
    intros [] k1 (Hr1 & Hul & _). eapply wp_mono.
    { apply (IH (p + PGSIZE) k1 (p :: l)); try done; try (unfold PGSIZE in *; lia).
      - rewrite <- Hal. unfold PGSIZE. replace (p + 4096) with (p + 1 * 4096) by lia.
        apply Z.mod_add. lia.
      - unfold PGSIZE. intros q [->|Hq]%elem_of_cons; [lia|]. specialize (Hlt _ Hq). lia. }
    intros [] k2 [Hr2 Hul2]. split; [|congruence].
    cbn [pages_from]. rewrite reverse_cons, <- app_assoc. done.
Qed.

Lemma PGROUNDUP_spec a :
  0 <= a <= 4294967296 - PGSIZE ->
  PGROUNDUP a mod PGSIZE = 0 /\ a <= PGROUNDUP a < a + PGSIZE.
Proof.
  unfold PGROUNDUP, PGSIZE. intros Ha. rewrite u32_small by lia.
  change (u32 (Z.lnot (4096 - 1))) with (Z.shiftl (Z.ones 20) 12).
  assert (Hb : Z.land (a + 4096 - 1) (Z.shiftl (Z.ones 20) 12)
               = Z.shiftl (Z.shiftr (a + 4096 - 1) 12) 12).
  { apply Z.bits_inj'. intros n Hn. rewrite Z.land_spec.
    destruct (Z.lt_ge_cases n 12).
    - rewrite !Z.shiftl_spec_low by lia. by rewrite andb_false_r.
    - rewrite !Z.shiftl_spec, Z.shiftr_spec by lia. replace (n - 12 + 12) with n by lia.
      destruct (Z.lt_ge_cases n 32).
      + rewrite Z.ones_spec_low by lia. by rewrite andb_true_r.
      + rewrite Z.ones_spec_high, andb_false_r by lia. symmetry.
        apply Z.testbit_false; [lia|]. rewrite Z.div_small; [done|].
        split; [lia|]. apply Z.lt_le_trans with (2 ^ 32); [lia|].
        apply Z.pow_le_mono_r; lia. }
  rewrite Hb, Z.shiftl_mul_pow2, Z.shiftr_div_pow2 by lia. change (2 ^ 12) with 4096.
  rewrite Z.mod_mul by lia. split; [done|]. zlia.
Qed.

(** ** What the allocator promises *)

(** A client run: the pages it owns, and the calls and stores it makes.  A
    client frees only pages it owns and stores only into pages it owns. *)
Inductive kstep : kmem_t * list Z -> kmem_t * list Z -> Prop :=
| kstep_alloc k k' owned r :
    kalloc k = Ok (r, k') -> r <> 0 -> kstep (k, owned) (k', r :: owned)
| kstep_full k k' owned :
    kalloc k = Ok (0, k') -> kstep (k, owned) (k', owned)
| kstep_free k k' owned1 owned2 v :
    kfree v k = Ok (tt, k') -> kstep (k, owned1 ++ v :: owned2) (k', owned1 ++ owned2)
| kstep_store k owned v i b :
    v ∈ owned -> 0 <= i < PGSIZE ->
    kstep (k, owned) (set_ram (store (ram k) (v + i) b) k, owned).

(** [owned] and the free list partition the pages [all]. *)
Definition kmem_part (all : list Z) (c : kmem_t * list Z) : Prop :=
  exists l, kmem_rep c.1 l /\ c.2 ++ l ≡ₚ all /\ NoDup all /\ Forall page_ok all.

Lemma kmem_part_disj (all owned l : list Z) :
  owned ++ l ≡ₚ all -> NoDup all -> forall v, v ∈ owned -> v ∉ l.
Proof.
  intros Hp Hnd v Hv Hl. rewrite <- Hp in Hnd. apply NoDup_app in Hnd as (_ & Hd & _).
  by apply (Hd v).
Qed.

Lemma kstep_part all c c' : kmem_part all c -> kstep c c' -> kmem_part all c'.
Proof.
  intros (l & Hr & Hp & Hnd & Hok) Hs.
  destruct Hs as [k k' owned r Heq Hr0|k k' owned Heq|k k' o1 o2 v Heq|k owned v i b Hv Hi];
    cbn [fst snd] in *.
  - pose proof (kalloc_spec k l Hr) as Hw. unfold wp in Hw. rewrite Heq in Hw.
    destruct Hw as (_ & _ & Hw). destruct l as [|p l']; [by destruct Hw|].
    destruct Hw as [-> Hr']. exists l'. split_and!; try done. cbn.
    rewrite <- Hp. apply Permutation_middle.
  - pose proof (kalloc_spec k l Hr) as Hw. unfold wp in Hw. rewrite Heq in Hw.
    destruct Hw as (_ & _ & Hw). destruct l as [|p l'].
    + destruct Hw as [_ ->]. by exists [].
    + destruct Hw as [<- _]. destruct Hr as [_ _ Hl _]. inversion Hl as [|? ? H0].
      unfold page_ok, KERNBASE in H0. lia.
  - assert (Hvo : v ∈ o1 ++ v :: o2) by (apply elem_of_app; right; by left).
    pose proof (kmem_part_disj all _ l Hp Hnd v Hvo) as Hnin.
    assert (Hpv : page_ok v).
    { eapply Forall_forall; [exact Hok|]. rewrite <- Hp. apply elem_of_app. by left. }
    pose proof (kfree_spec k l v Hr Hpv Hnin) as Hw. unfold wp in Hw. rewrite Heq in Hw.
    destruct Hw as [Hr' _]. exists (v :: l). split_and!; try done. cbn.
    rewrite <- Hp, <- !app_assoc. f_equiv. cbn. symmetry. apply Permutation_middle.
  - exists l. split_and!; try done. destruct Hr as [Hwf Hc Hl Hndl].
    split; cbn [ram freelist]; try done; [by apply store_wf|].
    eapply chain_frame; [|exact Hc]. intros q j Hq Hj. cbn. apply store_ne.
    assert (Hne : q <> v) by (intros ->; by eapply kmem_part_disj).
    assert (page_ok v) by (eapply Forall_forall; [exact Hok|]; rewrite <- Hp; apply elem_of_app; by left).
    assert (page_ok q) by (by eapply Forall_forall in Hl).
    destruct (page_ok_sep v q j); try done; unfold PGSIZE in *; lia.
Qed.
End kalloc.

(** C31: in every run of a client that frees and writes only pages it owns,
    starting from a free list of distinct usable pages, the pages the client
    owns and the free list partition the initial pages: [kalloc] never hands
    out a page that is in use or free twice, no page is lost, and stores into
    owned pages do not damage the free list. *)
Theorem kalloc_partition (kend : Z) (k0 : kmem_t) (all : list Z) (k : kmem_t)
    (owned : list Z) :
  kmem_rep kend k0 all ->
  star (kstep kend) (k0, []) (k, owned) ->
  exists l, kmem_rep kend k l /\ owned ++ l ≡ₚ all /\ NoDup (owned ++ l).
Proof.
  intros Hr0 Hs.
  assert (kmem_part kend all (k, owned)) as (l & Hr & Hp & Hnd & _).
  { eapply star_invariant; [apply kstep_part|exact Hs|].
    exists all. destruct Hr0. by split_and!. }
  exists l. split_and!; try done. by rewrite Hp.
Qed.

(** A machine whose free list holds one page, and the client that takes it. *)
Definition demo_page : Z := KERNBASE + 4 * PGSIZE.
Definition demo_kmem0 : kmem_t := mkKmem false 0 (fun _ => 0).
Definition demo_kmem : kmem_t :=
  set_freelist demo_page
    (set_ram (store32 (memset (fun _ => 0) demo_page 1 PGSIZE) demo_page 0) demo_kmem0).

Lemma demo_kmem_rep : kmem_rep KERNBASE demo_kmem [demo_page].
Proof.
  assert (Hw := kfree_spec KERNBASE demo_kmem0 [] demo_page).
  unfold wp, kfree, bind in Hw.
  rewrite (kfree_guard KERNBASE demo_page) in Hw.
  - apply Hw.
    + split; cbn; [intros x; lia|done|by constructor|by constructor].
    + unfold page_ok, demo_page, KERNBASE, PGSIZE, PHYSTOP. split_and!; (done || lia).
    + apply not_elem_of_nil.
  - unfold page_ok, demo_page, KERNBASE, PGSIZE, PHYSTOP. split_and!; (done || lia).
Qed.

Lemma kalloc_partition_witness :
  exists k l, kmem_rep KERNBASE k l /\ [demo_page] ++ l ≡ₚ [demo_page] /\
              NoDup ([demo_page] ++ l).
Proof.
  exists (set_freelist (load32 (ram demo_kmem) demo_page) demo_kmem).
  apply (kalloc_partition KERNBASE demo_kmem [demo_page]).
  - apply demo_kmem_rep.
  - eapply star_step; [|apply star_refl]. by apply kstep_alloc.
Defined.

(** [freerange] (and so [kinit1] and [kinit2]) puts exactly the whole
    pages of [vstart, vend) on the free list, the highest first, and
    terminates without a panic when the range lies between the end of the
    kernel and [PHYSTOP]. *)
Theorem freerange_correct (kend : Z) (k : kmem_t) (l : list Z) (vstart vend : Z) :
  kmem_rep kend k l ->
  kend <= vstart -> KERNBASE < vstart -> vstart <= vend ->
  vend <= KERNBASE + PHYSTOP -> (forall q, q ∈ l -> q < vstart) ->
  wp (freerange kend vstart vend) k (fun _ k' =>
    kmem_rep kend k'
      (reverse (pages_from (PGROUNDUP vstart)
                  (Z.to_nat ((vend - PGROUNDUP vstart) / PGSIZE))) ++ l)).
Proof.
  intros Hr Hk Hb Hle Hv Hlt. unfold freerange.
  assert (0 <= vstart <= 4294967296 - PGSIZE)
    by (unfold KERNBASE, PHYSTOP, PGSIZE in *; lia).
  destruct (PGROUNDUP_spec vstart) as [Hal Hp]; [done|].
  rewrite (u32_small vstart) by (unfold PGSIZE in *; lia).
  eapply wp_mono; [apply freerange_loop_spec with (l := l); try done|by intros _ k' []].
  - unfold PGSIZE in *. destruct (Z.lt_ge_cases (vend - PGROUNDUP vstart) 4096).
    + left. zlia.
    + right. zlia.
  - unfold PGSIZE in *. zlia.
  - lia.
  - lia.
  - intros q Hq. specialize (Hlt _ Hq). lia.
Qed.

Lemma freerange_correct_witness :
  wp (freerange KERNBASE (KERNBASE + 100) (KERNBASE + 3 * PGSIZE)) demo_kmem0 (fun _ k' =>
    kmem_rep KERNBASE k'
      (reverse (pages_from (PGROUNDUP (KERNBASE + 100))
         (Z.to_nat ((KERNBASE + 3 * PGSIZE - PGROUNDUP (KERNBASE + 100)) / PGSIZE))) ++ [])).
Proof.
  apply (freerange_correct KERNBASE demo_kmem0 [] (KERNBASE + 100) (KERNBASE + 3 * PGSIZE)).
  - split; cbn; [intros x; lia|done|by constructor|by constructor].
  - lia.
  - lia.
  - unfold PGSIZE. lia.
  - unfold PGSIZE, PHYSTOP. lia.
  - intros q Hq. by apply elem_of_nil in Hq.
Defined.
