(* ===== verification/Bytes.v ===== *)
(** * Byte arrays

    The contents of a disk block, a page or a user buffer is a list of bytes.
    [slice] and [blit] are the two ends of a [memmove] between arrays, and
    [get16], [put16], [get32], [put32] are the accesses of the code to the
    fields of a structure that lies in such an array (a cast of [bp->data] to
    [struct dinode *], [uint *], [struct logheader *], ...): i386 is little
    endian. *)

From S2P Require Import Prelude.

Definition BSIZE : Z := 512.

Abbreviation bytes := (list Z).

Definition slice (l : bytes) (off n : Z) : bytes :=
  take (Z.to_nat n) (drop (Z.to_nat off) l).
Definition blit (l : bytes) (off : Z) (s : bytes) : bytes :=
  take (Z.to_nat off) l ++ s ++ drop (Z.to_nat off + length s)%nat l.

(** A character of a C string: the NUL follows the last one. *)
Definition chr (l : bytes) (i : Z) : Z := default 0 (l !! Z.to_nat i).

Definition le16 (v : Z) : bytes := [v mod 256; v / 256 mod 256].
Definition le32 (v : Z) : bytes :=
  [v mod 256; v / 256 mod 256; v / 65536 mod 256; v / 16777216 mod 256].

Definition get8 (l : bytes) (off : Z) : Z := rd l off.
Definition get16 (l : bytes) (off : Z) : Z := rd l off + 256 * rd l (off + 1).
Definition get32 (l : bytes) (off : Z) : Z :=
  rd l off + 256 * rd l (off + 1) + 65536 * rd l (off + 2) + 16777216 * rd l (off + 3).
Definition put16 (l : bytes) (off v : Z) : bytes := blit l off (le16 v).
Definition put32 (l : bytes) (off v : Z) : bytes := blit l off (le32 v).

Arguments slice : simpl never.
Arguments blit : simpl never.
Arguments get16 : simpl never.
Arguments get32 : simpl never.
Arguments put16 : simpl never.
Arguments put32 : simpl never.

Definition zeros (n : Z) : bytes := replicate (Z.to_nat n) 0.

(** Every element is a byte. *)
Definition bytes_ok (l : bytes) : Prop := Forall (fun b => 0 <= b < 256) l.
Definition wf_block (l : bytes) : Prop := lenZ l = BSIZE /\ bytes_ok l.

(** ** Lengths and elements *)

Lemma lenZ_slice l off n :
  0 <= off -> 0 <= n -> off + n <= lenZ l -> lenZ (slice l off n) = n.
Proof.
  unfold lenZ, slice. intros. rewrite length_take, length_drop. lia.
Qed.

Lemma rd_slice l off n i :
  0 <= off -> 0 <= i < n -> rd (slice l off n) i = rd l (off + i).
Proof.
  unfold rd, slice. intros. rewrite !list_lookup_total_alt, lookup_take_lt by lia.
  rewrite lookup_drop. do 2 f_equal. lia.
Qed.

Lemma lenZ_blit l off s :
  0 <= off -> off + lenZ s <= lenZ l -> lenZ (blit l off s) = lenZ l.
Proof.
  unfold lenZ, blit. intros. rewrite !length_app, length_take, length_drop. lia.
Qed.

(** Written at the end, the array grows. *)
Lemma lenZ_blit_ext l off s :
  0 <= off <= lenZ l -> lenZ (blit l off s) = Z.max (lenZ l) (off + lenZ s).
Proof.
  unfold lenZ, blit. intros. rewrite !length_app, length_take, length_drop. lia.
Qed.

Lemma rd_blit_ext l off s i :
  0 <= off <= lenZ l -> 0 <= i ->
  rd (blit l off s) i =
  if (off <=? i) && (i <? off + lenZ s) then rd s (i - off) else rd l i.
Proof.
  unfold lenZ, rd, blit. intros Hoff Hi. rewrite !list_lookup_total_alt.
  assert (Htake : length (take (Z.to_nat off) l) = Z.to_nat off).
  { rewrite length_take. lia. }
  case_test.
  - rewrite lookup_app_r, lookup_app_l by lia. do 2 f_equal. lia.
  - rewrite lookup_app_l, lookup_take_lt by lia. done.
  - rewrite !lookup_app_r by lia. rewrite lookup_drop. do 2 f_equal. lia.
Qed.

Lemma rd_blit l off s i :
  0 <= off -> off + lenZ s <= lenZ l -> 0 <= i ->
  rd (blit l off s) i =
  if (off <=? i) && (i <? off + lenZ s) then rd s (i - off) else rd l i.
Proof. intros. pose proof (lenZ_nonneg s). apply rd_blit_ext; lia. Qed.

Lemma rd_blit_in l off s i :
  0 <= off -> off + lenZ s <= lenZ l -> off <= i < off + lenZ s ->
  rd (blit l off s) i = rd s (i - off).
Proof. intros. rewrite rd_blit by lia. test_solver. Qed.

Lemma rd_blit_out l off s i :
  0 <= off -> off + lenZ s <= lenZ l -> 0 <= i -> i < off \/ off + lenZ s <= i ->
  rd (blit l off s) i = rd l i.
Proof. intros. rewrite rd_blit by lia. test_solver. Qed.

Lemma chr_rd l i : 0 <= i < lenZ l -> chr l i = rd l i.
Proof. intros Hi. unfold chr. by rewrite rd_lookup_Some. Qed.
Lemma chr_end l i : lenZ l <= i -> chr l i = 0.
Proof. intros Hi. unfold chr. rewrite lookup_ge_None_2; [done|]. unfold lenZ in Hi. lia. Qed.

(** What was written is what is read back. *)
Lemma slice_blit l off s :
  0 <= off -> off + lenZ s <= lenZ l -> slice (blit l off s) off (lenZ s) = s.
Proof.
  intros Hoff Hlen. pose proof (lenZ_nonneg s).
  apply arr_eq; rewrite lenZ_slice; rewrite ?lenZ_blit; try lia.
  intros i Hi. rewrite rd_slice, rd_blit_in by lia. f_equal. lia.
Qed.

Lemma slice_blit_ne l off s o n :
  0 <= off -> off + lenZ s <= lenZ l -> 0 <= o -> 0 <= n -> o + n <= lenZ l ->
  o + n <= off \/ off + lenZ s <= o ->
  slice (blit l off s) o n = slice l o n.
Proof.
  intros. pose proof (lenZ_nonneg s).
  apply arr_eq; rewrite !lenZ_slice; rewrite ?lenZ_blit; try lia.
  intros i Hi. rewrite !rd_slice, rd_blit_out by lia. done.
Qed.

Lemma blit_full l s : lenZ s = lenZ l -> blit l 0 s = s.
Proof.
  unfold lenZ, blit. intros. cbn. rewrite drop_ge by lia. by rewrite app_nil_r.
Qed.

Lemma slice_full l : slice l 0 (lenZ l) = l.
Proof. unfold slice, lenZ. rewrite Nat2Z.id. cbn. by rewrite firstn_all. Qed.

Lemma slice_app l off m n :
  0 <= off -> 0 <= m -> 0 <= n ->
  slice l off (m + n) = slice l off m ++ slice l (off + m) n.
Proof.
  unfold slice. intros. rewrite !Z2Nat.inj_add by lia. rewrite <- drop_drop.
  symmetry. apply take_take_drop.
Qed.

Lemma slice_nil l off n : n <= 0 -> slice l off n = [].
Proof. intros. unfold slice. by replace (Z.to_nat n) with 0%nat by lia. Qed.

Lemma chr_byte l i : Forall (fun b => 0 <= b < 256) l -> 0 <= chr l i < 256.
Proof.
  intros Hl. unfold chr. destruct (l !! Z.to_nat i) as [x|] eqn:E; [|done].
  apply (Forall_lookup_1 _ _ _ _ Hl E).
Qed.

(** ** Integers in byte arrays *)

Lemma lenZ_le16 v : lenZ (le16 v) = 2.
Proof. done. Qed.
Lemma lenZ_le32 v : lenZ (le32 v) = 4.
Proof. done. Qed.
#[export] Hint Rewrite lenZ_le16 lenZ_le32 : xv6.

Lemma lenZ_put16 l off v : 0 <= off -> off + 2 <= lenZ l -> lenZ (put16 l off v) = lenZ l.
Proof. apply (lenZ_blit l off (le16 v)). Qed.
Lemma lenZ_put32 l off v : 0 <= off -> off + 4 <= lenZ l -> lenZ (put32 l off v) = lenZ l.
Proof. apply (lenZ_blit l off (le32 v)). Qed.

Lemma get16_put16 l off v :
  0 <= off -> off + 2 <= lenZ l -> get16 (put16 l off v) off = u16 v.
Proof.
  intros. unfold get16, put16. rewrite !rd_blit_in by (rewrite ?lenZ_le16; lia).
  replace (off - off) with 0 by lia. replace (off + 1 - off) with 1 by lia.
  change (v mod 256 + 256 * (v / 256 mod 256) = v mod 65536). zlia.
Qed.

Lemma get32_put32 l off v :
  0 <= off -> off + 4 <= lenZ l -> get32 (put32 l off v) off = u32 v.
Proof.
  intros. unfold get32, put32. rewrite !rd_blit_in by (rewrite ?lenZ_le32; lia).
  replace (off - off) with 0 by lia. replace (off + 1 - off) with 1 by lia.
  replace (off + 2 - off) with 2 by lia. replace (off + 3 - off) with 3 by lia.
  change (v mod 256 + 256 * (v / 256 mod 256) + 65536 * (v / 65536 mod 256)
    + 16777216 * (v / 16777216 mod 256) = v mod 4294967296). zlia.
Qed.

(** Accesses at disjoint offsets do not interfere. *)
Lemma get32_blit_ne l off s o :
  0 <= off -> off + lenZ s <= lenZ l -> 0 <= o ->
  o + 4 <= off \/ off + lenZ s <= o -> get32 (blit l off s) o = get32 l o.
Proof. intros. unfold get32. rewrite !rd_blit_out by lia. done. Qed.

Lemma get16_blit_ne l off s o :
  0 <= off -> off + lenZ s <= lenZ l -> 0 <= o ->
  o + 2 <= off \/ off + lenZ s <= o -> get16 (blit l off s) o = get16 l o.
Proof. intros. unfold get16. rewrite !rd_blit_out by lia. done. Qed.

Lemma get32_put32_ne l off v o :
  0 <= off -> off + 4 <= lenZ l -> 0 <= o -> o + 4 <= off \/ off + 4 <= o ->
  get32 (put32 l off v) o = get32 l o.
Proof. intros. apply get32_blit_ne; rewrite ?lenZ_le32; lia. Qed.

Lemma rd_byte l i : bytes_ok l -> 0 <= rd l i < 256.
Proof.
  intros Hl. apply (rd_Forall (fun b => 0 <= b < 256)); [done|]. cbn. lia.
Qed.

Lemma get16_range l off : bytes_ok l -> 0 <= get16 l off < 65536.
Proof.
  intros Hl. unfold get16. pose proof (rd_byte l off Hl).
  pose proof (rd_byte l (off + 1) Hl). lia.
Qed.

Lemma get32_range l off : bytes_ok l -> 0 <= get32 l off < 4294967296.
Proof.
  intros Hl. unfold get32. pose proof (rd_byte l off Hl).
  pose proof (rd_byte l (off + 1) Hl). pose proof (rd_byte l (off + 2) Hl).
  pose proof (rd_byte l (off + 3) Hl). lia.
Qed.

Lemma bytes_ok_app l1 l2 : bytes_ok l1 -> bytes_ok l2 -> bytes_ok (l1 ++ l2).
Proof. apply Forall_app_2. Qed.
Lemma bytes_ok_blit l off s : bytes_ok l -> bytes_ok s -> bytes_ok (blit l off s).
Proof.
  intros. unfold blit. repeat apply bytes_ok_app; [by apply Forall_take|done|].
  by apply Forall_drop.
Qed.
Lemma bytes_ok_slice l off n : bytes_ok l -> bytes_ok (slice l off n).
Proof. intros. by apply Forall_take, Forall_drop. Qed.
Lemma bytes_ok_zeros n : bytes_ok (zeros n).
Proof. apply Forall_replicate. lia. Qed.
Lemma bytes_ok_le16 v : bytes_ok (le16 v).
Proof. repeat constructor; zlia. Qed.
Lemma bytes_ok_le32 v : bytes_ok (le32 v).
Proof. repeat constructor; zlia. Qed.
#[export] Hint Resolve bytes_ok_app bytes_ok_blit bytes_ok_slice bytes_ok_zeros
  bytes_ok_le16 bytes_ok_le32 : xv6.

Lemma lenZ_zeros n : 0 <= n -> lenZ (zeros n) = n.
Proof. intros. unfold zeros. rewrite lenZ_replicate. lia. Qed.
Lemma rd_zeros n i : 0 <= i < n -> rd (zeros n) i = 0.
Proof. intros. apply rd_replicate. lia. Qed.

Lemma wf_block_blit l off s :
  wf_block l -> bytes_ok s -> 0 <= off -> off + lenZ s <= BSIZE -> wf_block (blit l off s).
Proof.
  intros [Hlen Hok] Hs Hoff Hfit. split; [|by apply bytes_ok_blit].
  rewrite lenZ_blit; lia.
Qed.

Lemma wf_block_zeros : wf_block (zeros BSIZE).
Proof. split; [done|]. apply bytes_ok_zeros. Qed.
#[export] Hint Resolve wf_block_blit wf_block_zeros : xv6.
