(* ===== verification/Spinlock.v ===== *)
(** * Spin locks and interrupt nesting (src/xv6/spinlock.c)

    The first part translates the functions of the file for one CPU: the
    state is that CPU's [ncli], [intena] and interrupt flag, and the lock.
    The second part is the machine: any number of CPUs run
    acquire / critical section / release on one lock, and every access to a
    shared field ([lk->locked], [lk->cpu]) is one step, so that all
    interleavings are covered. *)

From S2P Require Import Prelude.

(** ** The functions of spinlock.c on one CPU *)

(** [struct cpu] (proc.h), the fields spinlock.c uses, and [FL_IF] of %eflags. *)
Record cpu_t := mkCpu { c_id : nat; ncli : Z; intena : bool; fl_if : bool }.

(** [struct spinlock]: [cpu] is the CPU holding the lock. *)
Record spinlock_t := mkSpin { locked : Z; lk_cpu : option nat }.

Definition cpu_set_if (b : bool) (c : cpu_t) : cpu_t := mkCpu (c_id c) (ncli c) (intena c) b.
Definition cpu_set_ncli (n : Z) (c : cpu_t) : cpu_t := mkCpu (c_id c) n (intena c) (fl_if c).
Definition cpu_set_intena (b : bool) (c : cpu_t) : cpu_t := mkCpu (c_id c) (ncli c) b (fl_if c).

Definition initlock : spinlock_t := mkSpin 0 None.

Definition pushcli (c : cpu_t) : cpu_t :=
  let eflags := fl_if c in
  let c := cpu_set_if false c in
  let c := if ncli c =? 0 then cpu_set_intena eflags c else c in
  cpu_set_ncli (ncli c + 1) c.

Definition popcli (c : cpu_t) : res cpu_t :=
  if fl_if c then Panic "popcli - interruptible"
  else
    let c := cpu_set_ncli (ncli c - 1) c in
    if ncli c <? 0 then Panic "popcli"
    else if (ncli c =? 0) && intena c then Ok (cpu_set_if true c)
    else Ok c.

(** [lock->locked && lock->cpu == mycpu()] between a pushcli and a popcli. *)
Definition holding (c : cpu_t) (lk : spinlock_t) : res (bool * cpu_t) :=
  let c := pushcli c in
  let r := negb (locked lk =? 0) && bool_decide (lk_cpu lk = Some (c_id c)) in
  match popcli c with
  | Ok c => Ok (r, c)
  | Panic m => Panic m
  | Sleep ch => Sleep ch
  | NoFuel => NoFuel
  end.

(** [acquire] run alone: it spins for ever ([Sleep]) when the lock is taken. *)
Definition acquire (c : cpu_t) (lk : spinlock_t) : res (cpu_t * spinlock_t) :=
  let c := pushcli c in
  match holding c lk with
  | Ok (true, _) => Panic "acquire"
  | Ok (false, c) =>
      if negb (locked lk =? 0) then Sleep "spin"
      else Ok (c, mkSpin 1 (Some (c_id c)))
  | Panic m => Panic m
  | Sleep ch => Sleep ch
  | NoFuel => NoFuel
  end.

Definition release (c : cpu_t) (lk : spinlock_t) : res (cpu_t * spinlock_t) :=
  match holding c lk with
  | Ok (false, _) => Panic "release"
  | Ok (true, c) =>
      let lk := mkSpin (locked lk) None in
      let lk := mkSpin 0 (lk_cpu lk) in
      match popcli c with
      | Ok c => Ok (c, lk)
      | Panic m => Panic m
      | Sleep ch => Sleep ch
      | NoFuel => NoFuel
      end
  | Panic m => Panic m
  | Sleep ch => Sleep ch
  | NoFuel => NoFuel
  end.

(** The nesting discipline: with [ncli > 0] interrupts are off. *)
Definition cpu_wf (c : cpu_t) : Prop :=
  0 <= ncli c /\ (0 < ncli c -> fl_if c = false).

Lemma pushcli_wf c : cpu_wf c -> cpu_wf (pushcli c) /\ 0 < ncli (pushcli c).
Proof. unfold cpu_wf, pushcli. intros [H _]. cbn. test_solver; cbn; split_and!; (lia || done). Qed.

(** A pushcli and its popcli cancel out on the interrupt flag and on [ncli];
    [intena] is a scratch cell that counts only while [ncli > 0]. *)
Lemma push_pop c :
  cpu_wf c ->
  exists c', popcli (pushcli c) = Ok c' /\ c_id c' = c_id c /\ ncli c' = ncli c /\
    fl_if c' = fl_if c /\ (0 < ncli c -> intena c' = intena c) /\
    (ncli c = 0 -> intena c' = fl_if c).
Proof.
  unfold cpu_wf, pushcli, popcli. intros [H0 Hif].
  destruct c as [id n ia fi]. cbn in *. destruct (Z.eqb_spec n 0) as [->|Hn]; cbn.
  - destruct fi; cbn; eexists; (split; [reflexivity|]); cbn; (split_and!; [done|lia|done|lia|done]).
  - rewrite Hif by lia. replace (n + 1 - 1) with n by lia.
    rewrite (proj2 (Z.ltb_ge n 0)) by lia. rewrite (proj2 (Z.eqb_neq n 0) Hn). cbn.
    eexists. split; [reflexivity|]. cbn. split_and!; (done || lia).
Qed.

Lemma cpu_eq c c' :
  c_id c = c_id c' -> ncli c = ncli c' -> intena c = intena c' -> fl_if c = fl_if c' -> c = c'.
Proof. destruct c, c'; cbn; by intros -> -> -> ->. Qed.

(** With [ncli > 0] the pair is the identity. *)
Lemma push_pop_nested c : cpu_wf c -> 0 < ncli c -> popcli (pushcli c) = Ok c.
Proof.
  intros Hwf Hn. destruct (push_pop c Hwf) as (c' & -> & Hid & Hnc & Hif & Hia & _).
  f_equal. apply cpu_eq; auto.
Qed.

Lemma holding_nested c lk :
  cpu_wf c -> 0 < ncli c ->
  holding c lk = Ok (negb (locked lk =? 0) && bool_decide (lk_cpu lk = Some (c_id c)), c).
Proof.
  intros Hwf Hn. unfold holding. rewrite push_pop_nested by done.
  by destruct c as [id n ia fi]; cbn; destruct (n =? 0).
Qed.

Arguments pushcli : simpl never.
Arguments popcli : simpl never.

(** an acquire and the matching release by a CPU in a legal interrupt
    state succeed on a free lock, leave the lock free and restore the CPU's
    nesting depth and interrupt flag; in between interrupts are off. *)
Theorem acquire_release_restores (c : cpu_t) (lk : spinlock_t) :
  cpu_wf c -> locked lk = 0 ->
  exists c1 lk1 c2 lk2,
    acquire c lk = Ok (c1, lk1) /\ fl_if c1 = false /\ locked lk1 = 1 /\
    holding c1 lk1 = Ok (true, c1) /\
    acquire c1 lk1 = Panic "acquire" /\
    release c1 lk1 = Ok (c2, lk2) /\ locked lk2 = 0 /\ lk_cpu lk2 = None /\
    ncli c2 = ncli c /\ fl_if c2 = fl_if c.
Proof.
  intros Hwf Hlk. destruct (pushcli_wf c Hwf) as [Hwf1 Hn1].
  assert (Hid : forall d, c_id (pushcli d) = c_id d)
    by (intros d; unfold pushcli; by destruct (ncli _ =? 0)).
  assert (Hacq : acquire c lk = Ok (pushcli c, mkSpin 1 (Some (c_id c)))).
  { unfold acquire. rewrite holding_nested by done. rewrite Hlk. cbn. by rewrite Hid. }
  assert (Hh : holding (pushcli c) (mkSpin 1 (Some (c_id c))) = Ok (true, pushcli c)).
  { rewrite holding_nested by done. cbn. rewrite Hid. by rewrite bool_decide_true. }
  destruct (push_pop c Hwf) as (c2 & Hpop & _ & Hnc & Hif & _).
  exists (pushcli c), (mkSpin 1 (Some (c_id c))), c2, (mkSpin 0 None).
  split_and!; try done.
  - by apply Hwf1.
  - destruct (pushcli_wf (pushcli c) Hwf1) as [Hwf2 Hn2].
    unfold acquire. rewrite holding_nested by done. cbn. rewrite !Hid.
    by rewrite bool_decide_true.
  - unfold release. rewrite Hh. cbn. by rewrite Hpop.
Qed.

Lemma acquire_release_restores_witness :
  exists c1 lk1 c2 lk2,
    acquire (mkCpu 3 0 false true) initlock = Ok (c1, lk1) /\ fl_if c1 = false /\
    locked lk1 = 1 /\ holding c1 lk1 = Ok (true, c1) /\
    acquire c1 lk1 = Panic "acquire" /\
    release c1 lk1 = Ok (c2, lk2) /\ locked lk2 = 0 /\ lk_cpu lk2 = None /\
    ncli c2 = 0 /\ fl_if c2 = true.
Proof.
  apply (acquire_release_restores (mkCpu 3 0 false true) initlock).
  - split; cbn; lia.
  - reflexivity.
Defined.

(** ** All interleavings of CPUs contending for one lock *)

(** Where a CPU is: in [acquire] (A_), in the critical section, in
    [release] (R_), or stopped by a panic.  [A_hold_rd] and [R_hold_rd] are
    inside [holding], between its read of [locked] and its read of [cpu]. *)
Inductive pc_t :=
| Idle | A_hold | A_hold_rd | A_spin | A_own | Crit
| R_hold | R_hold_rd | R_clr | R_unlock | R_pop | Dead.

#[export] Instance pc_eq_dec : EqDecision pc_t.
Proof. solve_decision. Defined.

Record machine := mkMachine { m_lock : spinlock_t; m_cpu : nat -> cpu_t; m_pc : nat -> pc_t }.

Definition fupd {A} (f : nat -> A) (i : nat) (x : A) : nat -> A :=
  fun j => if Nat.eqb i j then x else f j.

Definition at_pc (m : machine) (i : nat) (p : pc_t) : machine :=
  mkMachine (m_lock m) (m_cpu m) (fupd (m_pc m) i p).
Definition with_cpu (m : machine) (i : nat) (c : cpu_t) : machine :=
  mkMachine (m_lock m) (fupd (m_cpu m) i c) (m_pc m).
Definition with_lock (m : machine) (lk : spinlock_t) : machine :=
  mkMachine lk (m_cpu m) (m_pc m).

(** [popcli] of CPU [i], then on to [p]; a panic stops the CPU. *)
Definition pop_to (m : machine) (i : nat) (p : pc_t) : machine :=
  match popcli (m_cpu m i) with
  | Ok c => at_pc (with_cpu m i c) i p
  | _ => at_pc m i Dead
  end.

Definition push_to (m : machine) (i : nat) (p : pc_t) : machine :=
  at_pc (with_cpu m i (pushcli (m_cpu m i))) i p.

(** One step of CPU [i]. *)
Definition cpu_step (m : machine) (i : nat) : machine :=
  let lk := m_lock m in
  match m_pc m i with
  | Idle => push_to m i A_hold                        (* acquire: pushcli(); *)
  | A_hold =>                                         (* holding: read locked *)
      if locked lk =? 0 then pop_to (push_to m i A_hold) i A_spin
      else push_to m i A_hold_rd
  | A_hold_rd =>                                      (* holding: read cpu *)
      if bool_decide (lk_cpu lk = Some i) then at_pc m i Dead
      else pop_to m i A_spin
  | A_spin =>                                         (* xchg(&lk->locked, 1) *)
      at_pc (with_lock m (mkSpin 1 (lk_cpu lk))) i
        (if locked lk =? 0 then A_own else A_spin)
  | A_own => at_pc (with_lock m (mkSpin (locked lk) (Some i))) i Crit
  | Crit => at_pc m i R_hold
  | R_hold =>
      if locked lk =? 0 then at_pc m i Dead else push_to m i R_hold_rd
  | R_hold_rd =>
      if bool_decide (lk_cpu lk = Some i) then pop_to m i R_clr else at_pc m i Dead
  | R_clr => at_pc (with_lock m (mkSpin (locked lk) None)) i R_unlock
  | R_unlock => at_pc (with_lock m (mkSpin 0 (lk_cpu lk))) i R_pop
  | R_pop => pop_to m i Idle
  | Dead => m
  end.

Inductive mstep : machine -> machine -> Prop :=
| mstep_cpu m i : mstep m (cpu_step m i).

Definition minit (m : machine) : Prop :=
  m_lock m = initlock /\
  forall i, m_pc m i = Idle /\ c_id (m_cpu m i) = i /\ ncli (m_cpu m i) = 0.

(** Between the successful [xchg] and the store that releases the lock. *)
Definition in_cs (p : pc_t) : bool :=
  match p with A_own | Crit | R_hold | R_hold_rd | R_clr | R_unlock => true | _ => false end.
(** [lk->cpu] names the CPU. *)
Definition named (p : pc_t) : bool :=
  match p with Crit | R_hold | R_hold_rd | R_clr => true | _ => false end.
(** The depth of [pushcli] nesting the code has reached. *)
Definition depth (p : pc_t) : Z :=
  match p with Idle | Dead => 0 | A_hold_rd | R_hold_rd => 2 | _ => 1 end.

Record minv (m : machine) : Prop := {
  mi_alive : forall i, m_pc m i <> Dead;
  mi_depth : forall i, cpu_wf (m_cpu m i) /\ ncli (m_cpu m i) = depth (m_pc m i);
  mi_locked : forall i, in_cs (m_pc m i) = true -> locked (m_lock m) <> 0;
  mi_excl : forall i j, in_cs (m_pc m i) = true -> in_cs (m_pc m j) = true -> i = j;
  mi_named : forall i, lk_cpu (m_lock m) = Some i <-> named (m_pc m i) = true;
}.

Lemma minit_minv m : minit m -> minv m.
Proof.
  intros [Hlk Hi]. split.
  - intros i. by rewrite (proj1 (Hi i)).
  - intros i. destruct (Hi i) as (-> & _ & Hn). unfold cpu_wf. rewrite Hn. cbn. lia.
  - intros i. by rewrite (proj1 (Hi i)).
  - intros i j. by rewrite (proj1 (Hi i)).
  - intros i. rewrite (proj1 (Hi i)), Hlk. by cbn.
Qed.

(** A step of CPU [i] to [p'] that leaves the others alone. *)
Lemma minv_update m i lk c p' :
  minv m ->
  cpu_wf c -> ncli c = depth p' -> p' <> Dead ->
  (in_cs p' = true -> in_cs (m_pc m i) = false -> locked (m_lock m) = 0) ->
  (locked lk = 0 -> in_cs p' = false /\
     (locked (m_lock m) = 0 \/ in_cs (m_pc m i) = true)) ->
  (lk_cpu lk = lk_cpu (m_lock m) /\ named p' = named (m_pc m i) \/
   in_cs (m_pc m i) = true /\ lk_cpu lk = if named p' then Some i else None) ->
  minv (mkMachine lk (fupd (m_cpu m) i c) (fupd (m_pc m) i p')).
Proof.
  intros [Ha Hd Hl He Hn] Hwf Hc Hp Hcs Hlk Hnm.
  assert (Hother : forall j, in_cs (m_pc m i) = true -> i <> j -> in_cs (m_pc m j) = false).
  { intros j Hi Hne. destruct (in_cs (m_pc m j)) eqn:E; [|done].
    by destruct (Hne (He i j Hi E)). }
  assert (Hfree : forall j, locked (m_lock m) = 0 -> in_cs (m_pc m j) = false).
  { intros j H0. destruct (in_cs (m_pc m j)) eqn:E; [|done]. by destruct (Hl j E). }
  assert (Hncs : forall p, named p = true -> in_cs p = true) by (by intros []).
  split; cbn; unfold fupd.
  - intros j. by destruct (Nat.eqb_spec i j).
  - intros j. destruct (Nat.eqb_spec i j); [done|apply Hd].
  - intros j. destruct (Nat.eqb_spec i j) as [<-|Hne]; intros Hj H0.
    + destruct (Hlk H0). congruence.
    + destruct (Hlk H0) as [_ [H1|H1]].
      * by destruct (Hl j Hj).
      * rewrite (Hother j) in Hj by done. done.
  - assert (Hx : forall j, i <> j -> in_cs p' = true -> in_cs (m_pc m j) = true -> False).
    { intros j Hne Hp' Hj. destruct (in_cs (m_pc m i)) eqn:Ei.
      - by rewrite (Hother j) in Hj.
      - rewrite (Hfree j) in Hj; [done|]. by apply Hcs. }
    intros j k. destruct (Nat.eqb_spec i j) as [<-|Hj], (Nat.eqb_spec i k) as [<-|Hk]; intros.
    + done.
    + by destruct (Hx k).
    + by destruct (Hx j).
    + by apply He.
  - intros j. destruct Hnm as [[-> Hnm]|[Hi ->]].
    + rewrite Hn. destruct (Nat.eqb_spec i j) as [<-|]; [by rewrite Hnm|done].
    + destruct (Nat.eqb_spec i j) as [<-|Hne].
      * destruct (named p'); split; congruence.
      * assert (named (m_pc m j) = false) as ->.
        { destruct (named (m_pc m j)) eqn:E; [|done]. apply Hncs in E.
          by rewrite (Hother j) in E. }
        destruct (named p'); split; congruence.
Qed.

Lemma fupd_twice {A} (f : nat -> A) i x y j : fupd (fupd f i x) i y j = fupd f i y j.
Proof. unfold fupd. by destruct (Nat.eqb i j). Qed.

Lemma minv_ext m m' :
  m_lock m = m_lock m' -> (forall i, m_cpu m i = m_cpu m' i) ->
  (forall i, m_pc m i = m_pc m' i) -> minv m -> minv m'.
Proof.
  intros Hl Hc Hp [Ha Hd Hlo He Hn]. split.
  - intros i. rewrite <- Hp. apply Ha.
  - intros i. rewrite <- Hc, <- Hp. apply Hd.
  - intros i. rewrite <- Hp, <- Hl. apply Hlo.
  - intros i j. rewrite <- !Hp. apply He.
  - intros i. rewrite <- Hp, <- Hl. apply Hn.
Qed.

(** The invariant after a step that keeps the CPU's nesting depth. *)
Lemma minv_at_pc m i lk p' :
  minv m -> depth p' = depth (m_pc m i) -> p' <> Dead ->
  (in_cs p' = true -> in_cs (m_pc m i) = false -> locked (m_lock m) = 0) ->
  (locked lk = 0 -> in_cs p' = false /\
     (locked (m_lock m) = 0 \/ in_cs (m_pc m i) = true)) ->
  (lk_cpu lk = lk_cpu (m_lock m) /\ named p' = named (m_pc m i) \/
   in_cs (m_pc m i) = true /\ lk_cpu lk = if named p' then Some i else None) ->
  minv (at_pc (with_lock m lk) i p').
Proof.
  intros Hm Hdep Hp H1 H2 H3. destruct (mi_depth _ Hm i) as [Hwf Hc].
  eapply minv_ext; [| | |apply (minv_update m i lk (m_cpu m i) p'); try done; congruence];
    cbn; try done.
  intros j. unfold fupd. by destruct (Nat.eqb_spec i j) as [<-|].
Qed.

Lemma minv_push_to m i p' :
  minv m -> depth p' = depth (m_pc m i) + 1 -> p' <> Dead ->
  in_cs p' = in_cs (m_pc m i) -> named p' = named (m_pc m i) ->
  minv (push_to m i p').
Proof.
  intros Hm Hdep Hp H1 H2. destruct (mi_depth _ Hm i) as [Hwf Hc].
  apply (minv_update m i (m_lock m) (pushcli (m_cpu m i)) p'); try done.
  - by apply pushcli_wf.
  - rewrite Hdep, <- Hc. unfold pushcli. by destruct (ncli _ =? 0).
  - rewrite H1. congruence.
  - intros H0. split; [|by left]. rewrite H1.
    destruct (in_cs (m_pc m i)) eqn:E; [|done]. by destruct (mi_locked _ Hm i E).
  - by left.
Qed.

Lemma popcli_ok c : cpu_wf c -> 0 < ncli c ->
  exists c', popcli c = Ok c' /\ cpu_wf c' /\ ncli c' = ncli c - 1.
Proof.
  intros [H0 Hif] Hn. unfold popcli. rewrite Hif by done.
  destruct c as [id n ia fi]; cbn in *. rewrite (proj2 (Z.ltb_ge (n - 1) 0)) by lia.
  destruct (Z.eqb_spec (n - 1) 0), ia; cbn; eexists; (split; [reflexivity|]);
    unfold cpu_wf; cbn; split_and!; try lia; intros; by apply Hif || lia.
Qed.

Lemma minv_pop_to m i p' :
  minv m -> depth p' = depth (m_pc m i) - 1 -> 0 < depth (m_pc m i) -> p' <> Dead ->
  in_cs p' = in_cs (m_pc m i) -> named p' = named (m_pc m i) ->
  minv (pop_to m i p').
Proof.
  intros Hm Hdep Hd0 Hp H1 H2. destruct (mi_depth _ Hm i) as [Hwf Hc].
  unfold pop_to. destruct (popcli_ok (m_cpu m i)) as (c' & -> & Hwf' & Hn'); [done|lia|].
  apply (minv_update m i (m_lock m) c' p'); try done.
  - lia.
  - rewrite H1. congruence.
  - intros H0. split; [|by left]. rewrite H1.
    destruct (in_cs (m_pc m i)) eqn:E; [|done]. by destruct (mi_locked _ Hm i E).
  - by left.
Qed.

Lemma with_lock_same m : with_lock m (m_lock m) = m.
Proof. by destruct m. Qed.

Lemma minv_step m i : minv m -> minv (cpu_step m i).
Proof.
  intros Hm. unfold cpu_step. destruct (m_pc m i) eqn:Epc.
  - apply minv_push_to; try done; by rewrite Epc.
  - destruct (Z.eqb_spec (locked (m_lock m)) 0) as [E|E].
    + assert (Hpush : m_pc (push_to m i A_hold) i = A_hold)
        by (cbn; unfold fupd; by rewrite Nat.eqb_refl).
      assert (Hcpu : m_cpu (push_to m i A_hold) i = pushcli (m_cpu m i))
        by (cbn; unfold fupd; by rewrite Nat.eqb_refl).
      destruct (mi_depth _ Hm i) as [Hwf Hc]. rewrite Epc in Hc. cbn in Hc.
      unfold pop_to. rewrite Hcpu, push_pop_nested by (done || lia).
      eapply minv_ext; [| | |apply (minv_at_pc m i (m_lock m) A_spin); rewrite ?Epc; try done].
      * done.
      * intros j. cbn. rewrite fupd_twice. unfold fupd.
        by destruct (Nat.eqb_spec i j) as [<-|].
      * intros j. cbn. by rewrite fupd_twice.
      * intros _. by split; [|left].
      * by left.
    + apply minv_push_to; try done; by rewrite Epc.
  - rewrite bool_decide_false.
    + apply minv_pop_to; try done; by rewrite Epc.
    + rewrite (mi_named _ Hm). by rewrite Epc.
  - destruct (Z.eqb_spec (locked (m_lock m)) 0) as [E|E];
      apply minv_at_pc; rewrite ?Epc; try done; by left.
  - apply minv_at_pc; rewrite ?Epc; try done.
    + intros H0. exfalso. apply (mi_locked _ Hm i); [by rewrite Epc|done].
    + by right.
  - rewrite <- (with_lock_same m) at 1. apply minv_at_pc; rewrite ?Epc; try done.
    + intros H0. exfalso. apply (mi_locked _ Hm i); [by rewrite Epc|done].
    + by left.
  - assert (Hl : locked (m_lock m) <> 0) by (apply (mi_locked _ Hm i); by rewrite Epc).
    rewrite (proj2 (Z.eqb_neq _ _) Hl). apply minv_push_to; try done; by rewrite Epc.
  - rewrite bool_decide_true.
    + apply minv_pop_to; try done; by rewrite Epc.
    + apply (mi_named _ Hm). by rewrite Epc.
  - apply minv_at_pc; rewrite ?Epc; try done.
    + intros H0. exfalso. apply (mi_locked _ Hm i); [by rewrite Epc|done].
    + by right.
  - apply minv_at_pc; rewrite ?Epc; try done.
    + intros _. split; [done|by right].
    + by left.
  - apply minv_pop_to; try done; by rewrite Epc.
  - by destruct (mi_alive _ Hm i).
Qed.

(** C34: mutual exclusion. In every interleaving of any number of CPUs that
    acquire and release the lock, at most one CPU is between its successful
    [xchg] and the store that frees the lock, interrupts are off on that CPU,
    [lk->cpu] names only a CPU that holds the lock, and no CPU panics. *)
Theorem spinlock_mutual_exclusion (m0 m : machine) :
  minit m0 -> star mstep m0 m ->
  (forall i j, in_cs (m_pc m i) = true -> in_cs (m_pc m j) = true -> i = j) /\
  (forall i, in_cs (m_pc m i) = true -> fl_if (m_cpu m i) = false) /\
  (forall i, lk_cpu (m_lock m) = Some i -> in_cs (m_pc m i) = true) /\
  (forall i, m_pc m i <> Dead).
Proof.
  intros H0 Hs. assert (minv m) as Hm.
  { apply (star_invariant mstep minv) with (a := m0); [|exact Hs|by apply minit_minv].
    intros a b Ha Hst. inversion Hst; subst. by apply minv_step. }
  split_and!.
  - apply (mi_excl _ Hm).
  - intros i Hi. destruct (mi_depth _ Hm i) as [[_ Hif] Hd]. apply Hif. rewrite Hd.
    by destruct (m_pc m i).
  - intros i Hi%(mi_named _ Hm). by destruct (m_pc m i).
  - apply (mi_alive _ Hm).
Qed.

(** A schedule names the CPU of each step. *)
Lemma mstep_schedule l m : star mstep m (fold_left cpu_step l m).
Proof.
  revert m. induction l as [|i l IH]; intros m; [apply star_refl|].
  eapply star_step; [apply (mstep_cpu m i)|apply IH].
Qed.

Definition demo_machine : machine :=
  mkMachine initlock (fun i => mkCpu i 0 false true) (fun _ => Idle).

(** CPU 0 in the critical section while CPU 1 spins. *)
Definition demo_contended : machine :=
  fold_left cpu_step [0; 0; 1; 0; 0; 1; 1; 1]%nat demo_machine.

Lemma spinlock_mutual_exclusion_witness :
  (forall i j, in_cs (m_pc demo_contended i) = true ->
     in_cs (m_pc demo_contended j) = true -> i = j) /\
  (forall i, in_cs (m_pc demo_contended i) = true -> fl_if (m_cpu demo_contended i) = false) /\
  (forall i, lk_cpu (m_lock demo_contended) = Some i ->
     in_cs (m_pc demo_contended i) = true) /\
  (forall i, m_pc demo_contended i <> Dead).
Proof.
  apply (spinlock_mutual_exclusion demo_machine demo_contended).
  - split; [reflexivity|]. intros i. split_and!; reflexivity.
  - apply mstep_schedule.
Defined.
