(* ===== verification/Sleeplock.v ===== *)
(** * Sleep locks (src/xv6/sleeplock.c)

    [lk->lk] is held over each function except in [sleep], so a function is
    one atomic step up to its return or its [sleep].  The functions below are
    what the buffer cache and the inode layer call; the machine at the end
    runs any number of processes on one lock. *)

From S2P Require Import Prelude.

(** [struct sleeplock]; [pid] is the process that holds the lock. *)
Record sleeplock := mkSleeplock { sl_locked : bool; sl_pid : Z }.

Definition initsleeplock : sleeplock := mkSleeplock false 0.

(** [acquiresleep] up to its return or to the [sleep] in its loop. *)
Definition acquiresleep (pid : Z) (lk : sleeplock) : res sleeplock :=
  if sl_locked lk then Sleep "sleeplock" else Ok (mkSleeplock true pid).

Definition releasesleep (lk : sleeplock) : sleeplock := mkSleeplock false 0.

Definition holdingsleep (pid : Z) (lk : sleeplock) : bool :=
  sl_locked lk && (sl_pid lk =? pid).
Arguments holdingsleep : simpl never.

(** ** Processes on one lock *)

Inductive sstatus := SOut | SWaiting | SAsleep | SHolds.

Record ssys := mkSsys { s_lock : sleeplock; s_proc : Z -> sstatus }.

Definition sset (f : Z -> sstatus) (p : Z) (x : sstatus) : Z -> sstatus :=
  fun q => if q =? p then x else f q.

(** [wakeup(lk)]: a process asleep in [acquiresleep] is at its loop test again. *)
Definition swake (f : Z -> sstatus) : Z -> sstatus :=
  fun q => match f q with SAsleep => SWaiting | x => x end.

(** Process [p] is at the loop test of [acquiresleep]. *)
Definition try_acquire (s : ssys) (p : Z) : ssys :=
  match acquiresleep p (s_lock s) with
  | Ok lk => mkSsys lk (sset (s_proc s) p SHolds)
  | _ => mkSsys (s_lock s) (sset (s_proc s) p SAsleep)
  end.

Definition do_release (s : ssys) (p : Z) : ssys :=
  mkSsys (releasesleep (s_lock s)) (sset (swake (s_proc s)) p SOut).

Inductive sstep : ssys -> ssys -> Prop :=
| ss_call s p : s_proc s p = SOut -> sstep s (mkSsys (s_lock s) (sset (s_proc s) p SWaiting))
| ss_try s p : s_proc s p = SWaiting -> sstep s (try_acquire s p)
| ss_release s p : s_proc s p = SHolds -> sstep s (do_release s p).

Definition ssys_init : ssys := mkSsys initsleeplock (fun _ => SOut).

Record sinv (s : ssys) : Prop := {
  si_holds : forall p, s_proc s p = SHolds <-> holdingsleep p (s_lock s) = true;
  si_sleep : forall p, s_proc s p = SAsleep -> sl_locked (s_lock s) = true;
}.

Lemma sset_cases (P : sstatus -> Prop) f p x q :
  (q = p -> P x) -> (q <> p -> P (f q)) -> P (sset f p x q).
Proof. unfold sset. destruct (Z.eqb_spec q p); auto. Qed.

Lemma holdingsleep_true pid lk :
  holdingsleep pid lk = true <-> sl_locked lk = true /\ sl_pid lk = pid.
Proof. unfold holdingsleep. rewrite andb_true_iff, Z.eqb_eq. done. Qed.

Lemma sstep_sinv s s' : sinv s -> sstep s s' -> sinv s'.
Proof.
  intros [Hh Hs] Hst. destruct Hst as [s p Hp|s p Hp|s p Hp].
  - split; cbn.
    + intros q. apply (sset_cases (fun x => x = SHolds <-> _)); [intros ->|auto].
      rewrite <- Hh, Hp. done.
    + intros q. apply (sset_cases (fun x => x = SAsleep -> _)); [done|]. intros _. apply Hs.
  - unfold try_acquire, acquiresleep. destruct (sl_locked (s_lock s)) eqn:El; split; cbn.
    + intros q. apply (sset_cases (fun x => x = SHolds <-> _)); [intros ->|auto].
      rewrite <- Hh, Hp. done.
    + done.
    + intros q. apply (sset_cases (fun x => x = SHolds <-> _)).
      * intros ->. rewrite holdingsleep_true. done.
      * intros Hne. rewrite Hh, !holdingsleep_true. cbn. rewrite El.
        split; [by intros [? _] | intros [_ ?]; congruence].
    + done.
  - split; cbn.
    + intros q. apply (sset_cases (fun x => x = SHolds <-> _)); [done|]. intros Hne.
      unfold swake. apply Hh, holdingsleep_true in Hp as [_ Hp].
      destruct (s_proc s q) eqn:Eq; try done.
      apply Hh, holdingsleep_true in Eq as [_ Eq]. congruence.
    + intros q. apply (sset_cases (fun x => x = SAsleep -> _)); [done|]. intros _.
      unfold swake. by destruct (s_proc s q).
Qed.

(** C38: in every interleaving of [acquiresleep] and [releasesleep] by any
    number of processes, at most one process holds the lock, [holdingsleep]
    answers for the process that asks, and a process sleeps in
    [acquiresleep] only while another holds the lock. *)
Theorem sleeplock_correct (s : ssys) :
  star sstep ssys_init s ->
  (forall p q, s_proc s p = SHolds -> s_proc s q = SHolds -> p = q) /\
  (forall p, s_proc s p = SHolds <-> holdingsleep p (s_lock s) = true) /\
  (forall p, s_proc s p = SAsleep -> s_proc s (sl_pid (s_lock s)) = SHolds).
Proof.
  intros Hst. assert (sinv s) as [Hh Hs].
  { eapply star_invariant; [apply sstep_sinv|exact Hst|]. by split. }
  split_and!; [|done|].
  - intros p q Hp%Hh Hq%Hh. apply holdingsleep_true in Hp as [_ Hp], Hq as [_ Hq].
    congruence.
  - intros p Hp%Hs. by apply Hh, holdingsleep_true.
Qed.

Lemma sleeplock_correct_witness :
  let s := mkSsys (s_lock ssys_init) (sset (s_proc ssys_init) 5 SWaiting) in
  (forall p q, s_proc (try_acquire s 5) p = SHolds -> s_proc (try_acquire s 5) q = SHolds -> p = q) /\
  (forall p, s_proc (try_acquire s 5) p = SHolds <->
             holdingsleep p (s_lock (try_acquire s 5)) = true) /\
  (forall p, s_proc (try_acquire s 5) p = SAsleep ->
             s_proc (try_acquire s 5) (sl_pid (s_lock (try_acquire s 5))) = SHolds).
Proof.
  intros s. apply (sleeplock_correct (try_acquire s 5)).
  eapply star_step; [apply (ss_call _ 5); reflexivity|].
  eapply star_step; [apply (ss_try _ 5); reflexivity|]. apply star_refl.
Defined.
