(* ===== verification/Pipe.v ===== *)
(** * Pipes (src/xv6/pipe.c)

    A pipe is a ring of [PIPESIZE] bytes with two 32-bit counters that are
    never reset.  [p->lock] is held from the entry of each function to its
    return or its [sleep], so the code between two sleeps is one atomic step:
    [pipewrite] and [piperead] are functions that run from a loop test to the
    return value or to the next [sleep], and report the channels they wake.
    The second part puts any number of processes on one pipe. *)

From S2P Require Import Prelude.

Definition PIPESIZE : Z := 512.

Record pipe_t := mkPipe {
  data : list Z;
  nread : Z;          (* number of bytes read *)
  nwrite : Z;         (* number of bytes written *)
  readopen : bool;    (* read fd is still open *)
  writeopen : bool;   (* write fd is still open *)
}.

(** The two sleep channels, [&p->nread] and [&p->nwrite]. *)
Inductive chan := NREAD | NWRITE.

#[export] Instance chan_eq_dec : EqDecision chan.
Proof. solve_decision. Defined.

(** The fields [pipealloc] initialises; the page comes from [kalloc] with
    whatever [data] it holds. *)
Definition pipe_init (data : list Z) : pipe_t := mkPipe data 0 0 true true.

(** [p->data[p->nwrite++ % PIPESIZE] = b] *)
Definition pipe_put (p : pipe_t) (b : Z) : pipe_t :=
  mkPipe (upd (data p) (nwrite p mod PIPESIZE) b) (nread p) (u32 (nwrite p + 1))
    (readopen p) (writeopen p).

(** [p->data[p->nread++ % PIPESIZE]] *)
Definition pipe_get (p : pipe_t) : Z * pipe_t :=
  (rd (data p) (nread p mod PIPESIZE),
   mkPipe (data p) (u32 (nread p + 1)) (nwrite p) (readopen p) (writeopen p)).

(** Where a call stops: it returns, or it sleeps on a channel with the
    arguments of the loop it will resume. *)
Inductive wout := WDone (r : Z) | WSleep (rest : list Z).
Inductive rout := RDone (r : Z) (bytes : list Z) | RSleep.

(** The [for] loop of [pipewrite]: [rest] is [addr[i..n-1]]. *)
Fixpoint pipewrite_loop (killed : bool) (n : Z) (p : pipe_t) (rest : list Z)
    : pipe_t * wout * list chan :=
  match rest with
  | [] => (p, WDone n, [NREAD])
  | b :: rest' =>
      if nwrite p =? u32 (nread p + PIPESIZE) then
        if negb (readopen p) || killed then (p, WDone (-1), [])
        else (p, WSleep rest, [NREAD])
      else pipewrite_loop killed n (pipe_put p b) rest'
  end.

Definition pipewrite (killed : bool) (p : pipe_t) (addr : list Z)
    : pipe_t * wout * list chan :=
  pipewrite_loop killed (lenZ addr) p addr.

(** The copy loop of [piperead]. *)
Fixpoint piperead_copy (p : pipe_t) (n : nat) : pipe_t * list Z :=
  match n with
  | O => (p, [])
  | S n' =>
      if nread p =? nwrite p then (p, [])
      else
        let '(b, p') := pipe_get p in
        let '(p'', bs) := piperead_copy p' n' in
        (p'', b :: bs)
  end.

Definition piperead (killed : bool) (p : pipe_t) (n : Z) : pipe_t * rout * list chan :=
  if (nread p =? nwrite p) && writeopen p then
    if killed then (p, RDone (-1) [], [])
    else (p, RSleep, [])
  else
    let '(p', bs) := piperead_copy p (Z.to_nat n) in
    (p', RDone (lenZ bs) bs, [NWRITE]).

(** The boolean says whether the page of the pipe is freed. *)
Definition pipeclose (p : pipe_t) (writable : bool) : pipe_t * list chan * bool :=
  let '(p, w) :=
    if writable then (mkPipe (data p) (nread p) (nwrite p) (readopen p) false, [NREAD])
    else (mkPipe (data p) (nread p) (nwrite p) false (writeopen p), [NWRITE]) in
  (p, w, negb (readopen p) && negb (writeopen p)).

(** ** Processes on a pipe *)

Inductive pstatus := PRun | PAsleep (c : chan).
Inductive pjob :=
| JIdle                          (* not in a pipe call *)
| JWrite (n : Z) (rest : list Z) (* in pipewrite, at its loop test *)
| JRead (n : Z).                 (* in piperead, at its first loop *)

Record pproc := mkProc { p_status : pstatus; p_job : pjob; p_killed : bool }.

(** [hw] and [hr] record the bytes ever put in and taken out of the pipe. *)
Record psys := mkSys { pp : pipe_t; procs : nat -> pproc; hw : list Z; hr : list Z }.

(** [wakeup]: every process asleep on one of the channels can run again. *)
Definition wake (cs : list chan) (f : nat -> pproc) : nat -> pproc :=
  fun i => match p_status (f i) with
           | PAsleep c => if bool_decide (c ∈ cs)
                          then mkProc PRun (p_job (f i)) (p_killed (f i)) else f i
           | PRun => f i
           end.

Definition set_proc (f : nat -> pproc) (i : nat) (q : pproc) : nat -> pproc :=
  fun j => if Nat.eqb i j then q else f j.

(** Process [i] runs [pipewrite] from its loop test.  The history records the
    bytes by which [nwrite] advanced. *)
Definition do_write (s : psys) (i : nat) (n : Z) (rest : list Z) : psys :=
  let k := p_killed (procs s i) in
  let '(p', out, wk) := pipewrite_loop k n (pp s) rest in
  mkSys p'
    (set_proc (wake wk (procs s)) i
       match out with
       | WDone _ => mkProc PRun JIdle k
       | WSleep r => mkProc (PAsleep NWRITE) (JWrite n r) k
       end)
    (hw s ++ take (Z.to_nat (u32 (nwrite p' - nwrite (pp s)))) rest) (hr s).

(** Process [i] runs [piperead] from its first loop. *)
Definition do_read (s : psys) (i : nat) (n : Z) : psys :=
  let k := p_killed (procs s i) in
  let '(p', out, wk) := piperead k (pp s) n in
  mkSys p'
    (set_proc (wake wk (procs s)) i
       match out with
       | RDone _ _ => mkProc PRun JIdle k
       | RSleep => mkProc (PAsleep NREAD) (JRead n) k
       end)
    (hw s) (hr s ++ match out with RDone _ bs => bs | RSleep => [] end).

Definition do_close (s : psys) (w : bool) : psys :=
  let '(p', wk, _) := pipeclose (pp s) w in
  mkSys p' (wake wk (procs s)) (hw s) (hr s).

(** [kill] (proc.c): mark the process and make it runnable. *)
Definition do_kill (s : psys) (i : nat) : psys :=
  mkSys (pp s) (set_proc (procs s) i (mkProc PRun (p_job (procs s i)) true)) (hw s) (hr s).

(** The end of the pipe ([true]: write end) a process is using. *)
Definition uses (q : pproc) (w : bool) : bool :=
  match p_job q with
  | JIdle => false
  | JWrite _ _ => w
  | JRead _ => negb w
  end.

(** A process in a call has the file open, so [fileclose] reaches
    [pipeclose] for an end only when no call on that end is running. *)
Inductive pstep : psys -> psys -> Prop :=
| ps_write s i addr :
    p_status (procs s i) = PRun -> p_job (procs s i) = JIdle ->
    writeopen (pp s) = true ->
    pstep s (do_write s i (lenZ addr) addr)
| ps_write_again s i n rest :
    p_status (procs s i) = PRun -> p_job (procs s i) = JWrite n rest ->
    pstep s (do_write s i n rest)
| ps_read s i n :
    p_status (procs s i) = PRun -> p_job (procs s i) = JIdle ->
    readopen (pp s) = true ->
    pstep s (do_read s i n)
| ps_read_again s i n :
    p_status (procs s i) = PRun -> p_job (procs s i) = JRead n ->
    pstep s (do_read s i n)
| ps_close s w :
    (forall i, uses (procs s i) w = false) ->
    pstep s (do_close s w).

(** The same with signals. *)
Inductive pstep_kill : psys -> psys -> Prop :=
| pk_step s s' : pstep s s' -> pstep_kill s s'
| pk_kill s i : pstep_kill s (do_kill s i).

Definition psys_init (data : list Z) : psys :=
  mkSys (pipe_init data) (fun _ => mkProc PRun JIdle false) [] [].

(** ** The ring as a queue *)

Definition qlen (p : pipe_t) : Z := u32 (nwrite p - nread p).
Definition queue (p : pipe_t) : list Z :=
  (fun k => rd (data p) ((nread p + Z.of_nat k) mod PIPESIZE)) <$> seq 0 (Z.to_nat (qlen p)).

Record pipe_wf (p : pipe_t) : Prop := {
  pw_data : lenZ (data p) = PIPESIZE;
  pw_nread : 0 <= nread p < UINT_LIM;
  pw_nwrite : 0 <= nwrite p < UINT_LIM;
  pw_len : qlen p <= PIPESIZE;
}.

Lemma queue_length p : lenZ (queue p) = qlen p.
Proof.
  unfold lenZ, queue. rewrite length_fmap, length_seq, Z2Nat.id; [done|].
  apply u32_range.
Qed.

Lemma pipe_full_iff p :
  pipe_wf p -> (nwrite p =? u32 (nread p + PIPESIZE)) = (qlen p =? PIPESIZE).
Proof.
  intros [_ Hr Hw Hl]. unfold qlen, u32, UINT_LIM, PIPESIZE in *.
  apply eq_bool_prop_intro. rewrite !Is_true_true, !Z.eqb_eq. zlia.
Qed.

Lemma pipe_empty_iff p : pipe_wf p -> (nread p =? nwrite p) = (qlen p =? 0).
Proof.
  intros [_ Hr Hw Hl]. unfold qlen, u32, UINT_LIM, PIPESIZE in *.
  apply eq_bool_prop_intro. rewrite !Is_true_true, !Z.eqb_eq. zlia.
Qed.

(** The position of a byte in the ring survives the overflow of the counter
    because [PIPESIZE] divides 2^32. *)
Lemma ring_pos z : u32 z mod PIPESIZE = z mod PIPESIZE.
Proof. apply u32_mod_div; [unfold PIPESIZE; lia|]. by exists 8388608. Qed.

Lemma qlen_put p b :
  pipe_wf p -> qlen p < PIPESIZE -> qlen (pipe_put p b) = qlen p + 1.
Proof.
  intros [_ Hr Hw Hl] Hlt. unfold qlen, pipe_put in *. cbn [nread nwrite] in *.
  rewrite u32_sub_l. replace (nwrite p + 1 - nread p) with (nwrite p - nread p + 1) by lia.
  rewrite <- u32_add_l. apply u32_small. pose proof (u32_range (nwrite p - nread p)).
  unfold PIPESIZE in *. lia.
Qed.

Lemma pipe_put_wf p b : pipe_wf p -> qlen p < PIPESIZE -> pipe_wf (pipe_put p b).
Proof.
  intros Hp Hlt. pose proof (qlen_put p b Hp Hlt). destruct Hp as [Hd Hr Hw Hl].
  split; [| | |lia]; unfold pipe_put; cbn [data nread nwrite].
  - by rewrite upd_lenZ.
  - done.
  - apply u32_range.
Qed.

Lemma queue_put p b :
  pipe_wf p -> qlen p < PIPESIZE -> queue (pipe_put p b) = queue p ++ [b].
Proof.
  intros Hp Hlt. unfold queue at 1. rewrite qlen_put by done.
  destruct Hp as [Hd Hr Hw Hl]. pose proof (u32_range (nwrite p - nread p)) as Hq.
  fold (qlen p) in Hq. rewrite Z2Nat.inj_add by lia.
  change (Z.to_nat 1) with 1%nat. rewrite seq_app, fmap_app. cbn [fmap list_fmap seq].
  assert (Hpos : (nread p + Z.of_nat (Z.to_nat (qlen p))) mod PIPESIZE
                 = nwrite p mod PIPESIZE).
  { rewrite Z2Nat.id by lia. rewrite <- ring_pos. unfold qlen. rewrite u32_add_r.
    rewrite ring_pos. f_equal. lia. }
  assert (H0 : forall z, 0 <= z mod PIPESIZE < PIPESIZE)
    by (intros; apply Z.mod_pos_bound; unfold PIPESIZE; lia).
  f_equal.
  - apply list_fmap_ext. intros i k Hk. apply lookup_seq in Hk as [-> Hi].
    cbn [data nread pipe_put]. rewrite rd_upd; [|by rewrite Hd|apply H0].
    rewrite (proj2 (Z.eqb_neq _ _)); [done|]. rewrite <- Hpos.
    rewrite Z2Nat.id by lia. unfold PIPESIZE in *. zlia.
  - cbn [data nread pipe_put]. rewrite Nat.add_0_l, Hpos. f_equal.
    apply rd_upd_eq. by rewrite Hd.
Qed.

Lemma pipe_get_spec p :
  pipe_wf p -> 0 < qlen p ->
  pipe_wf (pipe_get p).2 /\ queue p = (pipe_get p).1 :: queue (pipe_get p).2 /\
  qlen (pipe_get p).2 = qlen p - 1.
Proof.
  intros Hp Hlt. unfold pipe_get. cbn [fst snd].
  set (p' := mkPipe _ _ _ _ _).
  assert (Hq : qlen p' = qlen p - 1).
  { unfold qlen, p'. cbn. rewrite u32_sub_r.
    replace (nwrite p - (nread p + 1)) with (nwrite p - nread p - 1) by lia.
    rewrite <- u32_sub_l. apply u32_small. fold (qlen p). split; [lia|].
    pose proof (u32_range (nwrite p - nread p)). fold (qlen p) in *. lia. }
  split_and!; [|  |done].
  - destruct Hp as [Hd Hr Hw Hl]. split; cbn; try done; [apply u32_range|lia].
  - unfold queue. rewrite Hq. replace (Z.to_nat (qlen p)) with (S (Z.to_nat (qlen p - 1))) by lia.
    cbn [seq fmap list_fmap]. f_equal.
    + by rewrite Z.add_0_r.
    + rewrite <- fmap_S_seq, <- list_fmap_compose. apply list_fmap_ext.
      intros i k _. cbn. f_equal. rewrite <- (ring_pos (u32 _ + _)), u32_add_l, ring_pos.
      f_equal. lia.
Qed.

Lemma nwrite_u32 p : pipe_wf p -> nwrite p = u32 (nwrite p + 0).
Proof. intros Hp. rewrite Z.add_0_r. symmetry. apply u32_small, (pw_nwrite _ Hp). Qed.
Lemma nread_u32 p : pipe_wf p -> nread p = u32 (nread p + 0).
Proof. intros Hp. rewrite Z.add_0_r. symmetry. apply u32_small, (pw_nread _ Hp). Qed.

(** What a run of the write loop does: it appends a prefix [done] of the
    bytes and stops because all are written, because the pipe is full and
    the call fails, or because the pipe is full and it sleeps. *)
Record write_run (k : bool) (n : Z) (p : pipe_t) (rest : list Z)
    (p' : pipe_t) (out : wout) (wk : list chan) (done left : list Z) : Prop := {
  wr_split : rest = done ++ left;
  wr_wf : pipe_wf p';
  wr_queue : queue p' = queue p ++ done;
  wr_nwrite : nwrite p' = u32 (nwrite p + lenZ done);
  wr_nread : nread p' = nread p;
  wr_open : readopen p' = readopen p /\ writeopen p' = writeopen p;
  wr_out :
    (out = WDone n /\ left = [] /\ wk = [NREAD]) \/
    (out = WDone (-1) /\ left <> [] /\ wk = [] /\ qlen p' = PIPESIZE /\
       (readopen p = false \/ k = true)) \/
    (out = WSleep left /\ left <> [] /\ wk = [NREAD] /\ qlen p' = PIPESIZE /\
       readopen p = true);
}.

Lemma pipewrite_loop_spec k n p rest :
  pipe_wf p ->
  exists p' out wk done left,
    pipewrite_loop k n p rest = (p', out, wk) /\
    write_run k n p rest p' out wk done left.
Proof.
  revert p. induction rest as [|b rest IH]; intros p Hp; cbn [pipewrite_loop].
  - exists p, (WDone n), [NREAD], [], []. split; [done|].
    split; try done; [by rewrite app_nil_r|by apply nwrite_u32|by left].
  - rewrite pipe_full_iff by done. destruct (Z.eqb_spec (qlen p) PIPESIZE) as [E|E].
    + assert (Hnw : nwrite p = u32 (nwrite p + lenZ (@nil Z))).
      { by apply nwrite_u32. }
      destruct (negb (readopen p) || k) eqn:Er.
      * exists p, (WDone (-1)), [], [], (b :: rest). split; [done|].
        split; try done; [by rewrite app_nil_r|]. right; left. split_and!; try done.
        bool_to_prop; auto.
      * exists p, (WSleep (b :: rest)), [NREAD], [], (b :: rest). split; [done|].
        split; try done; [by rewrite app_nil_r|]. right; right.
        bool_to_prop. split_and!; done.
    + assert (Hlt : qlen p < PIPESIZE) by (pose proof (pw_len _ Hp); lia).
      destruct (IH (pipe_put p b) (pipe_put_wf p b Hp Hlt))
        as (p' & out & wk & done & left & Heq & [H1 H2 H3 H4 H5 H6 H7]).
      exists p', out, wk, (b :: done), left. split; [done|].
      split; try done.
      * by rewrite H1.
      * rewrite H3, queue_put by done. by rewrite <- app_assoc.
      * rewrite H4. cbn [pipe_put nwrite]. rewrite u32_add_l. f_equal.
        unfold lenZ. cbn. lia.
Qed.

(** What the copy loop of [piperead] does. *)
Lemma piperead_copy_spec p n :
  pipe_wf p ->
  exists p' bs,
    piperead_copy p n = (p', bs) /\ pipe_wf p' /\ queue p = bs ++ queue p' /\
    nwrite p' = nwrite p /\ nread p' = u32 (nread p + lenZ bs) /\
    readopen p' = readopen p /\ writeopen p' = writeopen p /\
    (length bs <= n)%nat /\ (length bs < n -> queue p' = [])%nat.
Proof.
  revert p. induction n as [|n IH]; intros p Hp; cbn [piperead_copy].
  - exists p, []. split_and!; try done; [by apply nread_u32|lia].
  - rewrite pipe_empty_iff by done. destruct (Z.eqb_spec (qlen p) 0) as [E|E].
    + exists p, []. split_and!; try done.
      * by apply nread_u32.
      * cbn. lia.
      * intros _. unfold queue. by rewrite E.
    + assert (Hlt : 0 < qlen p) by (pose proof (u32_range (nwrite p - nread p));
        unfold qlen in *; lia).
      destruct (pipe_get_spec p Hp Hlt) as (Hp1 & Hq & _).
      destruct (pipe_get p) as [b p1] eqn:Eg. cbn [fst snd] in *.
      destruct (IH p1 Hp1) as (p' & bs & -> & Hp' & Hq' & Hw & Hr & Hro & Hwo & Hl & Hlt').
      unfold pipe_get in Eg. injection Eg as <- <-. cbn in Hw, Hr, Hro, Hwo.
      eexists p', _. split_and!; [done|done| |done| |done|done| |].
      * rewrite Hq, Hq'. done.
      * rewrite Hr, u32_add_l. f_equal. unfold lenZ. cbn. lia.
      * cbn. lia.
      * cbn. intros. apply Hlt'. lia.
Qed.

(** ** First in, first out *)

(** The histories against the ring. *)
Record pinv (s : psys) : Prop := {
  pi_wf : pipe_wf (pp s);
  pi_fifo : hw s = hr s ++ queue (pp s);
  pi_nwrite : nwrite (pp s) = u32 (lenZ (hw s));
  pi_nread : nread (pp s) = u32 (lenZ (hr s));
}.

Lemma do_write_pinv s i n rest : pinv s -> pinv (do_write s i n rest).
Proof.
  intros [Hwf Hf Hw Hr]. unfold do_write.
  destruct (pipewrite_loop_spec (p_killed (procs s i)) n (pp s) rest Hwf)
    as (p' & out & wk & done & left & -> & [H1 H2 H3 H4 H5 H6 H7]).
  assert (Hlen : Z.to_nat (u32 (nwrite p' - nwrite (pp s))) = length done).
  { rewrite H4, u32_sub_l. replace (nwrite (pp s) + lenZ done - nwrite (pp s))
      with (lenZ done) by lia.
    pose proof (queue_length p') as Hq. rewrite H3, lenZ_app in Hq.
    pose proof (pw_len _ H2). pose proof (lenZ_nonneg (queue (pp s))).
    pose proof (lenZ_nonneg done). unfold PIPESIZE in *.
    rewrite u32_small by lia. unfold lenZ. lia. }
  split; cbn [pp hw hr]; rewrite ?Hlen, ?H1, ?take_app_length.
  - done.
  - by rewrite H3, Hf, app_assoc.
  - rewrite H4, Hw, u32_add_l, lenZ_app. done.
  - congruence.
Qed.

Lemma do_read_pinv s i n : pinv s -> pinv (do_read s i n).
Proof.
  intros [Hwf Hf Hw Hr]. unfold do_read, piperead.
  destruct ((nread (pp s) =? nwrite (pp s)) && writeopen (pp s)).
  - destruct (p_killed _); split; cbn [pp hw hr]; rewrite ?app_nil_r; done.
  - destruct (piperead_copy_spec (pp s) (Z.to_nat n) Hwf)
      as (p' & bs & -> & Hp' & Hq & Hnw & Hnr & _).
    split; cbn [pp hw hr].
    + done.
    + by rewrite Hf, Hq, app_assoc.
    + congruence.
    + rewrite Hnr, Hr, u32_add_l, lenZ_app. done.
Qed.

Lemma do_close_pinv s w : pinv s -> pinv (do_close s w).
Proof.
  intros [[Hd Hrr Hww Hl] Hf Hw Hr]. unfold do_close, pipeclose. destruct w; by split.
Qed.

Lemma pstep_kill_pinv s s' : pinv s -> pstep_kill s s' -> pinv s'.
Proof.
  intros Hi Hs. destruct Hs as [s s' Hs|s i].
  - destruct Hs; auto using do_write_pinv, do_read_pinv, do_close_pinv.
  - destruct Hi. by split.
Qed.

Lemma psys_init_pinv d : lenZ d = PIPESIZE -> pinv (psys_init d).
Proof. intros Hd. by split. Qed.

(** C32: in every interleaving of readers, writers, closes and signals, the
    bytes read from the pipe are exactly the oldest bytes written, in order
    and without loss or duplication; the rest is in the ring and is at most
    [PIPESIZE] long.  This holds after the 32-bit counters have wrapped. *)
Theorem pipe_fifo (d : list Z) (s : psys) :
  lenZ d = PIPESIZE -> star pstep_kill (psys_init d) s ->
  hw s = hr s ++ queue (pp s) /\ lenZ (queue (pp s)) <= PIPESIZE.
Proof.
  intros Hd Hs. assert (pinv s) as [Hwf Hf _ _].
  { eapply star_invariant; [apply pstep_kill_pinv|exact Hs|by apply psys_init_pinv]. }
  split; [done|]. rewrite queue_length. apply (pw_len _ Hwf).
Qed.

(** A writer puts 3 bytes and a reader takes 2. *)
Definition demo_psys : psys :=
  do_read (do_write (psys_init (replicate 512 0)) 0 (lenZ [65; 66; 67]) [65; 66; 67]) 1 2.

Lemma pipe_fifo_witness :
  hw demo_psys = hr demo_psys ++ queue (pp demo_psys) /\
  lenZ (queue (pp demo_psys)) <= PIPESIZE.
Proof.
  apply (pipe_fifo (replicate 512 0) demo_psys); [reflexivity|].
  eapply star_step; [apply pk_step, (ps_write _ 0 [65; 66; 67]); reflexivity|].
  eapply star_step; [apply pk_step, (ps_read _ 1 2); reflexivity|].
  apply star_refl.
Defined.

(** ** No lost wakeups *)

(** A sleeper has a reason to sleep: a reader sleeps on an empty pipe that
    can still be written, a writer on a full pipe that can still be read.
    [aw_read] and [aw_write] are that; the rest makes it inductive. *)
Record awake_inv (s : psys) : Prop := {
  aw_wf : pipe_wf (pp s);
  aw_read : forall i, p_status (procs s i) = PAsleep NREAD ->
    qlen (pp s) = 0 /\ writeopen (pp s) = true;
  aw_write : forall i, p_status (procs s i) = PAsleep NWRITE ->
    qlen (pp s) = PIPESIZE /\ readopen (pp s) = true;
  aw_alive : forall i, p_killed (procs s i) = false;
  aw_jread : forall i, p_status (procs s i) = PAsleep NREAD -> uses (procs s i) false = true;
  aw_uses : forall i, uses (procs s i) false = true -> readopen (pp s) = true;
}.

Lemma wake_status cs f i c :
  p_status (wake cs f i) = PAsleep c -> p_status (f i) = PAsleep c /\ c ∉ cs.
Proof.
  unfold wake. destruct (p_status (f i)) eqn:E; [congruence|].
  case_bool_decide; cbn; [done|]. rewrite E. by intros [= ->].
Qed.

Lemma wake_killed cs f i : p_killed (wake cs f i) = p_killed (f i).
Proof. unfold wake. destruct (p_status (f i)); [done|]. by case_bool_decide. Qed.

Lemma wake_uses cs f i w : uses (wake cs f i) w = uses (f i) w.
Proof. unfold wake. destruct (p_status (f i)); [done|]. by case_bool_decide. Qed.

(** The processes after a step of process [i] that wakes [wk]. *)
Lemma set_proc_status wk f i q j c :
  p_status (set_proc (wake wk f) i q j) = PAsleep c ->
  (j = i /\ p_status q = PAsleep c) \/ (j <> i /\ p_status (f j) = PAsleep c /\ c ∉ wk).
Proof.
  unfold set_proc. destruct (Nat.eqb_spec i j) as [->|]; [by left|].
  intros H%wake_status. by right.
Qed.

Lemma set_proc_cases (P : pproc -> Prop) wk f i q j :
  (j = i -> P q) -> (j <> i -> P (wake wk f j)) -> P (set_proc (wake wk f) i q j).
Proof. unfold set_proc. destruct (Nat.eqb_spec i j) as [->|]; auto. Qed.

Lemma qlen_nonneg p : 0 <= qlen p.
Proof. apply u32_range. Qed.

Lemma write_run_qlen k n p rest p' out wk done left :
  write_run k n p rest p' out wk done left -> qlen p' = qlen p + lenZ done.
Proof. intros H. by rewrite <- !queue_length, (wr_queue _ _ _ _ _ _ _ _ _ H), lenZ_app. Qed.

Lemma do_write_awake s i n rest : awake_inv s -> awake_inv (do_write s i n rest).
Proof.
  intros [Hwf Hr Hw Ha Hj Hu]. unfold do_write. rewrite (Ha i).
  destruct (pipewrite_loop_spec false n (pp s) rest Hwf)
    as (p' & out & wk & done & left & -> & Hrun).
  pose proof (write_run_qlen _ _ _ _ _ _ _ _ _ Hrun) as Hq.
  destruct Hrun as [_ H2 _ _ _ [Ho Hwo] H7].
  pose proof (pw_len _ H2). pose proof (lenZ_nonneg done).
  split; cbn [pp procs]; [done| | | | |].
  - intros j Hs. apply set_proc_status in Hs as [[-> Hs]|(_ & Hs & Hnin)];
      [by destruct out|].
    destruct (Hr j Hs) as [Hr0 Hrw].
    destruct H7 as [(-> & -> & ->)|[(-> & _ & -> & _ & [Hc|]) | (-> & _ & -> & _)]];
      try done; try (by destruct Hnin; left).
    rewrite (Hu j (Hj j Hs)) in Hc. done.
  - intros j Hs. rewrite Ho. apply set_proc_status in Hs as [[-> Hs]|(_ & Hs & Hnin)].
    + destruct H7 as [(-> & _)|[(-> & _)|(-> & _ & _ & ? & ?)]]; done.
    + destruct (Hw j Hs). split; [lia|done].
  - intros j. apply set_proc_cases; [by destruct out|]. by rewrite wake_killed.
  - intros j Hs. apply set_proc_status in Hs as [[-> Hs]|(Hne & Hs & Hnin)];
      [by destruct out|].
    apply set_proc_cases; [done|]. intros _. rewrite wake_uses. by apply Hj.
  - intros j. rewrite Ho. apply (set_proc_cases (fun q => uses q false = true -> _)).
    + by destruct out.
    + intros _. rewrite wake_uses. apply Hu.
Qed.

Lemma do_read_awake s i n :
  readopen (pp s) = true -> awake_inv s -> awake_inv (do_read s i n).
Proof.
  intros Hro [Hwf Hr Hw Ha Hj Hu]. unfold do_read, piperead.
  rewrite (Ha i), pipe_empty_iff by done.
  destruct ((qlen (pp s) =? 0) && writeopen (pp s)) eqn:E.
  - apply andb_true_iff in E as [E1%Z.eqb_eq E2].
    split; cbn [pp procs]; [done| | | | |].
    + done.
    + intros j Hs. apply set_proc_status in Hs as [[-> Hs]|(_ & Hs & _)]; [done|].
      by apply (Hw j).
    + intros j. apply set_proc_cases; [done|]. by rewrite wake_killed.
    + intros j Hs. apply set_proc_status in Hs as [[-> Hs]|(Hne & Hs & Hnin)];
        apply set_proc_cases; try done. rewrite wake_uses. intros _. by apply Hj.
    + done.
  - destruct (piperead_copy_spec (pp s) (Z.to_nat n) Hwf)
      as (p' & bs & -> & Hp' & Hq & _ & _ & Hro' & Hwo' & _).
    assert (Hql : qlen (pp s) = lenZ bs + qlen p')
      by (by rewrite <- !queue_length, Hq, lenZ_app).
    pose proof (qlen_nonneg p'). pose proof (lenZ_nonneg bs).
    split; cbn [pp procs]; [done| | | | |].
    + intros j Hs. apply set_proc_status in Hs as [[-> Hs]|(_ & Hs & _)]; [done|].
      destruct (Hr j Hs). rewrite Hwo'. split; [lia|done].
    + intros j Hs. apply set_proc_status in Hs as [[-> Hs]|(_ & _ & Hnin)]; [done|].
      by destruct Hnin; left.
    + intros j. apply set_proc_cases; [done|]. by rewrite wake_killed.
    + intros j Hs. apply set_proc_status in Hs as [[-> Hs]|(Hne & Hs & Hnin)]; [done|].
      apply set_proc_cases; [done|]. intros _. rewrite wake_uses. by apply Hj.
    + intros j _. by rewrite Hro'.
Qed.

Lemma do_close_awake s w :
  (forall i, uses (procs s i) w = false) -> awake_inv s -> awake_inv (do_close s w).
Proof.
  intros Hidle [Hwf Hr Hw Ha Hj Hu]. unfold do_close, pipeclose.
  assert (Hk : forall c j, p_killed (wake c (procs s) j) = false)
    by (intros; by rewrite wake_killed).
  destruct w; split; cbn [pp procs]; try done; try (by destruct Hwf).
  - intros j [_ Hn]%wake_status. by destruct Hn; left.
  - intros j [Hs _]%wake_status. by apply (Hw j).
  - intros j [Hs _]%wake_status. rewrite wake_uses. by apply Hj.
  - intros j. rewrite wake_uses. apply Hu.
  - intros j [Hs _]%wake_status. by apply (Hr j).
  - intros j [_ Hn]%wake_status. by destruct Hn; left.
  - intros j [Hs _]%wake_status. rewrite wake_uses. by apply Hj.
  - intros j. rewrite wake_uses, Hidle. done.
Qed.

Lemma pstep_awake s s' : awake_inv s -> pstep s s' -> awake_inv s'.
Proof.
  intros Hi Hs. destruct Hs as [s i addr Hst Hjb Ho|s i n rest Hst Hjb|s i n Hst Hjb Ho
    |s i n Hst Hjb|s w Hidle].
  - by apply do_write_awake.
  - by apply do_write_awake.
  - by apply do_read_awake.
  - apply do_read_awake; [|done]. apply (aw_uses _ Hi i). unfold uses. by rewrite Hjb.
  - by apply do_close_awake.
Qed.


Definition demo_asleep : psys := do_read (psys_init (replicate 512 0)) 1 2.


(** A writer that is killed while it fills the pipe: process 1 sleeps in
    [piperead], process 0 is signalled and then writes 600 bytes. *)
Definition demo_killed : psys :=
  do_write (do_kill (do_read (psys_init (replicate 512 0)) 1 2) 0)
    0 (lenZ (replicate 600 7)) (replicate 600 7).

(** C39: with signals the guarantee is lost. [pipewrite] of a killed process
    fills the pipe and returns -1 without the [wakeup] that its other exits
    perform: a reachable state has a reader asleep on the "pipe is empty"
    channel although the pipe holds [PIPESIZE] bytes and both ends are open. *)
Theorem pipe_killed_writer_loses_wakeup :
  exists s, star pstep_kill (psys_init (replicate 512 0)) s /\
    p_status (procs s 1) = PAsleep NREAD /\ qlen (pp s) = PIPESIZE /\
    readopen (pp s) = true /\ writeopen (pp s) = true.
Proof.
  exists demo_killed. split.
  - eapply star_step; [apply pk_step, (ps_read _ 1 2); reflexivity|].
    eapply star_step; [apply (pk_kill _ 0)|].
    eapply star_step; [apply pk_step, (ps_write _ 0 (replicate 600 7)); reflexivity|].
    unfold demo_killed. apply star_refl.
  - split_and!; vm_compute; reflexivity.
Qed.
