(* ===== verification/Proc.v ===== *)
(** * Processes (src/xv6/proc.c): definitions

    The process table, the CPUs and every function of proc.c.  A [struct proc *]
    is an index into the table, a null pointer is [None].  The functions of the
    other components that proc.c calls (the page allocator, vm.c, file.c, fs.c,
    log.c) are the methods of [ProcEnv].

    The lock [ptable.lock] is held by every function between the points where it
    calls [acquire] and [release] and across [swtch], so that the parts of the
    table operations that run under it are atomic.  A function that gives up the
    CPU in [sched] ends there; the scheduler's [c->proc = 0], which [swtch]
    returns to, belongs to it.  Properties are in [ProcTable.v]. *)

From S2P Require Import Prelude Bytes Cstring.

Definition NPROC : Z := 64.
Definition NOFILE : Z := 16.
Definition KSTACKSIZE : Z := 4096.
Definition PGSIZE : Z := 4096.
Definition SEG_UCODE : Z := 3.
Definition SEG_UDATA : Z := 4.
Definition DPL_USER : Z := 3.
Definition FL_IF : Z := 512.
Definition SIZEOF_TRAPFRAME : Z := 76.
Definition SIZEOF_CONTEXT : Z := 20.

Inductive procstate := UNUSED | EMBRYO | SLEEPING | RUNNABLE | RUNNING | ZOMBIE.
#[export] Instance procstate_eq_dec : EqDecision procstate.
Proof. solve_decision. Defined.

(** A channel: a process, or the address of another kernel object. *)
Inductive chan_t := Chan0 | ChanProc (i : Z) | ChanAddr (a : Z).
#[export] Instance chan_eq_dec : EqDecision chan_t.
Proof. solve_decision. Defined.

(** The registers of a trap frame that the kernel reads or writes; the rest is
    [tf_regs], in order. *)
Record trapframe := mkTf {
  tf_eax : Z; tf_eip : Z; tf_esp : Z; tf_cs : Z; tf_ds : Z; tf_es : Z; tf_ss : Z;
  tf_eflags : Z; tf_trapno : Z; tf_err : Z; tf_regs : list Z
}.
Definition tf0 : trapframe := mkTf 0 0 0 0 0 0 0 0 0 0 (replicate 10 0).
Record context := mkCtx { c_edi : Z; c_esi : Z; c_ebx : Z; c_ebp : Z; c_eip : Z }.

(** [struct proc]; [p_tf] and [p_context] are addresses on the kernel stack,
    [p_tfv], [p_ctxv] and [p_ret] what lies there: the trap frame, the context
    and the return address above it. *)
Record proc := mkProc {
  p_sz : Z; p_pgdir : Z; p_kstack : Z; p_state : procstate; p_pid : Z;
  p_parent : option Z; p_tf : Z; p_context : Z; p_chan : chan_t; p_killed : Z;
  p_ofile : list Z; p_cwd : Z; p_name : bytes;
  p_tfv : trapframe; p_ctxv : context; p_ret : Z
}.
Definition proc0 : proc :=
  mkProc 0 0 0 UNUSED 0 None 0 0 Chan0 0 (replicate 16 0) 0 (replicate 16 0)
    tf0 (mkCtx 0 0 0 0 0) 0.
#[export] Instance proc_inhabited : Inhabited proc := populate proc0.

Definition set_sz (v : Z) (p : proc) := mkProc v (p_pgdir p) (p_kstack p) (p_state p) (p_pid p) (p_parent p) (p_tf p) (p_context p) (p_chan p) (p_killed p) (p_ofile p) (p_cwd p) (p_name p) (p_tfv p) (p_ctxv p) (p_ret p).
Definition set_pgdir (v : Z) (p : proc) := mkProc (p_sz p) v (p_kstack p) (p_state p) (p_pid p) (p_parent p) (p_tf p) (p_context p) (p_chan p) (p_killed p) (p_ofile p) (p_cwd p) (p_name p) (p_tfv p) (p_ctxv p) (p_ret p).
Definition set_kstack (v : Z) (p : proc) := mkProc (p_sz p) (p_pgdir p) v (p_state p) (p_pid p) (p_parent p) (p_tf p) (p_context p) (p_chan p) (p_killed p) (p_ofile p) (p_cwd p) (p_name p) (p_tfv p) (p_ctxv p) (p_ret p).
Definition set_state (v : procstate) (p : proc) := mkProc (p_sz p) (p_pgdir p) (p_kstack p) v (p_pid p) (p_parent p) (p_tf p) (p_context p) (p_chan p) (p_killed p) (p_ofile p) (p_cwd p) (p_name p) (p_tfv p) (p_ctxv p) (p_ret p).
Definition set_pid (v : Z) (p : proc) := mkProc (p_sz p) (p_pgdir p) (p_kstack p) (p_state p) v (p_parent p) (p_tf p) (p_context p) (p_chan p) (p_killed p) (p_ofile p) (p_cwd p) (p_name p) (p_tfv p) (p_ctxv p) (p_ret p).
Definition set_parent (v : option Z) (p : proc) := mkProc (p_sz p) (p_pgdir p) (p_kstack p) (p_state p) (p_pid p) v (p_tf p) (p_context p) (p_chan p) (p_killed p) (p_ofile p) (p_cwd p) (p_name p) (p_tfv p) (p_ctxv p) (p_ret p).
Definition set_chan (v : chan_t) (p : proc) := mkProc (p_sz p) (p_pgdir p) (p_kstack p) (p_state p) (p_pid p) (p_parent p) (p_tf p) (p_context p) v (p_killed p) (p_ofile p) (p_cwd p) (p_name p) (p_tfv p) (p_ctxv p) (p_ret p).
Definition set_killed (v : Z) (p : proc) := mkProc (p_sz p) (p_pgdir p) (p_kstack p) (p_state p) (p_pid p) (p_parent p) (p_tf p) (p_context p) (p_chan p) v (p_ofile p) (p_cwd p) (p_name p) (p_tfv p) (p_ctxv p) (p_ret p).
Definition set_ofile (v : list Z) (p : proc) := mkProc (p_sz p) (p_pgdir p) (p_kstack p) (p_state p) (p_pid p) (p_parent p) (p_tf p) (p_context p) (p_chan p) (p_killed p) v (p_cwd p) (p_name p) (p_tfv p) (p_ctxv p) (p_ret p).
Definition set_cwd (v : Z) (p : proc) := mkProc (p_sz p) (p_pgdir p) (p_kstack p) (p_state p) (p_pid p) (p_parent p) (p_tf p) (p_context p) (p_chan p) (p_killed p) (p_ofile p) v (p_name p) (p_tfv p) (p_ctxv p) (p_ret p).
Definition set_name (v : bytes) (p : proc) := mkProc (p_sz p) (p_pgdir p) (p_kstack p) (p_state p) (p_pid p) (p_parent p) (p_tf p) (p_context p) (p_chan p) (p_killed p) (p_ofile p) (p_cwd p) v (p_tfv p) (p_ctxv p) (p_ret p).
Definition set_tfv (v : trapframe) (p : proc) := mkProc (p_sz p) (p_pgdir p) (p_kstack p) (p_state p) (p_pid p) (p_parent p) (p_tf p) (p_context p) (p_chan p) (p_killed p) (p_ofile p) (p_cwd p) (p_name p) v (p_ctxv p) (p_ret p).
(** The stack of a new process: [p->tf], [p->context] and what is stored there. *)
Definition set_stack (tf ctx : Z) (c : context) (r : Z) (p : proc) := mkProc (p_sz p) (p_pgdir p) (p_kstack p) (p_state p) (p_pid p) (p_parent p) tf ctx (p_chan p) (p_killed p) (p_ofile p) (p_cwd p) (p_name p) (p_tfv p) c r.

(** [safestrcpy(dst, src, n)] on an array of at least [n] bytes, [0 < n]. *)
Definition safestrcpy_arr (dst src : bytes) (n : Z) : bytes :=
  blit dst 0 (cstrn (chr src) 0 (Z.to_nat (n - 1)) ++ [0]).

(** ** What proc.c needs from the rest of the kernel

    A file or inode handle is not 0; 0 is the null pointer. *)
Class ProcEnv (E : Type) := {
  e_kalloc : ST E Z;
  e_kfree : Z -> ST E unit;
  e_setupkvm : ST E Z;
  e_inituvm : Z -> ST E unit;
  e_copyuvm : Z -> Z -> ST E Z;
  e_freevm : Z -> ST E unit;
  e_allocuvm : Z -> Z -> Z -> ST E Z;
  e_deallocuvm : Z -> Z -> Z -> ST E Z;
  e_filedup : Z -> ST E Z;
  e_fileclose : Z -> ST E unit;
  e_idup : Z -> ST E Z;
  e_iput : Z -> ST E unit;
  e_namei : bytes -> ST E Z;
  e_begin_op : ST E unit;
  e_end_op : ST E unit;
  e_iinit : Z -> ST E unit;
  e_initlog : Z -> ST E unit;
}.

(** The state: [ptable.proc], [nextpid], [initproc], [cpus[i].proc] and the rest
    of the kernel. *)
Record psys (E : Type) := mkPsys {
  ps_proc : list proc; ps_nextpid : Z; ps_initproc : option Z; ps_cpu : list (option Z); ps_env : E
}.
Arguments mkPsys {E} _ _ _ _ _.
Arguments ps_proc {E} _.
Arguments ps_nextpid {E} _.
Arguments ps_initproc {E} _.
Arguments ps_cpu {E} _.
Arguments ps_env {E} _.

(** [mycpu]: the CPU with the given APIC id; [None] is the panic. *)
Fixpoint mycpu_loop (apicids : list Z) (i apicid : Z) : option Z :=
  match apicids with
  | [] => None
  | a :: l => if a =? apicid then Some i else mycpu_loop l (i + 1) apicid
  end.
Definition mycpu (eflags : Z) (apicids : list Z) (apicid : Z) : res Z :=
  if negb (Z.land eflags FL_IF =? 0) then Panic "mycpu called with interrupts enabled" else
  match mycpu_loop apicids 0 apicid with
  | Some i => Ok i
  | None => Panic "unknown apicid"
  end.

Section proc.
Context {E : Type} `{ProcEnv E}.
(** The addresses of [forkret] and [trapret], and the strings "initcode" and "/". *)
Context (forkret_addr trapret_addr : Z).
Abbreviation sys := (psys E).

Definition env {A} (m : ST E A) : ST sys A :=
  zoom ps_env (fun e s => mkPsys (ps_proc s) (ps_nextpid s) (ps_initproc s) (ps_cpu s) e) m.
Definition proc_at (s : sys) (i : Z) : proc := rd (ps_proc s) i.
Definition pget (i : Z) : ST sys proc := gets (fun s => proc_at s i).
Definition pmod (i : Z) (f : proc -> proc) : ST sys unit :=
  modify (fun s => mkPsys (upd (ps_proc s) i (f (proc_at s i))) (ps_nextpid s) (ps_initproc s)
                     (ps_cpu s) (ps_env s)).
Definition set_cpu (c : Z) (v : option Z) : ST sys unit :=
  modify (fun s => mkPsys (ps_proc s) (ps_nextpid s) (ps_initproc s) (upd (ps_cpu s) c v) (ps_env s)).
Definition set_nextpid (v : Z) : ST sys unit :=
  modify (fun s => mkPsys (ps_proc s) v (ps_initproc s) (ps_cpu s) (ps_env s)).
Definition set_initproc (v : option Z) : ST sys unit :=
  modify (fun s => mkPsys (ps_proc s) (ps_nextpid s) v (ps_cpu s) (ps_env s)).

(** [myproc()] on CPU [c]. *)
Definition myproc (c : Z) : ST sys (option Z) := gets (fun s => rd (ps_cpu s) c).

(** ** Creating processes *)

Fixpoint find_unused_proc (l : list proc) (i : Z) : option Z :=
  match l with
  | [] => None
  | p :: l => if bool_decide (p_state p = UNUSED) then Some i else find_unused_proc l (i + 1)
  end.

(** [allocproc] is in two parts: the search, under [ptable.lock], and the set-up
    of the kernel stack, when the lock has been released. *)
Definition allocproc_slot : ST sys (option Z) :=
  s <- get ;;
  match find_unused_proc (ps_proc s) 0 with
  | None => ret None
  | Some p =>
      pmod p (set_state EMBRYO) ;;;
      pmod p (set_pid (ps_nextpid s)) ;;;
      set_nextpid (s32 (ps_nextpid s + 1)) ;;;
      ret (Some p)
  end.
Definition allocproc_stack (p : Z) : ST sys bool :=
  k <- env e_kalloc ;;
  pmod p (set_kstack k) ;;;
  if k =? 0 then pmod p (set_state UNUSED) ;;; ret false
  else
    let sp := k + KSTACKSIZE in
    let sp := sp - SIZEOF_TRAPFRAME in
    let tf := sp in
    let sp := sp - 4 in
    let sp := sp - SIZEOF_CONTEXT in
    pmod p (set_stack tf sp (mkCtx 0 0 0 0 forkret_addr) trapret_addr) ;;;
    ret true.
Definition allocproc : ST sys (option Z) :=
  r <- allocproc_slot ;;
  match r with
  | None => ret None
  | Some p => ok <- allocproc_stack p ;; ret (if ok then Some p else None)
  end.

Definition INITCODE : bytes := [105; 110; 105; 116; 99; 111; 100; 101].

(** A null result of [allocproc] is dereferenced: there is no case for it. *)
Definition userinit : ST sys unit :=
  r <- allocproc ;;
  match r with
  | None => panic "userinit: null pointer"
  | Some p =>
      set_initproc (Some p) ;;;
      pg <- env e_setupkvm ;;
      pmod p (set_pgdir pg) ;;;
      panic_if (pg =? 0) "userinit: out of memory?" ;;;
      env (e_inituvm pg) ;;;
      pmod p (set_sz PGSIZE) ;;;
      let seg := Z.lor (Z.shiftl SEG_UDATA 3) DPL_USER in
      pmod p (set_tfv (mkTf 0 0 PGSIZE (Z.lor (Z.shiftl SEG_UCODE 3) DPL_USER) seg seg seg FL_IF 0 0
                         (replicate 10 0))) ;;;
      pmod p (fun x => set_name (safestrcpy_arr (p_name x) INITCODE 16) x) ;;;
      d <- env (e_namei [47]) ;;
      pmod p (set_cwd d) ;;;
      pmod p (set_state RUNNABLE)
  end.

(** [switchuvm] loads the page table and is not represented. *)
Definition growproc (me n : Z) : ST sys Z :=
  p <- pget me ;;
  let sz := p_sz p in
  if 0 <? n then
    sz' <- env (e_allocuvm (p_pgdir p) sz (u32 (sz + n))) ;;
    if sz' =? 0 then ret (-1) else pmod me (set_sz sz') ;;; ret 0
  else if n <? 0 then
    sz' <- env (e_deallocuvm (p_pgdir p) sz (u32 (sz + n))) ;;
    if sz' =? 0 then ret (-1) else pmod me (set_sz sz') ;;; ret 0
  else pmod me (set_sz sz) ;;; ret 0.

(** The loop of [fork] over the open files. *)
Definition fork_file (me np i : Z) : ST sys unit :=
  p <- pget me ;;
  when (negb (rd (p_ofile p) i =? 0))
    (f <- env (e_filedup (rd (p_ofile p) i)) ;;
     pmod np (fun x => set_ofile (upd (p_ofile x) i f) x)).

Definition set_eax (v : Z) (t : trapframe) : trapframe :=
  mkTf v (tf_eip t) (tf_esp t) (tf_cs t) (tf_ds t) (tf_es t) (tf_ss t) (tf_eflags t)
    (tf_trapno t) (tf_err t) (tf_regs t).

(** [fork] after the slot is found; all of it but the last assignment to the
    child's state runs without [ptable.lock]. *)
Definition fork_rest (me np : Z) : ST sys Z :=
  ok <- allocproc_stack np ;;
  if negb ok then ret (-1) else
  p <- pget me ;;
  pg <- env (e_copyuvm (p_pgdir p) (p_sz p)) ;;
  pmod np (set_pgdir pg) ;;;
  if pg =? 0 then
    q <- pget np ;;
    env (e_kfree (p_kstack q)) ;;;
    pmod np (set_kstack 0) ;;;
    pmod np (set_state UNUSED) ;;;
    ret (-1)
  else
    pmod np (set_sz (p_sz p)) ;;;
    pmod np (set_parent (Some me)) ;;;
    pmod np (set_tfv (set_eax 0 (p_tfv p))) ;;;
    forM (Z.to_nat NOFILE) 0 (fork_file me np) ;;;
    d <- env (e_idup (p_cwd p)) ;;
    pmod np (set_cwd d) ;;;
    pmod np (fun x => set_name (safestrcpy_arr (p_name x) (p_name p) 16) x) ;;;
    q <- pget np ;;
    pmod np (set_state RUNNABLE) ;;;
    ret (p_pid q).
Definition fork (me : Z) : ST sys Z :=
  r <- allocproc_slot ;;
  match r with
  | None => ret (-1)
  | Some np => fork_rest me np
  end.

(** [forkret]: its static variable [first] before and after. *)
Definition forkret (rootdev : Z) (first : bool) : ST sys bool :=
  when first (env (e_iinit rootdev) ;;; env (e_initlog rootdev)) ;;;
  ret false.

(** ** Sleeping and waking *)

(** [sched] and the scheduler's [c->proc = 0].  [held]: the CPU holds
    [ptable.lock]; [ncli] and [eflags] are its own. *)
Definition sched (held : bool) (ncli eflags : Z) (c me : Z) : ST sys unit :=
  p <- pget me ;;
  panic_if (negb held) "sched ptable.lock" ;;;
  panic_if (negb (ncli =? 1)) "sched locks" ;;;
  panic_if (bool_decide (p_state p = RUNNING)) "sched running" ;;;
  panic_if (negb (Z.land eflags FL_IF =? 0)) "sched interruptible" ;;;
  set_cpu c None.

(** The functions below are given the [ncli] they are called with: [acquire] adds
    1 to it, turns interrupts off, and [release] subtracts 1. *)
Definition yield (ncli c me : Z) : ST sys unit :=
  pmod me (set_state RUNNABLE) ;;;
  sched true (ncli + 1) 0 c me.

(** [sleep] up to [sched]; a null [lk] is [haslk = false].  The lock [lk] is held:
    it is [ptable.lock], or it is released once [ptable.lock] is acquired. *)
Definition sleep (ncli c : Z) (chan : chan_t) (haslk : bool) : ST sys unit :=
  r <- myproc c ;;
  match r with
  | None => panic "sleep"
  | Some me =>
      panic_if (negb haslk) "sleep without lk" ;;;
      pmod me (set_chan chan) ;;;
      pmod me (set_state SLEEPING) ;;;
      sched true ncli 0 c me
  end.
(** The rest of [sleep], when the process runs again. *)
Definition sleep_resume (me : Z) : ST sys unit := pmod me (set_chan Chan0).

Definition wakeup_one (chan : chan_t) (i : Z) : ST sys unit :=
  p <- pget i ;;
  when (bool_decide (p_state p = SLEEPING) && bool_decide (p_chan p = chan))
    (pmod i (set_state RUNNABLE)).
Definition wakeup1 (chan : chan_t) : ST sys unit := forM (Z.to_nat NPROC) 0 (wakeup_one chan).
Definition wakeup (chan : chan_t) : ST sys unit := wakeup1 chan.

Definition kill_one (pid i : Z) : ST sys (option Z) :=
  p <- pget i ;;
  if p_pid p =? pid then
    pmod i (set_killed 1) ;;;
    when (bool_decide (p_state p = SLEEPING)) (pmod i (set_state RUNNABLE)) ;;;
    ret (Some 0)
  else ret None.
Definition kill (pid : Z) : ST sys Z :=
  r <- forR (Z.to_nat NPROC) 0 (kill_one pid) ;;
  match r with
  | Some v => ret v
  | None => ret (-1)
  end.

(** ** Exit and wait *)

Definition exit_file (me fd : Z) : ST sys unit :=
  p <- pget me ;;
  when (negb (rd (p_ofile p) fd =? 0))
    (env (e_fileclose (rd (p_ofile p) fd)) ;;;
     pmod me (fun x => set_ofile (upd (p_ofile x) fd 0) x)).

(** [exit] up to [acquire(&ptable.lock)]. *)
Definition exit_close (me : Z) : ST sys unit :=
  s <- get ;;
  panic_if (bool_decide (ps_initproc s = Some me)) "init exiting" ;;;
  forM (Z.to_nat NOFILE) 0 (exit_file me) ;;;
  env e_begin_op ;;;
  p <- pget me ;;
  env (e_iput (p_cwd p)) ;;;
  env e_end_op ;;;
  pmod me (set_cwd 0).

(** The channel of a process pointer. *)
Definition chan_of (p : option Z) : chan_t :=
  match p with
  | Some i => ChanProc i
  | None => Chan0
  end.

Definition exit_child (me i : Z) : ST sys unit :=
  p <- pget i ;;
  when (bool_decide (p_parent p = Some me))
    (s <- get ;;
     pmod i (set_parent (ps_initproc s)) ;;;
     when (bool_decide (p_state p = ZOMBIE)) (wakeup1 (chan_of (ps_initproc s)))).

(** The rest of [exit], under [ptable.lock]. *)
Definition exit_zombie (ncli c me : Z) : ST sys unit :=
  p <- pget me ;;
  wakeup1 (chan_of (p_parent p)) ;;;
  forM (Z.to_nat NPROC) 0 (exit_child me) ;;;
  pmod me (set_state ZOMBIE) ;;;
  sched true (ncli + 1) 0 c me.
Definition exit (ncli c me : Z) : ST sys unit := exit_close me ;;; exit_zombie ncli c me.

(** The branch of [wait] that frees the slot of a dead child. *)
Definition reap (i : Z) : ST sys Z :=
  p <- pget i ;;
  env (e_kfree (p_kstack p)) ;;;
  pmod i (set_kstack 0) ;;;
  env (e_freevm (p_pgdir p)) ;;;
  pmod i (set_pid 0) ;;;
  pmod i (set_parent None) ;;;
  pmod i (fun x => set_name (upd (p_name x) 0 0) x) ;;;
  pmod i (set_killed 0) ;;;
  pmod i (set_state UNUSED) ;;;
  ret (p_pid p).
(** The inner loop of [wait]: the pid of a child it has reaped, or [havekids]. *)
Fixpoint wait_scan (me : Z) (n : nat) (i : Z) (havekids : bool) : ST sys (bool + Z) :=
  match n with
  | O => ret (inl havekids)
  | S n' =>
      p <- pget i ;;
      if negb (bool_decide (p_parent p = Some me)) then wait_scan me n' (i + 1) havekids
      else if bool_decide (p_state p = ZOMBIE) then pid <- reap i ;; ret (inr pid)
      else wait_scan me n' (i + 1) true
  end.
(** One turn of the outer loop of [wait] on CPU [c]: the result of [wait], or
    [None] when the process has gone to sleep and takes another turn when it
    runs again. *)
Definition wait_turn (ncli c me : Z) : ST sys (option Z) :=
  r <- wait_scan me (Z.to_nat NPROC) 0 false ;;
  match r with
  | inr pid => ret (Some pid)
  | inl havekids =>
      p <- pget me ;;
      if negb havekids || negb (p_killed p =? 0) then ret (Some (-1))
      else sleep (ncli + 1) c (ChanProc me) true ;;; ret None
  end.

(** ** The scheduler *)

(** A process is picked: [c->proc = p; p->state = RUNNING]. *)
Definition pick (c p : Z) : ST sys unit :=
  set_cpu c (Some p) ;;;
  pmod p (set_state RUNNING).

(** One pass of the scheduler over the table.  [run p] is what happens between
    the two halves of [swtch]: [p] runs until it calls [sched]. *)
Definition sched_one (run : Z -> ST sys unit) (c i : Z) : ST sys unit :=
  p <- pget i ;;
  when (bool_decide (p_state p = RUNNABLE))
    (pick c i ;;; run i ;;; set_cpu c None).
Definition sched_pass (run : Z -> ST sys unit) (c : Z) : ST sys unit :=
  forM (Z.to_nat NPROC) 0 (sched_one run c).
(** [scheduler] for a number of turns of its endless loop. *)
Fixpoint scheduler_turns (run : Z -> ST sys unit) (c : Z) (n : nat) : ST sys unit :=
  match n with
  | O => ret tt
  | S n' => sched_pass run c ;;; scheduler_turns run c n'
  end.
Definition scheduler (run : Z -> ST sys unit) (c : Z) (n : nat) : ST sys unit :=
  set_cpu c None ;;; scheduler_turns run c n.

(** ** Reports *)

Fixpoint pscnt_loop (l : list proc) (count : Z) : Z :=
  match l with
  | [] => count
  | p :: l => pscnt_loop l (if bool_decide (p_state p = UNUSED) then count else count + 1)
  end.
Definition sys_pscnt : ST sys Z := gets (fun s => pscnt_loop (ps_proc s) 0).

Definition state_name (st : procstate) : string :=
  match st with
  | UNUSED => "unused"
  | EMBRYO => "embryo"
  | SLEEPING => "sleep "
  | RUNNABLE => "runble"
  | RUNNING => "run   "
  | ZOMBIE => "zombie"
  end.

(** A line of [procdump]: what it prints with [cprintf], and the return addresses
    [getcallerpcs] finds, which stop at the first 0. *)
Record dumpline := mkDump { d_pid : Z; d_state : string; d_name : bytes; d_pcs : list Z }.
Fixpoint until0 (l : list Z) : list Z :=
  match l with
  | [] => []
  | x :: l => if x =? 0 then [] else x :: until0 l
  end.
Definition procdump_line (getcallerpcs : Z -> list Z) (p : proc) : dumpline :=
  mkDump (p_pid p) (state_name (p_state p)) (p_name p)
    (if bool_decide (p_state p = SLEEPING) then until0 (getcallerpcs (c_ebp (p_ctxv p) + 8)) else []).
Definition procdump (getcallerpcs : Z -> list Z) (s : sys) : list dumpline :=
  procdump_line getcallerpcs <$> filter (fun p => p_state p <> UNUSED) (ps_proc s).
End proc.
