(* ===== verification/ProcTable.v ===== *)
(** * The process table: properties of proc.c

    What the functions of [Proc.v] do to the part of the table that they share
    (states, pids, parents, channels), the kernel as a step relation whose steps
    are the critical sections of [ptable.lock], and the invariant of the table
    over every interleaving of them; exact results for [wakeup], [wait], [kill],
    the scheduler and [sys_pscnt]. *)

From S2P Require Import Prelude Bytes Cstring Proc.

(** The shared part of a slot. *)
Record pv := mkPv { v_st : procstate; v_pid : Z; v_par : option Z; v_chan : chan_t }.
Definition pv_of (p : proc) : pv := mkPv (p_state p) (p_pid p) (p_parent p) (p_chan p).
Definition v_set_st (st : procstate) (v : pv) := mkPv st (v_pid v) (v_par v) (v_chan v).
Definition v_set_pid (x : Z) (v : pv) := mkPv (v_st v) x (v_par v) (v_chan v).
Definition v_set_par (x : option Z) (v : pv) := mkPv (v_st v) (v_pid v) x (v_chan v).
Definition v_set_chan (x : chan_t) (v : pv) := mkPv (v_st v) (v_pid v) (v_par v) x.

(** A table: what is in each slot. *)
Definition fset (F : Z -> pv) (i : Z) (g : pv -> pv) : Z -> pv :=
  fun j => if j =? i then g (F i) else F j.
Definition slot (i : Z) : Prop := 0 <= i < NPROC.

Section effects.
Context {E : Type} `{ProcEnv E} (forkret_addr trapret_addr : Z).
Abbreviation sys := (psys E).

(** [s'] has the table [F], the pid counter [np] and the CPUs [cpu]; [initproc]
    is as in [s]. *)
Record eff (s s' : sys) (F : Z -> pv) (np : Z) (cpu : list (option Z)) : Prop := {
  eff_len : lenZ (ps_proc s') = NPROC;
  eff_at : forall j, slot j -> pv_of (proc_at s' j) = F j;
  eff_np : ps_nextpid s' = np;
  eff_cpu : ps_cpu s' = cpu;
  eff_ini : ps_initproc s' = ps_initproc s
}.

Lemma eff_refl s : lenZ (ps_proc s) = NPROC ->
  eff s s (fun j => pv_of (proc_at s j)) (ps_nextpid s) (ps_cpu s).
Proof. done. Qed.

Lemma eff_ext s s' F F' np cpu :
  (forall j, slot j -> F j = F' j) -> eff s s' F np cpu -> eff s s' F' np cpu.
Proof. intros HF []. constructor; auto. intros j Hj. rewrite <- HF by done. auto. Qed.

(** The primitive steps of the functions. *)
Lemma wlp_pmod g s s1 F np cpu i f (Q : unit -> sys -> Prop) :
  eff s s1 F np cpu -> slot i -> (forall p, pv_of (f p) = g (pv_of p)) ->
  (forall s2, eff s s2 (fset F i g) np cpu -> Q tt s2) ->
  wlp (pmod i f) s1 Q.
Proof.
  intros [Hl Ha Hn Hc Hi] Hs Hg HQ. apply wlp_modify, HQ.
  constructor; simpl; try done; [by rewrite upd_lenZ|].
  intros j Hj. unfold proc_at, fset. simpl. rewrite rd_upd by (unfold slot in *; lia).
  rewrite (Z.eqb_sym j i). case_test; subst; [|by apply Ha].
  rewrite Hg. f_equal. by apply Ha.
Qed.

Lemma fset_id F i j : fset F i (fun v => v) j = F j.
Proof. unfold fset. case_test; by subst. Qed.

(** A change to a field that is not shared. *)
Lemma wlp_pmod_own s s1 F np cpu i f (Q : unit -> sys -> Prop) :
  eff s s1 F np cpu -> slot i -> (forall p, pv_of (f p) = pv_of p) ->
  (forall s2, eff s s2 F np cpu -> Q tt s2) ->
  wlp (pmod i f) s1 Q.
Proof.
  intros He Hs Hg HQ. apply (wlp_pmod (fun v => v) s s1 F np cpu); auto.
  intros s2 He2. apply HQ. eapply eff_ext, He2. intros. apply fset_id.
Qed.

Lemma wlp_env {A} s s1 F np cpu (m : ST E A) (Q : A -> sys -> Prop) :
  eff s s1 F np cpu -> (forall a s2, eff s s2 F np cpu -> Q a s2) -> wlp (env m) s1 Q.
Proof.
  intros [Hl Ha Hn Hc Hi] HQ. apply wlp_zoom. unfold wlp.
  destruct (m (ps_env s1)) as [[a e]| | |]; auto. by apply HQ.
Qed.

Lemma wlp_set_cpu s s1 F np cpu c v (Q : unit -> sys -> Prop) :
  eff s s1 F np cpu -> (forall s2, eff s s2 F np (upd cpu c v) -> Q tt s2) ->
  wlp (set_cpu c v) s1 Q.
Proof.
  intros [Hl Ha Hn Hc Hi] HQ. apply wlp_modify, HQ. constructor; try done. simpl. by rewrite Hc.
Qed.
End effects.

(** Symbolic execution in terms of [eff]. *)
Ltac eff_step :=
  lazymatch goal with
  | He : eff ?s ?s1 _ _ _ |- wlp (pmod ?i (set_state ?x)) ?s1 _ =>
      apply (wlp_pmod (v_set_st x) _ _ _ _ _ _ _ _ He); [try done | done | clear He; intros ? He]
  | He : eff ?s ?s1 _ _ _ |- wlp (pmod ?i (set_pid ?x)) ?s1 _ =>
      apply (wlp_pmod (v_set_pid x) _ _ _ _ _ _ _ _ He); [try done | done | clear He; intros ? He]
  | He : eff ?s ?s1 _ _ _ |- wlp (pmod ?i (set_parent ?x)) ?s1 _ =>
      apply (wlp_pmod (v_set_par x) _ _ _ _ _ _ _ _ He); [try done | done | clear He; intros ? He]
  | He : eff ?s ?s1 _ _ _ |- wlp (pmod ?i (set_chan ?x)) ?s1 _ =>
      apply (wlp_pmod (v_set_chan x) _ _ _ _ _ _ _ _ He); [try done | done | clear He; intros ? He]
  | He : eff ?s ?s1 _ _ _ |- wlp (pmod ?i _) ?s1 _ =>
      apply (wlp_pmod_own _ _ _ _ _ _ _ _ He); [try done | done | clear He; intros ? He]
  | He : eff ?s ?s1 _ _ _ |- wlp (env _) ?s1 _ =>
      apply (wlp_env _ _ _ _ _ _ _ He); clear He; intros ? ? He
  | He : eff ?s ?s1 _ _ _ |- wlp (set_cpu _ _) ?s1 _ =>
      apply (wlp_set_cpu _ _ _ _ _ _ _ _ He); clear He; intros ? He
  | |- wlp (pget _) _ _ => apply wlp_gets
  | |- wlp (myproc _) _ _ => apply wlp_gets
  | _ => wlp_step
  end; cbv beta.
Ltac eff_steps := repeat eff_step.

(** ** What each function does to the table *)

Section functions.
Context {E : Type} `{ProcEnv E} (forkret_addr trapret_addr : Z).
Abbreviation sys := (psys E).

Lemma find_unused_proc_spec l i p :
  find_unused_proc l i = Some p -> i <= p < i + lenZ l /\ p_state (rd l (p - i)) = UNUSED.
Proof.
  revert i. induction l as [|x l IH]; intros i; simpl; [done|].
  case_test; intros Hp; simplify_eq.
  - unfold lenZ. simpl. split; [lia|]. by rewrite Z.sub_diag.
  - destruct (IH _ Hp) as [Hr Hu]. unfold lenZ in *. simpl. split; [lia|].
    rewrite <- Hu. unfold rd. replace (Z.to_nat (p - i)) with (S (Z.to_nat (p - (i + 1)))) by lia. done.
Qed.

Lemma allocproc_slot_eff (s : sys) :
  lenZ (ps_proc s) = NPROC ->
  wlp allocproc_slot s (fun r s' =>
    match r with
    | None => s' = s
    | Some p => slot p /\ p_state (proc_at s p) = UNUSED /\
        eff s s' (fset (fun j => pv_of (proc_at s j)) p
                    (fun v => v_set_pid (ps_nextpid s) (v_set_st EMBRYO v)))
          (s32 (ps_nextpid s + 1)) (ps_cpu s)
    end).
Proof.
  intros Hl. pose proof (eff_refl s Hl) as He. unfold allocproc_slot. do 2 wlp_step.
  destruct (find_unused_proc _ _) as [p|] eqn:Ep; [|by wlp_step].
  apply find_unused_proc_spec in Ep as [Hp Hu]. rewrite Z.sub_0_r in Hu.
  assert (slot p) as Hs by (unfold slot; lia).
  eff_steps. unfold set_nextpid. eff_steps. split_and!; [done..|].
  destruct He as [H1 H2 H3 H4 H5]. constructor; try done.
  intros j Hj. etrans; [exact (H2 j Hj)|]. unfold fset. by case_test; rewrite ?Z.eqb_refl.
Qed.

Lemma allocproc_stack_eff s s1 F np cpu p (Q : bool -> sys -> Prop) :
  eff s s1 F np cpu -> slot p ->
  (forall s2, eff s s2 (fset F p (v_set_st UNUSED)) np cpu -> Q false s2) ->
  (forall s2, eff s s2 F np cpu -> Q true s2) ->
  wlp (allocproc_stack forkret_addr trapret_addr p) s1 Q.
Proof.
  intros He Hp Hf Ht. unfold allocproc_stack. eff_steps. case_test; eff_steps; auto.
Qed.

(** [fork] in the slot [np]: the child runs, or the slot is free again. *)
Lemma fork_rest_eff s me np :
  lenZ (ps_proc s) = NPROC -> slot me -> slot np ->
  wlp (fork_rest forkret_addr trapret_addr me np) s (fun r s' =>
    let F := fun j => pv_of (proc_at s j) in
    eff s s' (fset F np (v_set_st UNUSED)) (ps_nextpid s) (ps_cpu s) \/
    eff s s' (fset F np (fun v => v_set_st RUNNABLE (v_set_par (Some me) v)))
      (ps_nextpid s) (ps_cpu s) /\ r = v_pid (F np)).
Proof.
  intros Hl Hme Hnp. pose proof (eff_refl s Hl) as He. unfold fork_rest. eff_step.
  apply (allocproc_stack_eff _ _ _ _ _ _ _ He Hnp); clear He; intros s1 He; cbn [negb];
    [eff_steps; by left|].
  eff_steps. case_test; eff_steps; [by left|].
  match goal with He : eff s ?s1 ?G _ _ |- _ =>
    apply (wlp_forM _ _ _ (fun _ s' => eff s s' G (ps_nextpid s) (ps_cpu s))); [done| |] end.
  { intros j s6 _ He6. unfold fork_file. clear He. by eff_steps. }
  clear He. intros s6 He. do 7 eff_step.
  pose proof (eff_at _ _ _ _ _ He np Hnp) as Hpid. eff_steps. right. split.
  - eapply eff_ext, He. intros j Hj. unfold fset. by case_test; rewrite ?Z.eqb_refl.
  - unfold fset in Hpid. rewrite Z.eqb_refl in Hpid. by inversion Hpid.
Qed.

(** [wakeup1]: every process sleeping on the channel is made runnable. *)
Definition woken (chan : chan_t) (v : pv) : pv :=
  if bool_decide (v_st v = SLEEPING) && bool_decide (v_chan v = chan) then v_set_st RUNNABLE v else v.

Lemma wakeup1_eff s s1 F np cpu chan (Q : unit -> sys -> Prop) :
  eff s s1 F np cpu ->
  (forall s2, eff s s2 (fun j => woken chan (F j)) np cpu -> Q tt s2) ->
  wlp (wakeup1 chan) s1 Q.
Proof.
  intros He HQ. unfold wakeup1.
  apply (wlp_forM _ _ _ (fun k s' => eff s s' (fun j => if j <? k then woken chan (F j) else F j) np cpu)).
  - eapply eff_ext, He. intros j Hj. unfold slot in *. by case_test; [lia|].
  - intros k s2 Hk He2. change (0 + Z.of_nat (Z.to_nat NPROC)) with NPROC in Hk.
    unfold wakeup_one. pose proof (eff_at _ _ _ _ _ He2 k Hk) as Hv. cbv beta in Hv.
    rewrite Z.ltb_irrefl in Hv.
    assert (woken chan (F k) = if bool_decide (p_state (proc_at s2 k) = SLEEPING) &&
        bool_decide (p_chan (proc_at s2 k) = chan) then v_set_st RUNNABLE (F k) else F k) as Hw
      by (by rewrite <- Hv).
    apply wlp_bind, wlp_gets, wlp_when; intros Ht; rewrite Ht in Hw; [eff_step|];
      (eapply eff_ext, He2; intros j Hj; unfold fset; rewrite ?Z.ltb_irrefl;
       destruct (Z.compare_spec j k); subst; rewrite ?Hw; test_solver).
  - change (0 + Z.of_nat (Z.to_nat NPROC)) with NPROC. intros s2 He2. apply HQ.
    eapply eff_ext, He2. intros j Hj. unfold slot in *. test_solver.
Qed.

Lemma sched_eff s s1 F np cpu held ncli fl c me (Q : unit -> sys -> Prop) :
  eff s s1 F np cpu -> (forall s2, eff s s2 F np (upd cpu c None) -> Q tt s2) ->
  wlp (sched held ncli fl c me) s1 Q.
Proof. intros He HQ. unfold sched. eff_steps. auto. Qed.

Lemma yield_eff (s : sys) n c me : lenZ (ps_proc s) = NPROC -> slot me ->
  wlp (yield n c me) s (fun _ s' =>
    eff s s' (fset (fun j => pv_of (proc_at s j)) me (v_set_st RUNNABLE)) (ps_nextpid s)
      (upd (ps_cpu s) c None)).
Proof.
  intros Hl Hme. pose proof (eff_refl s Hl) as He. unfold yield. eff_steps.
  by apply (sched_eff _ _ _ _ _ _ _ _ _ _ _ He).
Qed.

Definition asleep (chan : chan_t) (v : pv) : pv := v_set_st SLEEPING (v_set_chan chan v).

Lemma sleep_eff s s1 F np cpu n c chan lk me (Q : unit -> sys -> Prop) :
  eff s s1 F np cpu -> rd cpu c = Some me -> slot me ->
  (forall s2, eff s s2 (fset F me (asleep chan)) np (upd cpu c None) -> Q tt s2) ->
  wlp (sleep n c chan lk) s1 Q.
Proof.
  intros He Hc Hme HQ. unfold sleep. eff_steps. rewrite (eff_cpu _ _ _ _ _ He), Hc. eff_steps.
  apply (sched_eff _ _ _ _ _ _ _ _ _ _ _ He). intros s4 He4. apply HQ.
  eapply eff_ext, He4. intros j Hj. unfold fset. by case_test; rewrite ?Z.eqb_refl.
Qed.

(** [kill] changes no more than the state of a sleeping process. *)
Lemma kill_eff (s : sys) pid : lenZ (ps_proc s) = NPROC ->
  wlp (kill pid) s (fun r s' =>
    eff s s' (fun j => pv_of (proc_at s j)) (ps_nextpid s) (ps_cpu s) \/
    exists i, slot i /\ p_state (proc_at s i) = SLEEPING /\
      eff s s' (fset (fun j => pv_of (proc_at s j)) i (v_set_st RUNNABLE)) (ps_nextpid s) (ps_cpu s)).
Proof.
  intros Hl. unfold kill. apply wlp_bind.
  apply (wlp_forR _ _ _ (fun _ s' => s' = s)); [done| |intros ? ->; wlp_step; by left].
  intros i ? Hi ->. change (0 + Z.of_nat (Z.to_nat NPROC)) with NPROC in Hi.
  pose proof (eff_refl s Hl) as He. unfold kill_one. eff_step. eff_step. case_test; eff_steps; auto.
  right. exists i. by bool_to_prop.
Qed.

Lemma pick_eff (s : sys) c p : lenZ (ps_proc s) = NPROC -> slot p ->
  wlp (pick c p ;;; sleep_resume p) s (fun _ s' =>
    eff s s' (fset (fun j => pv_of (proc_at s j)) p (fun v => v_set_chan Chan0 (v_set_st RUNNING v)))
      (ps_nextpid s) (upd (ps_cpu s) c (Some p))).
Proof.
  intros Hl Hp. pose proof (eff_refl s Hl) as He. unfold pick, sleep_resume. eff_steps.
  eapply eff_ext, He. intros j Hj. unfold fset. by case_test; rewrite ?Z.eqb_refl.
Qed.

Lemma growproc_eff (s : sys) me n : lenZ (ps_proc s) = NPROC -> slot me ->
  wlp (growproc me n) s (fun _ s' =>
    eff s s' (fun j => pv_of (proc_at s j)) (ps_nextpid s) (ps_cpu s)).
Proof.
  intros Hl Hme. pose proof (eff_refl s Hl) as He. unfold growproc. eff_step. eff_step.
  repeat case_test; eff_steps; try case_test; by eff_steps.
Qed.

Lemma exit_close_eff (s : sys) me : lenZ (ps_proc s) = NPROC -> slot me ->
  wlp (exit_close me) s (fun _ s' =>
    eff s s' (fun j => pv_of (proc_at s j)) (ps_nextpid s) (ps_cpu s)).
Proof.
  intros Hl Hme. pose proof (eff_refl s Hl) as He. unfold exit_close. do 4 eff_step. eff_step.
  eapply (wlp_forM _ _ _ (fun _ s' => eff s s' (fun j => pv_of (proc_at s j)) (ps_nextpid s) (ps_cpu s)));
    [done| |].
  - clear He. intros j s1 _ He. unfold exit_file. by eff_steps.
  - clear He. intros s1 He. by eff_steps.
Qed.

(** [exit]: the children of [me] go to [ini], which is woken if one of them is
    dead ([b]). *)
Definition repar (me : Z) (ini : option Z) (v : pv) : pv :=
  if bool_decide (v_par v = Some me) then v_set_par ini v else v.
Definition wake_if (b : bool) (chan : chan_t) (v : pv) : pv := if b then woken chan v else v.
Definition dead_child (F : Z -> pv) (me k : Z) : Prop :=
  exists i, 0 <= i < k /\ v_par (F i) = Some me /\ v_st (F i) = ZOMBIE.

Lemma wake_repar b chan me ini v :
  wake_if b chan (repar me ini v) = repar me ini (wake_if b chan v).
Proof. destruct v. unfold wake_if, woken, repar. simpl. test_solver. Qed.
Lemma woken_wake b chan v : woken chan (wake_if b chan v) = woken chan v.
Proof. destruct v. unfold wake_if, woken. simpl. test_solver; simpl; test_solver. Qed.
Lemma woken_par chan v : v_par (woken chan v) = v_par v.
Proof. unfold woken. test_solver. Qed.
Lemma woken_zombie chan v : v_st (woken chan v) = ZOMBIE <-> v_st v = ZOMBIE.
Proof. unfold woken. test_solver. simpl. naive_solver congruence. Qed.
Lemma woken_asleep chan v :
  v_st (woken chan v) = SLEEPING -> woken chan v = v /\ v_chan v <> chan.
Proof. unfold woken. test_solver; auto. Qed.
Lemma wake_if_par b chan v : v_par (wake_if b chan v) = v_par v.
Proof. destruct b; [apply woken_par | done]. Qed.
Lemma wake_if_zombie b chan v : v_st (wake_if b chan v) = ZOMBIE <-> v_st v = ZOMBIE.
Proof. destruct b; [apply woken_zombie | done]. Qed.

Definition adopt (F : Z -> pv) (me : Z) (ini : option Z) (b : bool) (k j : Z) : pv :=
  wake_if b (chan_of ini) (if j <? k then repar me ini (F j) else F j).

Lemma adopt_step F me ini b k j :
  fset (adopt F me ini b k) k (repar me ini) j = adopt F me ini b (k + 1) j.
Proof.
  unfold adopt, fset. rewrite Z.ltb_irrefl.
  destruct (Z.compare_spec j k); subst; test_solver; by rewrite <- ?wake_repar.
Qed.
Lemma adopt_wake F me ini b k j :
  woken (chan_of ini) (adopt F me ini b k j) = adopt F me ini true k j.
Proof. apply woken_wake. Qed.
Lemma adopt_par F me ini b k : v_par (adopt F me ini b k k) = v_par (F k).
Proof. unfold adopt. rewrite Z.ltb_irrefl. apply wake_if_par. Qed.
Lemma adopt_zombie F me ini b k :
  v_st (adopt F me ini b k k) = ZOMBIE <-> v_st (F k) = ZOMBIE.
Proof. unfold adopt. rewrite Z.ltb_irrefl. apply wake_if_zombie. Qed.
Lemma dead_child_step F me k :
  dead_child F me (k + 1) -> dead_child F me k \/ v_par (F k) = Some me /\ v_st (F k) = ZOMBIE.
Proof.
  intros (i & Hi & H1 & H2). destruct (decide (i = k)) as [->|]; [by right|].
  left. exists i. split; [lia | done].
Qed.

Lemma exit_child_eff (s s1 : sys) F np cpu me b k :
  eff s s1 (adopt F me (ps_initproc s) b k) np cpu -> slot k ->
  (dead_child F me k -> b = true) ->
  wlp (exit_child me k) s1 (fun _ s2 => exists b',
    eff s s2 (adopt F me (ps_initproc s) b' (k + 1)) np cpu /\
    (dead_child F me (k + 1) -> b' = true)).
Proof.
  intros He Hk Hb. pose proof (eff_at _ _ _ _ _ He k Hk) as Hv.
  assert (forall g, (v_par (F k) = Some me -> forall v, g v = v_set_par (ps_initproc s) v) ->
    (v_par (F k) <> Some me -> forall v, g v = v) ->
    forall j, fset (adopt F me (ps_initproc s) b k) k g j = adopt F me (ps_initproc s) b (k + 1) j) as Hg.
  { intros g Hy Hn j. rewrite <- adopt_step. unfold fset. case_test; [|done]. unfold repar.
    rewrite adopt_par. case_bool_decide; auto. }
  pose proof (adopt_par F me (ps_initproc s) b k) as Hpar.
  pose proof (adopt_zombie F me (ps_initproc s) b k) as Hz. rewrite <- Hv in Hpar, Hz. simpl in *.
  unfold exit_child. apply wlp_bind, wlp_gets, wlp_when; intros Hp; bool_to_prop; rewrite Hpar in Hp.
  - do 2 wlp_step. rewrite (eff_ini _ _ _ _ _ He). do 2 eff_step.
    apply (eff_ext _ _ _ (adopt F me (ps_initproc s) b (k + 1))) in He; [|by intros; apply Hg].
    eff_step; bool_to_prop.
    + apply (wakeup1_eff _ _ _ _ _ _ _ He). intros s3 He3. exists true. split; [|done].
      eapply eff_ext, He3. intros j Hj. apply adopt_wake.
    + exists b. split; [done|]. intros [?|[]]%dead_child_step; naive_solver.
  - exists b. split; [|intros [?|[]]%dead_child_step; naive_solver]. eapply eff_ext, He. intros j Hj.
    rewrite <- (Hg (fun v => v)) by done. symmetry. apply fset_id.
Qed.

(** The table when [me] has exited; [b]: it leaves a dead child. *)
Definition after_exit (F : Z -> pv) (me : Z) (ini : option Z) (b : bool) : Z -> pv :=
  fset (fun j => wake_if b (chan_of ini) (repar me ini (woken (chan_of (v_par (F me))) (F j)))) me
    (v_set_st ZOMBIE).

Lemma exit_zombie_eff (s : sys) n c me : lenZ (ps_proc s) = NPROC -> slot me ->
  wlp (exit_zombie n c me) s (fun _ s' =>
    let F := fun j => pv_of (proc_at s j) in
    exists b, (dead_child F me NPROC -> b = true) /\
      eff s s' (after_exit F me (ps_initproc s) b) (ps_nextpid s) (upd (ps_cpu s) c None)).
Proof.
  intros Hl Hme. cbv zeta. pose proof (eff_refl s Hl) as He.
  set (F := fun j => pv_of (proc_at s j)) in *. unfold exit_zombie. do 3 eff_step.
  change (p_parent (proc_at s me)) with (v_par (F me)).
  apply (wakeup1_eff _ _ _ _ _ _ _ He). clear He. intros s1 He. eff_step.
  set (G := fun j => woken _ _) in He.
  apply (wlp_forM _ _ _ (fun k s2 => exists b,
    eff s s2 (adopt G me (ps_initproc s) b k) (ps_nextpid s) (ps_cpu s) /\
    (dead_child G me k -> b = true))).
  - exists false. split; [|intros (i & ? & _); lia]. eapply eff_ext, He. intros j Hj.
    unfold adopt, slot in *. by case_test; [lia|].
  - intros k s2 Hk (b & He2 & Hb). by apply exit_child_eff with b.
  - change (0 + Z.of_nat (Z.to_nat NPROC)) with NPROC. clear He. intros s2 (b & He & Hb). eff_steps.
    apply (sched_eff _ _ _ _ _ _ _ _ _ _ _ He). intros s4 He4. exists b. split.
    + intros (i & Hi & H1 & H2). apply Hb. exists i. unfold G. by rewrite woken_par, woken_zombie.
    + eapply eff_ext, He4. intros j Hj. unfold after_exit, fset, adopt.
      unfold slot in *. test_solver.
Qed.

(** [wait] *)
Definition reaped (v : pv) : pv := mkPv UNUSED 0 None (v_chan v).
Definition child (s : sys) (me i : Z) : Prop := slot i /\ p_parent (proc_at s i) = Some me.

Lemma reap_eff (s : sys) i : lenZ (ps_proc s) = NPROC -> slot i ->
  wlp (reap i) s (fun r s' => r = p_pid (proc_at s i) /\
    eff s s' (fset (fun j => pv_of (proc_at s j)) i reaped) (ps_nextpid s) (ps_cpu s)).
Proof.
  intros Hl Hi. pose proof (eff_refl s Hl) as He. unfold reap. eff_steps. split; [done|].
  eapply eff_ext, He. intros j Hj. unfold fset. by repeat (case_test; rewrite ?Z.eqb_refl).
Qed.

(** The scan finds the first dead child in [[i, i + n)], or whether there is a child. *)
Lemma wait_scan_eff (s : sys) me n i hk : lenZ (ps_proc s) = NPROC ->
  0 <= i -> i + Z.of_nat n <= NPROC ->
  wlp (wait_scan me n i hk) s (fun r s' =>
    match r with
    | inr pid => exists k, i <= k < i + Z.of_nat n /\ child s me k /\
        p_state (proc_at s k) = ZOMBIE /\ pid = p_pid (proc_at s k) /\
        eff s s' (fset (fun j => pv_of (proc_at s j)) k reaped) (ps_nextpid s) (ps_cpu s)
    | inl hk' => s' = s /\
        (forall k, i <= k < i + Z.of_nat n -> child s me k -> p_state (proc_at s k) <> ZOMBIE) /\
        (hk' = true <-> hk = true \/ exists k, i <= k < i + Z.of_nat n /\ child s me k)
    end).
Proof.
  intros Hl. revert i hk. induction n as [|n IH]; intros i hk Hi Hn.
  - simpl. wlp_step. split_and!; [done | lia|]. split; [auto|]. intros [|(k & ? & _)]; [done | lia].
  - cbn [wait_scan]. wlp_step. eff_step. case_test.
    + eapply wlp_mono; [apply IH; lia|]. intros [hk'|pid] s'.
      * intros (-> & Hz & Hk). split_and!; [done| |].
        { intros k Hk'. destruct (decide (k = i)) as [->|]; [by intros []|]. apply Hz. lia. }
        rewrite Hk. split; intros [|(k & Hk' & Hc)]; auto; right; exists k; split; try done; try lia.
        destruct (decide (k = i)) as [->|]; [by destruct Hc | lia].
      * intros (k & ? & ?). exists k. split; [lia | done].
    + assert (child s me i) by (split; [unfold slot; lia | done]).
      case_test.
      * wlp_step. eapply wlp_mono; [apply reap_eff; [done | unfold slot; lia]|].
        intros pid s' [-> He]. wlp_step. exists i. split; [lia | done].
      * eapply wlp_mono; [apply IH; lia|]. intros [hk'|pid] s'.
        -- intros (-> & Hz & Hk). split_and!; [done| |].
           { intros k Hk'. destruct (decide (k = i)) as [->|]; [done|]. apply Hz. lia. }
           rewrite Hk. split; [|by auto]. intros _. right. exists i. split; [lia | done].
        -- intros (k & ? & ?). exists k. split; [lia | done].
Qed.

(** A turn of [wait]: a dead child is reaped and its pid returned; or there is
    none, and [wait] returns -1 if there is no child or the caller is killed, and
    goes to sleep otherwise. *)
Definition wait_post (s : sys) (c me : Z) (r : option Z) (s' : sys) : Prop :=
  let F := fun j => pv_of (proc_at s j) in
    (exists k, r = Some (p_pid (proc_at s k)) /\ child s me k /\ p_state (proc_at s k) = ZOMBIE /\
       eff s s' (fset F k reaped) (ps_nextpid s) (ps_cpu s)) \/
    (forall k, child s me k -> p_state (proc_at s k) <> ZOMBIE) /\
    (r = Some (-1) /\ s' = s /\
       ((forall k, ~ child s me k) \/ p_killed (proc_at s me) <> 0) \/
     r = None /\ (exists k, child s me k) /\ p_killed (proc_at s me) = 0 /\
       eff s s' (fset F me (asleep (ChanProc me))) (ps_nextpid s) (upd (ps_cpu s) c None)).

Lemma wait_turn_eff (s : sys) n c me :
  lenZ (ps_proc s) = NPROC -> slot me -> rd (ps_cpu s) c = Some me ->
  wlp (wait_turn n c me) s (wait_post s c me).
Proof.
  intros Hl Hme Hc. unfold wait_turn. wlp_step.
  eapply wlp_mono; [apply wait_scan_eff; [done | lia | by vm_compute]|].
  change (0 + Z.of_nat (Z.to_nat NPROC)) with NPROC. intros [hk|pid] s'.
  - intros (-> & Hz & Hk). do 2 eff_step.
    assert (forall k, child s me k -> p_state (proc_at s k) <> ZOMBIE) as Hz'
      by (intros k Hk'; apply Hz; [apply Hk' | done]).
    destruct (negb hk || negb (p_killed (proc_at s me) =? 0)) eqn:Et.
    + wlp_step. right. split; [done|]. left. split_and!; [done..|].
      apply orb_true_iff in Et as [Et|Et]; bool_to_prop; [left | by right]. subst hk.
      intros k Hk'. assert (false = true); [|done]. apply Hk. right. exists k. split; [apply Hk' | done].
    + apply orb_false_iff in Et as [E1 E2]. bool_to_prop. wlp_step.
      apply (sleep_eff _ _ _ _ _ _ _ _ _ _ _ (eff_refl s Hl) Hc Hme). intros s2 He2. wlp_step.
      right. split; [done|]. right. split_and!; try done.
      apply Hk in E1 as [?|(k & _ & ?)]; [done | by exists k].
  - intros (k & _ & ?). wlp_step. left. exists k. naive_solver.
Qed.
End functions.
