(* ===== verification/ProcInv.v ===== *)
(** * The process table under every interleaving

    The kernel's processes as a step relation: a step is one critical section of
    [ptable.lock] (or the part of a function that touches nothing shared), run on
    behalf of the process that a CPU is running, in any order.  [table_ok] is
    kept by every step. *)

From S2P Require Import Prelude Bytes Cstring Proc ProcTable.

(** What a state says of the life of a process. *)
Inductive life := Free | Unborn | Live | Dead.
#[export] Instance life_eq_dec : EqDecision life.
Proof. solve_decision. Defined.
Definition life_of (v : pv) : life :=
  match v_st v with
  | UNUSED => Free
  | EMBRYO => Unborn
  | ZOMBIE => Dead
  | SLEEPING | RUNNABLE | RUNNING => Live
  end.

(** The processes as a tree: pids are unique, a parent is alive, everyone but
    [initproc] has one; [pend p] is the unborn child that [p] is filling in. *)
Record tree_ok (F : Z -> pv) (np : Z) (ini : option Z) (pend : list (option Z)) : Prop := {
  t_np : 1 <= np;
  t_pid : forall i, slot i -> 0 <= v_pid (F i) < np;
  t_pos : forall i, slot i -> life_of (F i) <> Free -> 0 < v_pid (F i);
  t_inj : forall i j, slot i -> slot j -> v_pid (F i) = v_pid (F j) -> 0 < v_pid (F i) -> i = j;
  t_init : exists i, ini = Some i /\ slot i /\ life_of (F i) = Live;
  t_par : forall i q, slot i -> v_par (F i) = Some q ->
    slot q /\ life_of (F q) = Live /\ (life_of (F i) = Live \/ life_of (F i) = Dead);
  t_orphan : forall i, slot i -> life_of (F i) = Live \/ life_of (F i) = Dead ->
    ini <> Some i -> v_par (F i) <> None;
  t_root : forall i, slot i -> ini = Some i -> v_par (F i) = None;
  t_self : forall i, slot i -> v_par (F i) <> Some i;
  t_plen : lenZ pend = NPROC;
  t_pend : forall p q, slot p -> rd pend p = Some q ->
    slot q /\ life_of (F q) = Unborn /\ life_of (F p) = Live;
  t_pone : forall p p' q, slot p -> slot p' -> rd pend p = Some q -> rd pend p' = Some q -> p = p';
  t_unborn : forall q, slot q -> life_of (F q) = Unborn -> exists p, slot p /\ rd pend p = Some q
}.

(** A process is running exactly when it is on a CPU, and on one only. *)
Record cpu_ok (F : Z -> pv) (cpu : list (option Z)) : Prop := {
  t_cpu : forall c p, 0 <= c < lenZ cpu -> rd cpu c = Some p -> slot p /\ v_st (F p) = RUNNING;
  t_one : forall c d p, 0 <= c < lenZ cpu -> 0 <= d < lenZ cpu ->
    rd cpu c = Some p -> rd cpu d = Some p -> c = d;
  t_run : forall p, slot p -> v_st (F p) = RUNNING -> exists c, 0 <= c < lenZ cpu /\ rd cpu c = Some p
}.

(** A process that sleeps has a channel, which is its own slot if it is a process;
    one with a channel sleeps, or has been woken and has not run yet. *)
Definition chan_ok (i : Z) (v : pv) : Prop :=
  (v_st v = SLEEPING -> v_chan v <> Chan0) /\
  (v_chan v <> Chan0 -> v_st v = SLEEPING \/ v_st v = RUNNABLE) /\
  (forall q, v_chan v = ChanProc q -> q = i).

(** Nobody sleeps in [wait] with a dead child. *)
Definition in_wait (p : Z) (v : pv) : Prop := v_st v = SLEEPING /\ v_chan v = ChanProc p.
Definition wait_ok (F : Z -> pv) : Prop :=
  forall i p, slot i -> slot p -> v_par (F i) = Some p -> v_st (F i) = ZOMBIE -> ~ in_wait p (F p).

Record sched_ok (F : Z -> pv) (cpu : list (option Z)) : Prop := {
  s_cpu : cpu_ok F cpu;
  s_chan : forall i, slot i -> chan_ok i (F i);
  s_wait : wait_ok F
}.

Section machine.
Context {E : Type} `{ProcEnv E} (forkret_addr trapret_addr : Z).
Abbreviation sys := (psys E).

(** The processes, and for each one the slot it is filling in [fork]. *)
Record mach := mkMach { m_sys : sys; m_pend : list (option Z) }.

Definition running (m : mach) (c me : Z) : Prop :=
  0 <= c < lenZ (ps_cpu (m_sys m)) /\ rd (ps_cpu (m_sys m)) c = Some me.
Definition forking (m : mach) (me : Z) : option Z := rd (m_pend m) me.

(** A step of the kernel.  Only [wait] sleeps on a process; every other caller of
    [sleep] and [wakeup] uses the address of another object, and the part of the
    kernel that is not the process table ([ps_env]) changes as it likes. *)
Inductive pstep : mach -> mach -> Prop :=
| st_run m c p s' :
    0 <= c < lenZ (ps_cpu (m_sys m)) -> rd (ps_cpu (m_sys m)) c = None ->
    slot p -> p_state (proc_at (m_sys m) p) = RUNNABLE ->
    (pick c p ;;; sleep_resume p) (m_sys m) = Ok (tt, s') ->
    pstep m (mkMach s' (m_pend m))
| st_fork m c me r s' :
    running m c me -> forking m me = None ->
    allocproc_slot (m_sys m) = Ok (r, s') ->
    pstep m (mkMach s' (upd (m_pend m) me r))
| st_fork_rest m c me np r s' :
    running m c me -> forking m me = Some np ->
    fork_rest forkret_addr trapret_addr me np (m_sys m) = Ok (r, s') ->
    pstep m (mkMach s' (upd (m_pend m) me None))
| st_yield m c me s' :
    running m c me -> yield 0 c me (m_sys m) = Ok (tt, s') -> pstep m (mkMach s' (m_pend m))
| st_sleep m c me a s' :
    running m c me -> sleep 1 c (ChanAddr a) true (m_sys m) = Ok (tt, s') ->
    pstep m (mkMach s' (m_pend m))
| st_wakeup m a s' :
    wakeup (ChanAddr a) (m_sys m) = Ok (tt, s') -> pstep m (mkMach s' (m_pend m))
| st_kill m pid r s' :
    kill pid (m_sys m) = Ok (r, s') -> pstep m (mkMach s' (m_pend m))
| st_exit_close m c me s' :
    running m c me -> exit_close me (m_sys m) = Ok (tt, s') -> pstep m (mkMach s' (m_pend m))
| st_exit_zombie m c me s' :
    running m c me -> forking m me = None -> ps_initproc (m_sys m) <> Some me ->
    exit_zombie 0 c me (m_sys m) = Ok (tt, s') -> pstep m (mkMach s' (m_pend m))
| st_wait m c me r s' :
    running m c me -> forking m me = None ->
    wait_turn 0 c me (m_sys m) = Ok (r, s') -> pstep m (mkMach s' (m_pend m))
| st_grow m c me n r s' :
    running m c me -> growproc me n (m_sys m) = Ok (r, s') -> pstep m (mkMach s' (m_pend m))
| st_env m e' :
    pstep m (mkMach (mkPsys (ps_proc (m_sys m)) (ps_nextpid (m_sys m)) (ps_initproc (m_sys m))
                       (ps_cpu (m_sys m)) e') (m_pend m)).

Definition mach_ok (m : mach) : Prop :=
  let F := fun j => pv_of (proc_at (m_sys m) j) in
  lenZ (ps_proc (m_sys m)) = NPROC /\
  tree_ok F (ps_nextpid (m_sys m)) (ps_initproc (m_sys m)) (m_pend m) /\
  sched_ok F (ps_cpu (m_sys m)).
End machine.

(** ** The invariant is kept *)

(** Split the tables of the goal and the hypotheses at the changed slots. *)
Ltac fsets :=
  unfold fset in *;
  repeat match goal with
  | H : context [?a =? ?b] |- _ => destruct (Z.eqb_spec a b); subst
  | |- context [?a =? ?b] => destruct (Z.eqb_spec a b); subst
  end; cbn [v_st v_pid v_par v_chan v_set_st v_set_pid v_set_par v_set_chan asleep reaped] in *.

(** A change that leaves pids, parents and lives keeps the tree. *)
Lemma tree_ok_same F G np ini pend :
  tree_ok F np ini pend ->
  (forall i, slot i -> v_pid (G i) = v_pid (F i) /\ v_par (G i) = v_par (F i) /\ life_of (G i) = life_of (F i)) ->
  tree_ok G np ini pend.
Proof.
  intros [] HG.
  assert (forall i, slot i -> v_pid (G i) = v_pid (F i)) as Hp by naive_solver.
  assert (forall i, slot i -> v_par (G i) = v_par (F i)) as Hq by naive_solver.
  assert (forall i, slot i -> life_of (G i) = life_of (F i)) as Hl by naive_solver. clear HG.
  constructor; auto.
  - intros i Hi. rewrite Hp; auto.
  - intros i Hi. rewrite Hp, Hl; auto.
  - intros i j Hi Hj. rewrite !Hp; auto.
  - destruct t_init0 as (i & ? & ? & ?). exists i. by rewrite Hl.
  - intros i q Hi. rewrite Hq, (Hl i) by done. intros Hiq.
    destruct (t_par0 i q Hi Hiq) as (? & ? & ?). by rewrite Hl.
  - intros i Hi. rewrite Hq, Hl; auto.
  - intros i Hi. rewrite Hq; auto.
  - intros i Hi. rewrite Hq; auto.
  - intros p q Hpp Hpq. destruct (t_pend0 p q Hpp Hpq) as (? & ? & ?). by rewrite !Hl.
  - intros q Hq'. rewrite Hl; auto.
Qed.

Lemma cpu_ok_same F G cpu :
  cpu_ok F cpu -> (forall i, slot i -> v_st (G i) = RUNNING <-> v_st (F i) = RUNNING) -> cpu_ok G cpu.
Proof.
  intros [] HG. constructor; auto.
  - intros c p Hc Hp. destruct (t_cpu0 c p Hc Hp). split; [done|]. by apply HG.
  - intros p Hp. rewrite HG; auto.
Qed.

Lemma cpu_ok_enter F G cpu c p :
  cpu_ok F cpu -> 0 <= c < lenZ cpu -> rd cpu c = None -> slot p -> v_st (F p) <> RUNNING ->
  v_st (G p) = RUNNING ->
  (forall i, slot i -> i <> p -> v_st (G i) = RUNNING <-> v_st (F i) = RUNNING) ->
  cpu_ok G (upd cpu c (Some p)).
Proof.
  intros [] Hc Hn Hp Hf Hg HG. constructor; rewrite ?upd_lenZ.
  - intros d q Hd. rewrite rd_upd by lia. case_test; [naive_solver|]. intros Hq.
    destruct (t_cpu0 d q Hd Hq). split; [done|]. apply HG; [done | congruence | done].
  - intros d e q Hd He. rewrite !rd_upd by lia.
    repeat case_test; intros; simplify_eq; try done; [| |by eauto]; exfalso.
    + by destruct (t_cpu0 e q).
    + by destruct (t_cpu0 d q).
  - intros q Hq Hr. destruct (decide (q = p)) as [->|].
    + exists c. by rewrite rd_upd_eq.
    + destruct (t_run0 q Hq) as (d & Hd & Hdq); [by apply HG|].
      exists d. rewrite rd_upd by lia. case_test; [congruence | done].
Qed.

Lemma cpu_ok_leave F G cpu c p :
  cpu_ok F cpu -> 0 <= c < lenZ cpu -> rd cpu c = Some p -> v_st (G p) <> RUNNING ->
  (forall i, slot i -> i <> p -> v_st (G i) = RUNNING <-> v_st (F i) = RUNNING) ->
  cpu_ok G (upd cpu c None).
Proof.
  intros [] Hc Hp Hg HG. constructor; rewrite ?upd_lenZ.
  - intros d q Hd. rewrite rd_upd by lia. case_test; [done|]. intros Hq.
    destruct (t_cpu0 d q Hd Hq). split; [done|]. apply HG; try done. intros ->. eauto.
  - intros d e q Hd He. rewrite !rd_upd by lia. repeat case_test; eauto; done.
  - intros q Hq Hr. assert (q <> p) by congruence.
    destruct (t_run0 q Hq) as (d & Hd & Hdq); [by apply HG|].
    exists d. rewrite rd_upd by lia. case_test; [congruence | done].
Qed.

(** Waking processes, or changing the tree without making a dead child, keeps [wait_ok]. *)
Lemma wait_ok_less F G :
  wait_ok F ->
  (forall i p, slot i -> v_par (G i) = Some p -> v_st (G i) = ZOMBIE ->
    v_par (F i) = Some p /\ v_st (F i) = ZOMBIE) ->
  (forall p, slot p -> in_wait p (G p) -> in_wait p (F p)) ->
  wait_ok G.
Proof. intros Hw H1 H2 i p Hi Hp Hq Hz HG. destruct (H1 i p Hi Hq Hz). by apply (Hw i p); auto. Qed.

(** What a step does to one slot. *)
Ltac one_slot :=
  unfold life_of, chan_ok, in_wait in *; fsets;
  repeat match goal with H : v_st _ = _ |- context [v_st _] => rewrite H end; naive_solver.

Section kept.
Context (F : Z -> pv) (np : Z) (ini : option Z) (cpu pend : list (option Z)).
Hypothesis Ht : tree_ok F np ini pend.
Hypothesis Hs : sched_ok F cpu.

Lemma kept_run c p : 0 <= c < lenZ cpu -> rd cpu c = None -> slot p -> v_st (F p) = RUNNABLE ->
  let G := fset F p (fun v => v_set_chan Chan0 (v_set_st RUNNING v)) in
  tree_ok G np ini pend /\ sched_ok G (upd cpu c (Some p)).
Proof.
  intros Hc Hn Hp Hr G. destruct Hs as [Hcpu Hch Hw]. split; [|constructor].
  - apply (tree_ok_same _ _ _ _ _ Ht). intros i Hi. unfold G. one_slot.
  - apply (cpu_ok_enter _ _ _ _ _ Hcpu); auto; unfold G; try intros i Hi Hne; one_slot.
  - intros i Hi. specialize (Hch i Hi). unfold G. one_slot.
  - apply (wait_ok_less _ _ Hw); unfold G; intros; one_slot.
Qed.

(** The running process stops: it yields or sleeps. *)
Lemma kept_pause c me g :
  0 <= c < lenZ cpu -> rd cpu c = Some me ->
  (forall v, v_pid (g v) = v_pid v /\ v_par (g v) = v_par v) ->
  v_st (g (F me)) = SLEEPING \/ v_st (g (F me)) = RUNNABLE -> chan_ok me (g (F me)) ->
  (in_wait me (g (F me)) -> forall i, slot i -> v_par (F i) = Some me -> v_st (F i) <> ZOMBIE) ->
  tree_ok (fset F me g) np ini pend /\ sched_ok (fset F me g) (upd cpu c None).
Proof.
  intros Hc Hme Hg Hst Hgc Hgw. destruct Hs as [Hcpu Hch Hw].
  destruct (t_cpu _ _ Hcpu c me Hc Hme) as [Hsl Hrun]. pose proof (Hg (F me)) as [Hg1 Hg2].
  split; [|constructor].
  - apply (tree_ok_same _ _ _ _ _ Ht). intros i Hi. unfold fset, life_of. case_test; [|done]. subst.
    rewrite Hrun. destruct Hst as [-> | ->]; done.
  - apply (cpu_ok_leave _ _ _ _ _ Hcpu Hc Hme); unfold fset.
    + rewrite Z.eqb_refl. destruct Hst as [-> | ->]; done.
    + intros i Hi Hne. by rewrite (proj2 (Z.eqb_neq i me) Hne).
  - intros i Hi. unfold fset. case_test; subst; auto.
  - intros i p Hi Hp Hq Hz Hin. unfold fset in Hq, Hz, Hin.
    destruct (Z.eqb_spec i me) as [->|]; [destruct Hst; congruence|].
    destruct (Z.eqb_spec p me) as [->|]; [by apply (Hgw Hin i)|]. by apply (Hw i p).
Qed.

(** Some sleeping processes become runnable. *)
Lemma kept_wake G :
  (forall i, slot i -> G i = F i \/ v_st (F i) = SLEEPING /\ G i = v_set_st RUNNABLE (F i)) ->
  tree_ok G np ini pend /\ sched_ok G cpu.
Proof.
  intros HG. destruct Hs as [Hcpu Hch Hw]. split; [|constructor].
  - apply (tree_ok_same _ _ _ _ _ Ht). intros i Hi. destruct (HG i Hi) as [->|[Hst ->]]; one_slot.
  - apply (cpu_ok_same _ _ _ Hcpu). intros i Hi. destruct (HG i Hi) as [->|[Hst ->]]; one_slot.
  - intros i Hi. specialize (Hch i Hi). destruct (HG i Hi) as [->|[Hst ->]]; one_slot.
  - apply (wait_ok_less _ _ Hw); intros i; intros; destruct (HG i) as [EG|[Hst EG]]; auto;
      rewrite EG in *; one_slot.
Qed.

(** A slot that is not in use, or about to be, becomes [st] with the pid [pid]. *)
Lemma sched_quiet G p :
  slot p -> v_st (F p) <> RUNNING -> v_st (F p) <> SLEEPING -> v_st (F p) <> RUNNABLE ->
  v_st (G p) <> RUNNING -> v_st (G p) <> SLEEPING -> v_st (G p) <> ZOMBIE -> v_chan (G p) = v_chan (F p) ->
  (forall i, slot i -> i <> p -> G i = F i) ->
  sched_ok G cpu.
Proof.
  intros Hp H1 H2 H3 G1 G2 G3 Gc HG. destruct Hs as [Hcpu Hch Hw].
  assert (v_chan (F p) = Chan0) as Hc0.
  { destruct (decide (v_chan (F p) = Chan0)) as [|Hn]; [done|].
    by destruct (Hch p Hp) as (_ & [|]%(fun f => f Hn) & _). }
  constructor.
  - apply (cpu_ok_same _ _ _ Hcpu). intros i Hi. destruct (decide (i = p)) as [->|]; [done|]. by rewrite HG.
  - intros i Hi. destruct (decide (i = p)) as [->|]; [|rewrite HG; auto].
    unfold chan_ok. rewrite Gc, Hc0. done.
  - apply (wait_ok_less _ _ Hw).
    + intros i q Hi. destruct (decide (i = p)) as [->|]; [done|]. by rewrite HG.
    + intros i Hi. destruct (decide (i = p)) as [->|]; [|by rewrite HG]. by intros [? _].
Qed.

(** A free or unborn slot has no parent, is no parent and is not [initproc]. *)
Lemma no_family p : slot p -> life_of (F p) <> Live -> life_of (F p) <> Dead ->
  v_par (F p) = None /\ ini <> Some p /\ forall i, slot i -> v_par (F i) <> Some p.
Proof.
  intros Hp H1 H2. destruct Ht. split_and!.
  - destruct (v_par (F p)) as [q|] eqn:Eq; [|done]. destruct (t_par0 p q Hp Eq) as (_ & _ & [|]); done.
  - destruct t_init0 as (i & -> & _ & Hi). congruence.
  - intros i Hi Hq. by destruct (t_par0 i p Hi Hq) as (_ & ? & _).
Qed.

(** [fork] takes a slot. *)
Lemma tree_alloc me p : slot me -> life_of (F me) = Live -> rd pend me = None ->
  slot p -> life_of (F p) = Free ->
  tree_ok (fset F p (fun v => v_set_pid np (v_set_st EMBRYO v))) (np + 1) ini (upd pend me (Some p)).
Proof.
  intros Hme Hlive Hpe Hp Hf.
  destruct (no_family p Hp) as (Hno & Hini & Hch); [congruence..|].
  assert (me <> p) as Hne by congruence. destruct Ht.
  constructor; rewrite ?upd_lenZ; try (done || lia).
  - intros i Hi. specialize (t_pid0 i Hi). fsets; lia.
  - intros i Hi Hl. fsets; [lia | auto].
  - intros i j Hi Hj. pose proof (t_pid0 i Hi). pose proof (t_pid0 j Hj). fsets; auto; lia.
  - destruct t_init0 as (i & Ei & Hi & Hl). exists i. split_and!; try done. fsets; congruence.
  - intros i q Hi Hq. assert (i <> p) by (intros ->; fsets; congruence).
    assert (v_par (F i) = Some q) as Hq' by (by fsets). assert (q <> p) by (intros ->; by apply (Hch i)).
    destruct (t_par0 i q Hi Hq') as (? & ? & ?). fsets; done.
  - intros i Hi Hl Hn. assert (i <> p) by (intros ->; unfold fset, life_of in Hl; rewrite Z.eqb_refl in Hl; naive_solver).
    fsets; [done|]. by apply t_orphan0.
  - intros i Hi Hn. fsets; auto.
  - intros i Hi. fsets; auto.
  - intros q r Hq. rewrite rd_upd by (unfold slot in *; lia).
    case_test; intros; simplify_eq.
    + split; [done|]. unfold life_of at 1. fsets; done.
    + destruct (t_pend0 q r Hq) as (? & ? & ?); [done|]. fsets; try done; congruence.
  - intros q q' r Hq Hq'. rewrite !rd_upd by (unfold slot in *; lia).
    repeat case_test; intros; simplify_eq; eauto.
    + by destruct (t_pend0 q' r) as (? & ? & ?); [done..|congruence].
    + by destruct (t_pend0 q r) as (? & ? & ?); [done..|congruence].
  - intros q Hq Hu. destruct (decide (q = p)) as [->|].
    + exists me. split; [done|]. rewrite rd_upd_eq; [done | unfold slot in *; lia].
    + destruct (t_unborn0 q Hq) as (r & Hr & Hrq); [fsets; done|].
      exists r. split; [done|]. rewrite rd_upd by (unfold slot in *; lia). case_test; congruence.
Qed.

(** [fork] is done with the slot [p]: it is free again, or a child of [me]. *)
Lemma tree_born me p g : slot me -> rd pend me = Some p ->
  (forall v, v_pid (g v) = v_pid v) ->
  life_of (g (F p)) = Free /\ v_par (g (F p)) = v_par (F p) \/
  life_of (g (F p)) = Live /\ v_par (g (F p)) = Some me ->
  tree_ok (fset F p g) np ini (upd pend me None).
Proof.
  intros Hme Hpe Hg Hcase. destruct (t_pend _ _ _ _ Ht me p Hme Hpe) as (Hp & Hu & Hlive).
  destruct (no_family p Hp) as (Hno & Hini & Hch); [congruence..|].
  assert (me <> p) as Hne by congruence.
  assert (forall i, slot i -> i <> p -> fset F p g i = F i) as HG by (intros; by fsets).
  assert (fset F p g p = g (F p)) as HGp by (by fsets).
  assert (forall i, slot i -> v_pid (fset F p g i) = v_pid (F i)) as Hpid
    by (intros i Hi; fsets; auto).
  destruct Ht. constructor; rewrite ?upd_lenZ; auto.
  - intros i Hi. rewrite Hpid; auto.
  - intros i Hi Hl. rewrite Hpid by done. apply t_pos0; [done|].
    destruct (decide (i = p)) as [->|]; [congruence|]. by rewrite HG in Hl.
  - intros i j Hi Hj. rewrite !Hpid; auto.
  - destruct t_init0 as (i & Ei & Hi & Hl). exists i. split_and!; try done. rewrite HG; congruence.
  - intros i q Hi Hq. destruct (decide (i = p)) as [->|].
    + rewrite HGp in *. destruct Hcase as [[]|[]]; [congruence|]. simplify_eq.
      rewrite HG by congruence. naive_solver.
    + rewrite HG in Hq by done. assert (q <> p) by (intros ->; by apply (Hch i)).
      destruct (t_par0 i q Hi Hq) as (? & ? & ?). by rewrite !HG.
  - intros i Hi Hl Hn. destruct (decide (i = p)) as [->|]; [|rewrite HG in Hl |- * by done; auto].
    rewrite HGp in Hl |- *. destruct Hcase as [[]|[]]; naive_solver congruence.
  - intros i Hi Hn. rewrite HG by congruence. auto.
  - intros i Hi. destruct (decide (i = p)) as [->|]; [|rewrite HG by done; auto].
    rewrite HGp. destruct Hcase as [[]|[]]; congruence.
  - intros q r Hq. rewrite rd_upd by (unfold slot in *; lia). case_test; [done|]. intros Hr.
    destruct (t_pend0 q r Hq Hr) as (? & ? & ?).
    assert (r <> p) by (intros ->; eauto). assert (q <> p) by congruence. by rewrite !HG.
  - intros q q' r Hq Hq'. rewrite !rd_upd by (unfold slot in *; lia). repeat case_test; done || eauto.
  - intros q Hq Hl. assert (q <> p) by (intros ->; rewrite HGp in Hl; destruct Hcase as [[]|[]]; congruence).
    rewrite HG in Hl by done. destruct (t_unborn0 q Hq Hl) as (r & Hr & Hrq).
    exists r. split; [done|]. rewrite rd_upd by (unfold slot in *; lia). case_test; congruence.
Qed.

(** [wait] frees the slot of a dead child. *)
Lemma tree_reap p : slot p -> life_of (F p) = Dead -> tree_ok (fset F p reaped) np ini pend.
Proof.
  intros Hp Hd.
  assert (forall i, slot i -> i <> p -> fset F p reaped i = F i) as HG by (intros; by fsets).
  assert (fset F p reaped p = reaped (F p)) as HGp by (by fsets).
  destruct Ht. constructor; auto.
  - intros i Hi. pose proof (t_pid0 i Hi). fsets; lia.
  - intros i Hi Hl. destruct (decide (i = p)) as [->|]; [by rewrite HGp in Hl|].
    rewrite HG in Hl |- * by done. auto.
  - intros i j Hi Hj. fsets; auto; lia.
  - destruct t_init0 as (i & Ei & Hi & Hl). exists i. split_and!; try done. rewrite HG; congruence.
  - intros i q Hi Hq. destruct (decide (i = p)) as [->|]; [by rewrite HGp in Hq|].
    rewrite HG in Hq by done. destruct (t_par0 i q Hi Hq) as (? & ? & ?). rewrite !HG by congruence. done.
  - intros i Hi Hl Hn. destruct (decide (i = p)) as [->|]; [rewrite HGp in Hl; naive_solver|].
    rewrite HG in Hl |- * by done. auto.
  - intros i Hi Hn. destruct (decide (i = p)) as [->|]; [by rewrite HGp | rewrite HG by done; auto].
  - intros i Hi. destruct (decide (i = p)) as [->|]; [by rewrite HGp | rewrite HG by done; auto].
  - intros q r Hq Hr. destruct (t_pend0 q r Hq Hr) as (? & ? & ?). rewrite !HG by congruence. done.
  - intros q Hq Hl. destruct (decide (q = p)) as [->|]; [by rewrite HGp in Hl|]. rewrite HG in Hl; auto.
Qed.

(** [exit]: [me] is dead and its children belong to [ini]. *)
Lemma repar_cases me v :
  repar me ini v = v /\ v_par v <> Some me \/ repar me ini v = v_set_par ini v /\ v_par v = Some me.
Proof. unfold repar. case_bool_decide; auto. Qed.

Definition exited (me : Z) : Z -> pv := fset (fun j => repar me ini (F j)) me (v_set_st ZOMBIE).

Lemma exited_me me : slot me -> exited me me = v_set_st ZOMBIE (F me).
Proof.
  intros Hme. unfold exited, fset. rewrite Z.eqb_refl.
  destruct (repar_cases me (F me)) as [[-> _]|[_ Hq]]; [done|]. by destruct (t_self _ _ _ _ Ht me).
Qed.
Lemma exited_ne me i : i <> me -> exited me i = repar me ini (F i).
Proof. intros. unfold exited. by fsets. Qed.
Lemma exited_life me i : i <> me -> life_of (exited me i) = life_of (F i).
Proof. intros. rewrite exited_ne by done. by destruct (repar_cases me (F i)) as [[-> _]|[-> _]]. Qed.
Lemma exited_pid me i : v_pid (exited me i) = v_pid (F i).
Proof.
  unfold exited. fsets; by match goal with |- context [repar me ini ?v] => destruct (repar_cases me v) as [[-> _]|[-> _]] end.
Qed.

Lemma tree_exit me : slot me -> life_of (F me) = Live -> rd pend me = None -> ini <> Some me ->
  tree_ok (exited me) np ini pend.
Proof.
  intros Hme Hl Hpe Hini.
  assert (exists i, ini = Some i /\ slot i /\ life_of (exited me i) = Live) as Hinit.
  { destruct (t_init _ _ _ _ Ht) as (i & Ei & Hi & Hli). exists i.
    split_and!; try done. rewrite exited_life; congruence. }
  assert (forall i, slot i -> life_of (exited me i) = Live \/ life_of (exited me i) = Dead <->
    life_of (F i) = Live \/ life_of (F i) = Dead) as Hlife.
  { intros i Hi. destruct (decide (i = me)) as [->|]; [|by rewrite exited_life].
    rewrite exited_me, Hl by done. unfold life_of. simpl. naive_solver. }
  pose proof (exited_me me Hme) as HGm. pose proof (exited_life me) as HGl. pose proof (exited_pid me) as HGp.
  pose proof (exited_ne me) as HGn. destruct Ht. constructor; auto.
  - intros i Hi. rewrite HGp; auto.
  - intros i Hi Hf. rewrite HGp. apply t_pos0; [done|].
    destruct (decide (i = me)) as [->|]; [congruence|]. by rewrite HGl in Hf.
  - intros i j Hi Hj. rewrite !HGp; auto.
  - intros i q Hi. rewrite Hlife by done. destruct (decide (i = me)) as [->|].
    + rewrite HGm. cbn. intros Hq. assert (q <> me) by (intros ->; by apply (t_self0 me)).
      destruct (t_par0 me q Hme Hq) as (? & ? & ?). by rewrite HGl.
    + rewrite HGn by done. destruct (repar_cases me (F i)) as [[-> Hn]|[-> Hq]].
      * intros Hq. destruct (t_par0 i q Hi Hq) as (? & ? & ?). rewrite HGl by congruence. done.
      * cbn. intros Hq'. destruct Hinit as (i0 & Ei & ? & ?). simplify_eq.
        by destruct (t_par0 i me Hi Hq) as (? & ? & ?).
  - intros i Hi. rewrite Hlife by done. intros Hli Hn. destruct (decide (i = me)) as [->|].
    + rewrite HGm. by apply t_orphan0.
    + rewrite HGn by done. destruct (repar_cases me (F i)) as [[-> _]|[-> Hq]]; [by apply t_orphan0|].
      destruct Hinit as (i0 & -> & _). done.
  - intros i Hi Hn. rewrite HGn by congruence. destruct (repar_cases me (F i)) as [[-> _]|[-> Hq]]; auto.
    rewrite t_root0 in Hq; done.
  - intros i Hi. destruct (decide (i = me)) as [->|]; [rewrite HGm; by apply t_self0|].
    rewrite HGn by done. destruct (repar_cases me (F i)) as [[-> _]|[-> Hq]]; auto.
    cbn. intros Hn. rewrite t_root0 in Hq; done.
  - intros p q Hp Hq. destruct (t_pend0 p q Hp Hq) as (? & ? & ?). rewrite !HGl by congruence. done.
  - intros q Hq Hu. destruct (decide (q = me)) as [->|]; [by rewrite HGm in Hu|]. rewrite HGl in Hu; auto.
Qed.

Lemma sched_exit c me : 0 <= c < lenZ cpu -> rd cpu c = Some me -> slot me ->
  (forall q, v_par (F me) = Some q -> ~ in_wait q (F q)) ->
  (forall q, dead_child F me NPROC -> ini = Some q -> ~ in_wait q (F q)) ->
  sched_ok (exited me) (upd cpu c None).
Proof.
  intros Hc Hcm Hme Hq1 Hq2. destruct Hs as [Hcpu Hch Hw].
  destruct (t_cpu _ _ Hcpu c me Hc Hcm) as [_ Hrun].
  assert (forall i, i <> me -> v_st (exited me i) = v_st (F i) /\ v_chan (exited me i) = v_chan (F i)) as HG.
  { intros i Hi. rewrite exited_ne by done. by destruct (repar_cases me (F i)) as [[-> _]|[-> _]]. }
  constructor.
  - apply (cpu_ok_leave _ _ _ _ _ Hcpu Hc Hcm); [by rewrite exited_me|].
    intros i Hi Hne. by rewrite (proj1 (HG i Hne)).
  - intros i Hi. specialize (Hch i Hi). unfold chan_ok. destruct (decide (i = me)) as [->|Hne].
    + rewrite exited_me by done. cbn. destruct Hch as (_ & Hn & Hq). split_and!; [done| |done].
      intros [|]%Hn; congruence.
    + destruct (HG i Hne) as [-> ->]. done.
  - intros i p Hi Hp Hq Hz [Hin1 Hin2].
    assert (p <> me) as Hpm by (intros ->; by rewrite exited_me in Hin1).
    destruct (HG p Hpm) as [E1 E2]. rewrite E1 in Hin1. rewrite E2 in Hin2.
    destruct (decide (i = me)) as [->|Hne].
    + rewrite exited_me in Hq by done. by apply (Hq1 p).
    + rewrite (proj1 (HG i Hne)) in Hz. rewrite exited_ne in Hq by done.
      destruct (repar_cases me (F i)) as [[Er _]|[Er Hpar]]; rewrite Er in Hq; [by apply (Hw i p)|].
      apply (Hq2 p); [|done|done]. by exists i.
Qed.
End kept.

Lemma sched_ok_ext F G cpu : (forall i, slot i -> F i = G i) -> sched_ok F cpu -> sched_ok G cpu.
Proof.
  intros HG [Hc Hch Hw]. constructor.
  - apply (cpu_ok_same _ _ _ Hc). intros i Hi. by rewrite HG.
  - intros i Hi. rewrite <- HG by done. auto.
  - apply (wait_ok_less _ _ Hw); intros i; intros; rewrite HG; auto.
Qed.

(** ** Every step keeps the invariant *)

Section steps.
Context {E : Type} `{ProcEnv E} (forkret_addr trapret_addr : Z).
Abbreviation sys := (psys E).

Lemma mach_ok_eff (s s' : sys) G np cpu pend :
  eff s s' G np cpu -> tree_ok G np (ps_initproc s) pend -> sched_ok G cpu ->
  mach_ok (mkMach s' pend).
Proof.
  intros [Hl Ha Hn Hc Hi] HT HS. split; [done|]. simpl. rewrite Hn, Hc, Hi. split.
  - apply (tree_ok_same _ _ _ _ _ HT). intros i Hsl. by rewrite Ha.
  - apply (sched_ok_ext G); [|done]. intros i Hsl. by rewrite Ha.
Qed.

(** The same for a function described by its effect from [m]. *)
Lemma kept_eff (m : mach) (s' : sys) G np cpu pend :
  eff (m_sys m) s' G np cpu -> np <= ps_nextpid (m_sys m) + 1 ->
  tree_ok G np (ps_initproc (m_sys m)) pend /\ sched_ok G cpu ->
  mach_ok (mkMach s' pend) /\ ps_nextpid s' <= ps_nextpid (m_sys m) + 1.
Proof.
  intros He Hn [HT HS]. split; [by eapply mach_ok_eff|]. by rewrite (eff_np _ _ _ _ _ He).
Qed.

Section one.
Context (m : mach (E := E)).
Hypothesis Hok : mach_ok m.
Hypothesis Hnp : ps_nextpid (m_sys m) < 2147483647.
Abbreviation cur := (m_sys m).
Abbreviation good m' := (mach_ok m' /\ ps_nextpid (m_sys m') <= ps_nextpid cur + 1).

Lemma running_slot c me : running m c me -> slot me /\ p_state (proc_at cur me) = RUNNING.
Proof. intros [Hc Hr]. destruct Hok as (_ & _ & [Hcpu _ _]). apply (t_cpu _ _ Hcpu c me Hc Hr). Qed.

Lemma good_fork c me r s' : running m c me -> forking m me = None ->
  allocproc_slot cur = Ok (r, s') -> good (mkMach s' (upd (m_pend m) me r)).
Proof.
  intros Hrun Hf Hr. destruct (running_slot _ _ Hrun) as [Hme Hst]. destruct Hok as (Hl & HT & HS).
  apply (wlp_elim _ _ _ _ _ (allocproc_slot_eff cur Hl)) in Hr. pose proof (t_np _ _ _ _ HT).
  destruct r as [p|].
  - destruct Hr as (Hp & Hu & He). rewrite s32_small in He by lia.
    apply (kept_eff _ _ _ _ _ _ He); [lia|]. split.
    + apply (tree_alloc _ _ _ _ HT me p); try done; unfold life_of; simpl; by rewrite ?Hst, ?Hu.
    + apply (sched_quiet _ _ HS _ p); try done; try (by simpl; rewrite Hu); unfold fset;
        try (by rewrite Z.eqb_refl). intros i Hi Hne. by rewrite (proj2 (Z.eqb_neq i p) Hne).
  - subst s'. split; [|simpl; lia]. split; [done|]. split; [|done]. simpl.
    unfold forking in Hf. rewrite <- Hf, upd_rd; [done|]. rewrite (t_plen _ _ _ _ HT). apply Hme.
Qed.

Lemma good_fork_rest c me np r s' : running m c me -> forking m me = Some np ->
  fork_rest forkret_addr trapret_addr me np cur = Ok (r, s') -> good (mkMach s' (upd (m_pend m) me None)).
Proof.
  intros Hrun Hf Hr. destruct (running_slot _ _ Hrun) as [Hme Hst]. destruct Hok as (Hl & HT & HS).
  destruct (t_pend _ _ _ _ HT me np Hme Hf) as (Hp & Hu & _).
  apply (wlp_elim _ _ _ _ _ (fork_rest_eff _ _ cur me np Hl Hme Hp)) in Hr.
  assert (p_state (proc_at cur np) = EMBRYO) as Hem by (unfold life_of in Hu; simpl in Hu; by destruct (p_state (proc_at cur np))).
  destruct Hr as [He|[He _]]; (apply (kept_eff _ _ _ _ _ _ He); [lia|]; split).
  1, 3: apply (tree_born _ _ _ _ HT me np _ Hme Hf); [done | auto].
  all: apply (sched_quiet _ _ HS _ np); try done; try (by simpl; rewrite Hem); unfold fset;
    try (by rewrite Z.eqb_refl); intros i Hi Hne; by rewrite (proj2 (Z.eqb_neq i np) Hne).
Qed.

Lemma good_wake G s' :
  eff cur s' G (ps_nextpid cur) (ps_cpu cur) ->
  (forall i, slot i -> G i = pv_of (proc_at cur i) \/
     p_state (proc_at cur i) = SLEEPING /\ G i = v_set_st RUNNABLE (pv_of (proc_at cur i))) ->
  good (mkMach s' (m_pend m)).
Proof.
  intros He HG. destruct Hok as (Hl & HT & HS). apply (kept_eff _ _ _ _ _ _ He); [lia|].
  by apply (kept_wake _ _ _ _ _ HT HS).
Qed.

Lemma good_pause c me g s' : running m c me ->
  eff cur s' (fset (fun j => pv_of (proc_at cur j)) me g) (ps_nextpid cur) (upd (ps_cpu cur) c None) ->
  (forall v, v_pid (g v) = v_pid v /\ v_par (g v) = v_par v) ->
  (forall v, v_st (g v) = SLEEPING /\ (v_chan (g v) = ChanProc me \/ exists a, v_chan (g v) = ChanAddr a) \/
     v_st (g v) = RUNNABLE /\ v_chan (g v) = v_chan v) ->
  (in_wait me (g (pv_of (proc_at cur me))) ->
     forall i, child cur me i -> p_state (proc_at cur i) <> ZOMBIE) ->
  good (mkMach s' (m_pend m)).
Proof.
  intros Hrun He Hg Hst Hw. pose proof (running_slot _ _ Hrun) as [Hme _].
  destruct Hok as (Hl & HT & HS). destruct Hrun as [Hc Hcm].
  apply (kept_eff _ _ _ _ _ _ He); [lia|]. apply (kept_pause _ _ _ _ _ HT HS); try done.
  - destruct (Hst (pv_of (proc_at cur me))) as [[? _]|[? _]]; auto.
  - pose proof (s_chan _ _ HS me Hme) as (_ & _ & Hself).
    destruct (Hst (pv_of (proc_at cur me))) as [[E1 [E2|[a E2]]]|[E1 E2]]; unfold chan_ok;
      rewrite E1, ?E2; naive_solver.
  - intros Hin i Hi Hpar. by apply Hw.
Qed.

Lemma good_exit c me s' : running m c me -> forking m me = None -> ps_initproc cur <> Some me ->
  exit_zombie 0 c me cur = Ok (tt, s') -> good (mkMach s' (m_pend m)).
Proof.
  intros Hrun Hf Hini Hr. destruct (running_slot _ _ Hrun) as [Hme Hst]. destruct Hok as (Hl & HT & HS).
  apply (wlp_elim _ _ _ _ _ (exit_zombie_eff cur 0 c me Hl Hme)) in Hr as (b & Hb & He).
  set (F := fun j => pv_of (proc_at cur j)) in *.
  set (G := fun j => wake_if b (chan_of (ps_initproc cur)) (woken (chan_of (v_par (F me))) (F j))).
  destruct (kept_wake _ _ _ _ _ HT HS G) as [HTG HSG].
  { intros i Hi. unfold G, wake_if, woken. test_solver; auto; by right. }
  assert (v_st (G me) = RUNNING /\ v_par (G me) = v_par (F me)) as [HGs HGp].
  { split; [|unfold G; by rewrite wake_if_par, woken_par].
    unfold G, wake_if, woken. simpl. rewrite Hst. by destruct b; simpl; rewrite ?Hst. }
  destruct Hrun as [Hc Hcm]. apply (kept_eff _ _ (exited G (ps_initproc cur) me) (ps_nextpid cur) (upd (ps_cpu cur) c None)).
  - eapply eff_ext, He. intros j Hj. unfold exited, after_exit, G, fset. by rewrite !wake_repar.
  - lia.
  - split.
    + apply (tree_exit _ _ _ _ HTG); try done. unfold life_of. by rewrite HGs.
    + apply (sched_exit _ _ _ _ _ HTG HSG); try done.
      * rewrite HGp. intros q Hq [Hi1 Hi2]. unfold G in Hi1, Hi2. rewrite Hq in Hi1, Hi2.
        destruct b; simpl in Hi1, Hi2.
        { destruct (woken_asleep _ _ Hi1) as [Ew _]. rewrite Ew in Hi1, Hi2.
          destruct (woken_asleep _ _ Hi1) as [Ew2 ?]. congruence. }
        destruct (woken_asleep _ _ Hi1) as [Ew ?]. congruence.
      * intros q (i & Hi & Hp & Hz) Hq [Hi1 Hi2]. unfold G in Hp, Hz.
        rewrite wake_if_par, woken_par in Hp. rewrite wake_if_zombie, woken_zombie in Hz.
        assert (b = true) as -> by (apply Hb; by exists i). unfold G in Hi1, Hi2.
        rewrite Hq in Hi1, Hi2. simpl in Hi1, Hi2.
        destruct (woken_asleep _ _ Hi1) as [Ew ?]. congruence.
Qed.

Lemma good_wait c me r s' : running m c me -> wait_turn 0 c me cur = Ok (r, s') ->
  good (mkMach s' (m_pend m)).
Proof.
  intros Hrun Hr. destruct (running_slot _ _ Hrun) as [Hme Hst]. pose proof Hok as (Hl & HT & HS).
  apply (wlp_elim _ _ _ _ _ (wait_turn_eff cur 0 c me Hl Hme (proj2 Hrun))) in Hr.
  destruct Hr as [(k & _ & [Hk _] & Hz & He)|(Hnz & [(_ & -> & _)|(_ & _ & _ & He)])].
  - apply (kept_eff _ _ _ _ _ _ He); [lia|]. split.
    + apply (tree_reap _ _ _ _ HT); [done|]. unfold life_of. simpl. by rewrite Hz.
    + apply (sched_quiet _ _ HS _ k); try done; try (by simpl; rewrite Hz); unfold fset;
        try (by rewrite Z.eqb_refl). intros i Hi Hne. by rewrite (proj2 (Z.eqb_neq i k) Hne).
  - split; [done | simpl; lia].
  - apply (good_pause c me (asleep (ChanProc me))); try done. intros v. left. by split; [|left].
Qed.

Lemma pstep_good m' : pstep forkret_addr trapret_addr m m' -> good m'.
Proof.
  pose proof Hok as (Hl & HT & HS).
  assert (forall s', eff cur s' (fun j => pv_of (proc_at cur j)) (ps_nextpid cur) (ps_cpu cur) ->
    good (mkMach s' (m_pend m))) as Hsame by (intros; eapply good_wake; [done | auto]).
  intros Hst. inversion Hst; subst.
  - apply (wlp_elim _ _ _ _ _ (pick_eff cur c p Hl ltac:(done))) in H4.
    apply (kept_eff _ _ _ _ _ _ H4); [lia|]. by apply (kept_run _ _ _ _ _ HT HS).
  - by eapply good_fork.
  - by eapply good_fork_rest.
  - destruct (running_slot _ _ H0) as [Hme _].
    apply (wlp_elim _ _ _ _ _ (yield_eff cur 0 c me Hl Hme)) in H1.
    apply (good_pause c me (v_set_st RUNNABLE)); try done; [by intros v; right|]. by intros [? _].
  - destruct (running_slot _ _ H0) as [Hme _].
    apply (wlp_elim _ _ (fun _ s' => eff cur s' _ _ _) _ _ (sleep_eff _ _ _ _ _ 1 c _ true me _
      (eff_refl cur Hl) (proj2 H0) Hme (fun s2 He => He))) in H1.
    apply (good_pause c me (asleep (ChanAddr a))); try done; [|by intros [_ ?]].
    intros v. left. split; [done|]. right. by exists a.
  - apply (wlp_elim _ _ (fun _ s' => eff cur s' _ _ _) _ _ (wakeup1_eff _ _ _ _ _ _ _
      (eff_refl cur Hl) (fun s2 He => He))) in H0.
    eapply good_wake; [done|]. intros i Hi. cbv beta. unfold woken. test_solver; auto; by right.
  - apply (wlp_elim _ _ _ _ _ (kill_eff cur pid Hl)) in H0 as [?|(i & Hi & Hsl & He)]; [auto|].
    eapply good_wake; [done|]. intros j Hj. unfold fset. case_test; subst; auto.
  - destruct (running_slot _ _ H0) as [Hme _].
    apply (wlp_elim _ _ _ _ _ (exit_close_eff cur me Hl Hme)) in H1. auto.
  - by eapply good_exit.
  - by eapply good_wait.
  - destruct (running_slot _ _ H0) as [Hme _].
    apply (wlp_elim _ _ _ _ _ (growproc_eff cur me n Hl Hme)) in H1. auto.
  - split; [done | simpl; lia].
Qed.
End one.

(** Runs: a run of [n] steps uses at most [n] pids. *)
Lemma run_good n : forall m m' : mach, nsteps (pstep forkret_addr trapret_addr) n m m' ->
  mach_ok m -> ps_nextpid (m_sys m) + Z.of_nat n < 2147483648 -> mach_ok m'.
Proof.
  induction n as [|n IH]; intros m m' Hn Hok Hb; inversion Hn; subst; [done|].
  destruct (pstep_good m Hok ltac:(lia) y H1) as [Hok' Hnp]. by apply (IH y m'); [|done|lia].
Qed.

(** The kernel before [userinit]: no processes, [ncpu] CPUs. *)
Definition psys0 (ncpu : nat) (e : E) : sys :=
  mkPsys (replicate (Z.to_nat NPROC) proc0) 1 None (replicate ncpu None) e.
Definition mach0 (s : sys) : mach := mkMach s (replicate (Z.to_nat NPROC) None).

Lemma proc_at0 ncpu e i : slot i -> proc_at (psys0 ncpu e) i = proc0.
Proof. intros Hi. unfold proc_at, psys0, ps_proc. apply rd_replicate. exact Hi. Qed.

Lemma boot_tree p0 (F : Z -> pv) : slot p0 ->
  (forall j, slot j -> F j = if j =? p0 then mkPv RUNNABLE 1 None Chan0 else mkPv UNUSED 0 None Chan0) ->
  tree_ok F 2 (Some p0) (replicate (Z.to_nat NPROC) None).
Proof.
  intros H0 HF.
  assert (forall i, slot i -> rd (replicate (Z.to_nat NPROC) None) i = @None Z) as Hr
    by (intros i Hi; apply rd_replicate; exact Hi).
  constructor; try done.
  - intros i Hi. rewrite HF by done. case_test; simpl; lia.
  - intros i Hi. rewrite HF by done. by case_test.
  - intros i j Hi Hj. rewrite !HF by done. repeat case_test; simpl; lia.
  - exists p0. by rewrite HF, Z.eqb_refl.
  - intros i q Hi. rewrite HF by done. by case_test.
  - intros i Hi. rewrite HF by done. case_test; [by intros _ []; congruence | by intros [|]].
  - intros i Hi. rewrite HF by done. by case_test.
  - intros i Hi. rewrite HF by done. by case_test.
  - intros p q Hp. by rewrite Hr.
  - intros p p' q Hp. by rewrite Hr.
  - intros q Hq. rewrite HF by done. by case_test.
Qed.

Lemma boot_sched ncpu p0 (F : Z -> pv) : slot p0 ->
  (forall j, slot j -> F j = if j =? p0 then mkPv RUNNABLE 1 None Chan0 else mkPv UNUSED 0 None Chan0) ->
  sched_ok F (replicate ncpu None).
Proof.
  intros H0 HF.
  assert (forall c, 0 <= c < lenZ (replicate ncpu (@None Z)) -> rd (replicate ncpu None) c = @None Z) as Hr
    by (intros c; rewrite lenZ_replicate; apply rd_replicate).
  constructor; [constructor| |].
  - intros c p Hc. by rewrite Hr.
  - intros c d p Hc Hd. by rewrite Hr.
  - intros p Hp. rewrite HF by done. by case_test.
  - intros i Hi. rewrite HF by done. by case_test.
  - intros i p Hi Hp. rewrite (HF i) by done. by case_test.
Qed.

Lemma userinit_ok ncpu e s :
  userinit forkret_addr trapret_addr (psys0 ncpu e) = Ok (tt, s) ->
  mach_ok (mach0 s) /\ ps_nextpid s = 2.
Proof.
  apply (wlp_elim _ _ (fun _ s => mach_ok (mach0 s) /\ ps_nextpid s = 2)).
  set (s0 := psys0 ncpu e). assert (lenZ (ps_proc s0) = NPROC) as Hl by done.
  unfold userinit, allocproc. do 2 wlp_step.
  eapply wlp_mono; [apply (allocproc_slot_eff s0 Hl)|].
  intros [p|] s1; [|by intros _; do 2 wlp_step].
  intros (Hp & _ & He). wlp_step. apply (allocproc_stack_eff _ _ _ _ _ _ _ _ _ He Hp); clear He.
  { intros s2 He. do 2 wlp_step. }
  intros s2 He. do 2 wlp_step. unfold set_initproc. do 2 wlp_step.
  match goal with |- wlp _ ?s3 _ => set (s3' := s3) end.
  assert (eff s3' s3' (fset (fun j => pv_of (proc_at s0 j)) p
            (fun v => v_set_pid 1 (v_set_st EMBRYO v))) 2 (replicate ncpu None)) as He3.
  { destruct He as [H1 H2 H3 H4 H5]. constructor; try done. }
  clear He. eff_steps.
  match goal with He : eff _ ?s _ _ _ |- mach_ok (mach0 ?s) /\ _ =>
    split; [|by apply (eff_np _ _ _ _ _ He)]; apply (mach_ok_eff _ _ _ _ _ _ He); [apply (boot_tree p) | apply (boot_sched ncpu p)]; try done end;
  (intros j Hj; unfold fset; rewrite ?Z.eqb_refl; case_test; cbv beta; by unfold s0; rewrite proc_at0).
Qed.

(** C7: The process table is sound in every state the kernel reaches from [userinit],
    whatever the CPUs do and in whatever order: pids are unique, a parent is alive
    and every process but the first has one, a process is [RUNNING] exactly when
    it is on one CPU, one that sleeps has a channel, and nobody sleeps in [wait]
    with a dead child.  The bound on the steps keeps [nextpid] in an [int]. *)
Theorem process_table_invariant ncpu e s n m :
  userinit forkret_addr trapret_addr (psys0 ncpu e) = Ok (tt, s) ->
  nsteps (pstep forkret_addr trapret_addr) n (mach0 s) m ->
  Z.of_nat n < 2147483646 ->
  mach_ok m.
Proof.
  intros Hu Hn Hb. destruct (userinit_ok _ _ _ Hu) as [Hok Hp].
  apply (run_good _ _ _ Hn Hok). simpl. lia.
Qed.
End steps.

(** ** [wait] *)

Section wait.
Context {E : Type} `{ProcEnv E}.
Abbreviation sys := (psys E).

(** [kfree] and [freevm] return. *)
Definition frees (s : sys) : Prop :=
  forall a e, wp (e_kfree a) e (fun _ _ => True) /\ wp (e_freevm a) e (fun _ _ => True).

Lemma wp_env_any {A} (x : ST E A) (s : sys) (Q : A -> sys -> Prop) :
  (forall e, wp x e (fun _ _ => True)) -> (forall a s', Q a s') -> wp (env x) s Q.
Proof. intros Hx HQ. apply wp_zoom. eapply wp_mono; [apply Hx | auto]. Qed.

Lemma reap_returns (s : sys) i : frees s -> wp (reap i) s (fun _ _ => True).
Proof.
  intros Hf. unfold reap. wp_step. apply wp_gets. wp_step. apply wp_env_any; [intros; apply Hf|].
  intros. wp_step. apply wp_modify. wp_step. apply wp_env_any; [intros; apply Hf|]. intros.
  unfold pmod. by wp_steps.
Qed.

Lemma wait_scan_returns (s : sys) me n i hk : frees s -> wp (wait_scan me n i hk) s (fun _ _ => True).
Proof.
  intros Hf. revert i hk. induction n as [|n IH]; intros i hk; cbn [wait_scan]; wp_step; [done|].
  apply wp_gets. repeat case_test; auto. wp_step. eapply wp_mono; [by apply reap_returns|].
  intros. by wp_step.
Qed.

Lemma wait_turn_returns (s : sys) c me :
  frees s -> rd (ps_cpu s) c = Some me -> 0 <= c < lenZ (ps_cpu s) -> lenZ (ps_proc s) = NPROC -> slot me ->
  wp (wait_turn 0 c me) s (fun _ _ => True).
Proof.
  intros Hf Hc Hr Hl Hme. unfold wait_turn. wp_step.
  eapply wp_mono; [apply wp_conj; [by apply wait_scan_returns | apply (wait_scan_eff s); try done; lia]|].
  intros [hk|pid] s' [_ Hs]; [|by wp_step]. destruct Hs as [-> _]. wp_step. apply wp_gets.
  destruct (negb hk || _); [by wp_step|]. wp_step. unfold sleep, myproc. wp_step. apply wp_gets. rewrite Hc.
  unfold pmod, sched, pget, set_cpu. wp_steps; try done.
  simpl. unfold proc_at. simpl. rewrite rd_upd_eq; [done|]. rewrite upd_lenZ, Hl. apply Hme.
Qed.

End wait.

(** ** [kill] *)

Section kill.
Context {E : Type}.
Abbreviation sys := (psys E).

(** The first slot with the pid. *)
Definition first_pid (s : sys) (pid i : Z) : Prop :=
  slot i /\ p_pid (proc_at s i) = pid /\ forall j, 0 <= j < i -> p_pid (proc_at s j) <> pid.
Definition killed (p : proc) : proc :=
  set_killed 1 (if bool_decide (p_state p = SLEEPING) then set_state RUNNABLE p else p).

(** C27: [kill] marks the first slot that has the pid, in use or not, and makes its
    process runnable if it sleeps; it returns -1 and changes nothing if no slot has it. *)
Theorem kill_correct (s : sys) pid :
  lenZ (ps_proc s) = NPROC ->
  wp (kill pid) s (fun r s' =>
    (r = 0 /\ exists i, first_pid s pid i /\
       s' = mkPsys (upd (ps_proc s) i (killed (proc_at s i))) (ps_nextpid s) (ps_initproc s)
              (ps_cpu s) (ps_env s)) \/
    r = -1 /\ s' = s /\ forall i, slot i -> p_pid (proc_at s i) <> pid).
Proof.
  intros Hl. unfold kill. apply wp_bind.
  apply (wp_forR _ _ _ (fun k s' => s' = s /\ forall j, 0 <= j < k -> p_pid (proc_at s j) <> pid));
    [split; [done | lia]| |].
  - intros i ? Hi [-> Hj]. change (0 + Z.of_nat (Z.to_nat NPROC)) with NPROC in Hi.
    unfold kill_one. wp_step. apply wp_gets. case_test.
    + assert (first_pid s pid i) as Hfi by done. unfold pmod. wp_steps; bool_to_prop; left; (split; [done|]);
        exists i; (split; [done|]); unfold killed, proc_at; cbn [ps_proc ps_nextpid ps_initproc ps_cpu ps_env].
      * rewrite bool_decide_eq_true_2 by done. f_equal. rewrite rd_upd_eq by (rewrite Hl; exact Hi).
        apply list_insert_insert_eq.
      * by rewrite bool_decide_eq_false_2.
    + wp_step. split; [done|]. intros j Hj'. destruct (decide (j = i)) as [->|]; [done|]. apply Hj. lia.
  - change (0 + Z.of_nat (Z.to_nat NPROC)) with NPROC. intros ? [-> Hj]. wp_step. by right.
Qed.
End kill.

(** ** The scheduler *)

Section scheduler.
(** What a process does when it runs, and a record of who has run. *)
Context (body : Z -> ST (psys (list Z)) unit).
Definition logged (p : Z) : ST (psys (list Z)) unit :=
  env (modify (cons p)) ;;; body p.

End scheduler.
