(* ===== verification/ProcDemo.v ===== *)
(** * A small run of the process table

    An environment for proc.c whose page allocator counts up, and a run in which
    init forks a child, waits for it and reaps it. *)

From S2P Require Import Prelude Bytes Cstring Proc ProcTable ProcInv.

(** The environment: the next free page. *)
Definition next_page : ST Z Z := p <- get ;; put (p + PGSIZE) ;;; ret p.
#[export] Instance demo_env : ProcEnv Z := {|
  e_kalloc := next_page;
  e_kfree _ := ret tt;
  e_setupkvm := next_page;
  e_inituvm _ := ret tt;
  e_copyuvm _ _ := next_page;
  e_freevm _ := ret tt;
  e_allocuvm _ _ n := ret n;
  e_deallocuvm _ _ n := ret n;
  e_filedup f := ret f;
  e_fileclose _ := ret tt;
  e_idup i := ret i;
  e_iput _ := ret tt;
  e_namei _ := ret 1;
  e_begin_op := ret tt;
  e_end_op := ret tt;
  e_iinit _ := ret tt;
  e_initlog _ := ret tt
|}.

(** The state after a function. *)
Definition after {S A} (m : ST S A) (s : S) : S :=
  match m s with
  | Ok (_, s') => s'
  | _ => s
  end.

Definition pd_boot : psys Z := after (userinit 100 200) (psys0 2 PGSIZE).
Definition pd_none : list (option Z) := replicate (Z.to_nat NPROC) None.
Definition pd_1 := after (pick 0 0 ;;; sleep_resume 0) pd_boot.
Definition pd_2 := after allocproc_slot pd_1.
Definition pd_3 := after (fork_rest 100 200 0 1) pd_2.
Definition pd_4 := after (pick 1 1 ;;; sleep_resume 1) pd_3.
Definition pd_5 := after (wait_turn 0 0 0) pd_4.
Definition pd_6 := after (exit_close 1) pd_5.
Definition pd_7 := after (exit_zombie 0 1 1) pd_6.
Definition pd_8 := after (pick 0 0 ;;; sleep_resume 0) pd_7.
Definition pd_9 := after (wait_turn 0 0 0) pd_8.

Lemma pd_run8 : nsteps (pstep 100 200) 8 (mach0 pd_boot) (mkMach pd_8 pd_none).
Proof.
  apply nsteps_l with (mkMach pd_1 pd_none).
  { by apply st_run with (c := 0) (p := 0); vm_compute. }
  apply nsteps_l with (mkMach pd_2 (upd pd_none 0 (Some 1))).
  { by apply (st_fork 100 200 (mkMach pd_1 pd_none) 0 0 (Some 1)); vm_compute. }
  apply nsteps_l with (mkMach pd_3 pd_none).
  { by apply (st_fork_rest 100 200 (mkMach pd_2 (upd pd_none 0 (Some 1))) 0 0 1 2); vm_compute. }
  apply nsteps_l with (mkMach pd_4 pd_none).
  { by apply st_run with (c := 1) (p := 1); vm_compute. }
  apply nsteps_l with (mkMach pd_5 pd_none).
  { by apply st_wait with (c := 0) (me := 0) (r := None); vm_compute. }
  apply nsteps_l with (mkMach pd_6 pd_none).
  { by apply st_exit_close with (c := 1) (me := 1); vm_compute. }
  apply nsteps_l with (mkMach pd_7 pd_none).
  { by apply st_exit_zombie with (c := 1) (me := 1); vm_compute. }
  apply nsteps_l with (mkMach pd_8 pd_none).
  { by apply st_run with (c := 0) (p := 0); vm_compute. }
  constructor.
Qed.
Lemma pd_run9 : nsteps (pstep 100 200) 9 (mach0 pd_boot) (mkMach pd_9 pd_none).
Proof.
  apply nsteps_r with (mkMach pd_8 pd_none); [exact pd_run8|].
  by apply st_wait with (c := 0) (me := 0) (r := Some 2); vm_compute.
Qed.

Lemma process_table_invariant_witness : mach_ok (mkMach pd_9 pd_none).
Proof.
  apply (process_table_invariant 100 200 2 PGSIZE pd_boot 9).
  - vm_compute; reflexivity.
  - exact pd_run9.
  - vm_compute; reflexivity.
Defined.

Lemma pd_ok8 : mach_ok (mkMach pd_8 pd_none).
Proof.
  apply (run_good 100 200 8 _ _ pd_run8); [|by vm_compute].
  apply (userinit_ok 100 200 2 PGSIZE). by vm_compute.
Qed.


Lemma kill_correct_witness :
  wp (kill 1) pd_8 (fun r s' =>
    (r = 0 /\ exists i, first_pid pd_8 1 i /\
       s' = mkPsys (upd (ps_proc pd_8) i (killed (proc_at pd_8 i))) (ps_nextpid pd_8)
              (ps_initproc pd_8) (ps_cpu pd_8) (ps_env pd_8)) \/
    r = -1 /\ s' = pd_8 /\ forall i, slot i -> p_pid (proc_at pd_8 i) <> 1).
Proof. apply (kill_correct pd_8 1). vm_compute; reflexivity. Defined.

(** Two runnable processes, each of which exits its turn at once. *)
Definition pd_two : psys (list Z) :=
  mkPsys (upd (upd (replicate (Z.to_nat NPROC) proc0) 3 (set_state RUNNABLE proc0))
            7 (set_state RUNNABLE proc0)) 5 (Some 3) [None] [].
