(* ===== verification/Ulib.v ===== *)
(** * The user library (src/xv6/ulib.c, src/xv6/printf.c)

    A [char*] that is only read is the list of the bytes from it to the end of
    its array; the string ends at the first NUL, or at the end of the list.  The
    functions that write use the memory of [Cstring.v].  System calls are their
    results: [gets] takes the bytes that [read] delivers one at a time, and the
    output of [printf] is the list of the bytes it writes. *)

From S2P Require Import Prelude Bytes Cstring.

(** ** ulib.c *)

(** The fuel is at least the length of the string at [t], with its NUL. *)
Fixpoint strcpy (fuel : nat) (m : mem) (s t : Z) : option mem :=
  match fuel with
  | O => None
  | S fuel =>
      let m := store m s (m t) in
      if negb (m s =? 0) then strcpy fuel m (s + 1) (t + 1) else Some m
  end.

Fixpoint strcmp (p q : bytes) : Z :=
  match p with
  | c :: p' =>
      if negb (c =? 0) && (c =? chr q 0) then strcmp p' (tail q) else u8 c - u8 (chr q 0)
  | [] => 0 - u8 (chr q 0)
  end.

Fixpoint strlen (s : bytes) : Z :=
  match s with
  | c :: s' => if c =? 0 then 0 else 1 + strlen s'
  | [] => 0
  end.

(** The offset of the character found. *)
Fixpoint strchr (s : bytes) (c : Z) : option Z :=
  match s with
  | x :: s' => if x =? 0 then None else if x =? c then Some 0 else Z.succ <$> strchr s' c
  | [] => None
  end.

(** [input] is what the calls of [read] deliver, one byte each, until the end of
    the file; the result is the buffer up to its NUL and the input left. *)
Fixpoint gets_loop (room : nat) (input : bytes) : bytes * bytes :=
  match room, input with
  | S room, c :: input =>
      if (c =? 10) || (c =? 13) then ([c], input)
      else let '(buf, rest) := gets_loop room input in (c :: buf, rest)
  | _, _ => ([], input)
  end.
Definition gets (input : bytes) (max : Z) : bytes * bytes :=
  let '(buf, rest) := gets_loop (Z.to_nat (max - 1)) input in (buf ++ [0], rest).

Fixpoint atoi_loop (s : bytes) (n : Z) : Z :=
  match s with
  | c :: s' => if (48 <=? c) && (c <=? 57) then atoi_loop s' (s32 (n * 10 + c - 48)) else n
  | [] => n
  end.
Definition atoi (s : bytes) : Z := atoi_loop s 0.

(** Always upwards, so the destination of an overlapping copy must be below. *)
Definition umemmove (m : mem) (dst src n : Z) : mem := copy_up m dst src (Z.to_nat n).

(** ** printf.c *)

Definition digits : bytes := [48; 49; 50; 51; 52; 53; 54; 55; 56; 57; 65; 66; 67; 68; 69; 70].

(** The digits of [x], the last one first; [fuel] is enough for a base of 2. *)
Fixpoint printint_loop (fuel : nat) (x base : Z) : bytes :=
  match fuel with
  | O => []
  | S fuel =>
      rd digits (x mod base) ::
      (if x / base =? 0 then [] else printint_loop fuel (x / base) base)
  end.
Definition printint (xx base : Z) (sgn : bool) : bytes :=
  let neg := sgn && (xx <? 0) in
  let x := if neg then u32 (- xx) else u32 xx in
  let buf := printint_loop 32 x base ++ (if neg then [45] else []) in
  reverse buf.

(** A character of the string of [%s]. *)
Fixpoint put_str (s : bytes) : bytes :=
  match s with
  | c :: s' => if c =? 0 then [] else u8 c :: put_str s'
  | [] => []
  end.

(** [printf] with the words after [fmt] on the stack; [str] is the memory, as the
    bytes from an address.  [state] is whether the last character was the %. *)
Fixpoint printf_loop (str : Z -> bytes) (fmt : bytes) (state : bool) (ap : list Z) : bytes :=
  match fmt with
  | [] => []
  | c :: fmt =>
      if c =? 0 then [] else
      let c := Z.land c 255 in
      if negb state then
        if c =? 37 then printf_loop str fmt true ap
        else c :: printf_loop str fmt false ap
      else
        if c =? 100 then
          printint (s32 (rd ap 0)) 10 true ++ printf_loop str fmt false (tail ap)
        else if (c =? 120) || (c =? 112) then
          printint (s32 (rd ap 0)) 16 false ++ printf_loop str fmt false (tail ap)
        else if c =? 115 then
          let s := if rd ap 0 =? 0 then [40; 110; 117; 108; 108; 41] else str (rd ap 0) in
          put_str s ++ printf_loop str fmt false (tail ap)
        else if c =? 99 then u8 (rd ap 0) :: printf_loop str fmt false (tail ap)
        else if c =? 37 then c :: printf_loop str fmt false ap
        else 37 :: c :: printf_loop str fmt false ap
  end.
Definition printf (str : Z -> bytes) (fmt : bytes) (ap : list Z) : bytes := printf_loop str fmt false ap.

(** ** C strings *)

(** The string at the start of a list of bytes. *)
Fixpoint cstr (s : bytes) : bytes :=
  match s with
  | c :: s' => if c =? 0 then [] else c :: cstr s'
  | [] => []
  end.

Lemma strlen_cstr s : strlen s = lenZ (cstr s).
Proof.
  induction s as [|c s IH]; [done|]. cbn [strlen cstr]. destruct (c =? 0); [done|].
  rewrite IH. unfold lenZ. cbn [length]. lia.
Qed.
Lemma cstr_nonzero s : Forall (fun c => c <> 0) (cstr s).
Proof.
  induction s as [|c s IH]; [constructor|]. cbn [cstr]. destruct (Z.eqb_spec c 0); by constructor.
Qed.
Lemma cstr_id s : Forall (fun c => c <> 0) s -> cstr s = s.
Proof.
  induction 1 as [|c s Hc _ IH]; [done|]. cbn [cstr]. by rewrite (proj2 (Z.eqb_neq _ _) Hc), IH.
Qed.
Lemma cstr_app s t : Forall (fun c => c <> 0) s -> cstr (s ++ t) = s ++ cstr t.
Proof.
  induction 1 as [|c s Hc _ IH]; [done|]. cbn [cstr app]. by rewrite (proj2 (Z.eqb_neq _ _) Hc), IH.
Qed.

(** ** Numbers *)

(** The number that a sequence of digits stands for. *)
Definition digit_val (c : Z) : Z := if c <=? 57 then c - 48 else c - 55.
Definition value (base : Z) (ds : bytes) : Z := foldl (fun n c => n * base + digit_val c) 0 ds.

Lemma rd_digits d : 0 <= d < 16 ->
  digit_val (rd digits d) = d /\ (d < 10 -> rd digits d = 48 + d) /\ (rd digits d = 48 -> d = 0).
Proof.
  intros Hd. assert (d ∈ [0;1;2;3;4;5;6;7;8;9;10;11;12;13;14;15]) as Hin
    by (rewrite !elem_of_cons; lia).
  rewrite !elem_of_cons, elem_of_nil in Hin.
  repeat (destruct Hin as [->|Hin]; [vm_compute; split_and!; intros; done|]). done.
Qed.

Section digits.
Context (base : Z).
Hypothesis Hbase : 2 <= base <= 16.

Lemma div_pow x k : 0 <= x < base ^ Z.of_nat (S (S k)) -> 0 <= x / base < base ^ Z.of_nat (S k).
Proof.
  intros Hx. split; [apply Z.div_pos; lia|]. apply Z.div_lt_upper_bound; [lia|].
  rewrite <- Z.pow_succ_r by lia. rewrite <- Nat2Z.inj_succ. lia.
Qed.
Lemma div_pow1 x : 0 <= x < base ^ Z.of_nat 1 -> x / base = 0.
Proof. rewrite Z.pow_1_r. apply Z.div_small. Qed.

Lemma printint_loop_value fuel x : 0 <= x < base ^ Z.of_nat fuel -> (0 < fuel)%nat ->
  value base (reverse (printint_loop fuel x base)) = x.
Proof.
  revert x. induction fuel as [|fuel IH]; intros x Hx Hf; [lia|]. cbn [printint_loop].
  assert (0 <= x mod base < 16) as Hm by (pose proof (Z.mod_pos_bound x base); lia).
  destruct (rd_digits _ Hm) as (Hv & _ & _). rewrite reverse_cons. unfold value. rewrite foldl_snoc, Hv.
  pose proof (Z.div_mod x base ltac:(lia)) as Hdm.
  destruct (Z.eqb_spec (x / base) 0) as [E|E]; [cbn; lia|].
  fold (value base (reverse (printint_loop fuel (x / base) base))).
  destruct fuel as [|fuel]; [by rewrite div_pow1 in E|]. rewrite IH by (by apply div_pow || lia). lia.
Qed.

Lemma printint_loop_len fuel x k : 0 <= x < base ^ Z.of_nat k -> (0 < k)%nat ->
  (length (printint_loop fuel x base) <= k)%nat.
Proof.
  revert x k. induction fuel as [|fuel IH]; intros x k Hx Hk; cbn [printint_loop length]; [lia|].
  destruct (Z.eqb_spec (x / base) 0) as [E|E]; [cbn; lia|].
  destruct k as [|[|k]]; [lia | by rewrite div_pow1 in E|]. apply le_n_S, IH; [by apply div_pow | lia].
Qed.

(** No number but 0 starts with a 0. *)
Lemma printint_loop_head fuel x : 0 <= x < base ^ Z.of_nat fuel -> (0 < fuel)%nat ->
  exists c l, reverse (printint_loop fuel x base) = c :: l /\ (c = 48 -> l = []).
Proof.
  revert x. induction fuel as [|fuel IH]; intros x Hx Hf; [lia|]. cbn [printint_loop]. rewrite reverse_cons.
  assert (0 <= x mod base < 16) as Hm by (pose proof (Z.mod_pos_bound x base); lia).
  destruct (rd_digits _ Hm) as (_ & _ & H0).
  destruct (Z.eqb_spec (x / base) 0) as [E|E]; [by exists (rd digits (x mod base)), []|].
  destruct fuel as [|fuel]; [by rewrite div_pow1 in E|].
  destruct (IH (x / base)) as (c & l & El & Hc); [by apply div_pow | lia|].
  exists c, (l ++ [rd digits (x mod base)]). rewrite El. split; [done|]. intros ->.
  specialize (Hc eq_refl) as ->. exfalso. apply E.
  rewrite <- (printint_loop_value (S fuel) (x / base)) by (by apply div_pow || lia). by rewrite El.
Qed.
End digits.

(** [printint] prints the number: the digits have its value (that of the word for
    an unsigned print, up to the sign otherwise) and no leading 0, and they fit
    in [buf]. *)
Theorem printint_correct xx base sgn : 5 <= base <= 16 -> -2147483648 <= xx < 2147483648 ->
  let neg := sgn && (xx <? 0) in
  exists c ds, printint xx base sgn = (if neg then [45] else []) ++ c :: ds /\
    value base (c :: ds) = (if neg then - xx else u32 xx) /\ (c = 48 -> ds = []) /\
    lenZ (printint xx base sgn) <= 16.
Proof.
  intros Hb Hx neg. unfold printint. fold neg. set (x := if neg then _ else _).
  assert (x = (if neg then - xx else u32 xx)) as Ex.
  { unfold x, neg. destruct sgn, (Z.ltb_spec xx 0); cbn [andb]; try done. apply u32_small. lia. }
  assert (0 <= x < 4294967296) as Hxr by (unfold x; destruct neg; apply u32_range).
  assert (2 <= base <= 16) as Hb' by lia.
  assert (0 <= x < base ^ Z.of_nat 14) as H14.
  { split; [apply Hxr|]. apply (Z.lt_le_trans _ (5 ^ 14)); [|apply Z.pow_le_mono_l; lia].
    apply (Z.lt_trans _ 4294967296); [apply Hxr | done]. }
  assert (0 <= x < base ^ Z.of_nat 32) as H32.
  { split; [apply Hxr|]. apply (Z.lt_le_trans _ (base ^ 14)); [apply H14 | apply Z.pow_le_mono_r; lia]. }
  destruct (printint_loop_head base Hb' 32 x H32 (Nat.lt_0_succ 31)) as (c & ds & Ed & H0).
  exists c, ds. rewrite reverse_app, Ed. split_and!; [by destruct neg | | done |].
  - rewrite <- Ed, printint_loop_value; [done | exact Hb' | exact H32 | apply Nat.lt_0_succ].
  - pose proof (printint_loop_len base Hb' 32 x 14 H14 (Nat.lt_0_succ 13)) as Hl.
    rewrite <- Ed. unfold lenZ. rewrite length_app, !length_reverse. clear - Hl. destruct neg; cbn [length]; lia.
Qed.
Lemma printint_correct_witness :
  exists c ds, printint (-42) 10 true = [45] ++ c :: ds /\ value 10 (c :: ds) = 42 /\ (c = 48 -> ds = []) /\
    lenZ (printint (-42) 10 true) <= 16.
Proof. exact (printint_correct (-42) 10 true ltac:(lia) ltac:(lia)). Defined.

Lemma atoi_printint_loop fuel x rest : 0 <= x < 10 ^ Z.of_nat fuel -> x < 4294967296 -> (0 < fuel)%nat ->
  atoi_loop (reverse (printint_loop fuel x 10) ++ rest) 0 = atoi_loop rest (s32 x).
Proof.
  revert x rest. induction fuel as [|fuel IH]; intros x rest Hx Hlt Hf; [lia|]. cbn [printint_loop].
  assert (0 <= x mod 10 < 16) as Hm by (pose proof (Z.mod_pos_bound x 10); lia).
  destruct (rd_digits _ Hm) as (_ & Hd & _). specialize (Hd ltac:(pose proof (Z.mod_pos_bound x 10); lia)).
  rewrite reverse_cons, <- app_assoc. cbn [app].
  assert (forall n, n = x / 10 -> atoi_loop (rd digits (x mod 10) :: rest) n = atoi_loop rest (s32 x)) as Hone.
  { intros n ->. cbn [atoi_loop]. rewrite Hd. pose proof (Z.mod_pos_bound x 10).
    rewrite (proj2 (Z.leb_le 48 _)), (proj2 (Z.leb_le _ 57)) by lia. cbn [andb].
    f_equal. f_equal. pose proof (Z.div_mod x 10). lia. }
  destruct (Z.eqb_spec (x / 10) 0) as [E|E]; [by apply Hone|].
  destruct fuel as [|fuel]; [by rewrite div_pow1 in E|].
  rewrite IH by (by apply div_pow || zlia || lia). apply Hone. apply s32_small. zlia.
Qed.

(** C19: What [printf] prints for [%d], [atoi] reads back, after the sign. *)
Theorem printf_atoi_roundtrip str x : -2147483648 <= x < 2147483648 ->
  let out := printf str [37; 100] [u32 x] in
  (0 <= x -> atoi out = x) /\ (x < 0 -> exists ds, out = 45 :: ds /\ atoi ds = s32 (- x)).
Proof.
  intros Hx out. assert (out = printint x 10 true) as ->.
  { unfold out, printf. cbn [printf_loop]. change (rd [u32 x] 0) with (u32 x).
    replace (s32 (u32 x)) with x; [apply app_nil_r|].
    unfold s32, u32. rewrite Z.add_mod_idemp_l by done. rewrite Z.mod_small; lia. }
  unfold printint, atoi. split; intros Hs.
  - rewrite (proj2 (Z.ltb_ge x 0)) by done. cbn [andb]. rewrite app_nil_r.
    rewrite <- (app_nil_r (reverse _)), u32_small, atoi_printint_loop by (change (10 ^ Z.of_nat 32) with (10 ^ 32); lia).
    cbn [atoi_loop]. apply s32_small. lia.
  - rewrite (proj2 (Z.ltb_lt x 0)) by done. cbn [andb]. rewrite reverse_app. eexists. split; [done|].
    rewrite <- (app_nil_r (reverse _)), u32_small, atoi_printint_loop by (change (10 ^ Z.of_nat 32) with (10 ^ 32); lia).
    done.
Qed.
Lemma printf_atoi_roundtrip_witness : atoi (printf (fun _ => []) [37; 100] [u32 2147483647]) = 2147483647.
Proof. apply (printf_atoi_roundtrip (fun _ => []) 2147483647); lia. Defined.
