(* ===== verification/Grep.v ===== *)
(** * grep (src/xv6/grep.c)

    The matcher for patterns with [^], [.], [*] and [$], proved equal to the
    language of the pattern, and the loop that reads lines through a buffer of
    1024 bytes.  Strings are those of [Ulib.v]. *)

From S2P Require Import Prelude Bytes Cstring Ulib.

(** ** The matcher *)

(** [matchstar]: [here] is [matchhere(re, _)]. *)
Fixpoint matchstar (c : Z) (here : bytes -> bool) (text : bytes) : bool :=
  if here text then true else
  match text with
  | t :: text' => if negb (t =? 0) && ((t =? c) || (c =? 46)) then matchstar c here text' else false
  | [] => false
  end.

Fixpoint matchhere (re text : bytes) {struct re} : bool :=
  match re with
  | [] => true
  | c :: re1 =>
      let one :=
        if (c =? 36) && (chr re1 0 =? 0) then chr text 0 =? 0
        else match text with
             | t :: text' => if negb (t =? 0) && ((c =? 46) || (c =? t)) then matchhere re1 text' else false
             | [] => false
             end in
      if c =? 0 then true
      else match re1 with
           | s :: re2 => if s =? 42 then matchstar c (matchhere re2) text else one
           | [] => one
           end
  end.

Fixpoint match_loop (re text : bytes) : bool :=
  if matchhere re text then true else
  match text with
  | t :: text' => if t =? 0 then false else match_loop re text'
  | [] => false
  end.
(** [match], a keyword here. *)
Definition match_ (re text : bytes) : bool :=
  if chr re 0 =? 94 then matchhere (tail re) text else match_loop re text.

(** ** The reading loop *)

Definition GREPBUF : Z := 1024.

(** [while((q = strchr(p, '\n')) != 0)]: the buffer, the place of [p] and what is
    written; [fuel] is at least the number of lines. *)
Fixpoint grep_lines (fuel : nat) (pattern buf : bytes) (p : Z) : bytes * Z * bytes :=
  match strchr (drop (Z.to_nat p) buf) 10, fuel with
  | Some o, S fuel =>
      let q := p + o in
      let buf := upd buf q 0 in
      if match_ pattern (drop (Z.to_nat p) buf) then
        let buf := upd buf q 10 in
        let '(buf', p', out) := grep_lines fuel pattern buf (q + 1) in
        (buf', p', slice buf p (q + 1 - p) ++ out)
      else grep_lines fuel pattern buf (q + 1)
  | _, _ => (buf, p, [])
  end.

(** A [read] of at most [n] bytes from a source that delivers [input] chunk by
    chunk; an empty result is the end of the file. *)
Definition read_from (input : list bytes) (n : Z) : bytes * list bytes :=
  match input with
  | [] => ([], [])
  | c :: input => if lenZ c <=? n then (c, input) else (slice c 0 n, slice c n (lenZ c - n) :: input)
  end.

(** The outer loop; each turn reads at least one byte, and [fuel] bounds the turns. *)
Fixpoint grep_loop (fuel : nat) (pattern buf : bytes) (m : Z) (input : list bytes) : bytes :=
  match fuel with
  | O => []
  | S fuel =>
      let '(chunk, input) := read_from input (GREPBUF - m - 1) in
      let n := lenZ chunk in
      if 0 <? n then
        let buf := blit buf m chunk in
        let m := m + n in
        let buf := upd buf m 0 in
        let '(buf, p, out) := grep_lines (Z.to_nat GREPBUF) pattern buf 0 in
        let m := if p =? 0 then 0 else m in
        let '(m, buf) :=
          if 0 <? m then let m := m - p in (m, blit buf 0 (slice buf p m)) else (m, buf) in
        out ++ grep_loop fuel pattern buf m input
      else []
  end.
(** [grep] on a file: the bytes it writes to the standard output. *)
Definition grep (pattern : bytes) (input : list bytes) : bytes :=
  grep_loop (S (length (concat input))) pattern (zeros GREPBUF) 0 input.

(** ** What a pattern means *)

Inductive item := One (c : Z) | Star (c : Z) | End_.
Fixpoint items (re : bytes) : list item :=
  match re with
  | [] => []
  | c :: re1 =>
      match re1 with
      | s :: re2 => if s =? 42 then Star c :: items re2 else One c :: items re1
      | [] => if c =? 36 then [End_] else [One c]
      end
  end.
Definition accepts (c t : Z) : Prop := c = 46 \/ c = t.

(** The items match [mid] when [post] follows. *)
Inductive denotes : list item -> bytes -> bytes -> Prop :=
| den_nil post : denotes [] [] post
| den_one c t l mid post : accepts c t -> denotes l mid post -> denotes (One c :: l) (t :: mid) post
| den_stop c l mid post : denotes l mid post -> denotes (Star c :: l) mid post
| den_star c t l mid post : accepts c t -> denotes (Star c :: l) mid post -> denotes (Star c :: l) (t :: mid) post
| den_end : denotes [End_] [] [].

Lemma matchstar_iff c (here : bytes -> bool) l text : Forall (fun t => t <> 0) text ->
  (forall t, Forall (fun t => t <> 0) t -> here t = true <-> exists mid post, t = mid ++ post /\ denotes l mid post) ->
  matchstar c here text = true <-> exists mid post, text = mid ++ post /\ denotes (Star c :: l) mid post.
Proof.
  intros Hnz Hh. induction Hnz as [|t text Ht Hnz IH]; cbn [matchstar].
  - destruct (here []) eqn:E.
    + split; [intros _|done]. apply Hh in E as (mid & post & ? & ?); [|constructor].
      exists mid, post. eauto using denotes.
    + split; [done|]. intros (mid & post & Et & Hd). symmetry in Et. apply app_nil in Et as [-> ->].
      inversion Hd; subst. rewrite <- E. apply Hh; [constructor|]. by exists [], [].
  - destruct (here (t :: text)) eqn:E.
    + split; [intros _|done]. apply Hh in E as (mid & post & ? & ?); [|by constructor].
      exists mid, post. eauto using denotes.
    + rewrite (proj2 (Z.eqb_neq _ _) Ht). cbn [negb andb].
      destruct ((t =? c) || (c =? 46)) eqn:Ec.
      * rewrite IH. split.
        -- intros (mid & post & -> & Hd). exists (t :: mid), post. split; [done|]. apply den_star; [|done].
           unfold accepts. apply orb_true_iff in Ec as [?%Z.eqb_eq|?%Z.eqb_eq]; auto.
        -- intros (mid & post & Et & Hd). inversion Hd; subst.
           ++ assert (here (t :: text) = true) as E'; [|congruence].
              apply Hh; [by constructor|]. by exists mid, post.
           ++ simplify_eq/=. by exists mid0, post.
      * split; [done|]. intros (mid & post & Et & Hd). apply orb_false_iff in Ec as [?%Z.eqb_neq ?%Z.eqb_neq].
        inversion Hd as [| |? ? ? ? Hl|? ? ? ? ? Ha|]; subst.
        -- assert (here (t :: text) = true) as E'; [|congruence].
           apply Hh; [by constructor|]. by exists mid, post.
        -- simplify_eq/=. by destruct Ha.
Qed.

(** One character, at the start of the text. *)
Lemma denotes_one_iff c l text : 
  (exists mid post, text = mid ++ post /\ denotes (One c :: l) mid post) <->
  exists t text', text = t :: text' /\ accepts c t /\ exists mid post, text' = mid ++ post /\ denotes l mid post.
Proof.
  split.
  - intros (mid & post & -> & Hd). inversion Hd; subst. eexists _, _. split; [done|]. eauto.
  - intros (t & text' & -> & Ha & mid & post & -> & Hd). exists (t :: mid), post. eauto using denotes.
Qed.

(** The single-character branch of [matchhere]. *)
Lemma match_one_iff c re1 text : c <> 0 -> Forall (fun t => t <> 0) text ->
  (forall t, Forall (fun t => t <> 0) t ->
    matchhere re1 t = true <-> exists mid post, t = mid ++ post /\ denotes (items re1) mid post) ->
  match text with
  | t :: text' => if negb (t =? 0) && ((c =? 46) || (c =? t)) then matchhere re1 text' else false
  | [] => false
  end = true <-> exists mid post, text = mid ++ post /\ denotes (One c :: items re1) mid post.
Proof.
  intros Hc Hnz IH. rewrite denotes_one_iff. destruct Hnz as [|t text Ht Hnz].
  - split; [done|]. by intros (? & ? & ? & _).
  - rewrite (proj2 (Z.eqb_neq _ _) Ht). cbn [negb andb]. destruct ((c =? 46) || (c =? t)) eqn:E.
    + rewrite IH by done. split.
      * intros Hd. exists t, text. split; [done|]. split; [|done].
        unfold accepts. apply orb_true_iff in E as [?%Z.eqb_eq|?%Z.eqb_eq]; auto.
      * intros (? & ? & ? & _ & Hd). by simplify_eq.
    + split; [done|]. intros (? & ? & ? & [?|?] & _); apply orb_false_iff in E as [?%Z.eqb_neq ?%Z.eqb_neq]; by simplify_eq.
Qed.

Lemma matchhere_iff n : forall re text, (length re <= n)%nat ->
  Forall (fun t => t <> 0) re -> Forall (fun t => t <> 0) text ->
  matchhere re text = true <-> exists mid post, text = mid ++ post /\ denotes (items re) mid post.
Proof.
  induction n as [|n IH]; intros re text Hn Hre Htext.
  { destruct re; [|cbn in Hn; lia]. split; [intros _; exists [], text; eauto using denotes | done]. }
  destruct Hre as [|c re1 Hc Hre1]; [split; [intros _; exists [], text; eauto using denotes | done]|].
  cbn [matchhere]. rewrite (proj2 (Z.eqb_neq _ _) Hc). cbn [length] in Hn.
  destruct Hre1 as [|s re2 Hs Hre2].
  - change (chr [] 0 =? 0) with true. rewrite andb_true_r. cbn [items].
    destruct (c =? 36).
    + destruct Htext as [|t text Ht Htext]; [by split; [intros _; exists [], []; eauto using denotes|]|].
      change (chr (t :: text) 0) with t. rewrite (proj2 (Z.eqb_neq _ _) Ht). split; [done|].
      intros (mid & post & Et & Hd). inversion Hd; subst; done.
    + apply (match_one_iff c []); [done | done|]. intros t Ht. apply IH; [cbn; lia | constructor | done].
  - assert ((chr (s :: re2) 0 =? 0) = false) as -> by (by apply Z.eqb_neq).
    rewrite andb_false_r. cbn [items]. destruct (s =? 42).
    + apply matchstar_iff; [done|]. intros t Ht. apply IH; [cbn in Hn; lia | done | done].
    + apply (match_one_iff c (s :: re2)); [done | done|]. intros t Ht. apply IH; [lia | by constructor | done].
Qed.

Lemma match_loop_iff re text : Forall (fun t => t <> 0) re -> Forall (fun t => t <> 0) text ->
  match_loop re text = true <-> exists pre mid post, text = pre ++ mid ++ post /\ denotes (items re) mid post.
Proof.
  intros Hre Ht. pose proof (matchhere_iff (length re) re) as Hh.
  induction Ht as [|t text Ht Hnz IH]; cbn [match_loop]; destruct (matchhere re _) eqn:E.
  - split; [intros _|done]. apply Hh in E as (mid & post & ? & ?); [|done..|constructor]. by exists [], mid, post.
  - split; [done|]. intros (pre & mid & post & Et & Hd). symmetry in Et. apply app_nil in Et as [-> Et].
    rewrite <- E. apply Hh; [done..|constructor|]. by exists mid, post.
  - split; [intros _|done]. apply Hh in E as (mid & post & ? & ?); [|done..|by constructor]. by exists [], mid, post.
  - rewrite (proj2 (Z.eqb_neq _ _) Ht), IH. split.
    + intros (pre & mid & post & -> & Hd). by exists (t :: pre), mid, post.
    + intros ([|t' pre] & mid & post & Et & Hd); [|simplify_eq/=; by exists pre, mid, post].
      assert (matchhere re (t :: text) = true); [|congruence]. apply Hh; [done..|by constructor|]. by exists mid, post.
Qed.

(** The matcher looks at nothing after the NUL. *)
Lemma chr_cstr s : chr (cstr s) 0 = chr s 0.
Proof. destruct s as [|c s]; [done|]. cbn [cstr]. destruct (Z.eqb_spec c 0) as [->|]; done. Qed.
Lemma matchstar_cstr c here here' text : (forall t, here t = here' (cstr t)) ->
  matchstar c here text = matchstar c here' (cstr text).
Proof.
  intros Hh. induction text as [|t text IH]; cbn [matchstar cstr]; rewrite Hh; [done|]. cbn [cstr].
  destruct (t =? 0) eqn:E; cbn [negb andb matchstar]; [done|]. by rewrite IH, E.
Qed.
Lemma matchhere_cstr n : forall re text, (length re <= n)%nat -> matchhere re text = matchhere (cstr re) (cstr text).
Proof.
  induction n as [|n IH]; intros [|c re1] text Hn; try done; cbn [length] in Hn; [lia|].
  cbn [matchhere cstr]. destruct (c =? 0) eqn:Ec; [done|]. cbn [matchhere]. rewrite Ec.
  assert (forall re1, (length re1 <= n)%nat ->
    (if (c =? 36) && (chr re1 0 =? 0) then chr text 0 =? 0
     else match text with
          | t :: text' => if negb (t =? 0) && ((c =? 46) || (c =? t)) then matchhere re1 text' else false
          | [] => false
          end) =
    (if (c =? 36) && (chr (cstr re1) 0 =? 0) then chr (cstr text) 0 =? 0
     else match cstr text with
          | t :: text' => if negb (t =? 0) && ((c =? 46) || (c =? t)) then matchhere (cstr re1) text' else false
          | [] => false
          end)) as Hone.
  { intros re Hre. rewrite !chr_cstr. destruct (_ && _); [done|]. destruct text as [|t text]; [done|].
    cbn [cstr]. destruct (t =? 0) eqn:Et; [done|]. cbn [negb andb]. rewrite Et. cbn [negb andb]. by rewrite (IH re text). }
  destruct re1 as [|s re2]; [exact (Hone [] (Nat.le_0_l n))|]. cbn [length] in Hn.
  destruct (s =? 42) eqn:Es.
  - apply Z.eqb_eq in Es as ->. cbn [cstr Z.eqb Pos.eqb]. apply matchstar_cstr. intros t. apply IH. lia.
  - rewrite (Hone (s :: re2)) by (cbn [length]; lia). cbn [cstr]. destruct (s =? 0); [done|]. by rewrite Es.
Qed.
Lemma match_loop_cstr re text : match_loop re text = match_loop (cstr re) (cstr text).
Proof.
  induction text as [|t text IH]; cbn [match_loop cstr];
    rewrite (matchhere_cstr (length re) re) by done; [done|]. cbn [cstr].
  destruct (t =? 0) eqn:E; cbn [match_loop]; [done|]. by rewrite IH, E.
Qed.

(** C17: [match] finds the pattern exactly when the text has a part in its language: at
    the start for a pattern that starts with [^], anywhere otherwise. *)
Theorem match_correct re text :
  match_ re text = true <-> exists pre mid post, cstr text = pre ++ mid ++ post /\
    if chr re 0 =? 94 then pre = [] /\ denotes (items (cstr (tail re))) mid post
    else denotes (items (cstr re)) mid post.
Proof.
  unfold match_. destruct (chr re 0 =? 94).
  - rewrite (matchhere_cstr _ _ _ (Nat.le_refl _)), (matchhere_iff _ _ _ (Nat.le_refl _)) by apply cstr_nonzero. split.
    + intros (mid & post & ? & ?). by exists [], mid, post.
    + intros (pre & mid & post & ? & -> & ?). by exists mid, post.
  - rewrite match_loop_cstr, match_loop_iff by apply cstr_nonzero. naive_solver.
Qed.

(** ** The lines that grep prints *)

(** The lines of [l] that match, after the start [cur] of a line; and the start
    of the line that [l] ends in. *)
Fixpoint grep_spec (re cur l : bytes) : bytes :=
  match l with
  | [] => []
  | c :: l =>
      if c =? 10 then (if match_ re cur then cur ++ [10] else []) ++ grep_spec re [] l
      else grep_spec re (cur ++ [c]) l
  end.
Fixpoint pending (cur l : bytes) : bytes :=
  match l with
  | [] => cur
  | c :: l => if c =? 10 then pending [] l else pending (cur ++ [c]) l
  end.

Lemma grep_spec_app re a b : forall cur,
  grep_spec re cur (a ++ b) = grep_spec re cur a ++ grep_spec re (pending cur a) b.
Proof.
  induction a as [|c a IH]; intros cur; [done|]. cbn [grep_spec pending app].
  destruct (c =? 10); rewrite IH; [|done]. by rewrite app_assoc.
Qed.
Lemma no_newline re l : 10 ∉ l -> forall cur, grep_spec re cur l = [] /\ pending cur l = cur ++ l.
Proof.
  induction l as [|c l IH]; intros Hl cur; [by rewrite app_nil_r|]. rewrite not_elem_of_cons in Hl.
  destruct Hl as [Hc Hl]. cbn [grep_spec pending]. rewrite (proj2 (Z.eqb_neq c 10)) by congruence.
  destruct (IH Hl (cur ++ [c])) as [-> ->]. by rewrite <- app_assoc.
Qed.
Lemma one_line re l d : 10 ∉ l ->
  grep_spec re [] (l ++ 10 :: d) = (if match_ re l then l ++ [10] else []) ++ grep_spec re [] d /\
  pending [] (l ++ 10 :: d) = pending [] d.
Proof.
  intros Hl. destruct (no_newline re l Hl []) as [Es Ep]. split.
  - by rewrite grep_spec_app, Es, Ep.
  - clear Es Ep. revert Hl. generalize (@nil Z) at 1. induction l as [|c l IH]; intros cur Hl; [done|].
    rewrite not_elem_of_cons in Hl. cbn [pending app]. rewrite (proj2 (Z.eqb_neq c 10)) by (destruct Hl; congruence).
    by apply IH, Hl.
Qed.
Lemma split_line (d : bytes) : 10 ∉ d \/ exists l d', d = l ++ 10 :: d' /\ 10 ∉ l.
Proof. destruct (decide (10 ∈ d)) as [Hd|]; [right | by left]. apply list_elem_of_split_l in Hd. naive_solver. Qed.

Lemma strchr_here l c s : Forall (fun x => x <> 0) l -> c <> 0 -> c ∉ l -> strchr (l ++ c :: s) c = Some (lenZ l).
Proof.
  intros Hl Hc. induction Hl as [|x l Hx Hl IH]; intros Hn; cbn [strchr app].
  - by rewrite (proj2 (Z.eqb_neq c 0)), Z.eqb_refl by done.
  - rewrite not_elem_of_cons in Hn. destruct Hn as [Hn Hn'].
    rewrite (proj2 (Z.eqb_neq x 0)), (proj2 (Z.eqb_neq x c)), IH by congruence.
    cbn. f_equal. rewrite lenZ_cons. lia.
Qed.
Lemma strchr_none l c s : Forall (fun x => x <> 0) l -> c ∉ l -> strchr (l ++ 0 :: s) c = None.
Proof.
  intros Hl. induction Hl as [|x l Hx Hl IH]; intros Hn; [done|]. rewrite not_elem_of_cons in Hn.
  destruct Hn as [Hn Hn']. cbn [strchr app]. by rewrite (proj2 (Z.eqb_neq x 0)), (proj2 (Z.eqb_neq x c)), IH by congruence.
Qed.
Lemma cstr_cstr s : cstr (cstr s) = cstr s.
Proof. apply cstr_id, cstr_nonzero. Qed.
Lemma match_prefix re l s : Forall (fun x => x <> 0) l -> match_ re (l ++ 0 :: s) = match_ re l.
Proof.
  intros Hl. assert (cstr (l ++ 0 :: s) = cstr l) as E by (rewrite cstr_app, (cstr_id l) by done; cbn; apply app_nil_r).
  unfold match_. rewrite (match_loop_cstr re (l ++ _)), (match_loop_cstr re l), E.
  by rewrite (matchhere_cstr _ (tail re) (l ++ _) (Nat.le_refl _)), (matchhere_cstr _ (tail re) l (Nat.le_refl _)), E.
Qed.

Lemma slice_mid (l a s : bytes) : slice (l ++ a ++ s) (lenZ l) (lenZ a) = a.
Proof. unfold slice. rewrite drop_lenZ. unfold lenZ. by rewrite Nat2Z.id, take_app_length. Qed.

Lemma grep_lines_spec re fuel : forall pre d post, (length d <= fuel)%nat -> Forall (fun x => x <> 0) d ->
  exists pre', grep_lines fuel re (pre ++ d ++ 0 :: post) (lenZ pre) =
    (pre' ++ pending [] d ++ 0 :: post, lenZ pre', grep_spec re [] d) /\
    lenZ pre' + lenZ (pending [] d) = lenZ pre + lenZ d /\
    (10 ∉ d -> pre' = pre) /\ (10 ∈ d -> lenZ pre < lenZ pre').
Proof.
  induction fuel as [|fuel IH]; intros pre d post Hf Hnz.
  { destruct d; [|cbn in Hf; lia]. exists pre. cbn [grep_lines pending app grep_spec]. rewrite drop_lenZ. cbn [strchr].
    split_and!; try done. intros Hd. by apply elem_of_nil in Hd. }
  destruct (split_line d) as [Hd|(l & d' & -> & Hl)].
  { exists pre. cbn [grep_lines]. rewrite drop_lenZ, strchr_none by done.
    destruct (no_newline re d Hd []) as [-> ->]. by split_and!. }
  rewrite length_app in Hf. cbn [length] in Hf. apply Forall_app in Hnz as [Hnl [_ Hnd]%Forall_cons].
  destruct (one_line re l d' Hl) as [-> ->]. rewrite <- app_assoc. cbn [grep_lines app].
  rewrite drop_lenZ, strchr_here by done.
  assert (lenZ pre + lenZ l = lenZ (pre ++ l)) as -> by (rewrite lenZ_app; lia).
  assert (upd (pre ++ l ++ 10 :: d' ++ 0 :: post) (lenZ (pre ++ l)) 0 = pre ++ l ++ 0 :: d' ++ 0 :: post) as ->
    by (rewrite (app_assoc pre l), upd_lenZ_mid, <- app_assoc; done).
  rewrite drop_lenZ, match_prefix by done.
  assert (forall c, exists pre',
    grep_lines fuel re (pre ++ l ++ c :: d' ++ 0 :: post) (lenZ (pre ++ l) + 1) =
      (pre' ++ pending [] d' ++ 0 :: post, lenZ pre', grep_spec re [] d') /\
    lenZ pre' + lenZ (pending [] d') = lenZ pre + lenZ (l ++ 10 :: d') /\ lenZ pre < lenZ pre') as Hrec.
  { intros c. destruct (IH (pre ++ l ++ [c]) d' post) as (pre' & E & Hlen & Hno & Hyes); [lia | done|].
    exists pre'. rewrite !lenZ_app, !lenZ_cons in *. rewrite <- !app_assoc in E. cbn [app] in E.
    change (lenZ (@nil Z)) with 0 in *. pose proof (lenZ_nonneg l).
    replace (lenZ pre + lenZ l + 1) with (lenZ pre + (lenZ l + (0 + 1))) by lia. rewrite E.
    split_and!; [done | lia |]. destruct (decide (10 ∈ d')) as [Hin|Hin]; [specialize (Hyes Hin); lia|].
    rewrite (Hno Hin), !lenZ_app, lenZ_cons. change (lenZ (@nil Z)) with 0. lia. }
  assert (10 ∈ l ++ 10 :: d') as Hin by (rewrite elem_of_app, elem_of_cons; auto).
  destruct (match_ re l).
  - assert (upd (pre ++ l ++ 0 :: d' ++ 0 :: post) (lenZ (pre ++ l)) 10 = pre ++ l ++ 10 :: d' ++ 0 :: post) as ->
      by (rewrite (app_assoc pre l), upd_lenZ_mid, <- app_assoc; done).
    destruct (Hrec 10) as (pre' & E & Hlen & Hlt). exists pre'. rewrite E.
    replace (lenZ (pre ++ l) + 1 - lenZ pre) with (lenZ (l ++ [10])) by (rewrite !lenZ_app, lenZ_cons; change (lenZ (@nil Z)) with 0; lia).
    assert (slice (pre ++ l ++ 10 :: d' ++ 0 :: post) (lenZ pre) (lenZ (l ++ [10])) = l ++ [10]) as ->
      by (rewrite <- (slice_mid pre (l ++ [10]) (d' ++ 0 :: post)) at 2; rewrite <- app_assoc; done).
    by split_and!.
  - destruct (Hrec 0) as (pre' & E & Hlen & Hlt). exists pre'. rewrite E. by split_and!.
Qed.

Lemma blit_mid (l a r s : bytes) : lenZ a = lenZ r -> blit (l ++ r ++ s) (lenZ l) a = l ++ a ++ s.
Proof.
  intros E. unfold blit, lenZ in *. rewrite Nat2Z.id, take_app_length.
  rewrite (app_assoc l r s), drop_app_length'; [done|]. rewrite length_app. lia.
Qed.
Lemma pending_cons cur l : 10 ∉ cur -> 10 ∉ pending cur l.
Proof.
  revert cur. induction l as [|c l IH]; intros cur Hc; [done|]. cbn [pending].
  destruct (Z.eqb_spec c 10); apply IH; [apply not_elem_of_nil|]. rewrite not_elem_of_app, list_elem_of_singleton. naive_solver.
Qed.
Lemma pending_nonzero cur l : Forall (fun x => x <> 0) cur -> Forall (fun x => x <> 0) l ->
  Forall (fun x => x <> 0) (pending cur l).
Proof.
  intros Hc Hl. revert cur Hc. induction Hl as [|c l Hx Hl IH]; intros cur Hc; [done|]. cbn [pending].
  destruct (c =? 10); apply IH; [constructor|]. by apply Forall_app_2; [|constructor].
Qed.
Lemma pending_app a b : forall cur, pending cur (a ++ b) = pending (pending cur a) b.
Proof. induction a as [|c a IH]; intros cur; [done|]. cbn [pending app]. destruct (c =? 10); apply IH. Qed.

(** Every [read] but the last completes a line, and the line that is open with the
    next chunk fits in the buffer. *)
Fixpoint deliverable (cur : bytes) (input : list bytes) : Prop :=
  match input with
  | [] => True
  | c :: input =>
      c <> [] /\ Forall (fun x => x <> 0) c /\ lenZ cur + lenZ c < GREPBUF /\ (10 ∈ c \/ input = []) /\
      deliverable (pending cur c) input
  end.

(** One turn of the loop. *)
Lemma grep_turn re fuel cur rest c input :
  lenZ (cur ++ rest) = GREPBUF -> 10 ∉ cur -> Forall (fun x => x <> 0) cur ->
  c <> [] -> Forall (fun x => x <> 0) c -> lenZ cur + lenZ c < GREPBUF ->
  exists rest', lenZ (pending cur c ++ rest') = GREPBUF /\
    (10 ∈ c -> grep_loop (S fuel) re (cur ++ rest) (lenZ cur) (c :: input) =
      grep_spec re cur c ++ grep_loop fuel re (pending cur c ++ rest') (lenZ (pending cur c)) input) /\
    (10 ∉ c -> exists buf, grep_loop (S fuel) re (cur ++ rest) (lenZ cur) (c :: input) = grep_loop fuel re buf 0 input).
Proof.
  intros Hlen Hcur Hnz Hc Hnc Hroom. pose proof (lenZ_nonneg cur). unfold GREPBUF in *.
  assert (0 < lenZ c) as Hpos by (destruct c; [done|]; rewrite lenZ_cons; pose proof (lenZ_nonneg c); lia).
  assert (exists r x post, rest = r ++ x :: post /\ lenZ r = lenZ c) as (r & x & post & -> & Hr).
  { rewrite lenZ_app in Hlen. destruct (drop (length c) rest) as [|x post] eqn:E.
    - apply (f_equal length) in E. rewrite length_drop in E. unfold lenZ in *. cbn in E. lia.
    - exists (take (length c) rest), x, post. rewrite <- E, take_drop. split; [done|].
      unfold lenZ in *. rewrite length_take. lia. }
  assert (Forall (fun x => x <> 0) (cur ++ c)) as Hnd by (by apply Forall_app_2).
  destruct (grep_lines_spec re 1024 [] (cur ++ c) post) as (pre' & E & Hl & Hno & Hyes); [|done|].
  { unfold lenZ in *. rewrite length_app. lia. }
  destruct (no_newline re cur Hcur []) as [Es Ep]. cbn [app] in E, Ep.
  rewrite grep_spec_app, pending_app, Es, Ep in E. rewrite pending_app, Ep in Hl. cbn [app] in E.
  exists (drop (length (pending cur c)) (pre' ++ pending cur c ++ 0 :: post)).
  assert (lenZ (pending cur c) <= lenZ (pre' ++ pending cur c ++ 0 :: post)) as Hle.
  { rewrite !lenZ_app, lenZ_cons. pose proof (lenZ_nonneg pre'). pose proof (lenZ_nonneg post). lia. }
  split; [|split].
  - rewrite lenZ_app in *. unfold lenZ in *. rewrite length_drop, !length_app in *. cbn [length] in *. lia.
  - intros Hin. cbn [grep_loop]. unfold read_from, GREPBUF.
    rewrite (proj2 (Z.leb_le (lenZ c) _)), (proj2 (Z.ltb_lt 0 (lenZ c))) by lia.
    rewrite blit_mid by done. rewrite (app_assoc cur), <- lenZ_app, upd_lenZ_mid.
    change (Z.to_nat 1024) with 1024%nat. change 0 with (lenZ (@nil Z)) at 2. rewrite E.
    assert (0 < lenZ pre') by (apply Hyes; rewrite elem_of_app; auto).
    rewrite (proj2 (Z.eqb_neq (lenZ pre') 0)), lenZ_app, (proj2 (Z.ltb_lt 0 (lenZ cur + lenZ c))) by lia.
    rewrite lenZ_app in Hl. change (lenZ (@nil Z)) with 0 in Hl.
    replace (lenZ cur + lenZ c - lenZ pre') with (lenZ (pending cur c)) by lia.
    by rewrite slice_mid.
  - intros Hin. cbn [grep_loop]. unfold read_from, GREPBUF.
    rewrite (proj2 (Z.leb_le (lenZ c) _)), (proj2 (Z.ltb_lt 0 (lenZ c))) by lia.
    rewrite blit_mid by done. rewrite (app_assoc cur), <- lenZ_app, upd_lenZ_mid.
    change (Z.to_nat 1024) with 1024%nat. change 0 with (lenZ (@nil Z)) at 2. rewrite E.
    rewrite Hno by (by rewrite not_elem_of_app). rewrite (proj1 (no_newline re c Hin cur)).
    eexists. done.
Qed.

Lemma grep_loop_spec re input : forall fuel cur rest, (length input < fuel)%nat ->
  lenZ (cur ++ rest) = GREPBUF -> 10 ∉ cur -> Forall (fun x => x <> 0) cur -> deliverable cur input ->
  grep_loop fuel re (cur ++ rest) (lenZ cur) input = grep_spec re cur (concat input).
Proof.
  induction input as [|c input IH]; intros [|fuel] cur rest Hf Hlen Hcur Hnz Hd; try (cbn in Hf; lia); [done|].
  cbn [deliverable] in Hd. destruct Hd as (Hc & Hnc & Hroom & Hnl & Hd). cbn [length] in Hf.
  destruct (grep_turn re fuel cur rest c input) as (rest' & Hlen' & Hyes & Hno); try done.
  cbn [concat]. rewrite grep_spec_app. destruct (decide (10 ∈ c)) as [Hin|Hin].
  - rewrite Hyes, IH; try done; [lia | by apply pending_cons | by apply pending_nonzero].
  - destruct Hnl as [?| ->]; [done|]. destruct (Hno Hin) as [buf ->].
    rewrite (proj1 (no_newline re c Hin cur)). destruct fuel; done.
Qed.

Lemma deliverable_len input : forall cur, deliverable cur input -> (length input <= length (concat input))%nat.
Proof.
  induction input as [|c input IH]; intros cur Hd; [done|]. cbn [deliverable] in Hd.
  destruct Hd as (Hc & _ & _ & _ & Hd). apply IH in Hd. cbn [concat length]. rewrite length_app.
  destruct c; [done|]. cbn [length]. lia.
Qed.


(** A line that arrives in two reads, the first of which has no newline, loses its
    start: the pattern [abc] is not found. *)
Theorem grep_drops_partial_line :
  grep [97; 98; 99] [[97; 98; 99; 10]] = [97; 98; 99; 10] /\ grep [97; 98; 99] [[97; 98]; [99; 10]] = [].
Proof. split; by vm_compute. Qed.
