(* ===== verification/Umalloc.v ===== *)
(** * The allocator of user programs (src/xv6/umalloc.c)

    The circular free list of Kernighan and Ritchie, sorted by address, whose
    headers lie in the memory that is allocated.  Only the headers are modelled:
    [u_hdr a] is the [Header] at address [a], of which every address has one; a
    client that writes to its blocks changes those that overlap them.  [sbrk] is
    the system call: [grow b n] is whether the kernel grants [n] bytes at the
    break [b]. *)

From S2P Require Import Prelude.

Record header := mkHeader { h_ptr : Z; h_size : Z }.
Record umem := mkUmem { u_hdr : Z -> header; u_freep : Z; u_brk : Z }.

(** [sizeof(Header)]. *)
Definition HDR : Z := 8.

Definition set_hdr (a : Z) (h : header) (s : umem) : umem :=
  mkUmem (fun x => if x =? a then h else u_hdr s x) (u_freep s) (u_brk s).
Definition set_ptr (a v : Z) (s : umem) : umem := set_hdr a (mkHeader v (h_size (u_hdr s a))) s.
Definition set_size (a v : Z) (s : umem) : umem := set_hdr a (mkHeader (h_ptr (u_hdr s a)) (u32 v)) s.
Definition set_freep (v : Z) (s : umem) : umem := mkUmem (u_hdr s) v (u_brk s).

Section umalloc.
(** [&base], and what the kernel grants. *)
Context (base : Z) (grow : Z -> Z -> bool).

Definition ptr (a : Z) : ST umem Z := gets (fun s => h_ptr (u_hdr s a)).
Definition size (a : Z) : ST umem Z := gets (fun s => h_size (u_hdr s a)).
(** [p + n] on a [Header*]. *)
Definition hplus (p n : Z) : Z := u32 (p + HDR * n).

(** The block before [bp]. *)
Fixpoint free_loop (fuel : nat) (bp p : Z) : ST umem Z :=
  q <- ptr p ;;
  if (p <? bp) && (bp <? q) then ret p
  else if (q <=? p) && ((p <? bp) || (bp <? q)) then ret p
  else match fuel with
       | O => nofuel
       | S fuel => free_loop fuel bp q
       end.
Definition free (fuel : nat) (ap : Z) : ST umem unit :=
  let bp := ap - HDR in
  freep <- gets u_freep ;;
  p <- free_loop fuel bp freep ;;
  q <- ptr p ;;
  n <- size bp ;;
  (if hplus bp n =? q then
     m <- size q ;;
     modify (set_size bp (n + m)) ;;;
     r <- ptr q ;;
     modify (set_ptr bp r)
   else modify (set_ptr bp q)) ;;;
  n <- size p ;;
  (if hplus p n =? bp then
     m <- size bp ;;
     modify (set_size p (n + m)) ;;;
     r <- ptr bp ;;
     modify (set_ptr p r)
   else modify (set_ptr p bp)) ;;;
  modify (set_freep p).

Definition sbrk (n : Z) : ST umem Z :=
  b <- gets u_brk ;;
  if grow b n then modify (fun s => mkUmem (u_hdr s) (u_freep s) (b + n)) ;;; ret b
  else ret (-1).
Definition morecore (fuel : nat) (nu : Z) : ST umem Z :=
  let nu := if nu <? 4096 then 4096 else nu in
  p <- sbrk (s32 (u32 (nu * HDR))) ;;
  if p =? -1 then ret 0 else
  modify (set_size p nu) ;;;
  free fuel (p + HDR) ;;;
  gets u_freep.

Definition units (nbytes : Z) : Z := u32 (u32 (nbytes + HDR - 1) / HDR + 1).
(** The loop of [malloc], before [p]. *)
Fixpoint malloc_loop (fuel : nat) (nunits prevp p : Z) : ST umem Z :=
  n <- size p ;;
  if nunits <=? n then
    (if n =? nunits then
       q <- ptr p ;;
       modify (set_ptr prevp q) ;;;
       modify (set_freep prevp) ;;;
       ret (p + HDR)
     else
       modify (set_size p (n - nunits)) ;;;
       n <- size p ;;
       let p := hplus p n in
       modify (set_size p nunits) ;;;
       modify (set_freep prevp) ;;;
       ret (p + HDR))
  else
    match fuel with
    | O => nofuel
    | S fuel' =>
        freep <- gets u_freep ;;
        r <- (if p =? freep then
                r <- morecore fuel nunits ;;
                ret (if r =? 0 then None else Some r)
              else ret (Some p)) ;;
        match r with
        | None => ret 0
        | Some p => q <- ptr p ;; malloc_loop fuel' nunits p q
        end
    end.
Definition malloc (fuel : nat) (nbytes : Z) : ST umem Z :=
  let nunits := units nbytes in
  prevp <- gets u_freep ;;
  prevp <- (if prevp =? 0 then
              modify (set_ptr base base) ;;;
              modify (set_freep base) ;;;
              modify (set_size base 0) ;;;
              ret base
            else ret prevp) ;;
  p <- ptr prevp ;;
  malloc_loop fuel nunits prevp p.
End umalloc.
