(* ===== verification/UmallocSpec.v ===== *)
(** * The allocator keeps its blocks apart (src/xv6/umalloc.c)

    In every run of allocations, frees of live blocks and writes of the client
    to its blocks, the live blocks and the free list are disjoint and lie in the
    memory that the kernel granted, no unit of it is lost, and [malloc] and
    [free] terminate. *)

From S2P Require Import Prelude Umalloc.

(** ** The free list *)

(** The list [fl] of blocks (address and units) from [a], which ends in [e]. *)
Fixpoint links (h : Z -> header) (a : Z) (fl : list (Z * Z)) (e : Z) : Prop :=
  match fl with
  | [] => h_ptr (h a) = e
  | (b, n) :: fl => h_ptr (h a) = b /\ h_size (h b) = n /\ links h b fl e
  end.
(** Blocks in order of address from [lo] on, and where they end. *)
Fixpoint gaps (lo : Z) (fl : list (Z * Z)) : Prop :=
  match fl with
  | [] => True
  | (b, n) :: fl => lo <= b /\ 0 < n /\ gaps (b + HDR * n) fl
  end.
Fixpoint top (lo : Z) (fl : list (Z * Z)) : Z :=
  match fl with
  | [] => lo
  | (b, n) :: fl => top (b + HDR * n) fl
  end.
(** The last node of [a] and [fl], and the first node of [fl] and [e]. *)
Fixpoint last_of (a : Z) (fl : list (Z * Z)) : Z :=
  match fl with
  | [] => a
  | (b, _) :: fl => last_of b fl
  end.
Definition first_of (fl : list (Z * Z)) (e : Z) : Z :=
  match fl with
  | [] => e
  | (b, _) :: _ => b
  end.
Definition total (fl : list (Z * Z)) : Z := foldr (fun x n => snd x + n) 0 fl.

Lemma links_mid h a l1 b n l2 e :
  links h a (l1 ++ (b, n) :: l2) e <-> links h a l1 b /\ h_size (h b) = n /\ links h b l2 e.
Proof. revert a. induction l1 as [|[c m] l1 IH]; intros a; cbn [links app]; [tauto|]. rewrite IH. tauto. Qed.
Lemma links_app h a l1 l2 e :
  links h a (l1 ++ l2) e <-> links h a l1 (first_of l2 e) /\ links h (last_of a l1) l2 e.
Proof.
  revert a. induction l1 as [|[c m] l1 IH]; intros a; cbn [links app last_of]; [|rewrite IH; tauto].
  destruct l2 as [|[b n] l2]; cbn [links first_of]; tauto.
Qed.
Lemma links_frame h h' a l e : (forall x, x = a \/ x ∈ l.*1 -> h' x = h x) -> links h a l e -> links h' a l e.
Proof.
  revert a. induction l as [|[b n] l IH]; intros a Hh; cbn [links].
  - by rewrite Hh by auto.
  - intros (H1 & H2 & H3). assert (b ∈ ((b, n) :: l).*1) as Hb by (cbn; apply elem_of_cons; auto).
    rewrite !Hh by auto. split_and!; [done | done|]. apply IH; [|done]. intros x Hx. apply Hh.
    cbn. rewrite elem_of_cons. naive_solver.
Qed.
Lemma gaps_app lo l1 l2 : gaps lo (l1 ++ l2) <-> gaps lo l1 /\ gaps (top lo l1) l2.
Proof. revert lo. induction l1 as [|[b n] l1 IH]; intros lo; cbn [gaps top app]; [tauto|]. rewrite IH. tauto. Qed.
Lemma top_app lo l1 l2 : top lo (l1 ++ l2) = top (top lo l1) l2.
Proof. revert lo. induction l1 as [|[b n] l1 IH]; intros lo; cbn [top app]; [done | apply IH]. Qed.
Lemma last_of_snoc a l b n : last_of a (l ++ [(b, n)]) = b.
Proof. revert a. induction l as [|[c m] l IH]; intros a; cbn; [done | apply IH]. Qed.
Lemma gaps_mono lo lo' l : lo' <= lo -> gaps lo l -> gaps lo' l.
Proof. destruct l as [|[b n] l]; cbn; [done|]. intros. split_and!; lia || tauto. Qed.
Lemma gaps_top lo l : gaps lo l -> lo <= top lo l.
Proof.
  revert lo. induction l as [|[b n] l IH]; intros lo; cbn [gaps top]; [lia|]. unfold HDR in *.
  intros (H1 & H2 & H3). apply IH in H3. lia.
Qed.
Lemma top_ge lo lo' l : gaps lo' l -> lo <= lo' -> top lo l <= top lo' l.
Proof. destruct l as [|[b n] l]; cbn; [lia|]. intros. lia. Qed.
Lemma gaps_elem lo l b n : gaps lo l -> (b, n) ∈ l -> lo <= b /\ 0 < n /\ b + HDR * n <= top lo l.
Proof.
  revert lo. induction l as [|[c m] l IH]; intros lo; [by intros _ ?%elem_of_nil|]. cbn [gaps top].
  intros (H1 & H2 & H3) [[= -> ->]|Hin]%elem_of_cons.
  - apply gaps_top in H3. lia.
  - destruct (IH _ H3 Hin) as (? & ? & ?). unfold HDR in *. lia.
Qed.
Lemma split_unique lo l1 c m l2 k m' k2 : gaps lo (l1 ++ (c, m) :: l2) ->
  l1 ++ (c, m) :: l2 = k ++ (c, m') :: k2 -> l1 = k /\ m = m'.
Proof.
  revert lo k. induction l1 as [|[b n] l1 IH]; intros lo [|[b' n'] k]; cbn [app gaps]; intros (Hlo & Hn & Hg) E; simplify_eq; try done.
  - assert ((b', m') ∈ k ++ (b', m') :: k2) as Hin by (rewrite elem_of_app, elem_of_cons; auto).
    destruct (gaps_elem _ _ _ _ Hg Hin). unfold HDR in *. lia.
  - assert ((c, m) ∈ l1 ++ (c, m) :: l2) as Hin by (rewrite elem_of_app, elem_of_cons; auto).
    destruct (gaps_elem _ _ _ _ Hg Hin). unfold HDR in *. lia.
  - by destruct (IH _ k Hg) as [-> ->].
Qed.
Lemma total_app l1 l2 : total (l1 ++ l2) = total l1 + total l2.
Proof. induction l1 as [|x l1 IH]; cbn; [done|]. unfold total in *. lia. Qed.

(** The place of a block that overlaps none of the list. *)
Lemma find_place lo l b n : gaps lo l -> 0 < n -> lo <= b ->
  (forall c m, (c, m) ∈ l -> b + HDR * n <= c \/ c + HDR * m <= b) ->
  exists l1 l2, l = l1 ++ l2 /\ top lo l1 <= b /\ gaps (b + HDR * n) l2 /\ (forall c m, (c, m) ∈ l1 -> c < b).
Proof.
  unfold HDR. intros Hg Hn. revert lo Hg. induction l as [|[c m] l IH]; intros lo Hg Hlo Hd.
  - exists [], []. split_and!; try done. by intros c m ?%elem_of_nil.
  - cbn [gaps] in Hg. destruct Hg as (H1 & H2 & H3). destruct (Hd c m) as [Hc|Hc]; [apply elem_of_cons; by left| |].
    + exists [], ((c, m) :: l). split_and!; try done. by intros ? ? ?%elem_of_nil.
    + destruct (IH _ H3) as (l1 & l2 & -> & Ht & Hg2 & Hlt); [done | |].
      { intros c' m' Hin. apply Hd, elem_of_cons. by right. }
      exists ((c, m) :: l1), l2. split_and!; try done. intros c' m' [[= -> ->]|Hin]%elem_of_cons; [lia | by apply (Hlt c' m')].
Qed.

Section alloc.
Context (base : Z) (grow : Z -> Z -> bool).

Lemma last_lt lo a k c m r : a < lo -> gaps lo (k ++ (c, m) :: r) -> last_of a k < c.
Proof.
  revert lo a. induction k as [|[b n] k IH]; intros lo a Ha; cbn [gaps app last_of]; [lia|].
  intros (H1 & H2 & H3). apply (IH (b + HDR * n)); [unfold HDR; lia | done].
Qed.

(** The search of [free] stops at the block before [bp]. *)
Section search.
Context (s : umem) (fl l1 l2 : list (Z * Z)) (bp n : Z).
Hypothesis Hlinks : links (u_hdr s) base fl base.
Hypothesis Hgaps : gaps (base + HDR) fl.
Hypothesis Hfl : fl = l1 ++ l2.
Hypothesis Hn : 0 < n.
Hypothesis Hbp : base < bp.
Hypothesis Hl1 : forall c m, (c, m) ∈ l1 -> c < bp.
Hypothesis Hl2 : gaps (bp + HDR * n) l2.

Lemma next_node k1 k2 : fl = k1 ++ k2 -> h_ptr (u_hdr s (last_of base k1)) = first_of k2 base.
Proof.
  intros E. pose proof Hlinks as Hk. rewrite E, links_app in Hk. destruct Hk as [_ Hk].
  destruct k2 as [|[c m] k2]; [done|]. by destruct Hk.
Qed.
Lemma node_le k1 k2 : fl = k1 ++ k2 -> base <= last_of base k1.
Proof.
  intros E. destruct k1 as [|[c m] k1] using rev_ind; [done|]. rewrite last_of_snoc. pose proof Hgaps as Hg.
  assert ((c, m) ∈ fl) as Hin by (rewrite E, !elem_of_app; left; right; by apply list_elem_of_singleton).
  destruct (gaps_elem _ _ _ _ Hg Hin). unfold HDR in *. lia.
Qed.
Lemma free_loop_fwd mid : forall k1 fuel, l1 = k1 ++ mid -> (length mid <= fuel)%nat ->
  wp (free_loop fuel bp (last_of base k1)) s (fun p s' => p = last_of base l1 /\ s' = s).
Proof.
  induction mid as [|[c m] mid IH]; intros k1 fuel E Hf.
  - rewrite app_nil_r in E. subst k1.
    assert (last_of base l1 < bp) as Hlt.
    { destruct l1 as [|[c m] l] using rev_ind; [done|]. rewrite last_of_snoc. apply (Hl1 c m).
      rewrite elem_of_app, list_elem_of_singleton. by right. }
    pose proof (node_le l1 l2 Hfl).
    destruct fuel; cbn [free_loop]; unfold ptr; wp_steps; rewrite (next_node l1 l2 Hfl);
      (destruct l2 as [|[c m] l2'] eqn:E2; cbn [first_of];
       [rewrite (proj2 (Z.ltb_ge bp base)), andb_false_r, (proj2 (Z.leb_le base _)), (proj2 (Z.ltb_lt _ bp)) by lia; cbn [andb orb]; by wp_step|];
       cbn [gaps] in Hl2; unfold HDR in Hl2;
       rewrite (proj2 (Z.ltb_lt _ bp)), (proj2 (Z.ltb_lt bp c)) by lia; cbn [andb orb]; by wp_step).
  - destruct fuel as [|fuel]; [cbn in Hf; lia|]. cbn [free_loop]. unfold ptr. wp_steps.
    assert (fl = k1 ++ (c, m) :: mid ++ l2) as E' by (rewrite Hfl, E, <- app_assoc; done).
    rewrite (next_node k1 _ E'). cbn [first_of].
    assert (last_of base k1 < c) as Hlt.
    { apply (last_lt (base + HDR) base k1 c m (mid ++ l2)); [unfold HDR; lia|]. by rewrite <- E'. }
    assert (c < bp) as Hc by (apply (Hl1 c m); rewrite E, elem_of_app, elem_of_cons; auto).
    rewrite (proj2 (Z.ltb_ge bp c)), andb_false_r, (proj2 (Z.leb_gt c _)) by lia. cbn [andb].
    rewrite <- (last_of_snoc base k1 c m). apply IH; [by rewrite <- app_assoc | cbn in Hf; lia].
Qed.
Lemma free_loop_wrap k2 : forall k1 fuel, fl = k1 ++ k2 -> bp < last_of base k1 ->
  (length k2 + 1 + length l1 <= fuel)%nat ->
  wp (free_loop fuel bp (last_of base k1)) s (fun p s' => p = last_of base l1 /\ s' = s).
Proof.
  induction k2 as [|[c m] k2 IH]; intros k1 fuel E Hlt Hf; (destruct fuel as [|fuel]; [cbn in Hf; lia|]);
    cbn [free_loop]; unfold ptr; wp_steps; rewrite (next_node k1 _ E); cbn [first_of];
    rewrite (proj2 (Z.ltb_ge _ bp)) by lia; cbn [andb orb].
  - rewrite (proj2 (Z.ltb_ge bp base)), andb_false_r by lia. cbn [length] in Hf.
    apply (free_loop_fwd l1 []); [done | lia].
  - assert (last_of base k1 < c) as Hc.
    { apply (last_lt (base + HDR) base k1 c m k2); [unfold HDR; lia|]. by rewrite <- E. }
    rewrite (proj2 (Z.leb_gt c _)) by lia. cbn [andb]. rewrite <- (last_of_snoc base k1 c m).
    apply IH; [by rewrite <- app_assoc | rewrite last_of_snoc; lia | cbn [length] in Hf; lia].
Qed.

(** From any node. *)
Lemma free_loop_spec x fuel : x = base \/ x ∈ fl.*1 -> (length fl < fuel)%nat ->
  wp (free_loop fuel bp x) s (fun p s' => p = last_of base l1 /\ s' = s).
Proof.
  intros Hx Hf. assert (exists k1 k2, fl = k1 ++ k2 /\ x = last_of base k1) as (k1 & k2 & E & ->).
  { destruct Hx as [->|Hx]; [by exists [], fl|]. apply list_elem_of_fmap in Hx as ([y m] & -> & Hin).
    apply list_elem_of_split in Hin as (k1 & k2 & E). exists (k1 ++ [(y, m)]), k2.
    by rewrite <- app_assoc, last_of_snoc. }
  assert (length fl = length l1 + length l2)%nat as Hlen by (by rewrite Hfl, length_app).
  pose proof E as E2. rewrite Hfl in E2. apply app_eq_inv in E2 as [(mid & E1 & E2)|(mid & E1 & E2)].
  - apply (free_loop_fwd mid); [done|]. rewrite E1, length_app in Hlen. lia.
  - destruct mid as [|[c m] mid].
    + rewrite app_nil_r in E1. subst k1. apply (free_loop_fwd [] l1); [by rewrite app_nil_r | cbn; lia].
    + apply (free_loop_wrap k2 k1); [done | |].
      * rewrite E1. destruct mid as [|[c' m'] mid _] using rev_ind; rewrite E2 in Hl2.
        -- rewrite last_of_snoc. cbn [gaps app] in Hl2. unfold HDR in Hl2. lia.
        -- rewrite app_comm_cons, app_assoc, last_of_snoc.
           assert ((c', m') ∈ ((c, m) :: mid ++ [(c', m')]) ++ k2) as Hin.
           { rewrite elem_of_app, elem_of_cons, elem_of_app, list_elem_of_singleton. auto. }
           destruct (gaps_elem _ _ _ _ Hl2 Hin). unfold HDR in *. lia.
      * rewrite E2, length_app in Hlen. cbn [length] in Hlen. lia.
Qed.
End search.

(** ** Freeing a block *)

Definition LIM : Z := 2147483648.
Definition apart (a k : Z) (fl : list (Z * Z)) : Prop :=
  forall c m, (c, m) ∈ fl -> a + HDR * k <= c \/ c + HDR * m <= a.

Record inv (s : umem) (fl : list (Z * Z)) (A : gmap Z Z) : Prop := {
  i_base : 0 < base;
  i_brk : base + HDR <= u_brk s <= LIM;
  i_links : links (u_hdr s) base fl base;
  i_size : h_size (u_hdr s base) = 0;
  i_gaps : gaps (base + HDR) fl;
  i_top : top (base + HDR) fl <= u_brk s;
  i_freep : u_freep s = base \/ u_freep s ∈ fl.*1;
  i_live : forall a n, A !! a = Some n ->
    h_size (u_hdr s a) = n /\ 0 < n /\ base + HDR <= a /\ a + HDR * n <= u_brk s /\ apart a n fl;
  i_disj : forall a n b m, A !! a = Some n -> A !! b = Some m -> a <> b ->
    a + HDR * n <= b \/ b + HDR * m <= a
}.

(** The block after [bp] is merged into it, or not. *)
Definition joined (bp n : Z) (l2 : list (Z * Z)) (n' : Z) (l2' : list (Z * Z)) : Prop :=
  n' = n /\ l2' = l2 \/ exists m, l2 = (bp + HDR * n, m) :: l2' /\ n' = n + m.

Definition same_but (x : Z) (s s' : umem) : Prop :=
  (forall y, y <> x -> u_hdr s' y = u_hdr s y) /\ u_freep s' = u_freep s /\ u_brk s' = u_brk s.
Lemma set_hdr_same x h s : same_but x s (set_hdr x h s) /\ u_hdr (set_hdr x h s) x = h.
Proof.
  unfold same_but, set_hdr. cbn. split; [|by rewrite Z.eqb_refl]. split_and!; try done.
  intros y Hy. by rewrite (proj2 (Z.eqb_neq y x) Hy).
Qed.

Lemma hplus_small p n : 0 <= p + HDR * n < 4294967296 -> hplus p n = p + HDR * n.
Proof. apply u32_small. Qed.

Lemma free_first s bp n l2 : 0 < base < bp -> 0 < n -> bp + HDR * n <= LIM ->
  gaps (bp + HDR * n) l2 -> top (bp + HDR * n) l2 <= LIM ->
  (forall b m r, l2 = (b, m) :: r -> h_size (u_hdr s b) = m /\ h_ptr (u_hdr s b) = first_of r base) ->
  wp (if hplus bp n =? first_of l2 base then
        m <- size (first_of l2 base) ;;
        modify (set_size bp (n + m)) ;;;
        r <- ptr (first_of l2 base) ;;
        modify (set_ptr bp r)
      else modify (set_ptr bp (first_of l2 base))) s
    (fun _ s' => exists n' l2', same_but bp s s' /\ joined bp n l2 n' l2' /\
       h_ptr (u_hdr s' bp) = first_of l2' base /\ (h_size (u_hdr s bp) = n -> h_size (u_hdr s' bp) = n')).
Proof.
  unfold LIM, HDR. intros Hb Hn Hlim Hg Ht Hnext. rewrite hplus_small by (unfold HDR; lia). unfold HDR.
  destruct (Z.eqb_spec (bp + 8 * n) (first_of l2 base)) as [E|E].
  - destruct l2 as [|[b m] l2]; cbn [first_of] in *; [lia|]. destruct (Hnext b m l2 eq_refl) as [Hs Hp].
    cbn [gaps top] in Hg, Ht. unfold HDR in *. destruct Hg as (_ & Hm & Hg). apply gaps_top in Hg.
    unfold size, ptr. wp_steps. exists (n + m), l2.
    assert (b <> bp) as Hne by lia.
    unfold set_ptr, set_size, set_hdr. cbn. rewrite Z.eqb_refl. rewrite (proj2 (Z.eqb_neq b bp) Hne). rewrite Hs, Hp.
    split_and!.
    + split_and!; try done. intros y Hy. cbn. by rewrite (proj2 (Z.eqb_neq y bp) Hy).
    + right. exists m. unfold HDR. by rewrite E.
    + done.
    + intros _. cbn. apply u32_small. lia.
  - wp_step. exists n, l2. unfold set_ptr. destruct (set_hdr_same bp (mkHeader (first_of l2 base) (h_size (u_hdr s bp))) s) as [Hsame ->].
    split_and!; [done | by left | done | done].
Qed.

Lemma free_second s p bp n' : p <> bp -> 0 <= p + HDR * h_size (u_hdr s p) < 4294967296 ->
  h_size (u_hdr s bp) = n' -> 0 <= h_size (u_hdr s p) + n' < 4294967296 ->
  wp (if hplus p (h_size (u_hdr s p)) =? bp then
        m <- size bp ;;
        modify (set_size p (h_size (u_hdr s p) + m)) ;;;
        r <- ptr bp ;;
        modify (set_ptr p r)
      else modify (set_ptr p bp)) s
    (fun _ s' => same_but p s s' /\
       u_hdr s' p = (if p + HDR * h_size (u_hdr s p) =? bp then mkHeader (h_ptr (u_hdr s bp)) (h_size (u_hdr s p) + n')
                     else mkHeader bp (h_size (u_hdr s p)))).
Proof.
  intros Hne Hr Hn' Hsz. unfold size, ptr. rewrite hplus_small by done.
  destruct (p + HDR * h_size (u_hdr s p) =? bp); wp_steps.
  - unfold set_ptr, set_size, set_hdr, same_but. cbn. rewrite !Z.eqb_refl, (proj2 (Z.eqb_neq bp p)), Hn', u32_small by lia.
    split_and!; try done. intros y Hy. by rewrite (proj2 (Z.eqb_neq y p) Hy).
  - apply set_hdr_same.
Qed.

Lemma links_start h h' a a' l e : links h a l e -> h_ptr (h' a') = first_of l e ->
  (forall x, x ∈ l.*1 -> h' x = h x) -> links h' a' l e.
Proof.
  destruct l as [|[b n] l]; cbn [links first_of]; [done|]. intros (_ & Hs & Hl) Hp Hx.
  assert (h' b = h b) as Eb by (apply Hx; cbn; apply elem_of_cons; by left).
  split_and!; [done | by rewrite Eb|]. apply (links_frame h); [|done]. intros x [->|Hin]; [done|].
  apply Hx. cbn. apply elem_of_cons. by right.
Qed.
Lemma links_end h h' a l q q' : links h a l q -> h_ptr (h' (last_of a l)) = q' ->
  h_size (h' (last_of a l)) = h_size (h (last_of a l)) ->
  (forall x, x = a \/ x ∈ l.*1 -> x <> last_of a l -> h' x = h x) ->
  (forall k c m, l = k ++ [(c, m)] -> a <> c /\ c ∉ k.*1) -> links h' a l q'.
Proof.
  destruct l as [|[c m] k _] using rev_ind; [done|]. rewrite last_of_snoc, !links_mid. cbn [links].
  intros (Hk & Hs & _) Hp Hsz Hx Hd. destruct (Hd k c m eq_refl) as [Hac Hck].
  split_and!; [|by rewrite Hsz | done]. apply (links_frame h); [|done]. intros x Hxk. apply Hx.
  - rewrite fmap_app, elem_of_app. naive_solver.
  - destruct Hxk as [->|Hxk]; [done|]. intros ->. done.
Qed.
Lemma nodes_lt lo l x : gaps lo l -> x ∈ l.*1 -> lo <= x < top lo l.
Proof.
  intros Hg ([b n] & -> & Hin)%list_elem_of_fmap. destruct (gaps_elem _ _ _ _ Hg Hin) as (? & ? & ?). cbn. unfold HDR in *. lia.
Qed.
Lemma gaps_snoc lo k c m : gaps lo (k ++ [(c, m)]) -> (c ∉ k.*1) /\ lo <= c.
Proof.
  rewrite gaps_app. cbn [gaps]. intros (Hk & Hc & _). pose proof (gaps_top _ _ Hk). split; [|lia].
  intros Hin. apply (nodes_lt _ _ _ Hk) in Hin. lia.
Qed.
Lemma top_lo lo lo' l : l <> [] -> top lo l = top lo' l.
Proof. by destruct l as [|[b n] l]. Qed.

Lemma joined_facts bp n l2 n' l2' : joined bp n l2 n' l2' -> 0 < n -> gaps (bp + HDR * n) l2 ->
  n <= n' /\ gaps (bp + HDR * n') l2' /\ top (bp + HDR * n') l2' = top (bp + HDR * n) l2 /\
  total l2' + n' = total l2 + n /\ l2'.*1 ⊆ l2.*1 /\
  (forall a k, 0 < k -> apart a k l2 -> apart a k [(bp, n)] -> apart a k ((bp, n') :: l2')).
Proof.
  unfold HDR. intros [[-> ->]|(m & -> & ->)] Hn Hg.
  - split_and!; try done. intros a k _ H1 H2 c x [[= -> ->]|Hin]%elem_of_cons; [|by apply H1].
    apply H2. by apply list_elem_of_singleton.
  - cbn [gaps top] in *. unfold HDR in *. destruct Hg as (_ & Hm & Hg). replace (bp + 8 * (n + m)) with (bp + 8 * n + 8 * m) by lia.
    split_and!; try done; [lia | unfold total; cbn; lia | cbn; set_solver|].
    intros a k Hk H1 H2 c x [[= -> ->]|Hin]%elem_of_cons; unfold HDR.
    + pose proof (H1 (bp + 8 * n) m ltac:(apply elem_of_cons; by left)).
      pose proof (H2 bp n ltac:(by apply list_elem_of_singleton)). unfold HDR in *. lia.
    + apply H1, elem_of_cons. by right.
Qed.

Lemma joined_len bp n l2 n' l2' : joined bp n l2 n' l2' -> (length l2' <= length l2)%nat.
Proof. intros [[_ ->]|(m & -> & _)]; cbn; lia. Qed.

(** The list after the two merges. *)
Record inserted (s s' : umem) (fl : list (Z * Z)) (bp n p : Z) (fl' : list (Z * Z)) : Prop := {
  in_node : p = base \/ p ∈ fl'.*1;
  in_len : (length fl' <= S (length fl))%nat;
  in_links : links (u_hdr s') base fl' base;
  in_size : h_size (u_hdr s' base) = 0;
  in_gaps : gaps (base + HDR) fl';
  in_top : top (base + HDR) fl' <= u_brk s;
  in_total : total fl' = total fl + n;
  in_apart : forall a k, 0 < k -> apart a k fl -> apart a k [(bp, n)] -> apart a k fl';
  in_big : exists c m, (c, m) ∈ fl' /\ n <= m;
  in_same : forall a k, base < a -> 0 < k -> apart a k fl -> apart a k [(bp, n)] -> u_hdr s' a = u_hdr s a
}.

Section insert.
Context (s s1 s2 : umem) (l1 l2 l2' : list (Z * Z)) (bp n n' : Z).
Let p := last_of base l1.
Let np := h_size (u_hdr s p).
Hypothesis Hbase : 0 < base.
Hypothesis Hlinks : links (u_hdr s) base (l1 ++ l2) base.
Hypothesis Hsize : h_size (u_hdr s base) = 0.
Hypothesis Hgaps : gaps (base + HDR) l1.
Hypothesis Hl1 : top (base + HDR) l1 <= bp.
Hypothesis Hn : 0 < n.
Hypothesis Hl2 : gaps (bp + HDR * n) l2.
Hypothesis Htop : top (bp + HDR * n) l2 <= u_brk s.
Hypothesis Hj : joined bp n l2 n' l2'.
Hypothesis Hs1 : same_but bp s s1.
Hypothesis Hp1 : h_ptr (u_hdr s1 bp) = first_of l2' base.
Hypothesis Hn1 : h_size (u_hdr s1 bp) = n'.
Hypothesis Hs2 : same_but p s1 s2.
Hypothesis Hp2 : u_hdr s2 p = (if p + HDR * np =? bp then mkHeader (first_of l2' base) (np + n') else mkHeader bp np).

Lemma p_lt : base <= p < bp /\ (p = base \/ exists k, l1 = k ++ [(p, np)]).
Proof using Hlinks Hgaps Hl1.
  unfold np, p. pose proof Hlinks as Hl. pose proof Hgaps as Hg. pose proof Hl1 as Ht. clear - Hl Hg Ht.
  destruct l1 as [|[c m] k _] using rev_ind; cbn [last_of top] in *; [unfold HDR in *; split; [lia | by left]|].
  rewrite last_of_snoc. rewrite top_app in Ht. rewrite gaps_app in Hg. cbn [top gaps] in *.
  destruct Hg as (Hk & Hc & Hm & _). apply gaps_top in Hk. unfold HDR in *. split; [lia|]. right. exists k.
  rewrite <- app_assoc in Hl. apply links_mid in Hl as (_ & -> & _). done.
Qed.
Lemma l2'_links x : x ∈ l2'.*1 -> u_hdr s2 x = u_hdr s x /\ bp < x.
Proof.
  intros Hx. destruct (joined_facts _ _ _ _ _ Hj Hn Hl2) as (_ & _ & _ & _ & Hsub & _).
  apply Hsub in Hx. apply (nodes_lt _ _ _ Hl2) in Hx. destruct p_lt as [Hp _]. unfold HDR in *.
  destruct Hs1 as [H1 _], Hs2 as [H2 _]. split; [|lia]. rewrite H2, H1 by lia. done.
Qed.
Lemma tail_links y : h_ptr (u_hdr s2 y) = first_of l2' base -> links (u_hdr s2) y l2' base.
Proof.
  intros Hy. assert (exists z, links (u_hdr s) z l2' base) as [z Hz].
  { destruct Hj as [[_ ->]|(m & -> & _)].
    - pose proof Hlinks as Hl. apply links_app in Hl as [_ Hl]. eauto.
    - pose proof Hlinks as Hl. apply links_mid in Hl as (_ & _ & Hl). eauto. }
  apply (links_start (u_hdr s) _ z); [done | done|]. intros x Hx. by apply l2'_links.
Qed.
Lemma inserted_apart a k : base < a -> 0 < k -> apart a k (l1 ++ l2) -> apart a k [(bp, n)] -> u_hdr s2 a = u_hdr s a.
Proof.
  intros Ha Hk H1 H2. pose proof (H2 bp n ltac:(by apply list_elem_of_singleton)) as Hbp.
  assert (a <> p).
  { destruct p_lt as [_ [->|[j E]]]; [lia|]. assert (0 < np) as Hnp.
    { pose proof Hgaps as Hg. rewrite E, gaps_app in Hg. cbn in Hg. tauto. }
    pose proof (H1 p np ltac:(rewrite E, !elem_of_app, list_elem_of_singleton; auto)) as Hap. unfold HDR in *. lia. }
  destruct Hs1 as [E1 _], Hs2 as [E2 _]. unfold HDR in *. by rewrite E2, E1 by lia.
Qed.
Lemma insert_apart : p + HDR * np <> bp -> inserted s s2 (l1 ++ l2) bp n p (l1 ++ (bp, n') :: l2').
Proof.
  intros Hne. pose proof Hp2 as Hq. rewrite (proj2 (Z.eqb_neq _ _) Hne) in Hq. destruct p_lt as [Hp Hk].
  destruct (joined_facts _ _ _ _ _ Hj Hn Hl2) as (Hnn & Hg' & Ht' & Htot & _ & Hap).
  assert (u_hdr s2 bp = u_hdr s1 bp) as Ebp by (destruct Hs2 as [E _]; apply E; lia).
  pose proof (joined_len _ _ _ _ _ Hj) as Hjl.
  constructor.
  - destruct Hk as [E|[k E]]; [by left|]. right. apply list_elem_of_fmap. exists (p, np). split; [done|].
    rewrite E, !elem_of_app, list_elem_of_singleton. auto.
  - rewrite !length_app. cbn [length]. lia.
  - apply links_mid. split_and!; [|by rewrite Ebp | apply tail_links; by rewrite Ebp].
    pose proof Hlinks as Hl. apply links_app in Hl as [Hl _]. apply (links_end (u_hdr s) _ _ _ (first_of l2 base)); [done | | | |].
    + fold p. by rewrite Hq.
    + fold p. by rewrite Hq.
    + fold p. intros x Hx Hxp. destruct Hs1 as [E1 _], Hs2 as [E2 _]. rewrite E2, E1; [done | | done].
      destruct Hx as [->|Hx]; [lia|]. apply (nodes_lt _ _ _ Hgaps) in Hx. lia.
    + intros k c m E. pose proof Hgaps as Hg. rewrite E in Hg. apply gaps_snoc in Hg as [? ?]. unfold HDR in *. split; [lia | done].
  - destruct (decide (p = base)) as [E|E]; [rewrite <- E, Hq; cbn; unfold np; by rewrite E|].
    destruct Hs1 as [E1 _], Hs2 as [E2 _]. rewrite E2, E1 by lia. done.
  - rewrite gaps_app. cbn [gaps]. split_and!; [done | done | lia | done].
  - rewrite top_app. cbn [top]. by rewrite Ht'.
  - rewrite !total_app. unfold total in *. cbn. lia.
  - intros a k Hk0 H1 H2 c m [Hin|Hin]%elem_of_app; [apply H1, elem_of_app; by left|].
    apply (Hap a k Hk0); [|done|done]. intros c' m' Hin'. apply H1, elem_of_app. by right.
  - exists bp, n'. rewrite elem_of_app, elem_of_cons. auto.
  - apply inserted_apart.
Qed.
Lemma insert_joined k : l1 = k ++ [(p, np)] -> p + HDR * np = bp ->
  inserted s s2 (l1 ++ l2) bp n p (k ++ (p, np + n') :: l2').
Proof.
  intros E Heq. pose proof Hp2 as Hq. rewrite (proj2 (Z.eqb_eq _ _) Heq) in Hq. destruct p_lt as [Hp _].
  destruct (joined_facts _ _ _ _ _ Hj Hn Hl2) as (Hnn & Hg' & Ht' & Htot & _ & Hap).
  pose proof Hgaps as Hg. rewrite E in Hg. pose proof (gaps_snoc _ _ _ _ Hg) as [Hpk Hbp]. rewrite gaps_app in Hg.
  cbn [gaps] in Hg. destruct Hg as (Hk & Hkp & Hnp & _).
  assert (p + HDR * (np + n') = bp + HDR * n') as Eend by (unfold HDR in *; lia).
  pose proof (joined_len _ _ _ _ _ Hj) as Hjl.
  constructor.
  - right. rewrite fmap_app, elem_of_app. right. apply elem_of_cons. by left.
  - rewrite E, !length_app. cbn [length]. lia.
  - apply links_mid. split_and!; [|by rewrite Hq | apply tail_links; by rewrite Hq].
    pose proof Hlinks as Hl. rewrite E, <- app_assoc in Hl. apply links_mid in Hl as (Hl & _ & _).
    apply (links_frame (u_hdr s)); [|done]. intros x Hx. destruct Hs1 as [E1 _], Hs2 as [E2 _]. unfold HDR in *.
    assert (x < p) by (destruct Hx as [->|Hx]; [lia|]; apply (nodes_lt _ _ _ Hk) in Hx; unfold HDR in *; lia).
    rewrite E2, E1 by lia. done.
  - destruct Hs1 as [E1 _], Hs2 as [E2 _]. unfold HDR in *. rewrite E2, E1 by lia. done.
  - rewrite gaps_app. cbn [gaps]. rewrite Eend. split_and!; [done | done | lia | done].
  - rewrite top_app. cbn [top]. by rewrite Eend, Ht'.
  - rewrite E, !total_app. unfold total in *. cbn. lia.
  - intros a j Hj0 H1 H2. assert (apart a j ((bp, n') :: l2')) as Hr.
    { apply (Hap a j Hj0); [|done]. intros c m Hin. apply H1, elem_of_app. by right. }
    intros c m [Hin|[[= -> ->]|Hin]%elem_of_cons]%elem_of_app.
    + apply H1. rewrite E, !elem_of_app. auto.
    + pose proof (Hr bp n' ltac:(apply elem_of_cons; by left)) as Hr1.
      pose proof (H1 p np ltac:(rewrite E, !elem_of_app, list_elem_of_singleton; auto)) as Hr2. unfold HDR in *. lia.
    + apply Hr, elem_of_cons. by right.
  - exists p, (np + n'). rewrite elem_of_app, elem_of_cons. split; [auto | lia].
  - apply inserted_apart.
Qed.
End insert.

Lemma inserted_inv s s' fl A bp n p fl' : inv s fl A -> A !! bp = Some n -> inserted s s' fl bp n p fl' ->
  u_brk s' = u_brk s -> inv (set_freep p s') fl' (delete bp A).
Proof.
  intros [] Hbp [] Hbrk. destruct (i_live0 bp n Hbp) as (Hsz & Hn & Hlo & Hhi & Hap).
  assert (forall a m, delete bp A !! a = Some m -> A !! a = Some m /\ a <> bp) as Hdel.
  { intros a m [Hne Ha]%lookup_delete_Some. auto. }
  constructor; cbn [u_hdr u_brk u_freep set_freep]; rewrite ?Hbrk; try done.
  - intros a m [Ha Hne]%Hdel. destruct (i_live0 a m Ha) as (Hs & Hm & Hl & Hh & Hp).
    assert (apart a m [(bp, n)]) as Hd.
    { intros c x [= -> ->]%list_elem_of_singleton. by apply (i_disj0 a m bp n). }
    split_and!; try done; [|by apply in_apart0]. rewrite (in_same0 a m); try done. unfold HDR in *. lia.
  - intros a m b k [Ha _]%Hdel [Hb _]%Hdel. by apply i_disj0.
Qed.

Lemma free_spec s fl A bp n fuel : inv s fl A -> A !! bp = Some n -> (length fl < fuel)%nat ->
  wp (free fuel (bp + HDR)) s (fun _ s' => exists fl', inv s' fl' (delete bp A) /\ total fl' = total fl + n /\
    u_brk s' = u_brk s /\ (length fl' <= S (length fl))%nat /\ exists c m, (c, m) ∈ fl' /\ n <= m).
Proof.
  intros Hi Hbp Hf. pose proof Hi as []. destruct (i_live0 bp n Hbp) as (Hsz & Hn & Hlo & Hhi & Hap).
  destruct (find_place (base + HDR) fl bp n) as (l1 & l2 & Efl & Ht1 & Hg2 & Hl1); [done | done | done | done|].
  pose proof i_gaps0 as Hg. rewrite Efl, gaps_app in Hg. destruct Hg as [Hg1 _].
  assert (top (bp + HDR * n) l2 <= u_brk s) as Ht2.
  { rewrite Efl, top_app in i_top0. destruct l2 as [|x l2]; [done|].
    by rewrite (top_lo _ (top (base + HDR) l1)). }
  unfold free. wp_steps. replace (bp + HDR - HDR) with bp by lia.
  eapply wp_mono; [apply (free_loop_spec s fl l1 l2 bp n); try done; unfold HDR in *; lia|].
  intros p s0 [-> ->]. unfold ptr at 1, size at 1. wp_steps. rewrite Hsz.
  assert (h_ptr (u_hdr s (last_of base l1)) = first_of l2 base) as ->.
  { rewrite Efl, links_app in i_links0. destruct i_links0 as [_ Hl]. destruct l2 as [|[c m] l2]; [done | apply Hl]. }
  eapply wp_mono; [apply (free_first s bp n l2); try done; [unfold HDR in *; lia | lia | lia|]|].
  { intros b m r ->. rewrite Efl, links_mid in i_links0. destruct i_links0 as (_ & ? & Hl). split; [done|].
    destruct r as [|[c k] r]; [done | apply Hl]. }
  intros _ s1 (n' & l2' & Hs1 & Hj & Hp1 & Hn1). specialize (Hn1 Hsz).
  destruct (joined_facts _ _ _ _ _ Hj Hn Hg2) as (Hnn & Hg' & Ht' & _). pose proof (gaps_top _ _ Hg').
  rewrite Efl in i_links0.
  destruct (p_lt s l1 l2 bp) as [Hp Hpk]; try done.
  assert (u_hdr s1 (last_of base l1) = u_hdr s (last_of base l1)) as Ep by (destruct Hs1 as [E _]; apply E; lia).
  assert (0 <= h_size (u_hdr s (last_of base l1)) /\ last_of base l1 + HDR * h_size (u_hdr s (last_of base l1)) <= bp) as [Hnp0 Hnp].
  { destruct Hpk as [->|[k E]]; [rewrite i_size0; unfold HDR; lia|].
    assert ((last_of base l1, h_size (u_hdr s (last_of base l1))) ∈ l1) as Hin
      by (rewrite E at 3; rewrite elem_of_app, list_elem_of_singleton; auto).
    destruct (gaps_elem _ _ _ _ Hg1 Hin) as (_ & ? & ?). lia. }
  unfold size at 1. wp_steps.
  eapply wp_mono; [apply (free_second s1 (last_of base l1) bp n'); rewrite ?Ep; try done; unfold LIM, HDR in *; lia|].
  intros _ s2 [Hs2 Hp2]. rewrite Ep, Hp1 in Hp2.
  assert (u_brk s2 = u_brk s) as Hbrk by (destruct Hs1 as (_ & _ & ?), Hs2 as (_ & _ & ?); congruence).
  assert (exists fl', inserted s s2 fl bp n (last_of base l1) fl') as [fl' Hin].
  { rewrite Efl. destruct (Z.eqb_spec (last_of base l1 + HDR * h_size (u_hdr s (last_of base l1))) bp) as [E|E].
    - destruct Hpk as [Eb|[k Ek]]; [rewrite Eb, i_size0 in E; unfold HDR in *; lia|].
      eexists. apply (insert_joined s s1 s2 l1 l2 l2' bp n n'); try done. by rewrite (proj2 (Z.eqb_eq _ _) E).
    - eexists. apply (insert_apart s s1 s2 l1 l2 l2' bp n n'); try done. by rewrite (proj2 (Z.eqb_neq _ _) E). }
  wp_step. exists fl'. split_and!; [by apply (inserted_inv s s2 fl A bp n) | apply Hin | done | apply Hin | apply Hin].
Qed.

(** ** More memory *)

(** The kernel keeps a process below KERNBASE. *)
Hypothesis Hgrow : forall b n, grow b n = true -> b + n <= LIM.

Lemma inv_above s fl A a n : inv s fl A -> A !! a = Some n -> a < u_brk s.
Proof. intros Hi Ha. destruct (i_live _ _ _ Hi a n Ha) as (_ & ? & _ & ? & _). unfold HDR in *. lia. Qed.
Lemma inv_grown s fl A n s' : inv s fl A -> 0 < n -> u_brk s + HDR * n <= LIM ->
  u_brk s' = u_brk s + HDR * n -> u_freep s' = u_freep s ->
  (forall x, x <> u_brk s -> u_hdr s' x = u_hdr s x) -> h_size (u_hdr s' (u_brk s)) = n ->
  inv s' fl (<[u_brk s := n]> A).
Proof.
  intros Hi Hn Hlim Hbrk Hfp Hsame Hsz. pose proof (inv_above s fl A) as Habove. pose proof Hi as [].
  assert (forall x, x ∈ fl.*1 -> x < u_brk s) as Hnode.
  { intros x Hx. apply (nodes_lt _ _ _ i_gaps0) in Hx. lia. }
  constructor; rewrite ?Hbrk, ?Hfp; try done; unfold HDR in *; try lia.
  - apply (links_frame (u_hdr s)); [|done]. intros x Hx. apply Hsame.
    destruct Hx as [->|Hx]; [lia | by apply Hnode in Hx; lia].
  - by rewrite Hsame by lia.
  - intros a m [[<- <-]|[Hne Ha]]%lookup_insert_Some.
    + split_and!; try done; try lia. intros c k Hin. right. destruct (gaps_elem _ _ _ _ i_gaps0 Hin) as (_ & _ & ?). unfold HDR in *. lia.
    + destruct (i_live0 a m Ha) as (? & ? & ? & ? & ?). rewrite Hsame by done. split_and!; try done. lia.
  - intros a m b k [[<- <-]|[Hne Ha]]%lookup_insert_Some [[<- <-]|[Hne' Hb]]%lookup_insert_Some Hab; try done.
    + destruct (i_live0 b k Hb) as (_ & ? & _ & ? & _). lia.
    + destruct (i_live0 a m Ha) as (_ & ? & _ & ? & _). lia.
    + by apply i_disj0.
Qed.

Definition granted (nu : Z) : Z := if nu <? 4096 then 4096 else nu.
Lemma morecore_spec s fl A nu fuel : inv s fl A -> 0 < nu -> HDR * nu < LIM -> (length fl < fuel)%nat ->
  wp (morecore grow fuel nu) s (fun r s' =>
    r = 0 /\ s' = s /\ grow (u_brk s) (HDR * granted nu) = false \/
    r <> 0 /\ r = u_freep s' /\ exists fl', inv s' fl' A /\ total fl' = total fl + granted nu /\
      u_brk s' = u_brk s + HDR * granted nu /\ (length fl' <= S (length fl))%nat /\
      exists c m, (c, m) ∈ fl' /\ nu <= m).
Proof.
  intros Hi Hnu Hlim Hf. pose proof Hi as []. unfold morecore. fold (granted nu). set (N := granted nu).
  assert (0 < N /\ nu <= N /\ HDR * N < LIM) as (HN & HnN & HNl).
  { unfold N, granted, LIM, HDR in *. destruct (Z.ltb_spec nu 4096); lia. }
  assert (s32 (u32 (N * HDR)) = HDR * N) as ->.
  { unfold LIM, HDR in *. rewrite u32_small, s32_small by lia. lia. }
  unfold sbrk. wp_steps. destruct (grow (u_brk s) (HDR * N)) eqn:Eg; wp_steps.
  2: { by left. }
  unfold HDR, LIM in i_brk0. rewrite (proj2 (Z.eqb_neq (u_brk s) (-1))) by lia. wp_steps.
  set (s1 := set_size (u_brk s) N _).
  assert (inv s1 fl (<[u_brk s := N]> A)) as Hi1.
  { destruct (set_hdr_same (u_brk s) (mkHeader (h_ptr (u_hdr s (u_brk s))) (u32 N))
      (mkUmem (u_hdr s) (u_freep s) (u_brk s + HDR * N))) as [(E1 & _ & _) E2].
    apply (inv_grown s fl A N s1); [done | done | by apply Hgrow | done | done | exact E1|].
    unfold s1, set_size. cbn [u_hdr]. rewrite E2. cbn. apply u32_small. unfold LIM, HDR in *. lia. }
  eapply wp_mono; [apply (free_spec s1 fl _ (u_brk s) N fuel Hi1); [apply lookup_insert_eq | done]|].
  intros _ s2 (fl' & Hi2 & Htot & Hbrk & Hlen & c & m & Hin & Hm). cbv beta. wp_step. right.
  rewrite delete_insert_id in Hi2 by (destruct (A !! u_brk s) as [k|] eqn:E; [apply (inv_above s fl A) in E; [lia | done] | done]).
  split; [|split; [done|]].
  - pose proof (i_freep _ _ _ Hi2) as Hfp. pose proof (i_gaps _ _ _ Hi2) as Hg.
    destruct Hfp as [->|Hfp]; [lia|]. apply (nodes_lt _ _ _ Hg) in Hfp. unfold HDR in *. lia.
  - exists fl'. split_and!; try done. exists c, m. split; [done | lia].
Qed.

(** ** Taking a block *)

(** The code of [malloc] for a block [p] of [n] units that is large enough. *)
Definition take_block (nunits prevp p n : Z) : ST umem Z :=
  if n =? nunits then
    q <- ptr p ;;
    modify (set_ptr prevp q) ;;;
    modify (set_freep prevp) ;;;
    ret (p + HDR)
  else
    modify (set_size p (n - nunits)) ;;;
    n <- size p ;;
    let p := hplus p n in
    modify (set_size p nunits) ;;;
    modify (set_freep prevp) ;;;
    ret (p + HDR).
(** What [malloc] gives the client. *)
Definition given (s s' : umem) (fl : list (Z * Z)) (A : gmap Z Z) (nunits r : Z) : Prop :=
  exists a fl', r = a + HDR /\ A !! a = None /\ inv s' fl' (<[a := nunits]> A) /\
    total fl' + nunits = total fl /\ u_brk s' = u_brk s.

Lemma node_cases l : last_of base l = base \/ last_of base l ∈ l.*1.
Proof.
  destruct l as [|[c m] k _] using rev_ind; [by left|]. right. rewrite last_of_snoc, fmap_app, elem_of_app. right.
  by apply list_elem_of_singleton.
Qed.
(** The rest of the invariant after a block has left the list. *)
Lemma inv_taken s s' fl A fl' a n p m : inv s fl A -> (p, m) ∈ fl -> p <= a -> a + HDR * n = p + HDR * m -> 0 < n ->
  (forall c k, (c, k) ∈ fl' -> (c, k) ∈ fl /\ (c < p \/ p < c) \/ c = p /\ 0 < k /\ c + HDR * k = a) ->
  links (u_hdr s') base fl' base -> h_size (u_hdr s' base) = 0 -> gaps (base + HDR) fl' ->
  top (base + HDR) fl' <= u_brk s -> u_brk s' = u_brk s -> (u_freep s' = base \/ u_freep s' ∈ fl'.*1) ->
  h_size (u_hdr s' a) = n ->
  (forall x k, A !! x = Some k -> u_hdr s' x = u_hdr s x \/ h_size (u_hdr s' x) = h_size (u_hdr s x)) ->
  A !! a = None /\ inv s' fl' (<[a := n]> A).
Proof.
  intros Hi Hp Hpa Hend Hn Hsub Hl Hs Hg Ht Hbrk Hfp Hsz Hlive. pose proof Hi as [].
  destruct (gaps_elem _ _ _ _ i_gaps0 Hp) as (Hlo & Hm & Hhi). unfold HDR in *.
  assert (forall x k, A !! x = Some k -> x + 8 * k <= p \/ p + 8 * m <= x) as Hap.
  { intros x k Hx. destruct (i_live0 x k Hx) as (_ & _ & _ & _ & Hap). apply (Hap p m Hp). }
  split.
  { destruct (A !! a) as [k|] eqn:E; [|done]. destruct (i_live0 a k E) as (_ & ? & _). specialize (Hap a k E). lia. }
  constructor; rewrite ?Hbrk; try done; unfold HDR in *.
  - intros x k [[<- <-]|[Hne Hx]]%lookup_insert_Some.
    + split_and!; try done; try lia. intros c j [[Hin Hcp]|(-> & ? & ?)]%Hsub; [|unfold HDR; lia].
      apply list_elem_of_split in Hin as (j1 & j2 & E).
      pose proof (gaps_elem _ _ c j i_gaps0) as Hc. rewrite E in *.
      apply elem_of_app in Hp as [Hp|[[= -> ->]|Hp]%elem_of_cons]; [| lia |].
      * rewrite gaps_app in i_gaps0. cbn [gaps] in i_gaps0. destruct i_gaps0 as (Hg1 & Hg2 & Hg3 & _).
        destruct (gaps_elem _ _ _ _ Hg1 Hp) as (_ & _ & ?). unfold HDR in *. lia.
      * rewrite gaps_app in i_gaps0. cbn [gaps] in i_gaps0. destruct i_gaps0 as (_ & _ & _ & Hg3).
        destruct (gaps_elem _ _ _ _ Hg3 Hp) as (? & _ & _). unfold HDR in *. lia.
    + destruct (i_live0 x k Hx) as (Hsx & ? & ? & ? & Hx'). split_and!; try done.
      * destruct (Hlive x k Hx) as [->| ->]; done.
      * intros c j [[Hin _]|(-> & ? & ?)]%Hsub; [by apply Hx'|]. specialize (Hap x k Hx). unfold HDR. lia.
  - intros x k y j [[<- <-]|[Hne Hx]]%lookup_insert_Some [[<- <-]|[Hne' Hy]]%lookup_insert_Some Hxy; try done.
    + specialize (Hap y j Hy). lia.
    + specialize (Hap x k Hx). lia.
    + by apply i_disj0.
Qed.

Lemma mid_order l1 p n l2 c k : gaps (base + HDR) (l1 ++ (p, n) :: l2) ->
  ((c, k) ∈ l1 -> c + HDR * k <= p /\ 0 < k /\ base < c) /\ ((c, k) ∈ l2 -> p + HDR * n <= c) /\ base < p.
Proof.
  rewrite gaps_app. cbn [gaps]. intros (Hg1 & Hg2 & Hg3 & Hg4). pose proof (gaps_top _ _ Hg1). unfold HDR in *. split_and!.
  - intros Hin. destruct (gaps_elem _ _ _ _ Hg1 Hin) as (? & ? & ?). unfold HDR in *. lia.
  - intros Hin. destruct (gaps_elem _ _ _ _ Hg4 Hin) as (? & ? & ?). unfold HDR in *. lia.
  - lia.
Qed.
Lemma mid_nodes l1 p n l2 x : gaps (base + HDR) (l1 ++ (p, n) :: l2) -> 0 < n ->
  (x = base \/ x ∈ l1.*1 -> x < p) /\ (x ∈ l2.*1 -> p < x).
Proof.
  intros Hg Hn. split.
  - intros [->|([c k] & -> & Hin)%list_elem_of_fmap]; [by apply (mid_order l1 p n l2 0 0)|].
    apply (mid_order _ _ _ _ c k) in Hg as (Hg & _). specialize (Hg Hin). cbn. unfold HDR in *. lia.
  - intros ([c k] & -> & Hin)%list_elem_of_fmap.
    apply (mid_order _ _ _ _ c k) in Hg as (_ & Hg & _). specialize (Hg Hin). cbn. unfold HDR in *. lia.
Qed.

Lemma take_exact s fl A l1 p n l2 : inv s fl A -> fl = l1 ++ (p, n) :: l2 -> 0 < n ->
  A !! p = None /\ inv (set_freep (last_of base l1) (set_ptr (last_of base l1) (h_ptr (u_hdr s p)) s)) (l1 ++ l2) (<[p := n]> A).
Proof.
  intros Hi E Hn. pose proof Hi as []. rewrite E in i_gaps0, i_links0, i_top0.
  pose proof (fun x => mid_nodes l1 p n l2 x i_gaps0 Hn) as Hx. apply links_mid in i_links0 as (Hl1 & Hsz & Hl2).
  destruct (Hx (last_of base l1)) as [Hq _]. pose proof (Hq ltac:(destruct (node_cases l1); auto)) as Hqp.
  destruct (set_hdr_same (last_of base l1) (mkHeader (h_ptr (u_hdr s p)) (h_size (u_hdr s (last_of base l1)))) s)
    as [(Hsame & _ & _) Hq']. fold (set_ptr (last_of base l1) (h_ptr (u_hdr s p)) s) in *.
  set (s' := set_ptr (last_of base l1) (h_ptr (u_hdr s p)) s) in *.
  assert (h_ptr (u_hdr s p) = first_of l2 base) as Hnext by (destruct l2 as [|[c m] l2]; [done | apply Hl2]).
  pose proof i_gaps0 as Hg. rewrite gaps_app in Hg. cbn [gaps] in Hg. destruct Hg as (Hg1 & Hlo & _ & Hg2).
  apply (inv_taken s _ fl A (l1 ++ l2) p n p n); try done; cbn [u_hdr u_freep u_brk set_freep].
  - rewrite E, elem_of_app, elem_of_cons. auto.
  - intros c k Hin. left. rewrite E, elem_of_app, elem_of_cons. apply elem_of_app in Hin as [Hin|Hin].
    + split; [auto|]. left. apply (Hx c). right. apply list_elem_of_fmap. by exists (c, k).
    + split; [auto|]. right. apply (Hx c). apply list_elem_of_fmap. by exists (c, k).
  - apply links_app. split.
    + apply (links_end (u_hdr s) _ _ _ p); [done | by rewrite Hq' | by rewrite Hq' | |].
      * intros x _ Hne. by apply Hsame.
      * intros k c m ->. apply gaps_snoc in Hg1 as [? ?]. unfold HDR in *. split; [lia | done].
    + apply (links_start (u_hdr s) _ p); [done | by rewrite Hq'|]. intros x Hin. apply Hsame. apply Hx in Hin. lia.
  - destruct (decide (base = last_of base l1)) as [Eb|]; [|by rewrite Hsame]. rewrite Eb, Hq'. cbn. by rewrite <- Eb.
  - apply gaps_app. split; [done|]. apply (gaps_mono (p + HDR * n)); [unfold HDR in *; lia | done].
  - rewrite top_app in *. cbn [top] in i_top0. etrans; [apply (top_ge _ (p + HDR * n)); [done | unfold HDR in *; lia] | done].
  - destruct (node_cases l1); [by left | right]. rewrite fmap_app, elem_of_app. auto.
  - rewrite Hsame by lia. done.
  - intros x k _. right. destruct (decide (x = last_of base l1)) as [->|]; [by rewrite Hq' | by rewrite Hsame].
Qed.

Lemma take_split s fl A l1 p n m l2 : inv s fl A -> fl = l1 ++ (p, m) :: l2 -> 0 < n < m ->
  let a := p + HDR * (m - n) in
  A !! a = None /\ inv (set_freep (last_of base l1) (set_size a n (set_size p (m - n) s)))
    (l1 ++ (p, m - n) :: l2) (<[a := n]> A).
Proof.
  intros Hi E Hn a. pose proof Hi as []. rewrite E in i_gaps0, i_links0, i_top0.
  pose proof (fun x => mid_nodes l1 p m l2 x i_gaps0 ltac:(lia)) as Hx. apply links_mid in i_links0 as (Hl1 & Hsz & Hl2).
  pose proof i_gaps0 as Hg. rewrite gaps_app in Hg. cbn [gaps] in Hg. destruct Hg as (Hg1 & Hlo & _ & Hg2).
  pose proof (gaps_top _ _ Hg1). pose proof (gaps_top _ _ Hg2). rewrite top_app in i_top0. cbn [top] in i_top0.
  assert (p < a) as Hpa by (unfold a, HDR; lia). assert (a < p + HDR * m) as Ham by (unfold a, HDR; lia).
  set (s' := set_size a n (set_size p (m - n) s)).
  assert (forall x, x <> a -> x <> p -> u_hdr s' x = u_hdr s x) as Hsame.
  { intros x H1 H2. unfold s', set_size, set_hdr. cbn. by rewrite (proj2 (Z.eqb_neq x a) H1), (proj2 (Z.eqb_neq x p) H2). }
  assert (u_hdr s' p = mkHeader (h_ptr (u_hdr s p)) (m - n)) as Hp'.
  { unfold s', set_size, set_hdr. cbn. rewrite (proj2 (Z.eqb_neq p a)), Z.eqb_refl by lia. f_equal. apply u32_small. unfold HDR, LIM in *. lia. }
  assert (h_size (u_hdr s' a) = n) as Ha'.
  { unfold s', set_size, set_hdr. cbn. rewrite Z.eqb_refl. cbn. apply u32_small. unfold HDR, LIM in *. lia. }
  assert (forall x, x ∈ l2.*1 -> x <> a /\ x <> p) as Hx2.
  { intros x Hin. apply (nodes_lt _ _ _ Hg2) in Hin. unfold HDR in *. lia. }
  assert (p + HDR * (m - n) = a) as Ea by done.
  apply (inv_taken s _ fl A (l1 ++ (p, m - n) :: l2) a n p m); try done; cbn [u_hdr u_freep u_brk set_freep]; try (unfold a, HDR in *; lia).
  - rewrite E, elem_of_app, elem_of_cons. auto.
  - intros c k Hin. rewrite E, elem_of_app, elem_of_cons. apply elem_of_app in Hin as [Hin|[[= -> ->]|Hin]%elem_of_cons].
    + left. split; [auto|]. left. apply (Hx c). right. apply list_elem_of_fmap. by exists (c, k).
    + right. split_and!; [done | lia | done].
    + left. split; [auto|]. right. apply (Hx c). apply list_elem_of_fmap. by exists (c, k).
  - apply links_mid. split_and!; [|by rewrite Hp' |].
    + apply (links_frame (u_hdr s)); [|done]. intros x Hin. apply (Hx x) in Hin. apply Hsame; lia.
    + apply (links_start (u_hdr s) _ p); [done | |].
      * rewrite Hp'. cbn. destruct l2 as [|[c j] l2]; [done | apply Hl2].
      * intros x Hin. by apply Hsame; apply Hx2.
  - destruct (Hx base) as [Hb _]. specialize (Hb ltac:(by left)). by rewrite Hsame by lia.
  - apply gaps_app. split; [done|]. cbn [gaps]. split_and!; [done | lia|].
    apply (gaps_mono (p + HDR * m)); [unfold HDR in *; lia | done].
  - rewrite top_app. cbn [top]. etrans; [apply (top_ge _ (p + HDR * m)); [done | unfold HDR in *; lia] | done].
  - destruct (node_cases l1); [by left | right]. rewrite fmap_app, elem_of_app. auto.
  - intros x k Hxk. left. destruct (i_live0 x k Hxk) as (_ & ? & _ & _ & Hap).
    pose proof (Hap p m ltac:(rewrite E, elem_of_app, elem_of_cons; auto)). unfold HDR in *. apply Hsame; unfold HDR in *; lia.
Qed.
Lemma take_spec s fl A nunits l1 p n l2 : inv s fl A -> fl = l1 ++ (p, n) :: l2 -> 0 < nunits <= n ->
  wp (take_block nunits (last_of base l1) p n) s (fun r s' => given s s' fl A nunits r).
Proof.
  intros Hi E Hn. unfold take_block. destruct (Z.eqb_spec n nunits) as [->|Hne].
  - unfold ptr. wp_steps. destruct (take_exact s fl A l1 p nunits l2 Hi E) as [Hnone Hinv]; [lia|].
    exists p, (l1 ++ l2). split_and!; try done. rewrite E, !total_app. unfold total. cbn. lia.
  - unfold size. wp_steps. destruct (take_split s fl A l1 p nunits n l2 Hi E) as [Hnone Hinv]; [lia|].
    pose proof (i_top _ _ _ Hi) as Htop. pose proof (i_gaps _ _ _ Hi) as Hg.
    destruct (gaps_elem _ _ p n Hg ltac:(rewrite E, elem_of_app, elem_of_cons; auto)) as (Hlo & _ & Hhi).
    pose proof (i_brk _ _ _ Hi) as Hbrk. pose proof (i_base _ _ _ Hi).
    assert (h_size (u_hdr (set_size p (n - nunits) s) p) = n - nunits) as Es.
    { unfold set_size, set_hdr. cbn. rewrite Z.eqb_refl. cbn. apply u32_small. unfold HDR, LIM in *. lia. }
    rewrite Es, hplus_small by (unfold HDR, LIM in *; lia). 
    eexists _, _. split_and!; [done | done | exact Hinv | | done]. rewrite E, !total_app. unfold total. cbn. lia.
Qed.

Lemma last_pos l : gaps (base + HDR) l -> l <> [] -> base < last_of base l.
Proof.
  intros Hg. destruct l as [|[c m] k _] using rev_ind; [done|]. intros _. rewrite last_of_snoc.
  apply gaps_snoc in Hg as [_ ?]. unfold HDR in *. lia.
Qed.

(** ** The search of [malloc] *)

Definition refill (fuel : nat) (nunits : Z) : ST umem Z :=
  r <- (r <- morecore grow (S fuel) nunits ;; ret (if r =? 0 then None else Some r)) ;;
  match r with
  | None => ret 0
  | Some p => q <- ptr p ;; malloc_loop grow fuel nunits p q
  end.

Section scan.
Context (s : umem) (fl f1 f2 : list (Z * Z)) (A : gmap Z Z) (nunits : Z) (F : nat) (Q : Z -> umem -> Prop).
Hypothesis Hi : inv s fl A.
Hypothesis Hfl : fl = f1 ++ f2.
Hypothesis Hfreep : u_freep s = last_of base f1.
Hypothesis Hnu : 0 < nunits.
Hypothesis Htake : forall r s', given s s' fl A nunits r -> Q r s'.
Hypothesis Hrefill : (forall c m, (c, m) ∈ fl -> m < nunits) -> forall fuel, (F <= fuel)%nat -> wp (refill fuel nunits) s Q.

(** A node that is too small. *)
Lemma scan_next fuel prevp p q : h_size (u_hdr s p) < nunits -> p <> u_freep s -> h_ptr (u_hdr s p) = q ->
  wp (malloc_loop grow fuel nunits p q) s Q -> wp (malloc_loop grow (S fuel) nunits prevp p) s Q.
Proof using.
  intros Hs Hp <- Hw. cbn [malloc_loop]. unfold size at 1. wp_steps. rewrite (proj2 (Z.leb_gt _ _) Hs). wp_steps.
  rewrite (proj2 (Z.eqb_neq _ _) Hp). unfold ptr. wp_steps. exact Hw.
Qed.
Lemma scan_refill fuel prevp p : h_size (u_hdr s p) < nunits -> p = u_freep s ->
  wp (refill fuel nunits) s Q -> wp (malloc_loop grow (S fuel) nunits prevp p) s Q.
Proof using.
  intros Hs Hp Hw. cbn [malloc_loop]. unfold size at 1. wp_steps. rewrite (proj2 (Z.leb_gt _ _) Hs). wp_step. wp_step.
  rewrite (proj2 (Z.eqb_eq _ _) Hp). exact Hw.
Qed.
Lemma scan_fit fuel l1 c m l2 : fl = l1 ++ (c, m) :: l2 -> nunits <= m ->
  wp (malloc_loop grow fuel nunits (last_of base l1) c) s Q.
Proof using Hi Hnu Htake.
  intros E Hm. pose proof (i_links _ _ _ Hi) as Hl. rewrite E in Hl. apply links_mid in Hl as (_ & Hs & _).
  assert (wp (take_block nunits (last_of base l1) c m) s Q) as Ht
    by (eapply wp_mono; [apply (take_spec s fl A nunits l1 c m l2); [done | done | lia] | exact Htake]).
  destruct fuel; cbn [malloc_loop]; unfold size at 1; wp_steps; rewrite Hs, (proj2 (Z.leb_le _ _) Hm); exact Ht.
Qed.
Lemma node_next k1 k2 : fl = k1 ++ k2 -> h_ptr (u_hdr s (last_of base k1)) = first_of k2 base.
Proof using Hi. apply next_node, Hi. Qed.
Lemma mid_size l1 c m l2 : fl = l1 ++ (c, m) :: l2 -> h_size (u_hdr s c) = m.
Proof using Hi. intros E. pose proof (i_links _ _ _ Hi) as Hl. rewrite E in Hl. by apply links_mid in Hl as (_ & ? & _). Qed.
Lemma node_inj l1 c m l2 k1 k2 : fl = l1 ++ (c, m) :: l2 -> fl = k1 ++ k2 -> c = last_of base k1 ->
  exists k, k1 = k ++ [(c, m)] /\ k = l1.
Proof using Hi.
  intros E1 E2 Hc. pose proof (i_gaps _ _ _ Hi) as Hg. pose proof Hg as Hg1. rewrite E1 in Hg1.
  destruct k1 as [|[c' m'] k _] using rev_ind.
  { cbn in Hc. pose proof (mid_order _ _ _ _ 0 0 Hg1) as (_ & _ & ?). lia. }
  rewrite last_of_snoc in Hc. subst c'. exists k. rewrite <- app_assoc in E2. cbn [app] in E2.
  rewrite E1 in E2. by destruct (split_unique _ _ _ _ _ _ _ _ Hg1 E2) as [-> ->].
Qed.

(** From the start of the list to [freep]. *)
Lemma scan_wrapped mid : forall k1 fuel, f1 = k1 ++ mid -> mid <> [] ->
  (forall c m, (c, m) ∈ k1 ++ f2 -> m < nunits) -> (F + length mid <= fuel)%nat ->
  wp (malloc_loop grow fuel nunits (last_of base k1) (first_of (mid ++ f2) base)) s Q.
Proof.
  induction mid as [|[c m] mid IH]; intros k1 fuel E Hne Hno Hf; [done|]. cbn [first_of app].
  assert (fl = k1 ++ (c, m) :: mid ++ f2) as E' by (rewrite Hfl, E, <- app_assoc; done).
  destruct (decide (nunits <= m)) as [Hm|Hm]; [by apply (scan_fit fuel k1 c m (mid ++ f2))|].
  destruct fuel as [|fuel]; [cbn in Hf; lia|]. pose proof (mid_size _ _ _ _ E') as Hs. cbn [length] in Hf.
  destruct mid as [|x mid].
  - apply scan_refill; [lia | by rewrite Hfreep, E, last_of_snoc|]. apply Hrefill; [|lia].
    intros c' m' Hin. rewrite E' in Hin. cbn [app] in Hin. rewrite elem_of_app, elem_of_cons in Hin.
    destruct Hin as [Hin|[[= -> ->]|Hin]]; [| lia |]; apply (Hno c' m'); rewrite elem_of_app; auto.
  - apply (scan_next fuel _ c (first_of ((x :: mid) ++ f2) base)); [lia | | |].
    + rewrite Hfreep. intros Ec. destruct (node_inj k1 c m _ f1 f2 E' Hfl Ec) as (k & Ek & ->).
      rewrite E in Ek. by apply (app_inj_1 k1 k1) in Ek as [_ ?].
    + pose proof (node_next (k1 ++ [(c, m)]) ((x :: mid) ++ f2)) as Hn. rewrite last_of_snoc in Hn. apply Hn.
      by rewrite E', <- app_assoc.
    + rewrite <- (last_of_snoc base k1 c m). apply IH; [by rewrite E, <- app_assoc | done | | cbn in *; lia].
      intros c' m' Hin. rewrite <- app_assoc in Hin. cbn [app] in Hin. rewrite elem_of_app, elem_of_cons in Hin.
      destruct Hin as [Hin|[[= -> ->]|Hin]]; [| lia |]; apply (Hno c' m'); rewrite elem_of_app; auto.
Qed.

(** From [freep] on. *)
Lemma scan_ahead k2 : forall mid fuel, f2 = mid ++ k2 -> (forall c m, (c, m) ∈ mid -> m < nunits) ->
  (F + length k2 + 1 + length f1 <= fuel)%nat ->
  wp (malloc_loop grow fuel nunits (last_of base (f1 ++ mid)) (first_of k2 base)) s Q.
Proof.
  induction k2 as [|[c m] k2 IH]; intros mid fuel E Hno Hf; cbn [first_of length] in *.
  - destruct fuel as [|fuel]; [lia|]. rewrite app_nil_r in E. subst mid. pose proof (i_size _ _ _ Hi) as Hb.
    destruct (decide (f1 = [])) as [E1|E1].
    + apply scan_refill; [lia | by rewrite Hfreep, E1|]. apply Hrefill; [|lia].
      intros c m Hin. rewrite Hfl, E1 in Hin. by apply (Hno c m).
    + apply (scan_next fuel _ base (first_of fl base)); [lia | | by apply (node_next [] fl)|].
      * rewrite Hfreep. pose proof (i_gaps _ _ _ Hi) as Hg. rewrite Hfl, gaps_app in Hg.
        pose proof (last_pos f1 (proj1 Hg) E1). lia.
      * rewrite Hfl. apply (scan_wrapped f1 []); [done | done | done | lia].
  - assert (fl = (f1 ++ mid) ++ (c, m) :: k2) as E' by (rewrite Hfl, E, <- app_assoc; done).
    destruct (decide (nunits <= m)) as [Hm|Hm]; [by apply (scan_fit fuel (f1 ++ mid) c m k2)|].
    destruct fuel as [|fuel]; [lia|]. pose proof (mid_size _ _ _ _ E') as Hs.
    apply (scan_next fuel _ c (first_of k2 base)); [lia | | |].
    + rewrite Hfreep. intros Ec. destruct (node_inj (f1 ++ mid) c m k2 f1 f2 E' Hfl Ec) as (k & Ek & Ek').
      rewrite Ek' in Ek. apply (f_equal length) in Ek. rewrite !length_app in Ek. cbn in Ek. lia.
    + pose proof (node_next ((f1 ++ mid) ++ [(c, m)]) k2) as Hn. rewrite last_of_snoc in Hn. apply Hn. by rewrite E', <- (app_assoc (f1 ++ mid)).
    + rewrite <- (last_of_snoc base (f1 ++ mid) c m), <- (app_assoc f1). apply IH; [by rewrite E, <- app_assoc | | lia].
      intros c' m' [Hin|[= -> ->]%list_elem_of_singleton]%elem_of_app; [by apply (Hno c' m') | lia].
Qed.
End scan.

Definition request (nbytes : Z) : Prop := 0 <= nbytes <= LIM - 2 * HDR.
Lemma units_spec nbytes : request nbytes ->
  0 < units nbytes /\ HDR * units nbytes < LIM /\ nbytes <= HDR * (units nbytes - 1).
Proof.
  unfold request, units, LIM, HDR. intros Hn. rewrite (u32_small (nbytes + 8 - 1)), u32_small by zlia. zlia.
Qed.

(** What a call of [malloc] does; the memory that it asks the kernel for is all
    on the free list. *)
Definition malloc_post (s s' : umem) (fl : list (Z * Z)) (A : gmap Z Z) (nunits r : Z) : Prop :=
  r = 0 /\ s' = s \/
  exists a fl', r = a + HDR /\ A !! a = None /\ inv s' fl' (<[a := nunits]> A) /\
    HDR * (total fl' + nunits) - u_brk s' = HDR * total fl - u_brk s.
Lemma node_split fl x : x = base \/ x ∈ fl.*1 -> exists f1 f2, fl = f1 ++ f2 /\ x = last_of base f1.
Proof.
  intros [->|([y m] & -> & Hin)%list_elem_of_fmap]; [by exists [], fl|].
  apply list_elem_of_split in Hin as (k1 & k2 & ->). exists (k1 ++ [(y, m)]), k2. by rewrite <- app_assoc, last_of_snoc.
Qed.
Lemma malloc_loop_spec s fl A nunits fuel : inv s fl A -> 0 < nunits -> HDR * nunits < LIM ->
  (2 * length fl + 3 <= fuel)%nat ->
  wp (malloc_loop grow fuel nunits (u_freep s) (h_ptr (u_hdr s (u_freep s)))) s
    (fun r s' => malloc_post s s' fl A nunits r).
Proof.
  intros Hi Hnu Hlim Hf. destruct (node_split fl (u_freep s) (i_freep _ _ _ Hi)) as (f1 & f2 & E & Efp).
  rewrite Efp, (node_next s fl A Hi f1 f2 E). rewrite <- (app_nil_r f1) at 1.
  assert (length fl = length f1 + length f2)%nat as El by (by rewrite E, length_app).
  apply (scan_ahead s fl f1 f2 A nunits (length fl + 2)); try done; [| | by intros c m ?%elem_of_nil | lia].
  - intros r s' (a & fl' & -> & Ha & Hi' & Ht & Hb). right. exists a, fl'. split_and!; try done. lia.
  - intros _ fuel' Hf'. unfold refill. do 2 wp_step.
    eapply wp_mono; [apply (morecore_spec s fl A nunits (S fuel') Hi); [done | done | lia]|].
    intros r s1 [(-> & -> & _)|(Hr & -> & fl1 & Hi1 & Ht1 & Hb1 & Hl1 & c & m & Hin & Hm)]; cbv beta; wp_step.
    { change (0 =? 0) with true. cbv iota. wp_step. by left. }
    rewrite (proj2 (Z.eqb_neq _ _) Hr). unfold ptr. wp_steps.
    destruct (node_split fl1 (u_freep s1) (i_freep _ _ _ Hi1)) as (g1 & g2 & E1 & Efp1).
    rewrite Efp1, (node_next s1 fl1 A Hi1 g1 g2 E1). rewrite <- (app_nil_r g1) at 1.
    assert (length fl1 = length g1 + length g2)%nat as El1 by (by rewrite E1, length_app).
    apply (scan_ahead s1 fl1 g1 g2 A nunits 0); try done; [| | by intros ? ? ?%elem_of_nil | lia].
    + intros r s' (a & fl' & -> & Ha & Hi' & Ht & Hb). right. exists a, fl'. split_and!; try done. unfold HDR in *. lia.
    + intros Hno. specialize (Hno c m Hin). lia.
Qed.

(** ** Fuel *)

Definition le_st {B} (m m' : ST umem B) : Prop := forall s x, m s = Ok x -> m' s = Ok x.
Lemma le_st_refl {B} (m : ST umem B) : le_st m m.
Proof. by intros s x. Qed.
Lemma le_bind {B C} (m m' : ST umem B) (k k' : B -> ST umem C) :
  le_st m m' -> (forall b, le_st (k b) (k' b)) -> le_st (bind m k) (bind m' k').
Proof.
  intros Hm Hk s x. unfold bind. destruct (m s) as [[b s1]| | |] eqn:E; try done. rewrite (Hm _ _ E). apply Hk.
Qed.
Lemma free_loop_le f : forall f' bp p, (f <= f')%nat -> le_st (free_loop f bp p) (free_loop f' bp p).
Proof.
  induction f as [|f IH]; intros [|f'] bp p Hf; try lia; cbn [free_loop]; try apply le_st_refl;
    apply le_bind; try apply le_st_refl; intros q; repeat case_match; try apply le_st_refl; [by intros ? ? ?|]. apply IH. lia.
Qed.
Lemma free_le f f' ap : (f <= f')%nat -> le_st (free f ap) (free f' ap).
Proof.
  intros Hf. unfold free. apply le_bind; [apply le_st_refl|]. intros q. apply le_bind; [by apply free_loop_le|].
  intros p. apply le_st_refl.
Qed.
Lemma morecore_le f f' nu : (f <= f')%nat -> le_st (morecore grow f nu) (morecore grow f' nu).
Proof.
  intros Hf. unfold morecore. apply le_bind; [apply le_st_refl|]. intros q. destruct (q =? -1); [apply le_st_refl|].
  apply le_bind; [apply le_st_refl|]. intros []. apply le_bind; [by apply free_le | intros []; apply le_st_refl].
Qed.
Lemma malloc_loop_le f : forall f' nunits prevp p, (f <= f')%nat ->
  le_st (malloc_loop grow f nunits prevp p) (malloc_loop grow f' nunits prevp p).
Proof.
  induction f as [|f IH]; intros [|f'] nunits prevp p Hf; try lia; cbn [malloc_loop]; try apply le_st_refl;
    (apply le_bind; [apply le_st_refl|]); intros n; (destruct (nunits <=? n); [apply le_st_refl|]); [by intros ? ? ?|].
  apply le_bind; [apply le_st_refl|]. intros fp. apply le_bind.
  - destruct (p =? fp); [|apply le_st_refl]. apply le_bind; [apply morecore_le; lia | intros r; apply le_st_refl].
  - intros [q|]; [|apply le_st_refl]. apply le_bind; [apply le_st_refl|]. intros r. apply IH. lia.
Qed.
Lemma malloc_le f f' nbytes : (f <= f')%nat -> le_st (malloc base grow f nbytes) (malloc base grow f' nbytes).
Proof.
  intros Hf. unfold malloc. apply le_bind; [apply le_st_refl|]. intros fp. apply le_bind; [apply le_st_refl|].
  intros q. apply le_bind; [apply le_st_refl|]. intros p. by apply malloc_loop_le.
Qed.

(** ** Runs of a client *)

(** The units that the client holds. *)
Definition held (A : gmap Z Z) : Z := map_fold (fun _ n t => n + t) 0 A.
Lemma held_insert A a n : A !! a = None -> held (<[a := n]> A) = n + held A.
Proof. intros Ha. unfold held. rewrite map_fold_insert_L; [done | intros; lia | done]. Qed.
Lemma held_delete A a n : A !! a = Some n -> held (delete a A) = held A - n.
Proof. intros Ha. unfold held. rewrite (map_fold_delete_L _ 0 a n A); [lia | intros; lia | done]. Qed.

(** Before the first call of [malloc] and after it; [b0] is the break at the start. *)
Definition good (b0 : Z) (s : umem) (A : gmap Z Z) : Prop :=
  u_freep s = 0 /\ A = ∅ /\ 0 < base /\ base + HDR <= u_brk s <= LIM /\ u_brk s = b0 \/
  exists fl, inv s fl A /\ HDR * (total fl + held A) = u_brk s - b0.

Lemma malloc_spec b0 s A nbytes : good b0 s A -> request nbytes -> exists fuel,
  wp (malloc base grow fuel nbytes) s (fun r s' =>
    r = 0 /\ good b0 s' A \/
    exists a, r = a + HDR /\ 0 < a /\ A !! a = None /\ good b0 s' (<[a := units nbytes]> A)).
Proof.
  intros Hg Hr. destruct (units_spec nbytes Hr) as (Hu & Hlim & _).
  assert (exists s1 fl, inv s1 fl A /\ HDR * (total fl + held A) = u_brk s1 - b0 /\
    forall fuel, malloc base grow fuel nbytes s = malloc_loop grow fuel (units nbytes) (u_freep s1) (h_ptr (u_hdr s1 (u_freep s1))) s1)
    as (s1 & fl & Hi & Hc & Em).
  { destruct Hg as [(Hf & -> & Hb & Hbrk & Eb)|(fl & Hi & Hc)].
    - exists (set_size base 0 (set_freep base (set_ptr base base s))), []. split_and!.
      + constructor; cbn [u_brk u_freep links gaps top set_size set_hdr set_freep set_ptr]; try done; try lia;
          try (intros ? ? ? ? Ha; by rewrite lookup_empty in Ha); try (intros ? ? Ha; by rewrite lookup_empty in Ha); auto.
        * cbn. by rewrite !Z.eqb_refl.
        * cbn. by rewrite !Z.eqb_refl.
      + unfold held. rewrite map_fold_empty. cbn. lia.
      + intros fuel. unfold malloc, bind, gets. cbn [u_freep]. rewrite Hf. done.
    - exists s, fl. split_and!; try done. intros fuel. unfold malloc, bind, gets.
      assert (u_freep s <> 0) as Hne.
      { pose proof (i_base _ _ _ Hi). destruct (i_freep _ _ _ Hi) as [->|Hin]; [lia|].
        apply (nodes_lt _ _ _ (i_gaps _ _ _ Hi)) in Hin. unfold HDR in *. lia. }
      rewrite (proj2 (Z.eqb_neq _ _) Hne). done. }
  exists (2 * length fl + 3)%nat. unfold wp at 1. rewrite Em.
  pose proof (malloc_loop_spec s1 fl A (units nbytes) (2 * length fl + 3) Hi Hu Hlim ltac:(lia)) as Hw.
  eapply wp_mono; [exact Hw|]. intros r s' [(-> & ->)|(a & fl' & -> & Ha & Hi' & Ht)].
  - left. split; [done|]. right. by exists fl.
  - right. exists a. destruct (i_live _ _ _ Hi' a (units nbytes) ltac:(by apply lookup_insert_eq)) as (_ & _ & ? & _).
    pose proof (i_base _ _ _ Hi'). unfold HDR in *. split_and!; try done; [lia|].
    right. exists fl'. split; [done|]. rewrite held_insert by done. unfold HDR in *. lia.
Qed.
Lemma free_total b0 s A a n : good b0 s A -> A !! a = Some n -> exists fuel,
  wp (free fuel (a + HDR)) s (fun _ s' => good b0 s' (delete a A)).
Proof.
  intros [(_ & -> & _)|(fl & Hi & Hc)] Ha; [by rewrite lookup_empty in Ha|]. exists (S (length fl)).
  eapply wp_mono; [apply (free_spec s fl A a n); [done | done | lia]|].
  intros _ s' (fl' & Hi' & Ht & Hb & _). right. exists fl'. split; [done|]. rewrite (held_delete A a n) by done.
  unfold HDR in *. lia.
Qed.

(** A run of a client that frees what it got from [malloc] and writes only inside
    its blocks. *)
Inductive mstep : umem * gmap Z Z -> umem * gmap Z Z -> Prop :=
| ms_malloc s A fuel nbytes r s' : request nbytes -> malloc base grow fuel nbytes s = Ok (r, s') -> r <> 0 ->
    mstep (s, A) (s', <[r - HDR := units nbytes]> A)
| ms_null s A fuel nbytes s' : request nbytes -> malloc base grow fuel nbytes s = Ok (0, s') -> mstep (s, A) (s', A)
| ms_free s A fuel a n s' : A !! a = Some n -> free fuel (a + HDR) s = Ok (tt, s') -> mstep (s, A) (s', delete a A)
| ms_write s A a n s' : A !! a = Some n -> u_freep s' = u_freep s -> u_brk s' = u_brk s ->
    (forall x, x <= a \/ a + HDR * n <= x -> u_hdr s' x = u_hdr s x) -> mstep (s, A) (s', A).

Lemma good_write b0 s A a n s' : good b0 s A -> A !! a = Some n -> u_freep s' = u_freep s -> u_brk s' = u_brk s ->
  (forall x, x <= a \/ a + HDR * n <= x -> u_hdr s' x = u_hdr s x) -> good b0 s' A.
Proof.
  intros [(_ & -> & _)|(fl & Hi & Hc)] Ha Hf Hb Hx; [by rewrite lookup_empty in Ha|]. right. exists fl. rewrite Hb. split; [|done].
  pose proof Hi as []. destruct (i_live0 a n Ha) as (_ & Hn & Hlo & _ & Hap). unfold HDR in *.
  constructor; rewrite ?Hb, ?Hf; try done.
  - apply (links_frame (u_hdr s)); [|done]. intros x [->|Hin]; apply Hx; [lia|].
    apply list_elem_of_fmap in Hin as ([c m] & -> & Hin). cbn. destruct (gaps_elem _ _ _ _ i_gaps0 Hin) as (_ & ? & _).
    destruct (Hap c m Hin); unfold HDR in *; lia.
  - rewrite Hx by lia. done.
  - intros x k Hk. destruct (i_live0 x k Hk) as (Hs & ? & ? & ? & ?). split_and!; try done.
    rewrite Hx; [done|]. destruct (decide (x = a)) as [->|Hne]; [lia|].
    destruct (i_disj0 x k a n Hk Ha Hne); unfold HDR in *; lia.
Qed.
Lemma mstep_good b0 x y : good b0 x.1 x.2 -> mstep x y -> good b0 y.1 y.2.
Proof.
  intros Hg Hstep. destruct Hstep as [s A fuel nbytes r s' Hr Hm Hne|s A fuel nbytes s' Hr Hm|s A fuel a n s' Ha Hf|s A a n s' Ha Hfp Hb Hx];
    cbn [fst snd] in *.
  - destruct (malloc_spec b0 s A nbytes Hg Hr) as [f (r1 & s1 & E & Hq)%wp_ok].
    apply (malloc_le _ (fuel + f)) in Hm, E; [|lia..]. assert (r1 = r /\ s1 = s') as [-> ->] by (split; congruence).
    destruct Hq as [[-> _]|(a & -> & _ & _ & Hq)]; [done|]. by replace (a + HDR - HDR) with a by lia.
  - destruct (malloc_spec b0 s A nbytes Hg Hr) as [f (r1 & s1 & E & Hq)%wp_ok].
    apply (malloc_le _ (fuel + f)) in Hm, E; [|lia..]. assert (r1 = 0 /\ s1 = s') as [-> ->] by (split; congruence).
    destruct Hq as [[_ Hq]|(a & Ea & Hpos & _)]; [done|]. unfold HDR in Ea. lia.
  - destruct (free_total b0 s A a n Hg Ha) as [f ([] & s1 & E & Hq)%wp_ok].
    apply (free_le _ (fuel + f)) in Hf, E; [|lia..]. by assert (s1 = s') as -> by congruence.
  - by apply (good_write b0 s A a n s').
Qed.

End alloc.

(** A client that gets two blocks and frees the first. *)
Definition um_demo : umem := mkUmem (fun _ => mkHeader 0 0) 0 16384.
Definition um_grow (b n : Z) : bool := b + n <=? LIM.
Lemma um_grow_lim b n : um_grow b n = true -> b + n <= LIM.
Proof. apply Z.leb_le. Qed.
Definition after {A} (m : ST umem A) (s : umem) : umem :=
  match m s with
  | Ok (_, s') => s'
  | _ => s
  end.
Definition um_s1 : umem := after (malloc 4096 um_grow 9 100) um_demo.
Definition um_s2 : umem := after (malloc 4096 um_grow 9 24) um_s1.
Definition um_s3 : umem := after (free 9 49048) um_s2.
Definition um_live : gmap Z Z := delete 49040 (<[49016 - HDR := units 24]> (<[49048 - HDR := units 100]> ∅)).
Lemma um_run : star (mstep 4096 um_grow) (um_demo, ∅) (um_s3, um_live).
Proof.
  eapply star_step; [apply (ms_malloc 4096 um_grow um_demo ∅ 9 100 49048 um_s1); [by vm_compute | by vm_compute | done]|].
  eapply star_step; [apply (ms_malloc 4096 um_grow um_s1 _ 9 24 49016 um_s2); [by vm_compute | by vm_compute | done]|].
  eapply star_step; [|apply star_refl].
  apply (ms_free 4096 um_grow um_s2 _ 9 49040 14 um_s3); by vm_compute.
Qed.

(** A request near the largest unsigned number wraps around to a block of one
    unit, the header alone. *)
Lemma units_overflow : units 4294967295 = 1.
Proof. by vm_compute. Qed.
