(* ===== verification/Sh.v ===== *)
(** * The shell (src/xv6/sh.c): definitions

    The command-line parser: a recursive descent over the buffer, in which
    pointers are offsets and [*ps] is the state.  A command holds the places of
    its words in the buffer; [nulterminate] cuts them off there once the parse is
    done.  The constructors allocate with [malloc], which is taken to succeed.
    [panic] of the shell ends the child that parses.  Properties are in
    [ShSpec.v] and [ShGrammar.v]. *)

From S2P Require Import Prelude Bytes Cstring Ulib.

Definition MAXARGS : Z := 10.

(** [argv[i]] and [eargv[i]], and [file] and [efile], as pairs of offsets. *)
Inductive cmd :=
| EXEC (argv : list (Z * Z))
| REDIR (c : cmd) (file : Z * Z) (mode fd : Z)
| PIPE (left right : cmd)
| LIST (left right : cmd)
| BACK (c : cmd).

Definition O_RDONLY : Z := 0.
Definition O_WRONLY : Z := 1.
Definition O_CREATE : Z := 512.

(** The constructors. *)
Definition execcmd : cmd := EXEC [].
Definition redircmd (subcmd : cmd) (file : Z * Z) (mode fd : Z) : cmd := REDIR subcmd file mode fd.
Definition pipecmd (left right : cmd) : cmd := PIPE left right.
Definition listcmd (left right : cmd) : cmd := LIST left right.
Definition backcmd (subcmd : cmd) : cmd := BACK subcmd.

Definition whitespace : bytes := [32; 9; 13; 10; 11].
Definition symbols : bytes := [60; 124; 62; 38; 59; 40; 41].
(** [strchr(s, c)] as a truth value. *)
Definition inset (s : bytes) (c : Z) : bool :=
  match strchr s c with
  | Some _ => true
  | None => false
  end.

(** The redirections around a command, the innermost first. *)
Definition redir : Type := (Z * Z) * Z * Z.
Definition wrap (c : cmd) (rs : list redir) : cmd :=
  foldl (fun c '(f, mode, fd) => redircmd c f mode fd) c rs.

Section parser.
Context (buf : bytes) (es : Z).

(** [while(s < es && p( *s)) s++] *)
Fixpoint scan (p : Z -> bool) (n : nat) (s : Z) : Z :=
  match n with
  | O => s
  | S n => if p (chr buf s) then scan p n (s + 1) else s
  end.
Definition skip (s : Z) : Z := scan (inset whitespace) (Z.to_nat (es - s)) s.
Definition word_end (s : Z) : Z :=
  scan (fun c => negb (inset whitespace c) && negb (inset symbols c)) (Z.to_nat (es - s)) s.

(** The token and where it starts and ends. *)
Definition gettoken : ST Z (Z * (Z * Z)) :=
  s <- get ;;
  let q := skip s in
  let c := chr buf q in
  let '(ret_, eq) :=
    if c =? 0 then (0, q)
    else if inset [124; 40; 41; 59; 38; 60] c then (c, q + 1)
    else if c =? 62 then (if chr buf (q + 1) =? 62 then (43, q + 2) else (62, q + 1))
    else (97, word_end q) in
  put (skip eq) ;;;
  ret (ret_, (q, eq)).

Definition peek (toks : bytes) : ST Z bool :=
  s <- get ;;
  let s := skip s in
  put s ;;;
  ret (negb (chr buf s =? 0) && inset toks (chr buf s)).

(** A loop that consumes at least a character each turn. *)
Definition turns : ST Z nat := s <- get ;; ret (Z.to_nat (es - s + 1)).

(** [while(peek(ps, es, "&"))] *)
Fixpoint backs_loop (n : nat) (c : cmd) : ST Z cmd :=
  b <- peek [38] ;;
  if b then
    match n with
    | O => nofuel
    | S n => gettoken ;;; backs_loop n (backcmd c)
    end
  else ret c.

(** [parseredirs] does not look at the command it wraps: the redirections it
    adds. *)
Fixpoint parseredirs_loop (n : nat) (acc : list redir) : ST Z (list redir) :=
  b <- peek [60; 62] ;;
  if b then
    match n with
    | O => nofuel
    | S n =>
        tok <- gettoken ;;
        w <- gettoken ;;
        panic_if (negb (fst w =? 97)) "missing file for redirection" ;;;
        let r :=
          if fst tok =? 60 then [(snd w, O_RDONLY, 0)]
          else if fst tok =? 62 then [(snd w, Z.lor O_WRONLY O_CREATE, 1)]
          else if fst tok =? 43 then [(snd w, Z.lor O_WRONLY O_CREATE, 1)]
          else [] in
        parseredirs_loop n (acc ++ r)
    end
  else ret acc.
Definition parseredirs : ST Z (list redir) := n <- turns ;; parseredirs_loop n [].

(** The loop of [parseexec]: the arguments so far, and the redirections around
    the command that is being filled in. *)
Fixpoint parseexec_loop (n : nat) (argv : list (Z * Z)) (rs : list redir) : ST Z cmd :=
  b <- peek [124; 41; 38; 59] ;;
  if b then ret (wrap (EXEC argv) rs) else
  match n with
  | O => nofuel
  | S n =>
      tok <- gettoken ;;
      if fst tok =? 0 then ret (wrap (EXEC argv) rs) else
      panic_if (negb (fst tok =? 97)) "syntax" ;;;
      let argv := argv ++ [snd tok] in
      panic_if (MAXARGS <=? lenZ argv) "too many args" ;;;
      rs' <- parseredirs ;;
      parseexec_loop n argv (rs ++ rs')
  end.

(** The recursive functions; each cycle of calls consumes a character. *)
Fixpoint parseline (fuel : nat) : ST Z cmd :=
  match fuel with
  | O => nofuel
  | S fuel =>
      c <- parsepipe fuel ;;
      n <- turns ;;
      c <- backs_loop n c ;;
      b <- peek [59] ;;
      if b then gettoken ;;; r <- parseline fuel ;; ret (listcmd c r)
      else ret c
  end
with parsepipe (fuel : nat) : ST Z cmd :=
  match fuel with
  | O => nofuel
  | S fuel =>
      c <- parseexec fuel ;;
      b <- peek [124] ;;
      if b then gettoken ;;; r <- parsepipe fuel ;; ret (pipecmd c r)
      else ret c
  end
with parseexec (fuel : nat) : ST Z cmd :=
  match fuel with
  | O => nofuel
  | S fuel =>
      b <- peek [40] ;;
      if b then parseblock fuel
      else
        rs <- parseredirs ;;
        n <- turns ;;
        parseexec_loop n [] rs
  end
with parseblock (fuel : nat) : ST Z cmd :=
  match fuel with
  | O => nofuel
  | S fuel =>
      b <- peek [40] ;;
      panic_if (negb b) "parseblock" ;;;
      gettoken ;;;
      c <- parseline fuel ;;
      b <- peek [41] ;;
      panic_if (negb b) "syntax - missing )" ;;;
      gettoken ;;;
      rs <- parseredirs ;;
      ret (wrap c rs)
  end.
End parser.

(** NUL-terminate all the counted strings. *)
Fixpoint nulterminate (c : cmd) (buf : bytes) : bytes :=
  match c with
  | EXEC argv => foldl (fun buf '(_, eq) => upd buf eq 0) buf argv
  | REDIR c file _ _ => upd (nulterminate c buf) (snd file) 0
  | PIPE l r => nulterminate r (nulterminate l buf)
  | LIST l r => nulterminate r (nulterminate l buf)
  | BACK c => nulterminate c buf
  end.

(** The command and the buffer that its words point into. *)
Definition parsecmd (buf : bytes) : res (cmd * bytes) :=
  let es := strlen buf in
  match (c <- parseline buf es (Z.to_nat (4 * es + 4)) ;;
         peek buf es [] ;;;
         s <- get ;;
         panic_if (negb (s =? es)) "syntax" ;;;
         ret c) 0 with
  | Ok (c, _) => Ok (c, nulterminate c buf)
  | Panic msg => Panic msg
  | Sleep ch => Sleep ch
  | NoFuel => NoFuel
  end.

(** ** Running a command *)

(** What [runcmd] asks the kernel to do, in order, until it exits or is replaced;
    [opens] and [execs] are whether [open] and [exec] succeed. *)
Inductive action :=
| AClose (fd : Z)
| AOpen (file : bytes) (mode : Z)
| AExec (path : bytes) (argv : list bytes)
| APrint (msg : string).

Definition word (buf : bytes) (w : Z * Z) : bytes := cstr (drop (Z.to_nat (fst w)) buf).
Fixpoint runcmd (opens : bytes -> Z -> bool) (execs : bytes -> bool) (buf : bytes) (c : cmd) : list action :=
  match c with
  | EXEC [] => []
  | EXEC (w :: ws) =>
      AExec (word buf w) (word buf <$> w :: ws) ::
      (if execs (word buf w) then [] else [APrint "exec not implemented"])
  | REDIR c file mode fd =>
      AClose fd :: AOpen (word buf file) mode ::
      (if opens (word buf file) mode then runcmd opens execs buf c else [APrint "redir not implemented"])
  | LIST l _ => APrint "list not implemented" :: runcmd opens execs buf l
  | PIPE l _ => APrint "pipe not implemented" :: runcmd opens execs buf l
  | BACK c => APrint "background not implemented" :: runcmd opens execs buf c
  end.

(** [getcmd]: the line that [gets] reads into the cleared buffer of [nbuf] bytes. *)
Definition getcmd (input : bytes) (nbuf : Z) : option bytes * bytes :=
  let '(line, rest) := gets input nbuf in
  let buf := blit (zeros nbuf) 0 line in
  (if chr buf 0 =? 0 then None else Some buf, rest).
