(* ===== verification/ShSpec.v ===== *)
(** * The shell's parser terminates (src/xv6/sh.c)

    On every input the parser returns a well-formed command or panics: the
    pointers of a command lie in the buffer and the argument vectors have room
    for the final null. *)

From S2P Require Import Prelude Bytes Cstring Ulib Sh.

(** [m] returns with [Q] or panics. *)
Definition tm {S A} (m : ST S A) (s : S) (Q : A -> S -> Prop) : Prop :=
  match m s with
  | Ok (a, s') => Q a s'
  | Panic _ => True
  | _ => False
  end.
Arguments tm : simpl never.

Section tm_rules.
Context {S : Type}.
Lemma tm_ret {A} (a : A) (s : S) (Q : A -> S -> Prop) : Q a s -> tm (ret a) s Q.
Proof. done. Qed.
Lemma tm_get (s : S) (Q : S -> S -> Prop) : Q s s -> tm get s Q.
Proof. done. Qed.
Lemma tm_put (s s' : S) (Q : unit -> S -> Prop) : Q tt s' -> tm (put s') s Q.
Proof. done. Qed.
Lemma tm_bind {A B} (m : ST S A) (k : A -> ST S B) s Q :
  tm m s (fun a s' => tm (k a) s' Q) -> tm (bind m k) s Q.
Proof. unfold tm, bind. by destruct (m s) as [[a s']| | |]. Qed.
Lemma tm_mono {A} (m : ST S A) s (P Q : A -> S -> Prop) :
  tm m s P -> (forall a s', P a s' -> Q a s') -> tm m s Q.
Proof. unfold tm. destruct (m s) as [[a s']| | |]; auto. Qed.
Lemma tm_panic_if c msg (s : S) (Q : unit -> S -> Prop) : (c = false -> Q tt s) -> tm (panic_if c msg) s Q.
Proof. destruct c; unfold tm; simpl; auto. Qed.
End tm_rules.
Ltac tm_step :=
  lazymatch goal with
  | |- tm (bind _ _) _ _ => apply tm_bind
  | |- tm (ret _) _ _ => apply tm_ret
  | |- tm get _ _ => apply tm_get
  | |- tm (put _) _ _ => apply tm_put
  | |- tm (panic_if _ _) _ _ => apply tm_panic_if; intros
  end.
Ltac tm_steps := repeat (tm_step; cbv beta).

(** A command whose words lie below [es]. *)
Definition word_ok (es : Z) (w : Z * Z) : Prop := 0 <= fst w < snd w /\ snd w <= es.
Definition redir_ok (es : Z) (r : redir) : Prop :=
  word_ok es r.1.1 /\ (r.1.2 = O_RDONLY /\ r.2 = 0 \/ r.1.2 = Z.lor O_WRONLY O_CREATE /\ r.2 = 1).
Fixpoint cmd_ok (es : Z) (c : cmd) : Prop :=
  match c with
  | EXEC argv => lenZ argv < MAXARGS /\ Forall (word_ok es) argv
  | REDIR c file mode fd => cmd_ok es c /\ redir_ok es (file, mode, fd)
  | PIPE l r | LIST l r => cmd_ok es l /\ cmd_ok es r
  | BACK c => cmd_ok es c
  end.

Lemma wrap_ok es c rs : cmd_ok es c -> Forall (redir_ok es) rs -> cmd_ok es (wrap c rs).
Proof.
  intros Hc Hrs. revert c Hc. induction Hrs as [|[[f m] d] rs Hr Hrs IH]; intros c Hc; [done|].
  cbn [wrap foldl]. apply IH. by split.
Qed.

Lemma inset_iff s c : Forall (fun x => x <> 0) s -> inset s c = true <-> c ∈ s.
Proof.
  intros Hs. unfold inset. induction Hs as [|x s Hx Hs IH]; cbn [strchr]; [by rewrite elem_of_nil|].
  rewrite (proj2 (Z.eqb_neq x 0)), elem_of_cons by done.
  destruct (Z.eqb_spec x c) as [->|]; [naive_solver|]. destruct (strchr s c); naive_solver.
Qed.

Section parser.
Context (buf : bytes) (es : Z).
Hypothesis Hes : chr buf es = 0.

Lemma scan_range p n s : s <= scan buf p n s <= s + Z.of_nat n.
Proof.
  revert s. induction n as [|n IH]; intros s; cbn [scan]; [lia|]. destruct (p _); [|lia].
  specialize (IH (s + 1)). lia.
Qed.
Lemma scan_stop p n s : scan buf p n s < s + Z.of_nat n -> p (chr buf (scan buf p n s)) = false.
Proof.
  revert s. induction n as [|n IH]; intros s; cbn [scan]; [lia|]. destruct (p _) eqn:E; [|done].
  intros Hs. apply IH. lia.
Qed.
Lemma skip_range s : s <= es -> s <= skip buf es s <= es.
Proof. intros Hs. unfold skip. pose proof (scan_range (inset whitespace) (Z.to_nat (es - s)) s). lia. Qed.
Lemma skip_stop s : s <= es -> inset whitespace (chr buf (skip buf es s)) = false.
Proof.
  intros Hs. pose proof (skip_range s Hs). destruct (decide (skip buf es s = es)) as [->|]; [by rewrite Hes|].
  apply scan_stop. unfold skip in *. lia.
Qed.
Lemma skip_here s : s <= es -> inset whitespace (chr buf s) = false -> skip buf es s = s.
Proof. intros Hs Hw. unfold skip. destruct (Z.to_nat (es - s)); [done|]. cbn [scan]. by rewrite Hw. Qed.
Lemma skip_idem s : s <= es -> skip buf es (skip buf es s) = skip buf es s.
Proof. intros Hs. apply skip_here; [apply skip_range | apply skip_stop]; done. Qed.

(** A character that is not 0 is before the end. *)
Lemma before_nul s : s <= es -> chr buf s <> 0 -> s < es.
Proof. intros Hs Hc. destruct (decide (s = es)) as [->|]; [done | lia]. Qed.

Lemma tm_peek toks s (Q : bool -> Z -> Prop) : s <= es ->
  (forall b s', s <= s' <= es -> skip buf es s' = s' -> (b = true -> chr buf s' <> 0) -> Q b s') ->
  tm (peek buf es toks) s Q.
Proof.
  intros Hs HQ. unfold peek. tm_steps. apply HQ; [by apply skip_range | by apply skip_idem|].
  by intros [?%negb_true_iff%Z.eqb_neq _]%andb_true_iff.
Qed.

Lemma inset_symbols c : c <> 62 -> inset [124; 40; 41; 59; 38; 60] c = false -> inset symbols c = false.
Proof.
  intros H62 Hi. apply not_true_iff_false in Hi. apply not_true_iff_false. rewrite inset_iff in * by (repeat constructor; done).
  unfold symbols. rewrite !elem_of_cons, elem_of_nil in *. lia.
Qed.

Lemma word_end_range q : q <= es -> chr buf q <> 0 -> inset whitespace (chr buf q) = false ->
  inset symbols (chr buf q) = false -> q < word_end buf es q <= es.
Proof.
  intros Hq Hc Hw Hy. pose proof (before_nul q Hq Hc). unfold word_end.
  destruct (Z.to_nat (es - q)) as [|n] eqn:E; [lia|]. cbn [scan]. rewrite Hw, Hy. cbn [negb andb].
  pose proof (scan_range (fun c => negb (inset whitespace c) && negb (inset symbols c)) n (q + 1)). lia.
Qed.

(** A token lies in the buffer, and one that is not the end makes progress. *)
Lemma tm_gettoken s (Q : Z * (Z * Z) -> Z -> Prop) : 0 <= s <= es ->
  (forall tok w s', s <= s' <= es -> (tok <> 0 -> s < s' /\ word_ok es w) ->
    (chr buf (skip buf es s) <> 0 -> tok <> 0) -> Q (tok, w) s') ->
  tm (gettoken buf es) s Q.
Proof.
  intros Hs HQ. unfold gettoken. tm_steps. pose proof (skip_range s ltac:(lia)) as Hq.
  pose proof (skip_stop s ltac:(lia)) as Hw. set (q := skip buf es s) in *.
  assert (exists tok eq, (if chr buf q =? 0 then (0, q)
    else if inset [124; 40; 41; 59; 38; 60] (chr buf q) then (chr buf q, q + 1)
    else if chr buf q =? 62 then if chr buf (q + 1) =? 62 then (43, q + 2) else (62, q + 1)
    else (97, word_end buf es q)) = (tok, eq) /\ q <= eq <= es /\ (tok <> 0 -> q < eq) /\
    (chr buf q <> 0 -> tok <> 0)) as (tok & eq & -> & Heq & Htok & Hne).
  { destruct (Z.eqb_spec (chr buf q) 0) as [E|E]; [exists 0, q; split_and!; try done; lia|].
    pose proof (before_nul q ltac:(lia) E).
    destruct (inset [124; 40; 41; 59; 38; 60] (chr buf q)) eqn:Ei; [exists (chr buf q), (q + 1); split_and!; try done; lia|].
    destruct (Z.eqb_spec (chr buf q) 62) as [E62|E62].
    - destruct (Z.eqb_spec (chr buf (q + 1)) 62) as [E'|E']; [|exists 62, (q + 1); split_and!; try done; lia].
      pose proof (before_nul (q + 1) ltac:(lia) ltac:(lia)). exists 43, (q + 2). split_and!; try done; lia.
    - pose proof (word_end_range q ltac:(lia) E Hw (inset_symbols _ E62 Ei)).
      exists 97, (word_end buf es q). split_and!; try done; lia. }
  pose proof (skip_range eq ltac:(lia)). tm_steps. apply HQ; [lia | | done].
  intros Ht. specialize (Htok Ht). split; [lia|]. unfold word_ok. cbn. lia.
Qed.

(** A token after a successful [peek]. *)
Lemma tm_gettoken_peek s (Q : Z * (Z * Z) -> Z -> Prop) : 0 <= s <= es -> skip buf es s = s -> chr buf s <> 0 ->
  (forall r s', s < s' <= es -> Q r s') -> tm (gettoken buf es) s Q.
Proof.
  intros Hs Hsk Hc HQ. apply tm_gettoken; [done|]. rewrite Hsk. intros tok w s' Hr Ht Hne.
  specialize (Hne Hc). specialize (Ht Hne). apply HQ. lia.
Qed.

Lemma tm_backs_loop n : forall c s, cmd_ok es c -> 0 <= s <= es -> es - s < Z.of_nat n ->
  tm (backs_loop buf es n c) s (fun c s' => cmd_ok es c /\ s <= s' <= es).
Proof.
  induction n as [|n IH]; intros c s Hc Hs Hn; cbn [backs_loop]; [lia|]. tm_step.
  apply tm_peek; [lia|]. intros [|] s1 Hs1 Hsk Hp; [|by tm_step].
  tm_step. apply tm_gettoken_peek; [lia | done | by apply Hp|]. intros _ s2 Hs2.
  eapply tm_mono; [apply IH; [done | lia | lia]|]. intros c' s' [? ?]. split; [done | lia].
Qed.

Lemma tm_parseredirs_loop n : forall acc s, Forall (redir_ok es) acc -> 0 <= s <= es -> es - s < Z.of_nat n ->
  tm (parseredirs_loop buf es n acc) s (fun rs s' => Forall (redir_ok es) rs /\ s <= s' <= es).
Proof.
  induction n as [|n IH]; intros acc s Hc Hs Hn; cbn [parseredirs_loop]; [lia|]. tm_step.
  apply tm_peek; [lia|]. intros [|] s1 Hs1 Hsk Hp; [|by tm_step].
  tm_step. apply tm_gettoken_peek; [lia | done | by apply Hp|]. intros tok s2 Hs2.
  tm_step. apply tm_gettoken; [lia|]. intros t w s3 Hs3 Hw _. tm_steps. cbn [fst snd].
  match goal with H : negb _ = false |- _ => apply negb_false_iff, Z.eqb_eq in H; cbn in H; subst t end.
  destruct (Hw ltac:(done)) as [Hlt Hwok].
  eapply tm_mono; [apply IH; [|lia|lia]|].
  - apply Forall_app_2; [done|]. repeat case_match; repeat constructor; cbn; auto; apply Hwok.
  - intros rs s' [? ?]. split; [done | lia].
Qed.
Lemma tm_parseredirs s : 0 <= s <= es ->
  tm (parseredirs buf es) s (fun rs s' => Forall (redir_ok es) rs /\ s <= s' <= es).
Proof. intros Hs. unfold parseredirs, turns. tm_steps. apply tm_parseredirs_loop; [done | done | lia]. Qed.

Lemma tm_parseexec_loop n : forall argv rs s, lenZ argv < MAXARGS -> Forall (word_ok es) argv ->
  Forall (redir_ok es) rs -> 0 <= s <= es -> es - s < Z.of_nat n ->
  tm (parseexec_loop buf es n argv rs) s (fun c s' => cmd_ok es c /\ s <= s' <= es).
Proof.
  induction n as [|n IH]; intros argv rs s Hl Ha Hr Hs Hn; cbn [parseexec_loop]; [lia|].
  assert (cmd_ok es (wrap (EXEC argv) rs)) as Hok by (by apply wrap_ok).
  tm_step. apply tm_peek; [lia|]. intros [|] s1 Hs1 Hsk Hp; [by tm_step|].
  tm_step. apply tm_gettoken; [lia|]. intros t w s2 Hs2 Hw _. cbn [fst snd].
  destruct (Z.eqb_spec t 0) as [|Ht]; [tm_step; split; [done | lia]|]. destruct (Hw Ht) as [Hlt Hwok].
  tm_steps. match goal with H : (_ <=? _) = false |- _ => apply Z.leb_gt in H end.
  eapply tm_mono; [apply tm_parseredirs; lia|]. intros rs' s3 [Hrs' Hs3]. cbv beta.
  eapply tm_mono; [apply IH; [done | | | lia | lia]|].
  - apply Forall_app_2; [done | by constructor].
  - by apply Forall_app_2.
  - intros c s' [? ?]. split; [done | lia].
Qed.

(** The measure: a cycle of the four functions consumes a character. *)
Lemma tm_parsers fuel :
  (forall s, 0 <= s <= es -> 4 * (es - s) + 4 <= Z.of_nat fuel ->
    tm (parseline buf es fuel) s (fun c s' => cmd_ok es c /\ s <= s' <= es)) /\
  (forall s, 0 <= s <= es -> 4 * (es - s) + 3 <= Z.of_nat fuel ->
    tm (parsepipe buf es fuel) s (fun c s' => cmd_ok es c /\ s <= s' <= es)) /\
  (forall s, 0 <= s <= es -> 4 * (es - s) + 2 <= Z.of_nat fuel ->
    tm (parseexec buf es fuel) s (fun c s' => cmd_ok es c /\ s <= s' <= es)) /\
  (forall s, 0 <= s <= es -> 4 * (es - s) + 1 <= Z.of_nat fuel ->
    tm (parseblock buf es fuel) s (fun c s' => cmd_ok es c /\ s <= s' <= es)).
Proof.
  induction fuel as [|fuel (IHl & IHp & IHe & IHb)]; [split_and!; intros; lia|].
  split_and!; intros s Hs Hf; cbn [parseline parsepipe parseexec parseblock].
  - tm_step. eapply tm_mono; [apply IHp; lia|]. intros c s1 [Hc Hs1]. unfold turns. tm_steps.
    eapply tm_mono; [apply tm_backs_loop; [done | lia | lia]|]. intros c' s2 [Hc' Hs2].
    tm_step. apply tm_peek; [lia|]. intros [|] s3 Hs3 Hsk Hp; [|tm_step; split; [done | lia]].
    tm_step. apply tm_gettoken_peek; [lia | done | by apply Hp|]. intros _ s4 Hs4.
    tm_step. eapply tm_mono; [apply IHl; lia|]. intros r s5 [Hr Hs5]. tm_step. split; [by split | lia].
  - tm_step. eapply tm_mono; [apply IHe; lia|]. intros c s1 [Hc Hs1].
    tm_step. apply tm_peek; [lia|]. intros [|] s3 Hs3 Hsk Hp; [|tm_step; split; [done | lia]].
    tm_step. apply tm_gettoken_peek; [lia | done | by apply Hp|]. intros _ s4 Hs4.
    tm_step. eapply tm_mono; [apply IHp; lia|]. intros r s5 [Hr Hs5]. tm_step. split; [by split | lia].
  - tm_step. apply tm_peek; [lia|]. intros [|] s1 Hs1 Hsk Hp.
    + eapply tm_mono; [apply IHb; lia|]. intros c s' [? ?]. split; [done | lia].
    + tm_step. eapply tm_mono; [apply tm_parseredirs; lia|]. intros rs s2 [Hrs Hs2]. unfold turns. tm_steps.
      eapply tm_mono; [apply tm_parseexec_loop; [done | constructor | done | lia | lia]|].
      intros c s' [? ?]. split; [done | lia].
  - tm_step. apply tm_peek; [lia|]. intros b s1 Hs1 Hsk Hp. tm_steps.
    match goal with H : negb b = false |- _ => apply negb_false_iff in H end.
    apply tm_gettoken_peek; [lia | done | by apply Hp|]. intros _ s2 Hs2.
    tm_step. eapply tm_mono; [apply IHl; lia|]. intros c s3 [Hc Hs3].
    tm_step. apply tm_peek; [lia|]. intros b' s4 Hs4 _ _. tm_steps.
    apply tm_gettoken; [lia|]. intros _ _ s5 Hs5 _ _. tm_step.
    eapply tm_mono; [apply tm_parseredirs; lia|]. intros rs s6 [Hrs Hs6]. tm_step. split; [by apply wrap_ok | lia].
Qed.
End parser.

Lemma strlen_range buf : 0 <= strlen buf <= lenZ buf.
Proof.
  induction buf as [|c buf IH]; [done|]. cbn [strlen]. rewrite lenZ_cons. destruct (c =? 0); lia.
Qed.
Lemma chr_strlen buf : chr buf (strlen buf) = 0.
Proof.
  induction buf as [|c buf IH]; [done|]. cbn [strlen]. pose proof (strlen_range buf).
  destruct (Z.eqb_spec c 0) as [->|]; [done|]. unfold chr in *.
  replace (Z.to_nat (1 + strlen buf)) with (S (Z.to_nat (strlen buf))) by lia. done.
Qed.
Lemma nulterminate_len c : forall buf, lenZ (nulterminate c buf) = lenZ buf.
Proof.
  induction c as [argv|c IH f m d|l IHl r IHr|l IHl r IHr|c IH]; intros buf; cbn [nulterminate].
  - revert buf. induction argv as [|[q eq] argv IH]; intros buf; [done|]. cbn [foldl]. by rewrite IH, upd_lenZ.
  - by rewrite upd_lenZ, IH.
  - by rewrite IHr, IHl.
  - by rewrite IHr, IHl.
  - apply IH.
Qed.

(** C22: On every buffer the parser ends, with a command or with an error message of
    the shell.  The words of a command lie in the line, are not empty, and every
    argument vector has room for its null. *)
Theorem parsecmd_terminates buf :
  match parsecmd buf with
  | Ok (c, buf') => cmd_ok (strlen buf) c /\ lenZ buf' = lenZ buf
  | Panic _ => True
  | _ => False
  end.
Proof.
  unfold parsecmd. pose proof (strlen_range buf). cbv zeta.
  match goal with |- context [bind ?m ?k 0] => assert (tm (bind m k) 0 (fun c _ => cmd_ok (strlen buf) c)) as Ht end.
  { tm_step. eapply tm_mono; [apply (tm_parsers buf (strlen buf) (chr_strlen buf)); lia|]. intros c s [Hc Hs].
    tm_step. apply tm_peek; [apply chr_strlen | lia|]. intros b s' _ _ _. by tm_steps. }
  unfold tm in Ht. destruct (bind _ _ 0) as [[c s]| | |]; try done. split; [done | apply nulterminate_len].
Qed.
