(* ===== verification/ShGrammar.v ===== *)
(** * The language of the shell's parser (src/xv6/sh.c)

    The grammar of command lines as inductive relations between streams of tokens,
    with white space in between, and abstract commands, and a printer.  The parser
    returns the command of every line of the grammar, and parsing what the printer
    prints gives the command back. *)

From S2P Require Import Prelude Bytes Cstring Ulib Sh ShSpec.

(** ** Tokens *)

Inductive token := TW (w : bytes) | TC (c : Z) | TGt | TApp.
Definition tok_bytes (t : token) : bytes :=
  match t with
  | TW w => w
  | TC c => [c]
  | TGt => [62]
  | TApp => [62; 62]
  end.
(** What [gettoken] returns for it. *)
Definition code (t : token) : Z :=
  match t with
  | TW _ => 97
  | TC c => c
  | TGt => 62
  | TApp => 43
  end.

Definition wordchar (c : Z) : bool := negb (c =? 0) && negb (inset whitespace c) && negb (inset symbols c).
Definition word_wf (w : bytes) : Prop := w <> [] /\ Forall (fun c => wordchar c = true) w.
Definition tok_ok (t : token) : Prop :=
  match t with
  | TW w => word_wf w
  | TC c => c ∈ [124; 40; 41; 59; 38; 60]
  | _ => True
  end.

(** A token and the white space after it.  Two words need some in between, and
    so does a [>] before another one. *)
Definition stream : Type := list (token * bytes).
Definition sep (t : token) (l : stream) : Prop :=
  match t, l with
  | TW _, (TW _, _) :: _ | TGt, (TGt, _) :: _ | TGt, (TApp, _) :: _ => False
  | _, _ => True
  end.
Fixpoint stream_ok (l : stream) : Prop :=
  match l with
  | [] => True
  | (t, ws) :: l => tok_ok t /\ Forall (fun c => inset whitespace c = true) ws /\ (ws = [] -> sep t l) /\ stream_ok l
  end.
Fixpoint text (l : stream) : bytes :=
  match l with
  | [] => []
  | (t, ws) :: l => tok_bytes t ++ ws ++ text l
  end.
(** The first character. *)
Definition hd_char (l : stream) : Z :=
  match l with
  | [] => 0
  | (t, _) :: _ => chr (tok_bytes t) 0
  end.

Lemma stream_ok_app a b : stream_ok (a ++ b) -> stream_ok b.
Proof. induction a as [|[t ws] a IH]; [done|]. intros (_ & _ & _ & H). by apply IH. Qed.

Lemma inset_whitespace c : inset whitespace c = true <-> c = 32 \/ c = 9 \/ c = 13 \/ c = 10 \/ c = 11.
Proof. rewrite inset_iff by (repeat constructor; done). unfold whitespace. rewrite !elem_of_cons, elem_of_nil. tauto. Qed.
Lemma inset_sym c : inset symbols c = true <-> c = 62 \/ c ∈ [124; 40; 41; 59; 38; 60].
Proof.
  rewrite inset_iff by (repeat constructor; done). unfold symbols. rewrite !elem_of_cons, elem_of_nil. lia.
Qed.
Lemma wordchar_iff c : wordchar c = true <-> c <> 0 /\ inset whitespace c = false /\ inset symbols c = false.
Proof. unfold wordchar. rewrite !andb_true_iff, !negb_true_iff, Z.eqb_neq. tauto. Qed.

(** What the first character of a stream can be. *)
Inductive head_kind : stream -> Z -> Prop :=
| hk_nil : head_kind [] 0
| hk_word c w ws l : wordchar c = true -> head_kind ((TW (c :: w), ws) :: l) c
| hk_sym c ws l : c ∈ [124; 40; 41; 59; 38; 60] -> head_kind ((TC c, ws) :: l) c
| hk_gt ws l : head_kind ((TGt, ws) :: l) 62
| hk_app ws l : head_kind ((TApp, ws) :: l) 62.
Lemma head_kind_intro l : stream_ok l -> head_kind l (hd_char l).
Proof.
  destruct l as [|[[w|c| |] ws] l]; [constructor | | | constructor | constructor].
  - intros [[Hw Hc] _]. destruct Hc as [|c w Hc Hw']; [done|]. by constructor.
  - intros [Hc _]. by constructor.
Qed.
Lemma head_not_white l : stream_ok l -> inset whitespace (hd_char l) = false.
Proof.
  intros H. destruct (head_kind_intro l H) as [|c ? ? ? Hc|c ? ? Hc| |]; try done.
  - by apply wordchar_iff in Hc as (_ & ? & _).
  - apply not_true_iff_false. rewrite inset_whitespace. rewrite !elem_of_cons, elem_of_nil in Hc. lia.
Qed.
Lemma head_nonzero t ws l : stream_ok ((t, ws) :: l) -> hd_char ((t, ws) :: l) <> 0.
Proof.
  destruct t as [w|c| |]; intros [Ht _]; cbn [hd_char tok_bytes]; [|change (chr [c] 0) with c|done..].
  - destruct Ht as [Hw Hc]. destruct Hc as [|c w Hc _]; [done|]. by apply wordchar_iff in Hc as (? & _ & _).
  - cbn [tok_ok] in Ht. rewrite !elem_of_cons, elem_of_nil in Ht. lia.
Qed.

(** ** Commands and the grammar *)

Inductive ast :=
| XExec (argv : list bytes)
| XRedir (t : ast) (file : bytes) (mode fd : Z)
| XPipe (l r : ast)
| XList (l r : ast)
| XBack (t : ast).
Definition xredir : Type := bytes * Z * Z.
Definition xwrap (t : ast) (rs : list xredir) : ast := foldl (fun t '(f, mode, fd) => XRedir t f mode fd) t rs.
Fixpoint xbacks (n : nat) (t : ast) : ast :=
  match n with
  | O => t
  | S n => xbacks n (XBack t)
  end.

(** [<] reads, [>] and [>>] write; the shell does not tell the last two apart. *)
Definition redir_op (t : token) : option (Z * Z) :=
  match t with
  | TC 60 => Some (O_RDONLY, 0)
  | TGt | TApp => Some (Z.lor O_WRONLY O_CREATE, 1)
  | _ => None
  end.
Inductive g_redirs : list xredir -> stream -> Prop :=
| gr_nil : g_redirs [] []
| gr_cons op s f s' mode fd rs l : redir_op op = Some (mode, fd) -> g_redirs rs l ->
    g_redirs ((f, mode, fd) :: rs) ((op, s) :: (TW f, s') :: l).
(** Arguments, each with redirections after it. *)
Inductive g_args : list bytes -> list xredir -> stream -> Prop :=
| ga_nil : g_args [] [] []
| ga_cons w s rs l ws rs' l' : g_redirs rs l -> g_args ws rs' l' ->
    g_args (w :: ws) (rs ++ rs') ((TW w, s) :: l ++ l').
Definition ands (ss : list bytes) : stream := (fun s => (TC 38, s)) <$> ss.

Inductive g_line : ast -> stream -> Prop :=
| gl_one t l ss : g_pipe t l -> g_line (xbacks (length ss) t) (l ++ ands ss)
| gl_list t l ss s t' l' : g_pipe t l -> g_line t' l' ->
    g_line (XList (xbacks (length ss) t) t') (l ++ ands ss ++ (TC 59, s) :: l')
with g_pipe : ast -> stream -> Prop :=
| gp_one t l : g_exec t l -> g_pipe t l
| gp_pipe t l s t' l' : g_exec t l -> g_pipe t' l' -> g_pipe (XPipe t t') (l ++ (TC 124, s) :: l')
with g_exec : ast -> stream -> Prop :=
| gx_simple rs l ws rs' l' : g_redirs rs l -> g_args ws rs' l' -> lenZ ws < MAXARGS ->
    g_exec (xwrap (XExec ws) (rs ++ rs')) (l ++ l')
| gx_block s t l s' rs l' : g_line t l -> g_redirs rs l' ->
    g_exec (xwrap t rs) ((TC 40, s) :: l ++ (TC 41, s') :: l').
Scheme g_line_ind' := Minimality for g_line Sort Prop
  with g_pipe_ind' := Minimality for g_pipe Sort Prop
  with g_exec_ind' := Minimality for g_exec Sort Prop.
Combined Scheme g_all_ind from g_line_ind', g_pipe_ind', g_exec_ind'.

(** The abstract command that a command stands for in a buffer. *)
Fixpoint resolve (b : bytes) (c : cmd) : ast :=
  match c with
  | EXEC argv => XExec (word b <$> argv)
  | REDIR c file mode fd => XRedir (resolve b c) (word b file) mode fd
  | PIPE l r => XPipe (resolve b l) (resolve b r)
  | LIST l r => XList (resolve b l) (resolve b r)
  | BACK c => XBack (resolve b c)
  end.
(** Where [nulterminate] writes. *)
Fixpoint ends (c : cmd) : list Z :=
  match c with
  | EXEC argv => argv.*2
  | REDIR c file _ _ => ends c ++ [snd file]
  | PIPE l r | LIST l r => ends l ++ ends r
  | BACK c => ends c
  end.
Definition nuls (es : list Z) (b : bytes) : bytes := foldl (fun b e => upd b e 0) b es.
Lemma nulterminate_nuls c : forall b, nulterminate c b = nuls (ends c) b.
Proof.
  induction c as [argv|c IH f m d|l IHl r IHr|l IHl r IHr|c IH]; intros b; cbn [nulterminate ends]; unfold nuls in *.
  - revert b. induction argv as [|[q e] argv IH]; intros b; [done|]. cbn. apply IH.
  - by rewrite foldl_app, IH.
  - by rewrite foldl_app, IHr, IHl.
  - by rewrite foldl_app, IHr, IHl.
  - apply IH.
Qed.
Lemma chr_upd b e i : 0 <= e -> 0 <= i -> chr (upd b e 0) i = if i =? e then 0 else chr b i.
Proof.
  intros He Hi. unfold chr, upd. destruct (Z.eqb_spec i e) as [->|].
  - destruct (decide (Z.to_nat e < length b)%nat); [by rewrite list_lookup_insert_eq|].
    by rewrite lookup_ge_None_2 by (rewrite length_insert; lia).
  - by rewrite list_lookup_insert_ne by lia.
Qed.
Lemma chr_nuls l : forall b i, Forall (fun e => 0 <= e) l -> 0 <= i ->
  chr (nuls l b) i = if decide (i ∈ l) then 0 else chr b i.
Proof.
  induction l as [|e l IH]; intros b i Hl Hi; [done|]. apply Forall_cons in Hl as [He Hl].
  cbn [nuls foldl]. fold (nuls l (upd b e 0)). rewrite IH, chr_upd by done.
  repeat case_decide; rewrite elem_of_cons in *; destruct (Z.eqb_spec i e); naive_solver.
Qed.

(** A C string from its characters. *)
Lemma cstr_intro b : forall p w, 0 <= p -> Forall (fun c => c <> 0) w ->
  (forall i, 0 <= i < lenZ w -> chr b (p + i) = chr w i) -> chr b (p + lenZ w) = 0 ->
  cstr (drop (Z.to_nat p) b) = w.
Proof.
  intros p w Hp Hw. revert p Hp. induction Hw as [|c w Hc Hw IH]; intros p Hp Hchr Hend.
  - change (lenZ (@nil Z)) with 0 in Hend. rewrite Z.add_0_r in Hend. unfold chr in Hend.
    destruct (drop (Z.to_nat p) b) as [|x l] eqn:E; [done|].
    assert (b !! Z.to_nat p = Some x) as Hx by (rewrite <- (Nat.add_0_r (Z.to_nat p)), <- lookup_drop, E; done).
    rewrite Hx in Hend. cbn in Hend. by subst x.
  - rewrite lenZ_cons in *. pose proof (lenZ_nonneg w). pose proof (Hchr 0 ltac:(lia)) as H0. rewrite Z.add_0_r in H0.
    change (chr (c :: w) 0) with c in H0. unfold chr in H0.
    destruct (b !! Z.to_nat p) as [x|] eqn:E; cbn in H0; [|congruence]. subst x.
    rewrite (drop_S _ _ _ E). cbn [cstr]. rewrite (proj2 (Z.eqb_neq _ _) Hc). f_equal.
    replace (S (Z.to_nat p)) with (Z.to_nat (p + 1)) by lia. apply IH; [lia | |].
    + intros i Hi. replace (p + 1 + i) with (p + (i + 1)) by lia. rewrite Hchr by lia. unfold chr.
      by replace (Z.to_nat (i + 1)) with (S (Z.to_nat i)) by lia.
    + by replace (p + 1 + lenZ w) with (p + (lenZ w + 1)) by lia.
Qed.

Section lex.
Context (buf post : bytes) (es : Z).
Hypothesis Hes : chr buf es = 0.

(** The parser is at position [p], before [l]. *)
Record at_ (l : stream) (p : Z) : Prop := {
  at_pos : 0 <= p;
  at_text : drop (Z.to_nat p) buf = text l ++ 0 :: post;
  at_end : es = p + lenZ (text l)
}.

Lemma chr_drop (b : bytes) p i : 0 <= p -> 0 <= i -> chr b (p + i) = chr (drop (Z.to_nat p) b) i.
Proof. intros. unfold chr. rewrite lookup_drop. do 2 f_equal. lia. Qed.
Lemma at_chr l p i : at_ l p -> 0 <= i -> chr buf (p + i) = chr (text l ++ 0 :: post) i.
Proof. intros [Hp Ht _] Hi. by rewrite chr_drop, Ht. Qed.

Lemma text_head l : stream_ok l -> chr (text l ++ 0 :: post) 0 = hd_char l.
Proof. intros Hs. by destruct (head_kind_intro l Hs). Qed.
Lemma at_head l p : at_ l p -> stream_ok l -> chr buf p = hd_char l.
Proof.
  intros Ha Hs. rewrite <- (Z.add_0_r p), (at_chr l) by done. by apply text_head.
Qed.
Lemma at_le l p : at_ l p -> p <= es.
Proof. intros [_ _ ->]. pose proof (lenZ_nonneg (text l)). lia. Qed.
Lemma at_skip l p : at_ l p -> stream_ok l -> skip buf es p = p.
Proof.
  intros Ha Hs. apply skip_here; [by apply at_le in Ha|]. rewrite (at_head l) by done. by apply head_not_white.
Qed.

(** A run of characters. *)
Lemma scan_run (f : Z -> bool) a b n p : 0 <= p -> drop (Z.to_nat p) buf = a ++ b -> Forall (fun c => f c = true) a ->
  (length a <= n)%nat -> n = length a \/ f (chr b 0) = false -> scan buf f n p = p + lenZ a.
Proof.
  revert n p. induction a as [|c a IH]; intros n p Hp Hd Hf Hn Hstop.
  - change (lenZ (@nil Z)) with 0. destruct n as [|n]; cbn [scan]; [lia|]. destruct Hstop as [|Hstop]; [done|].
    rewrite <- (Z.add_0_r p), chr_drop, Hd by lia. cbn [app]. rewrite Hstop. lia.
  - destruct n as [|n]; [cbn in Hn; lia|]. apply Forall_cons in Hf as [Hc Hf]. cbn [scan].
    assert (chr buf p = c) as ->.
    { rewrite <- (Z.add_0_r p), chr_drop, Hd by lia. done. }
    rewrite Hc, lenZ_cons, IH; [lia | lia | | done | cbn in Hn; lia |].
    + replace (Z.to_nat (p + 1)) with (Z.to_nat p + 1)%nat by lia. by rewrite <- drop_drop, Hd.
    + destruct Hstop as [E|]; [left; cbn in E; lia | by right].
Qed.

(** White space after a token. *)
Lemma skip_run ws l p : 0 <= p -> drop (Z.to_nat p) buf = ws ++ text l ++ 0 :: post ->
  Forall (fun c => inset whitespace c = true) ws -> stream_ok l -> es = p + lenZ ws + lenZ (text l) ->
  skip buf es p = p + lenZ ws /\ at_ l (p + lenZ ws).
Proof.
  intros Hp Hd Hws Hs He. pose proof (lenZ_nonneg (text l)). split.
  - apply (scan_run _ ws (text l ++ 0 :: post)); [done | done | done | unfold lenZ in *; lia|]. right.
    rewrite text_head by done. by apply head_not_white.
  - split; [pose proof (lenZ_nonneg ws); lia | | lia]. unfold lenZ.
    replace (Z.to_nat (p + Z.of_nat (length ws))) with (Z.to_nat p + length ws)%nat by lia.
    by rewrite <- drop_drop, Hd, drop_app_length.
Qed.

Lemma wp_peek l p toks (Q : bool -> Z -> Prop) : at_ l p -> stream_ok l ->
  Q (negb (hd_char l =? 0) && inset toks (hd_char l)) p -> wp (peek buf es toks) p Q.
Proof.
  intros Ha Hs HQ. unfold peek. wp_steps. rewrite (at_skip l) by done. by rewrite (at_head l).
Qed.

(** The characters that end a word. *)
Lemma after_word w ws l : stream_ok ((TW w, ws) :: l) -> wordchar (chr (ws ++ text l ++ 0 :: post) 0) = false.
Proof.
  intros (_ & Hws & Hsep & Hs). apply not_true_iff_false. rewrite wordchar_iff.
  destruct Hws as [|c ws Hc Hws]; [|change (chr ((c :: ws) ++ text l ++ 0 :: post) 0) with c; rewrite Hc; naive_solver].
  specialize (Hsep eq_refl). cbn [app].
  destruct (head_kind_intro l Hs) as [|c w' ? ? Hc|c ws' ? Hc| |]; [naive_solver | done | | |].
  - assert (inset symbols c = true) by (apply inset_sym; auto).
    change (chr (text ((TC c, ws') :: l) ++ 0 :: post) 0) with c. intros (_ & _ & ?). congruence.
  - by intros (_ & _ & ?).
  - by intros (_ & _ & ?).
Qed.

(** A word of the line, cut out by two offsets. *)
Record word_at (w : Z * Z) (b : bytes) : Prop := {
  wa_wf : word_wf b;
  wa_pos : 0 <= fst w;
  wa_end : snd w = fst w + lenZ b;
  wa_chr : forall i, 0 <= i < lenZ b -> chr buf (fst w + i) = chr b i;
  wa_stop : wordchar (chr buf (snd w)) = false
}.

Lemma at_next t ws l p : at_ ((t, ws) :: l) p -> stream_ok ((t, ws) :: l) ->
  exists p', skip buf es (p + lenZ (tok_bytes t)) = p' /\ at_ l p' /\ p < p'.
Proof.
  intros [Hp Ht He] (Htok & Hws & _ & Hs). cbn [text] in *. rewrite !lenZ_app in He. eexists. split; [done|].
  destruct (skip_run ws l (p + lenZ (tok_bytes t))) as [-> Ha]; try done; try lia; [| |split; [done|]].
  - pose proof (lenZ_nonneg (tok_bytes t)). lia.
  - unfold lenZ. replace (Z.to_nat (p + Z.of_nat (length (tok_bytes t)))) with (Z.to_nat p + length (tok_bytes t))%nat by lia.
    by rewrite <- drop_drop, Ht, <- !app_assoc, drop_app_length.
  - assert (0 < lenZ (tok_bytes t)); [|pose proof (lenZ_nonneg ws); lia].
    destruct t as [w|c| |]; try done. destruct Htok as [Hne _], w as [|c w]; [done|].
    cbn [tok_bytes]. rewrite lenZ_cons. pose proof (lenZ_nonneg w). lia.
Qed.
Lemma at_word w ws l p : at_ ((TW w, ws) :: l) p -> stream_ok ((TW w, ws) :: l) ->
  word_at (p, p + lenZ w) w /\ word_end buf es p = p + lenZ w.
Proof.
  intros Ha Hs. pose proof (after_word w ws l Hs) as Hst. destruct Hs as ([Hne Hw] & Hws & _ & Hsl).
  destruct Ha as [Hp Ht He]. cbn [text tok_bytes] in *. rewrite <- !app_assoc in Ht.
  assert (forall i, 0 <= i -> chr buf (p + i) = chr (w ++ ws ++ text l ++ 0 :: post) i) as Hchr
    by (intros i Hi; by rewrite chr_drop, Ht by lia).
  split.
  - split; cbn [fst snd]; try done.
    + intros i Hi. rewrite Hchr by lia. unfold chr. rewrite lookup_app_l; [done | unfold lenZ in *; lia].
    + rewrite Hchr by apply lenZ_nonneg. unfold chr, lenZ in *.
      rewrite lookup_app_r, Nat2Z.id, Nat.sub_diag by lia. exact Hst.
  - apply (scan_run _ w (ws ++ text l ++ 0 :: post)); try done.
    + eapply Forall_impl; [exact Hw|]. intros c (_ & -> & ->)%wordchar_iff. done.
    + rewrite !lenZ_app in He. unfold lenZ in *. lia.
    + rewrite !lenZ_app in He. destruct ws as [|c ws].
      * destruct l as [|[t ws'] l]; [left; unfold lenZ in *; cbn in He; lia|]. right.
        cbn [app] in *. apply not_true_iff_false in Hst. rewrite wordchar_iff in Hst.
        apply not_true_iff_false. rewrite andb_true_iff, !negb_true_iff. intros Hcon. apply Hst. split; [|done].
        rewrite text_head by done. by apply head_nonzero.
      * right. change (chr ((c :: ws) ++ text l ++ 0 :: post) 0) with c.
        apply Forall_cons in Hws as [Hc _]. by rewrite Hc.
Qed.

(** A [>] that is not the start of [>>]. *)
Lemma after_gt ws l : stream_ok ((TGt, ws) :: l) -> chr ((ws ++ text l) ++ 0 :: post) 0 <> 62.
Proof.
  intros (_ & Hws & Hsep & Hs). destruct Hws as [|c ws Hc Hws].
  - specialize (Hsep eq_refl). cbn [app]. rewrite text_head by done.
    destruct (head_kind_intro l Hs) as [|c w' ? ? Hc|c ws' ? Hc| |]; try done.
    + apply wordchar_iff in Hc as (_ & _ & Hc). by intros ->.
    + rewrite !elem_of_cons, elem_of_nil in Hc. lia.
  - change (c <> 62). rewrite inset_whitespace in Hc. lia.
Qed.

Lemma wp_gettoken t ws l p (Q : Z * (Z * Z) -> Z -> Prop) :
  at_ ((t, ws) :: l) p -> stream_ok ((t, ws) :: l) ->
  (forall p', at_ l p' -> p < p' -> Q (code t, (p, p + lenZ (tok_bytes t))) p') -> wp (gettoken buf es) p Q.
Proof.
  intros Ha Hs HQ. unfold gettoken. wp_steps. rewrite (at_skip _ _ Ha Hs), (at_head _ _ Ha Hs).
  destruct (at_next _ _ _ _ Ha Hs) as (p' & Hp' & Ha' & Hlt).
  pose proof (head_nonzero _ _ _ Hs) as Hnz. rewrite (proj2 (Z.eqb_neq _ _) Hnz).
  specialize (HQ p' Ha' Hlt). pose proof Hs as (Htok & _ & Hsep & _).
  destruct t as [w|c| |]; cbn [hd_char tok_bytes code] in *.
  - destruct (at_word _ _ _ _ Ha Hs) as [_ Hend]. rewrite Hend.
    destruct Htok as [Hne Hw]. destruct Hw as [|c w Hc Hw]; [done|]. change (chr (c :: w) 0) with c in *.
    apply wordchar_iff in Hc as (_ & _ & Hsy).
    destruct (inset [124; 40; 41; 59; 38; 60] c) eqn:E1.
    { rewrite inset_iff in E1 by (repeat constructor; done). rewrite (proj2 (inset_sym c)) in Hsy by auto. done. }
    rewrite (proj2 (Z.eqb_neq c 62)) by (intros ->; done). rewrite Hp'. by wp_steps.
  - change (chr [c] 0) with c in *. cbn [tok_ok] in Htok.
    rewrite (proj2 (inset_iff [124; 40; 41; 59; 38; 60] c ltac:(repeat constructor; done)) Htok).
    change (lenZ [c]) with 1 in *. rewrite Hp'. by wp_steps.
  - change (chr [62] 0) with 62 in *. change (inset [124; 40; 41; 59; 38; 60] 62) with false. cbn [Z.eqb Pos.eqb].
    rewrite (at_chr _ p 1 Ha) by lia. cbn [text tok_bytes].
    change (chr (([62] ++ ws ++ text l) ++ 0 :: post) 1) with (chr ((ws ++ text l) ++ 0 :: post) 0).
    rewrite (proj2 (Z.eqb_neq _ 62)); [change (lenZ [62]) with 1 in *; rewrite Hp'; by wp_steps|].
    by apply (after_gt ws).
  - change (chr [62; 62] 0) with 62 in *. change (inset [124; 40; 41; 59; 38; 60] 62) with false. cbn [Z.eqb Pos.eqb].
    rewrite (at_chr _ p 1 Ha) by lia. change (chr (text ((TApp, ws) :: l) ++ 0 :: post) 1) with 62. cbn [Z.eqb Pos.eqb].
    change (lenZ [62; 62]) with 2 in *. rewrite Hp'. by wp_steps.
Qed.
Lemma wp_gettoken_end p (Q : Z * (Z * Z) -> Z -> Prop) : at_ [] p -> Q (0, (p, p)) p -> wp (gettoken buf es) p Q.
Proof.
  intros Ha HQ. unfold gettoken. wp_steps. rewrite (at_skip [] p Ha ltac:(done)), (at_head [] p Ha ltac:(done)).
  change (hd_char [] =? 0) with true. cbv iota. rewrite (at_skip [] p Ha ltac:(done)). by wp_steps.
Qed.

(** ** The parser on a line of the grammar *)

(** A command of the parser and the abstract command it stands for. *)
Definition redir_at (r : redir) (x : xredir) : Prop := word_at r.1.1 x.1.1 /\ r.1.2 = x.1.2 /\ r.2 = x.2.
Inductive rep : cmd -> ast -> Prop :=
| rep_exec argv ws : Forall2 word_at argv ws -> rep (EXEC argv) (XExec ws)
| rep_redir c t w f mode fd : rep c t -> word_at w f -> rep (REDIR c w mode fd) (XRedir t f mode fd)
| rep_pipe c1 c2 t1 t2 : rep c1 t1 -> rep c2 t2 -> rep (PIPE c1 c2) (XPipe t1 t2)
| rep_list c1 c2 t1 t2 : rep c1 t1 -> rep c2 t2 -> rep (LIST c1 c2) (XList t1 t2)
| rep_back c t : rep c t -> rep (BACK c) (XBack t).
Lemma rep_wrap c t rs xs : rep c t -> Forall2 redir_at rs xs -> rep (wrap c rs) (xwrap t xs).
Proof.
  intros Hc Hrs. revert c t Hc. induction Hrs as [|[[w m] d] [[f m'] d'] rs xs (Hw & Hm & Hd) _ IH]; intros c t Hc; [done|].
  cbn in *. subst. apply IH. by constructor.
Qed.

Lemma wp_backs_loop ss rest : forall n c t p, at_ (ands ss ++ rest) p -> stream_ok (ands ss ++ rest) ->
  hd_char rest <> 38 -> es - p < Z.of_nat n -> rep c t ->
  wp (backs_loop buf es n c) p (fun c p' => at_ rest p' /\ p <= p' /\ rep c (xbacks (length ss) t)).
Proof.
  induction ss as [|s ss IH]; intros n c t p Ha Hs Hh Hn Hc; pose proof (at_le _ _ Ha);
    (destruct n as [|n]; [lia|]); cbn [backs_loop ands fmap list_fmap app] in *; wp_step;
    (eapply wp_peek; [done | done|]).
  - assert (negb (hd_char rest =? 0) && inset [38] (hd_char rest) = false) as ->.
    { apply andb_false_iff. right. apply not_true_iff_false. rewrite inset_iff by (repeat constructor; done).
      rewrite list_elem_of_singleton. done. }
    wp_step. split; [done | split; [lia | done]].
  - change (negb _ && _) with true. cbv iota. wp_step. eapply wp_gettoken; [done | done|]. intros p' Ha' Hlt.
    eapply wp_mono; [apply (IH _ _ (XBack t) p'); [done | | done | lia | by constructor]|].
    + by apply (stream_ok_app [(TC 38, s)]).
    + intros c' p'' (? & ? & ?). split_and!; [done | lia | done].
Qed.

(** Where redirections end. *)
Lemma no_redir l : stream_ok l -> hd_char l <> 60 -> hd_char l <> 62 ->
  negb (hd_char l =? 0) && inset [60; 62] (hd_char l) = false.
Proof.
  intros Hs H1 H2. apply andb_false_iff. right. apply not_true_iff_false.
  rewrite inset_iff by (repeat constructor; done). rewrite !elem_of_cons, elem_of_nil. lia.
Qed.
Lemma redir_op_inv op mode fd : redir_op op = Some (mode, fd) -> tok_ok op ->
  hd_char [(op, [])] = 60 /\ code op = 60 /\ mode = O_RDONLY /\ fd = 0 \/
  hd_char [(op, [])] = 62 /\ (code op = 62 \/ code op = 43) /\ mode = Z.lor O_WRONLY O_CREATE /\ fd = 1.
Proof.
  destruct op as [w|c| |]; intros E Ht; simplify_eq/=; [|naive_solver..].
  destruct (decide (c = 60)) as [->|]; [simplify_eq; by left|]. repeat (case_match; simplify_eq/=; try done).
Qed.

Lemma wp_parseredirs_loop rs l rest : g_redirs rs l -> forall n acc p, at_ (l ++ rest) p -> stream_ok (l ++ rest) ->
  hd_char rest <> 60 -> hd_char rest <> 62 -> es - p < Z.of_nat n ->
  wp (parseredirs_loop buf es n acc) p (fun rs' p' => at_ rest p' /\ p <= p' /\
    exists rs0, rs' = acc ++ rs0 /\ Forall2 redir_at rs0 rs).
Proof.
  intros Hg. induction Hg as [|op s f s' mode fd rs l Hop Hg IH]; intros n acc p Ha Hs H1 H2 Hn;
    pose proof (at_le _ _ Ha); (destruct n as [|n]; [lia|]); cbn [parseredirs_loop app] in *; wp_step;
    (eapply wp_peek; [done | done|]).
  - rewrite no_redir by done. wp_step. split_and!; [done | lia|]. exists []. by rewrite app_nil_r.
  - pose proof Hs as (Htok & _ & _ & Hs1). pose proof Hs1 as (_ & _ & _ & Hs2).
    destruct (redir_op_inv _ _ _ Hop Htok) as [(Hh & Hcode & -> & ->)|(Hh & Hcode & -> & ->)].
    all: change (hd_char ((op, s) :: (TW f, s') :: l ++ rest)) with (hd_char [(op, [])]); rewrite Hh;
      change (negb _ && _) with true; cbv iota; wp_step; (eapply wp_gettoken; [done | done|]); intros p1 Ha1 Hlt1;
      wp_step; (eapply wp_gettoken; [done | done|]); intros p2 Ha2 Hlt2; cbn [fst snd code]; wp_steps; [done|];
      destruct (at_word _ _ _ _ Ha1 Hs1) as [Hw _].
    + rewrite Hcode. cbn [Z.eqb Pos.eqb]. eapply wp_mono; [apply IH; try done; lia|].
      intros rs' p' (? & ? & rs0 & -> & Hrs). split_and!; [done | lia|].
      eexists. split; [by rewrite <- app_assoc|]. constructor; [|done]. by split_and!.
    + assert ((if code op =? 60 then [((p1, p1 + lenZ (tok_bytes (TW f))), O_RDONLY, 0)]
        else if code op =? 62 then [((p1, p1 + lenZ (tok_bytes (TW f))), Z.lor O_WRONLY O_CREATE, 1)]
        else if code op =? 43 then [((p1, p1 + lenZ (tok_bytes (TW f))), Z.lor O_WRONLY O_CREATE, 1)] else [])
        = [((p1, p1 + lenZ f), Z.lor O_WRONLY O_CREATE, 1)]) as -> by (by destruct Hcode as [-> | ->]).
      eapply wp_mono; [apply IH; try done; lia|].
      intros rs' p' (? & ? & rs0 & -> & Hrs). split_and!; [done | lia|].
      eexists. split; [by rewrite <- app_assoc|]. constructor; [|done]. by split_and!.
Qed.
Lemma wp_parseredirs rs l rest p : g_redirs rs l -> at_ (l ++ rest) p -> stream_ok (l ++ rest) ->
  hd_char rest <> 60 -> hd_char rest <> 62 ->
  wp (parseredirs buf es) p (fun rs' p' => at_ rest p' /\ p <= p' /\ Forall2 redir_at rs' rs).
Proof.
  intros Hg Ha Hs H1 H2. pose proof (at_le _ _ Ha). unfold parseredirs, turns. wp_steps.
  eapply wp_mono; [apply (wp_parseredirs_loop rs l rest); try done; lia|].
  intros rs' p' (? & ? & rs0 & -> & ?). done.
Qed.

Definition follow_exec (l : stream) : Prop := hd_char l ∈ [0; 41; 38; 59; 124].
Definition follow_pipe (l : stream) : Prop := hd_char l ∈ [0; 41; 38; 59].
Definition follow_line (l : stream) : Prop := hd_char l ∈ [0; 41].

Lemma hd_zero l : stream_ok l -> hd_char l = 0 -> l = [].
Proof. destruct l as [|[t ws] l]; [done|]. intros Hs. by intros ?%head_nonzero. Qed.
(** Words start with a character that is not a symbol. *)
Lemma head_word w s l : stream_ok ((TW w, s) :: l) -> inset symbols (hd_char ((TW w, s) :: l)) = false.
Proof. intros [[Hw Hc] _]. destruct Hc as [|c w Hc _]; [done|]. by apply wordchar_iff in Hc as (_ & _ & ?). Qed.
Lemma args_head ws rs l rest : g_args ws rs l -> stream_ok (l ++ rest) -> follow_exec rest ->
  hd_char (l ++ rest) <> 60 /\ hd_char (l ++ rest) <> 62 /\ hd_char (l ++ rest) <> 40.
Proof.
  unfold follow_exec. intros [|w s rs1 l1 ws1 rs2 l2 _ _] Hs Hf; cbn [app] in *.
  - rewrite !elem_of_cons, elem_of_nil in Hf. lia.
  - apply head_word in Hs. split_and!; intros E; rewrite E in Hs; done.
Qed.
Lemma wp_parseexec_loop ws rs l rest : g_args ws rs l -> forall n argv rs0 ws0 xs0 p,
  at_ (l ++ rest) p -> stream_ok (l ++ rest) -> follow_exec rest -> es - p < Z.of_nat n ->
  Forall2 word_at argv ws0 -> Forall2 redir_at rs0 xs0 -> lenZ ws0 + lenZ ws < MAXARGS ->
  wp (parseexec_loop buf es n argv rs0) p (fun c p' => at_ rest p' /\ p <= p' /\
    rep c (xwrap (XExec (ws0 ++ ws)) (xs0 ++ rs))).
Proof.
  intros Hg. induction Hg as [|w s rs l ws rs' l' Hr Hg IH]; intros n argv rs0 ws0 xs0 p Ha Hs Hf Hn Hargv Hrs Hlen;
    pose proof (at_le _ _ Ha); (destruct n as [|n]; [lia|]); cbn [parseexec_loop app] in *; wp_step;
    (eapply wp_peek; [done | done|]).
  - rewrite !app_nil_r. assert (rep (wrap (EXEC argv) rs0) (xwrap (XExec ws0) xs0)) as Hrep
      by (by apply rep_wrap; [constructor|]).
    destruct (decide (hd_char rest = 0)) as [E|E].
    + apply hd_zero in E as ->; [|done]. change (negb _ && _) with false. cbv iota. wp_step.
      apply wp_gettoken_end; [done|]. change (fst _ =? 0) with true. cbv iota. wp_step. by split_and!.
    + unfold follow_exec in Hf. rewrite !elem_of_cons, elem_of_nil in Hf.
      assert (negb (hd_char rest =? 0) && inset [124; 41; 38; 59] (hd_char rest) = true) as ->.
      { apply andb_true_iff. split; [by apply negb_true_iff, Z.eqb_neq|].
        apply inset_iff; [repeat constructor; done|]. rewrite !elem_of_cons, elem_of_nil. lia. }
      wp_step. by split_and!.
  - assert (inset [124; 41; 38; 59] (hd_char ((TW w, s) :: (l ++ l') ++ rest)) = false) as ->.
    { pose proof (head_word _ _ _ Hs) as Hc. apply not_true_iff_false in Hc. apply not_true_iff_false.
      rewrite inset_iff by (repeat constructor; done). rewrite inset_sym in Hc. intros Hin. apply Hc. right.
      rewrite !elem_of_cons, elem_of_nil in *. lia. }
    rewrite andb_false_r. wp_step. eapply wp_gettoken; [done | done|]. intros p1 Ha1 Hlt1. cbn [fst snd code].
    change (97 =? 0) with false. cbv iota. pose proof (Forall2_length _ _ _ Hargv) as Hl.
    rewrite lenZ_cons in Hlen. pose proof (lenZ_nonneg ws).
    destruct (at_word _ _ _ _ Ha Hs) as [Hw _]. pose proof Hs as (_ & _ & _ & Hs1).
    wp_steps; [done | apply Z.leb_gt; rewrite lenZ_app, lenZ_cons; unfold lenZ in *; cbn; lia|].
    rewrite <- app_assoc in Ha1, Hs1. destruct (args_head ws rs' l' rest Hg) as (H1 & H2 & _);
      [by apply stream_ok_app in Hs1 | done|].
    eapply wp_mono; [apply (wp_parseredirs rs l (l' ++ rest)); done|]. intros rs1 p2 (Ha2 & Hle2 & Hrs1). cbv beta.
    eapply wp_mono; [apply (IH n (argv ++ [(p, p + lenZ w)]) (rs0 ++ rs1) (ws0 ++ [w]) (xs0 ++ rs) p2); try done; try lia|].
    + by apply stream_ok_app in Hs1.
    + by apply Forall2_app; [|constructor].
    + by apply Forall2_app.
    + rewrite lenZ_app, lenZ_cons. change (lenZ (@nil bytes)) with 0. lia.
    + intros c p' (? & ? & Hc). rewrite <- !app_assoc in Hc. split_and!; [done | lia | done].
Qed.

Lemma peek_not h toks : Forall (fun x => x <> 0) toks -> h ∉ toks -> negb (h =? 0) && inset toks h = false.
Proof.
  intros Ht Hh. apply andb_false_iff. right. apply not_true_iff_false. by rewrite inset_iff.
Qed.
Ltac peek_done := rewrite peek_not; [|repeat constructor; done|
  unfold follow_exec, follow_pipe, follow_line in *; rewrite !elem_of_cons, elem_of_nil in *; lia].

Lemma ands_follow ss rest : hd_char rest ∈ [0; 41; 59] -> follow_pipe (ands ss ++ rest).
Proof.
  unfold follow_pipe. rewrite !elem_of_cons, elem_of_nil. destruct ss as [|s ss]; [cbn [ands fmap list_fmap app]; lia|].
  change (hd_char (ands (s :: ss) ++ rest)) with 38. lia.
Qed.
(** A command that is not a block does not start with a parenthesis. *)
Lemma simple_head rs l ws rs' l' rest : g_redirs rs l -> g_args ws rs' l' -> stream_ok (l ++ l' ++ rest) ->
  follow_exec rest -> hd_char (l ++ l' ++ rest) <> 40.
Proof.
  intros Hr Hg Hs Hf. destruct Hr as [|op s f s' mode fd rs l Hop _].
  - by apply (args_head ws rs' l' rest).
  - destruct (redir_op_inv _ _ _ Hop (proj1 Hs)) as [(Hh & _)|(Hh & _)];
      change (hd_char [(op, [])] <> 40); lia.
Qed.

(** What a function of the parser does before a part of the line. *)
Definition parsed (f : nat -> ST Z cmd) (k : Z) (follow : stream -> Prop) (t : ast) (l : stream) : Prop :=
  forall fuel p rest, at_ (l ++ rest) p -> stream_ok (l ++ rest) -> follow rest ->
    4 * (es - p) + k <= Z.of_nat fuel ->
    wp (f fuel) p (fun c p' => at_ rest p' /\ p <= p' /\ rep c t).
Definition parsed_line : ast -> stream -> Prop := parsed (parseline buf es) 4 follow_line.
Definition parsed_pipe : ast -> stream -> Prop := parsed (parsepipe buf es) 3 follow_pipe.
Definition parsed_exec : ast -> stream -> Prop := parsed (parseexec buf es) 2 follow_exec.

Lemma parsed_line_one t l ss : parsed_pipe t l -> parsed_line (xbacks (length ss) t) (l ++ ands ss).
Proof.
  intros IH fuel p rest Ha Hs Hf Hn. pose proof (at_le _ _ Ha). destruct fuel as [|fuel]; [lia|].
  cbn [parseline]. rewrite <- app_assoc in Ha, Hs. wp_step.
  eapply wp_mono; [apply (IH fuel p (ands ss ++ rest)); try done; try lia|].
  { apply ands_follow. unfold follow_line in Hf. rewrite !elem_of_cons, elem_of_nil in *. lia. }
  intros c p1 (Ha1 & Hle1 & Hc). unfold turns. wp_steps. apply stream_ok_app in Hs.
  eapply wp_mono; [apply (wp_backs_loop ss rest _ c t p1); try done; try lia|].
  { unfold follow_line in Hf. rewrite !elem_of_cons, elem_of_nil in *. lia. }
  intros c' p2 (Ha2 & Hle2 & Hc'). apply stream_ok_app in Hs. wp_step. eapply wp_peek; [done | done|].
  peek_done. wp_step. split_and!; [done | lia | done].
Qed.
Lemma parsed_line_list t l ss s t' l' : parsed_pipe t l -> parsed_line t' l' ->
  parsed_line (XList (xbacks (length ss) t) t') (l ++ ands ss ++ (TC 59, s) :: l').
Proof.
  intros IH IHl fuel p rest Ha Hs Hf Hn. pose proof (at_le _ _ Ha). destruct fuel as [|fuel]; [lia|].
  cbn [parseline]. rewrite <- !app_assoc in Ha, Hs. cbn [app] in Ha, Hs. wp_step.
  eapply wp_mono; [apply (IH fuel p (ands ss ++ (TC 59, s) :: l' ++ rest)); try done; try lia|].
  { apply ands_follow. change (hd_char _) with 59. rewrite !elem_of_cons. lia. }
  intros c p1 (Ha1 & Hle1 & Hc). unfold turns. wp_steps. apply stream_ok_app in Hs.
  eapply wp_mono; [apply (wp_backs_loop ss ((TC 59, s) :: l' ++ rest) _ c t p1); try done; try lia|].
  intros c' p2 (Ha2 & Hle2 & Hc'). apply stream_ok_app in Hs. wp_step. eapply wp_peek; [done | done|].
  change (negb _ && _) with true. cbv iota. wp_step. eapply wp_gettoken; [done | done|]. intros p3 Ha3 Hlt3.
  wp_step. eapply wp_mono; [apply (IHl fuel p3 rest); try done; try lia; by apply (stream_ok_app [(TC 59, s)])|].
  intros c2 p4 (Ha4 & Hle4 & Hc2). wp_step. split_and!; [done | lia | by constructor].
Qed.
Lemma parsed_pipe_one t l : parsed_exec t l -> parsed_pipe t l.
Proof.
  intros IH fuel p rest Ha Hs Hf Hn. pose proof (at_le _ _ Ha). destruct fuel as [|fuel]; [lia|].
  cbn [parsepipe]. wp_step. eapply wp_mono; [apply (IH fuel p rest); try done; try lia|].
  { unfold follow_exec, follow_pipe in *. rewrite !elem_of_cons, elem_of_nil in *. lia. }
  intros c p1 (Ha1 & Hle1 & Hc). apply stream_ok_app in Hs. wp_step. eapply wp_peek; [done | done|].
  peek_done. wp_step. split_and!; [done | lia | done].
Qed.
Lemma parsed_pipe_pipe t l s t' l' : parsed_exec t l -> parsed_pipe t' l' -> parsed_pipe (XPipe t t') (l ++ (TC 124, s) :: l').
Proof.
  intros IH IHp fuel p rest Ha Hs Hf Hn. pose proof (at_le _ _ Ha). destruct fuel as [|fuel]; [lia|].
  cbn [parsepipe]. rewrite <- !app_assoc in Ha, Hs. cbn [app] in Ha, Hs. wp_step.
  eapply wp_mono; [apply (IH fuel p ((TC 124, s) :: l' ++ rest)); try done; try lia|].
  { unfold follow_exec. change (hd_char _) with 124. rewrite !elem_of_cons. lia. }
  intros c p1 (Ha1 & Hle1 & Hc). apply stream_ok_app in Hs. wp_step. eapply wp_peek; [done | done|].
  change (negb _ && _) with true. cbv iota. wp_step. eapply wp_gettoken; [done | done|]. intros p3 Ha3 Hlt3.
  wp_step. eapply wp_mono; [apply (IHp fuel p3 rest); try done; try lia; by apply (stream_ok_app [(TC 124, s)])|].
  intros c2 p4 (Ha4 & Hle4 & Hc2). wp_step. split_and!; [done | lia | by constructor].
Qed.
Lemma parsed_exec_simple rs l ws rs' l' : g_redirs rs l -> g_args ws rs' l' -> lenZ ws < MAXARGS ->
  parsed_exec (xwrap (XExec ws) (rs ++ rs')) (l ++ l').
Proof.
  intros Hr Hg Hlen fuel p rest Ha Hs Hf Hn. pose proof (at_le _ _ Ha). destruct fuel as [|fuel]; [lia|].
  cbn [parseexec]. rewrite <- app_assoc in Ha, Hs. wp_step. eapply wp_peek; [done | done|].
  pose proof (simple_head _ _ _ _ _ _ Hr Hg Hs Hf) as Hh.
  rewrite peek_not by (repeat constructor; done || rewrite list_elem_of_singleton; done).
  destruct (args_head ws rs' l' rest Hg) as (H1 & H2 & _); [by apply stream_ok_app in Hs | done|].
  wp_step. eapply wp_mono; [apply (wp_parseredirs rs l (l' ++ rest)); done|]. intros rs1 p1 (Ha1 & Hle1 & Hrs1).
  unfold turns. wp_steps. apply stream_ok_app in Hs. pose proof (at_le _ _ Ha1).
  eapply wp_mono; [apply (wp_parseexec_loop ws rs' l' rest Hg _ [] rs1 [] rs p1); try done; lia|].
  intros c p2 (? & ? & ?). split_and!; [done | lia | done].
Qed.
Lemma parsed_exec_block s t l s' rs l' : parsed_line t l -> g_redirs rs l' ->
  parsed_exec (xwrap t rs) ((TC 40, s) :: l ++ (TC 41, s') :: l').
Proof.
  intros IH Hr fuel p rest Ha Hs Hf Hn. pose proof (at_le _ _ Ha).
  destruct fuel as [|[|fuel]]; [lia | lia|]. cbn [parseexec parseblock app] in *. rewrite <- !app_assoc in Ha, Hs. cbn [app] in Ha, Hs.
  wp_step. eapply wp_peek; [done | done|]. change (negb _ && _) with true. cbv iota.
  wp_step. eapply wp_peek; [done | done|]. wp_steps; [done|].
  eapply wp_gettoken; [done | done|]. intros p1 Ha1 Hlt1. apply (stream_ok_app [(TC 40, s)]) in Hs.
  wp_step. eapply wp_mono; [apply (IH fuel p1 ((TC 41, s') :: l' ++ rest)); try done; try lia|].
  { unfold follow_line. change (hd_char _) with 41. rewrite !elem_of_cons. lia. }
  intros c p2 (Ha2 & Hle2 & Hc). apply stream_ok_app in Hs. wp_step. eapply wp_peek; [done | done|]. wp_steps; [done|].
  eapply wp_gettoken; [done | done|]. intros p3 Ha3 Hlt3. apply (stream_ok_app [(TC 41, s')]) in Hs.
  wp_step. eapply wp_mono; [apply (wp_parseredirs rs l' rest); try done;
    unfold follow_exec in Hf; rewrite !elem_of_cons, elem_of_nil in Hf; lia|].
  intros rs1 p4 (Ha4 & Hle4 & Hrs1). wp_step. split_and!; [done | lia | by apply rep_wrap].
Qed.

Lemma wp_parsers :
  (forall t l, g_line t l -> parsed_line t l) /\ (forall t l, g_pipe t l -> parsed_pipe t l) /\
  (forall t l, g_exec t l -> parsed_exec t l).
Proof.
  apply g_all_ind; intros; eauto using parsed_line_one, parsed_line_list, parsed_pipe_one, parsed_pipe_pipe,
    parsed_exec_simple, parsed_exec_block.
Qed.

(** ** Cutting the words off *)

Lemma rep_ends c t : rep c t -> Forall (fun e => 0 <= e /\ wordchar (chr buf e) = false) (ends c).
Proof.
  assert (forall w f, word_at w f -> 0 <= snd w /\ wordchar (chr buf (snd w)) = false) as Hw.
  { intros w f [_ ? -> _ ?]. pose proof (lenZ_nonneg f). split; [lia | done]. }
  induction 1 as [argv ws Ha| | | |]; cbn [ends]; auto using Forall_app_2; [|by apply Forall_app_2; eauto].
  induction Ha as [|w f argv ws Hwf Ha IH]; constructor; eauto.
Qed.
Lemma word_nuls l w f : Forall (fun e => 0 <= e /\ wordchar (chr buf e) = false) l -> snd w ∈ l -> word_at w f ->
  word (nuls l buf) w = f.
Proof.
  intros Hl Hin [[Hne Hwf] Hp He Hc Hs]. unfold word. pose proof (lenZ_nonneg f).
  assert (Forall (fun e => 0 <= e) l) as Hl0 by (eapply Forall_impl; [exact Hl | naive_solver]).
  apply cstr_intro; [done | eapply Forall_impl; [exact Hwf|]; by intros x (? & _)%wordchar_iff | |].
  - intros i Hi. rewrite chr_nuls by (done || lia). case_decide as Hd; [|by apply Hc].
    rewrite Forall_forall in Hl. destruct (Hl _ Hd) as [_ Hnw]. rewrite Hc in Hnw by lia.
    rewrite Forall_lookup in Hwf. unfold lenZ in *. destruct (lookup_lt_is_Some_2 f (Z.to_nat i)) as [x Hx]; [lia|].
    apply Hwf in Hx as Hx'. unfold chr in Hnw. rewrite Hx in Hnw. cbn in Hnw. congruence.
  - rewrite chr_nuls by (done || lia). rewrite <- He. by case_decide.
Qed.
Lemma resolve_nuls l c t : rep c t -> Forall (fun e => 0 <= e /\ wordchar (chr buf e) = false) l ->
  ends c ⊆ l -> resolve (nuls l buf) c = t.
Proof.
  intros Hr Hl. induction Hr as [argv ws Ha|c t w f m d Hr IH Hw| | |]; cbn [ends resolve]; intros Hin.
  - f_equal. induction Ha as [|w f argv ws Hw Ha IH]; [done|]. cbn in *. rewrite (word_nuls l w f); try done; [|set_solver].
    f_equal. apply IH. set_solver.
  - rewrite IH by set_solver. by rewrite (word_nuls l w f) by (done || set_solver).
  - f_equal; set_solver.
  - f_equal; set_solver.
  - f_equal; set_solver.
Qed.
Lemma rep_resolve c t : rep c t -> resolve (nulterminate c buf) c = t.
Proof. intros Hr. rewrite nulterminate_nuls. apply resolve_nuls; [done | by apply (rep_ends c t) | done]. Qed.

(** White space before the line. *)
Lemma skip_parseline fuel p : p <= es -> parseline buf es fuel p = parseline buf es fuel (skip buf es p).
Proof.
  intros Hp. assert (forall toks, peek buf es toks p = peek buf es toks (skip buf es p)) as Hpk.
  { intros toks. unfold peek, bind, get, put. by rewrite (skip_idem buf es Hes). }
  do 3 (destruct fuel as [|fuel]; [done|]). cbn [parseline parsepipe parseexec]. unfold bind. by rewrite Hpk.
Qed.
End lex.

Lemma text_nonzero l : stream_ok l -> Forall (fun c => c <> 0) (text l).
Proof.
  induction l as [|[t ws] l IH]; [constructor|]. intros (Ht & Hws & _ & Hs). cbn [text].
  apply Forall_app_2; [|apply Forall_app_2; [|by apply IH]].
  - destruct t as [w|c| |]; cbn [tok_bytes]; try (repeat constructor; done).
    + eapply Forall_impl; [apply Ht|]. by intros c (? & _)%wordchar_iff.
    + constructor; [|constructor]. cbn [tok_ok] in Ht. rewrite !elem_of_cons, elem_of_nil in Ht. lia.
  - eapply Forall_impl; [apply Hws|]. intros c Hc%inset_whitespace. lia.
Qed.
Lemma parsecmd_spec ws l t post :
  Forall (fun c => inset whitespace c = true) ws -> stream_ok l -> g_line t l ->
  exists c buf', parsecmd (ws ++ text l ++ 0 :: post) = Ok (c, buf') /\ resolve buf' c = t.
Proof.
  intros Hws Hs Hg. set (buf := ws ++ text l ++ 0 :: post).
  assert (strlen buf = lenZ ws + lenZ (text l)) as He.
  { unfold buf. rewrite strlen_cstr, cstr_app, cstr_app; [|by apply text_nonzero|].
    - cbn [cstr Z.eqb]. by rewrite app_nil_r, lenZ_app.
    - eapply Forall_impl; [apply Hws|]. intros c Hc%inset_whitespace. lia. }
  pose proof (chr_strlen buf) as Hes. set (es := strlen buf) in *. pose proof (lenZ_nonneg ws). pose proof (lenZ_nonneg (text l)).
  destruct (skip_run buf post es ws l 0) as [Hsk Ha]; try done. rewrite Z.add_0_l in *.
  unfold parsecmd. fold es. cbv zeta.
  match goal with |- context [bind ?m ?k 0] =>
    assert (wp (bind m k) 0 (fun c _ => rep buf c t)) as (c & s & -> & Hc)%wp_ok end.
  { wp_step. unfold wp at 1. rewrite skip_parseline, Hsk by (done || lia).
    change (wp (parseline buf es (Z.to_nat (4 * es + 4))) (lenZ ws) (fun c s => wp
      (peek buf es [] ;;; s <- get ;; panic_if (negb (s =? es)) "syntax" ;;; ret c) s (fun c _ => rep buf c t))).
    eapply wp_mono; [apply (proj1 (wp_parsers buf post es Hes) t l Hg _ (lenZ ws) []); try rewrite app_nil_r; try done|].
    - unfold follow_line. rewrite !elem_of_cons. by left.
    - lia.
    - intros c p (Ha' & _ & Hc). wp_step. eapply wp_peek; [done | done | done|]. wp_steps; [|done].
      destruct Ha' as [_ _ E]. change (lenZ (text [])) with 0 in E. rewrite Z.add_0_r in E. rewrite E.
      by rewrite Z.eqb_refl. }
  eexists _, _. split; [done|]. by apply (rep_resolve buf es).
Qed.

(** C20: The parser returns the command of every line of the grammar: the words of the
    result are cut off in the buffer that it returns. *)
Theorem parsecmd_grammar ws l t post :
  Forall (fun c => inset whitespace c = true) ws -> stream_ok l -> g_line t l ->
  exists c buf', parsecmd (ws ++ text l ++ 0 :: post) = Ok (c, buf') /\ resolve buf' c = t.
Proof. apply parsecmd_spec. Qed.

(** ** Printing *)

Definition is_exec (t : ast) : bool :=
  match t with
  | XExec _ | XRedir _ _ _ _ => true
  | _ => false
  end.
Definition paren (l : stream) : stream := (TC 40, [32]) :: l ++ [(TC 41, [32])].
Fixpoint print (t : ast) : stream :=
  let ex t := if is_exec t then print t else paren (print t) in
  match t with
  | XExec ws => (fun w => (TW w, [32])) <$> ws
  | XRedir t f mode _ => ex t ++ [(if mode =? O_RDONLY then TC 60 else TGt, [32]); (TW f, [32])]
  | XPipe l r => ex l ++ (TC 124, [32]) :: ex r
  | XList l r => ex l ++ (TC 59, [32]) :: print r
  | XBack t => ex t ++ [(TC 38, [32])]
  end.
(** The commands that can be written down. *)
Fixpoint ast_ok (t : ast) : Prop :=
  match t with
  | XExec ws => lenZ ws < MAXARGS /\ Forall word_wf ws
  | XRedir t f mode fd => ast_ok t /\ word_wf f /\
      (mode = O_RDONLY /\ fd = 0 \/ mode = Z.lor O_WRONLY O_CREATE /\ fd = 1)
  | XPipe l r | XList l r => ast_ok l /\ ast_ok r
  | XBack t => ast_ok t
  end.

Lemma stream_ok_snoc a b : stream_ok a -> stream_ok b -> Forall (fun x => snd x <> []) a -> stream_ok (a ++ b).
Proof.
  intros Ha Hb Hws. induction Hws as [|[t ws] a Hne Hws IH]; [done|]. destruct Ha as (Ht & Hs & _ & Ha).
  cbn in *. split_and!; [done | done | | by apply IH]. by intros ->.
Qed.
Definition spaced (l : stream) : Prop := stream_ok l /\ Forall (fun x => snd x <> []) l.
Lemma spaced_app a b : spaced a -> spaced b -> spaced (a ++ b).
Proof. intros [Ha Hsa] [Hb Hsb]. split; [by apply stream_ok_snoc | by apply Forall_app_2]. Qed.
Lemma spaced_cons t l : tok_ok t -> spaced l -> spaced ((t, [32]) :: l).
Proof.
  intros Ht [Hl Hs]. split; [|by constructor]. split_and!; [done | | done | done].
  constructor; [by apply inset_whitespace; left | constructor].
Qed.
Lemma spaced_nil : spaced [].
Proof. split; [done | constructor]. Qed.
Lemma tok_sym c : c ∈ [124; 40; 41; 59; 38; 60] -> tok_ok (TC c).
Proof. done. Qed.
Lemma spaced_paren l : spaced l -> spaced (paren l).
Proof.
  intros Hl. apply spaced_cons; [apply tok_sym; rewrite !elem_of_cons; lia|]. apply spaced_app; [done|].
  apply spaced_cons; [apply tok_sym; rewrite !elem_of_cons; lia | apply spaced_nil].
Qed.
Lemma print_spaced t : ast_ok t -> spaced (print t).
Proof.
  induction t as [ws|t IH f m d|l IHl r IHr|l IHl r IHr|t IH]; cbn [print ast_ok].
  - intros [_ Hw]. induction Hw as [|w ws Hw Hws IH]; [apply spaced_nil | by apply spaced_cons].
  - intros (Ht & Hf & Hm). specialize (IH Ht). apply spaced_app; [by destruct (is_exec t); [|apply spaced_paren]|].
    apply spaced_cons; [destruct (m =? O_RDONLY); [apply tok_sym; rewrite !elem_of_cons; lia | done]|].
    apply spaced_cons; [done | apply spaced_nil].
  - intros [Hl Hr]. specialize (IHl Hl). specialize (IHr Hr).
    apply spaced_app; [by destruct (is_exec l); [|apply spaced_paren]|].
    apply spaced_cons; [apply tok_sym; rewrite !elem_of_cons; lia|]. by destruct (is_exec r); [|apply spaced_paren].
  - intros [Hl Hr]. specialize (IHl Hl). specialize (IHr Hr).
    apply spaced_app; [by destruct (is_exec l); [|apply spaced_paren]|].
    apply spaced_cons; [apply tok_sym; rewrite !elem_of_cons; lia | done].
  - intros Ht. specialize (IH Ht). apply spaced_app; [by destruct (is_exec t); [|apply spaced_paren]|].
    apply spaced_cons; [apply tok_sym; rewrite !elem_of_cons; lia | apply spaced_nil].
Qed.
Lemma redirs_snoc rs l op s f s' mode fd : g_redirs rs l -> redir_op op = Some (mode, fd) ->
  g_redirs (rs ++ [(f, mode, fd)]) (l ++ [(op, s); (TW f, s')]).
Proof. intros Hg Hop. induction Hg; cbn; eauto using g_redirs. Qed.
Lemma args_snoc ws rs l op s f s' mode fd : g_args ws rs l -> ws <> [] -> redir_op op = Some (mode, fd) ->
  g_args ws (rs ++ [(f, mode, fd)]) (l ++ [(op, s); (TW f, s')]).
Proof.
  intros Hg Hne Hop. induction Hg as [|w s0 rs l ws rs' l' Hr Hg IH]; [done|]. cbn. rewrite <- !app_assoc.
  destruct ws as [|w' ws].
  - inversion Hg; subst. cbn. rewrite <- (app_nil_r (rs ++ _)), <- (app_nil_r (l ++ _)).
    constructor; [by apply redirs_snoc | constructor].
  - constructor; [done | by apply IH].
Qed.
Lemma exec_redir t l op s f s' mode fd : g_exec t l -> redir_op op = Some (mode, fd) ->
  g_exec (XRedir t f mode fd) (l ++ [(op, s); (TW f, s')]).
Proof.
  intros [rs l1 ws rs' l2 Hr Ha Hlen|s1 t1 l1 s2 rs l2 Hl Hr] Hop.
  - assert (XRedir (xwrap (XExec ws) (rs ++ rs')) f mode fd = xwrap (XExec ws) (rs ++ rs' ++ [(f, mode, fd)])) as ->
      by (unfold xwrap; by rewrite app_assoc, foldl_snoc).
    rewrite <- app_assoc. destruct ws as [|w ws].
    + inversion Ha; subst. cbn [app]. rewrite <- (app_nil_r (rs ++ _)), <- (app_nil_r (l1 ++ _)).
      constructor; [by apply redirs_snoc | constructor | done].
    + constructor; [done | by apply args_snoc | done].
  - assert (XRedir (xwrap t1 rs) f mode fd = xwrap t1 (rs ++ [(f, mode, fd)])) as ->
      by (unfold xwrap; by rewrite foldl_snoc).
    cbn. rewrite <- app_assoc. cbn. constructor; [done | by apply redirs_snoc].
Qed.
Lemma line_of_exec t l : g_exec t l -> g_line t l.
Proof. intros Hg. rewrite <- (app_nil_r l). apply (gl_one t l []). by constructor. Qed.
Lemma exec_paren t l : g_line t l -> g_exec t (paren l).
Proof. intros Hl. apply (gx_block _ t l _ [] []); [done | constructor]. Qed.
Lemma args_words ws : g_args ws [] ((fun w => (TW w, [32])) <$> ws).
Proof. induction ws as [|w ws IH]; [constructor|]. apply (ga_cons w [32] [] [] ws []); [constructor | done]. Qed.
Lemma print_line t : ast_ok t -> g_line t (print t) /\ (is_exec t = true -> g_exec t (print t)).
Proof.
  assert (forall t, g_line t (print t) /\ (is_exec t = true -> g_exec t (print t)) ->
    g_exec t (if is_exec t then print t else paren (print t))) as Hex.
  { intros t' [Hl He]. destruct (is_exec t'); [by apply He | by apply exec_paren]. }
  induction t as [ws|t IH f m d|l IHl r IHr|l IHl r IHr|t IH]; cbn [print ast_ok is_exec].
  - intros [Hn _]. assert (g_exec (XExec ws) ((fun w => (TW w, [32])) <$> ws)) as Hg.
    { apply (gx_simple [] [] ws []); [constructor | apply args_words | done]. }
    split; [by apply line_of_exec | done].
  - intros (Ht & _ & Hm). specialize (Hex t (IH Ht)).
    assert (redir_op (if m =? O_RDONLY then TC 60 else TGt) = Some (m, d)) as Hop by (by destruct Hm as [[-> ->]|[-> ->]]).
    pose proof (exec_redir _ _ _ [32] f [32] _ _ Hex Hop) as Hg. split; [by apply line_of_exec | done].
  - intros [Hl Hr]. split; [|done]. rewrite <- (app_nil_r (_ ++ _)). apply (gl_one _ _ []).
    constructor; [apply Hex, IHl, Hl | constructor; apply Hex, IHr, Hr].
  - intros [Hl Hr]. split; [|done]. apply (gl_list _ _ []); [constructor; apply Hex, IHl, Hl | apply IHr, Hr].
  - intros Ht. split; [|done]. apply (gl_one t _ [[32]]). constructor. apply Hex, IH, Ht.
Qed.

(** C21: Parsing what the printer prints gives the command back. *)
Theorem parse_print_roundtrip t : ast_ok t ->
  exists c buf', parsecmd (text (print t) ++ [0]) = Ok (c, buf') /\ resolve buf' c = t.
Proof.
  intros Ht. apply (parsecmd_spec [] (print t) t []); [constructor | by apply print_spaced | by apply print_line].
Qed.

(** ** Instances *)

(** [(ls;wc)>o< i|a b&], with white space where it has to be. *)
Definition sh_demo : stream :=
  [(TC 40, []); (TW [108; 115], []); (TC 59, []); (TW [119; 99], []); (TC 41, []); (TGt, []); (TW [111], []);
   (TC 60, [32]); (TW [105], []); (TC 124, []); (TW [97], [32; 9]); (TW [98], []); (TC 38, [10])].
Definition sh_demo_ast : ast :=
  XBack (XPipe (XRedir (XRedir (XList (XExec [[108; 115]]) (XExec [[119; 99]])) [111] 513 1) [105] 0 0)
    (XExec [[97]; [98]])).
Lemma sh_demo_ok : stream_ok sh_demo.
Proof.
  repeat first [done | split]; try (repeat constructor; done); try (rewrite !elem_of_cons; lia).
Qed.
Lemma sh_demo_line : g_line sh_demo_ast sh_demo.
Proof.
  assert (forall w s, g_exec (XExec [w]) [(TW w, s)]) as Hone.
  { intros w s. apply (gx_simple [] [] [w] [] [(TW w, s)]); [constructor | | done].
    apply (ga_cons w s [] [] [] [] []); constructor. }
  apply (gl_one _ (take 12 sh_demo) [[10]]).
  apply (gp_pipe _ (take 9 sh_demo) [] _ [(TW [97], [32; 9]); (TW [98], [])]).
  - apply (gx_block [] _ [(TW [108; 115], []); (TC 59, []); (TW [119; 99], [])] [] [([111], 513, 1); ([105], 0, 0)]
      [(TGt, []); (TW [111], []); (TC 60, [32]); (TW [105], [])]).
    + apply (gl_list _ [(TW [108; 115], [])] []); [constructor; apply Hone | apply line_of_exec, Hone].
    + repeat constructor.
  - constructor. apply (gx_simple [] [] [[97]; [98]] []); [constructor | | done].
    apply (ga_cons [97] [32; 9] [] [] [[98]] []); [constructor|]. apply (ga_cons [98] [] [] [] [] []); constructor.
Qed.
Lemma parsecmd_grammar_witness :
  exists c buf', parsecmd ([32] ++ text sh_demo ++ [0; 7]) = Ok (c, buf') /\ resolve buf' c = sh_demo_ast.
Proof.
  apply (parsecmd_grammar [32] sh_demo sh_demo_ast [7]); [by repeat constructor | exact sh_demo_ok | exact sh_demo_line].
Defined.
Lemma sh_demo_ast_ok : ast_ok sh_demo_ast.
Proof.
  repeat first [done | split]; repeat constructor; try done; left; done || right; done.
Qed.
Lemma parse_print_roundtrip_witness :
  exists c buf', parsecmd (text (print sh_demo_ast) ++ [0]) = Ok (c, buf') /\ resolve buf' c = sh_demo_ast.
Proof. apply (parse_print_roundtrip sh_demo_ast). exact sh_demo_ast_ok. Defined.
