(* ===== verification/Syscall.v ===== *)
(** * System calls: arguments and dispatch (src/xv6/syscall.c)

    The memory of the current process, the functions that fetch the arguments of
    a system call from it, and [syscall].  Addresses are 32 bits wide. *)

From S2P Require Import Prelude Bytes.

Definition KERNBASE : Z := 2147483648.

(** The current process as a system call sees it: [sz], [tf->esp] and the bytes
    of its memory. *)
Record user := mkUser { u_sz : Z; u_esp : Z; u_mem : Z -> Z }.

Definition load32 (m : Z -> Z) (a : Z) : Z :=
  m a + 256 * m (a + 1) + 65536 * m (a + 2) + 16777216 * m (a + 3).

(** [fetchint]: [None] is -1. *)
Definition fetchint (u : user) (addr : Z) : option Z :=
  if (u_sz u <=? addr) || (u_sz u <? u32 (addr + 4)) then None
  else Some (s32 (load32 (u_mem u) addr)).

(** The loop of [fetchstr] over the [n] bytes from [s] to the end. *)
Fixpoint fetchstr_loop (m : Z -> Z) (n : nat) (s p : Z) : Z :=
  match n with
  | O => -1
  | S n' => if m s =? 0 then s - p else fetchstr_loop m n' (s + 1) p
  end.
Definition fetchstr (u : user) (addr : Z) : Z :=
  if u_sz u <=? addr then -1
  else fetchstr_loop (u_mem u) (Z.to_nat (u_sz u - addr)) addr addr.

Definition argint (u : user) (n : Z) : option Z := fetchint u (u32 (u_esp u + 4 + 4 * n)).

(** [argptr]: the pointer it stores, [None] for -1. *)
Definition argptr (u : user) (n size : Z) : option Z :=
  match argint u n with
  | None => None
  | Some i =>
      if (size <? 0) || (u_sz u <=? u32 i) || (u_sz u <? u32 (u32 i + size)) then None
      else Some (u32 i)
  end.

(** [argstr]: the pointer it stores and its result, the length of the string. *)
Definition argstr (u : user) (n : Z) : option (Z * Z) :=
  match argint u n with
  | None => None
  | Some addr =>
      let r := fetchstr u (u32 addr) in
      if r <? 0 then None else Some (u32 addr, r)
  end.

(** The bytes [[p, p + n)] of the memory, and a store to them. *)
Definition ubytes (u : user) (p n : Z) : bytes := u_mem u <$> seqZ p n.
Definition ustore (u : user) (p : Z) (d : bytes) : user :=
  mkUser (u_sz u) (u_esp u)
    (fun a => if (p <=? a) && (a <? p + lenZ d) then rd d (a - p) else u_mem u a).

(** ** Dispatch *)

(** What [syscall] prints. *)
Inductive sysmsg :=
| MsgTrace (num : Z) (ret : Z)
| MsgUnknown (num : Z).

(** [syscall] with the table [calls], which has no entry ([None]) for a number
    without a function; [num] is [tf->eax].  The result is the new [tf->eax]. *)
Definition syscall {K} (calls : list (option (ST K Z))) (trace num : Z) : ST K (Z * list sysmsg) :=
  match (if (0 <? num) && (num <? lenZ calls) then rd calls num else None) with
  | Some f =>
      r <- f ;;
      ret (r, if 0 <? trace then [MsgTrace num r] else [])
  | None => ret (-1, [MsgUnknown num])
  end.

(** ** Properties *)

(** The addresses a user may pass: [sz] does not reach the kernel. *)
Definition user_ok (u : user) : Prop := 0 <= u_sz u <= KERNBASE /\ forall a, 0 <= u_mem u a < 256.

Lemma argint_spec u n i : user_ok u -> argint u n = Some i ->
  let a := u32 (u_esp u + 4 + 4 * n) in
  a + 4 <= u_sz u /\ i = s32 (load32 (u_mem u) a).
Proof.
  intros [Hsz _]. unfold argint, fetchint. pose proof (u32_range (u_esp u + 4 + 4 * n)).
  set (a := u32 _) in *. case_test; [done..|]. intros. simplify_eq.
  unfold KERNBASE in *. rewrite u32_small in * by lia. split; [lia | done].
Qed.

(** C28: A buffer that [argptr] accepts lies in the memory of the process: no byte of
    it is at or above [sz], although the check adds 32-bit numbers. *)
Theorem argptr_in_bounds u n size p :
  user_ok u -> -2147483648 <= size < 2147483648 ->
  argptr u n size = Some p ->
  0 <= size /\ 0 <= p /\ p + size <= u_sz u /\ u_sz u <= KERNBASE.
Proof.
  intros [Hsz _] Hs. unfold argptr. destruct (argint u n) as [i|]; [|done].
  pose proof (u32_range i). destruct (_ || _) eqn:Et; [done|]. intros ?; simplify_eq.
  bool_to_prop. unfold KERNBASE in *. rewrite (u32_small (u32 i + size)) in * by lia. lia.
Qed.

(** The string at [p]: no NUL before its length. *)
Definition is_cstr (u : user) (p n : Z) : Prop :=
  u_mem u (p + n) = 0 /\ forall k, 0 <= k < n -> u_mem u (p + k) <> 0.

Lemma fetchstr_loop_spec m n s p :
  fetchstr_loop m n s p = -1 /\ (forall a, s <= a < s + Z.of_nat n -> m a <> 0) \/
  exists k, 0 <= k < Z.of_nat n /\ fetchstr_loop m n s p = s + k - p /\ m (s + k) = 0 /\
    forall a, s <= a < s + k -> m a <> 0.
Proof.
  revert s. induction n as [|n IH]; intros s; simpl; [left; split; [done | lia]|].
  case_test.
  - right. exists 0. rewrite Z.add_0_r. split_and!; [lia.. | done | lia].
  - destruct (IH (s + 1)) as [[-> Hn]|(k & Hk & -> & Hz & Hn)].
    + left. split; [done|]. intros a Ha. destruct (decide (a = s)) as [->|]; [done|]. apply Hn. lia.
    + right. exists (k + 1). replace (s + (k + 1)) with (s + 1 + k) by lia. split_and!; [lia.. | done|].
      intros a Ha. destruct (decide (a = s)) as [->|]; [done|]. apply Hn. lia.
Qed.

(** C29: [argstr] accepts an argument exactly when it points to a string that ends in
    the memory of the process, and returns its length. *)
Theorem argstr_correct u n p len :
  user_ok u ->
  argstr u n = Some (p, len) <->
  (exists i, argint u n = Some i /\ p = u32 i) /\ 0 <= len /\ 0 <= p /\ p + len < u_sz u /\ is_cstr u p len.
Proof.
  intros [Hsz _]. unfold argstr. destruct (argint u n) as [i|]; [|naive_solver].
  pose proof (u32_range i) as Hr. set (a := u32 i) in *.
  assert (forall k, 0 <= k -> is_cstr u a k -> a + k < u_sz u ->
    fetchstr u a = k) as Huniq.
  { intros k Hk [Hz Hn] Hlt. unfold fetchstr. case_test; [lia|].
    destruct (fetchstr_loop_spec (u_mem u) (Z.to_nat (u_sz u - a)) a a) as [[_ Hno]|(j & Hj & -> & Hz' & Hno)].
    - destruct (Hno (a + k)); [lia | done].
    - destruct (Z.lt_trichotomy j k) as [?|[?|?]]; [|lia|].
      + by destruct (Hn j); [lia|].
      + by destruct (Hno (a + k)); [lia|]. }
  split.
  - case_test; [done|]. intros Heq. assert (p = a) as -> by congruence.
    assert (len = fetchstr u a) as -> by congruence. clear Heq. unfold fetchstr in *. case_test; [lia|].
    destruct (fetchstr_loop_spec (u_mem u) (Z.to_nat (u_sz u - a)) a a) as [[Ef _]|(j & Hj & Ef & Hz' & Hno)];
      rewrite Ef in *; [lia|].
    replace (a + j - a) with j by lia. split_and!; [by exists i | lia.. |].
    split; [done|]. intros k Hk. apply Hno. lia.
  - intros ((i' & Ei & Ep) & Hl & Hp & Hlt & Hc). assert (p = a) as -> by (unfold a; congruence).
    rewrite (Huniq len) by done. case_test; [lia | done].
Qed.

(** A process of one page whose first argument is a pointer to the string "hi". *)
Definition demo_user : user :=
  mkUser 4096 100 (fun a => if a =? 104 then 200 else if a =? 200 then 104 else if a =? 201 then 105 else 0).
Lemma demo_user_ok : user_ok demo_user.
Proof. split; [by vm_compute|]. intros a. simpl. repeat case_test; lia. Qed.

Lemma argptr_in_bounds_witness :
  0 <= 512 /\ 0 <= 200 /\ 200 + 512 <= u_sz demo_user /\ u_sz demo_user <= KERNBASE.
Proof.
  apply (argptr_in_bounds demo_user 0 512 200); [exact demo_user_ok | lia | vm_compute; reflexivity].
Defined.

Lemma argstr_correct_witness :
  argstr demo_user 0 = Some (200, 2) <->
  (exists i, argint demo_user 0 = Some i /\ 200 = u32 i) /\ 0 <= 2 /\ 0 <= 200 /\
  200 + 2 < u_sz demo_user /\ is_cstr demo_user 200 2.
Proof. apply (argstr_correct demo_user 0 200 2). exact demo_user_ok. Defined.
