(* ===== verification/Vm.v ===== *)
(** * Virtual memory (src/xv6/vm.c, src/xv6/mmu.h): definitions

    Page tables and the memory of user processes.  A page of physical memory is
    known by its kernel virtual address; one that is in use is a page table of
    1024 entries or holds 4096 bytes ([frame]), and reading one as the other
    stops the model, as does using a free page.  The free list is that of
    [Kalloc.v], as the list of its pages.  The hardware registers ([lcr3], the
    segments and the task state) are left out.  Properties are in [VmSpec.v]. *)

From S2P Require Import Prelude Bytes Cstring Kalloc.

Definition PTE_P : Z := 1.
Definition PTE_W : Z := 2.
Definition PTE_U : Z := 4.
Definition NPDENTRIES : Z := 1024.
Definition NPTENTRIES : Z := 1024.
Definition PTXSHIFT : Z := 12.
Definition PDXSHIFT : Z := 22.
Definition EXTMEM : Z := 1048576.
Definition DEVSPACE : Z := 4261412864.
Definition KERNLINK : Z := KERNBASE + EXTMEM.

Definition PDX (va : Z) : Z := Z.land (Z.shiftr (u32 va) PDXSHIFT) 1023.
Definition PTX (va : Z) : Z := Z.land (Z.shiftr (u32 va) PTXSHIFT) 1023.
Definition PGADDR (d t o : Z) : Z := u32 (Z.lor (Z.lor (Z.shiftl d PDXSHIFT) (Z.shiftl t PTXSHIFT)) o).
Definition PTE_ADDR (pte : Z) : Z := Z.land pte (u32 (Z.lnot 4095)).
Definition PTE_FLAGS (pte : Z) : Z := Z.land pte 4095.

(** What a page holds. *)
Inductive frame := FTable (l : list Z) | FData (d : bytes).

Record vm_t := mkVm { v_frame : gmap Z frame; v_free : list Z }.

(** A page filled with 0 as a table, and one with junk. *)
Definition zero_table : list Z := replicate 1024 0.
Definition junk_page : bytes := replicate 4096 1.
Arguments zero_table : simpl never.
Arguments junk_page : simpl never.

(** [end] and [data] of kernel.ld. *)
Section vm.
Context (kend kdata : Z).

Definition set_frame (a : Z) (f : frame) : ST vm_t unit :=
  modify (fun s => mkVm (<[a := f]> (v_frame s)) (v_free s)).

(** [kalloc] and [kfree].  A fresh page holds junk, which nothing reads: vm.c
    fills every page it allocates. *)
Definition vkalloc : ST vm_t Z :=
  s <- get ;;
  match v_free s with
  | [] => ret 0
  | a :: l => put (mkVm (<[a := FData junk_page]> (v_frame s)) l) ;;; ret a
  end.
Definition vkfree (v : Z) : ST vm_t unit :=
  panic_if (negb (u32 v mod PGSIZE =? 0) || (v <? kend) || (PHYSTOP <=? V2P v)) "kfree" ;;;
  modify (fun s => mkVm (delete v (v_frame s)) (v :: v_free s)).

(** A page as a table and as bytes. *)
Definition table_at (a : Z) : ST vm_t (list Z) :=
  s <- get ;;
  match v_frame s !! a with
  | Some (FTable l) => ret l
  | _ => panic "not a page table"
  end.
Definition data_at (a : Z) : ST vm_t bytes :=
  s <- get ;;
  match v_frame s !! a with
  | Some (FData d) => ret d
  | _ => panic "not a data page"
  end.

(** A [pte_t *]: the table and the index. *)
Definition pte_ptr : Type := Z * Z.
Definition pte_get (p : pte_ptr) : ST vm_t Z := l <- table_at p.1 ;; ret (rd l p.2).
Definition pte_set (p : pte_ptr) (v : Z) : ST vm_t unit :=
  l <- table_at p.1 ;; set_frame p.1 (FTable (upd l p.2 v)).

Definition walkpgdir (pgdir va : Z) (alloc : bool) : ST vm_t (option pte_ptr) :=
  let pde := (pgdir, PDX va) in
  e <- pte_get pde ;;
  if negb (Z.land e PTE_P =? 0) then ret (Some (P2V (PTE_ADDR e), PTX va))
  else if negb alloc then ret None
  else
    pgtab <- vkalloc ;;
    if pgtab =? 0 then ret None else
    set_frame pgtab (FTable zero_table) ;;;
    pte_set pde (Z.lor (Z.lor (Z.lor (V2P pgtab) PTE_P) PTE_W) PTE_U) ;;;
    ret (Some (pgtab, PTX va)).

(** The loop of [mappages] from [a], for [n] pages; [a] and [pa] wrap around. *)
Fixpoint mappages_loop (n : nat) (pgdir a pa perm : Z) : ST vm_t Z :=
  match n with
  | O => ret 0
  | S n' =>
      p <- walkpgdir pgdir a true ;;
      match p with
      | None => ret (-1)
      | Some pte =>
          e <- pte_get pte ;;
          panic_if (negb (Z.land e PTE_P =? 0)) "remap" ;;;
          pte_set pte (Z.lor (Z.lor pa perm) PTE_P) ;;;
          mappages_loop n' pgdir (u32 (a + PGSIZE)) (u32 (pa + PGSIZE)) perm
      end
  end.
(** The number of turns until [a == last]. *)
Definition mappages (pgdir va size pa perm : Z) : ST vm_t Z :=
  let a := PGROUNDDOWN (u32 va) in
  let last := PGROUNDDOWN (u32 (u32 va + size - 1)) in
  mappages_loop (Z.to_nat (u32 (last - a) / PGSIZE + 1)) pgdir a pa perm.

(** [deallocuvm], whose loop goes from [a] to [oldsz] and skips the rest of a
    table that is not there; [n] is at least the number of pages left. *)
Fixpoint deallocuvm_loop (n : nat) (pgdir a oldsz : Z) : ST vm_t unit :=
  if a <? oldsz then
    match n with
    | O => nofuel
    | S n' =>
        p <- walkpgdir pgdir a false ;;
        match p with
        | None => deallocuvm_loop n' pgdir (u32 (u32 (PGADDR (PDX a + 1) 0 0 - PGSIZE) + PGSIZE)) oldsz
        | Some pte =>
            e <- pte_get pte ;;
            when (negb (Z.land e PTE_P =? 0))
              (let pa := PTE_ADDR e in
               panic_if (pa =? 0) "kfree" ;;;
               vkfree (P2V pa) ;;;
               pte_set pte 0) ;;;
            deallocuvm_loop n' pgdir (u32 (a + PGSIZE)) oldsz
        end
    end
  else ret tt.
Definition deallocuvm (pgdir oldsz newsz : Z) : ST vm_t Z :=
  if oldsz <=? newsz then ret oldsz else
  let a := PGROUNDUP newsz in
  deallocuvm_loop (Z.to_nat ((oldsz - a) / PGSIZE + 1)) pgdir a oldsz ;;;
  ret newsz.

Definition freevm_entry (pgdir i : Z) : ST vm_t unit :=
  e <- pte_get (pgdir, i) ;;
  when (negb (Z.land e PTE_P =? 0)) (vkfree (P2V (PTE_ADDR e))).
Definition freevm (pgdir : Z) : ST vm_t unit :=
  panic_if (pgdir =? 0) "freevm: no pgdir" ;;;
  deallocuvm pgdir KERNBASE 0 ;;;
  forM (Z.to_nat NPDENTRIES) 0 (freevm_entry pgdir) ;;;
  vkfree pgdir.

(** [kmap]: virtual address, physical start and end, permissions. *)
Definition kmap : list (Z * Z * Z * Z) :=
  [(KERNBASE, 0, EXTMEM, PTE_W); (KERNLINK, V2P KERNLINK, V2P kdata, 0);
   (kdata, V2P kdata, PHYSTOP, PTE_W); (DEVSPACE, DEVSPACE, 0, PTE_W)].
Fixpoint setupkvm_loop (k : list (Z * Z * Z * Z)) (pgdir : Z) : ST vm_t Z :=
  match k with
  | [] => ret pgdir
  | (virt, ps, pe, perm) :: k =>
      r <- mappages pgdir virt (u32 (pe - ps)) ps perm ;;
      if r <? 0 then freevm pgdir ;;; ret 0 else setupkvm_loop k pgdir
  end.
Definition setupkvm : ST vm_t Z :=
  pgdir <- vkalloc ;;
  if pgdir =? 0 then ret 0 else
  set_frame pgdir (FTable zero_table) ;;;
  panic_if (DEVSPACE <? P2V PHYSTOP) "PHYSTOP too high" ;;;
  setupkvm_loop kmap pgdir.

Definition inituvm (pgdir : Z) (init : bytes) : ST vm_t unit :=
  panic_if (PGSIZE <=? lenZ init) "inituvm: more than a page" ;;;
  mem <- vkalloc ;;
  set_frame mem (FData (zeros PGSIZE)) ;;;
  mappages pgdir 0 PGSIZE (V2P mem) (Z.lor PTE_W PTE_U) ;;;
  d <- data_at mem ;;
  set_frame mem (FData (blit d 0 init)).

(** [loaduvm]; [readi offset n] reads the file, in a file system of type [K]. *)
Definition onvm {K A} (m : ST vm_t A) : ST (vm_t * K) A := zoom fst (fun v s => (v, s.2)) m.
Definition onfs {K A} (m : ST K A) : ST (vm_t * K) A := zoom snd (fun k s => (s.1, k)) m.
Fixpoint loaduvm_loop {K} (n : nat) (pgdir addr : Z) (readi : Z -> Z -> ST K (Z * bytes))
    (i offset sz : Z) : ST (vm_t * K) Z :=
  if i <? sz then
    match n with
    | O => nofuel
    | S n' =>
        p <- onvm (walkpgdir pgdir (u32 (addr + i)) false) ;;
        match p with
        | None => panic "loaduvm: address should exist"
        | Some pte =>
            e <- onvm (pte_get pte) ;;
            let pa := PTE_ADDR e in
            let n := if sz - i <? PGSIZE then sz - i else PGSIZE in
            r <- onfs (readi (u32 (offset + i)) n) ;;
            d <- onvm (data_at (P2V pa)) ;;
            onvm (set_frame (P2V pa) (FData (blit d 0 r.2))) ;;;
            if negb (r.1 =? n) then ret (-1)
            else loaduvm_loop n' pgdir addr readi (i + PGSIZE) offset sz
        end
    end
  else ret 0.
Definition loaduvm {K} (pgdir addr : Z) (readi : Z -> Z -> ST K (Z * bytes)) (offset sz : Z) : ST (vm_t * K) Z :=
  panic_if (negb (addr mod PGSIZE =? 0)) "loaduvm: addr must be page aligned" ;;;
  loaduvm_loop (Z.to_nat (sz / PGSIZE + 1)) pgdir addr readi 0 offset sz.

(** The loop of [allocuvm] from [a]; the result is 0 or [newsz]. *)
Fixpoint allocuvm_loop (n : nat) (pgdir oldsz newsz a : Z) : ST vm_t Z :=
  if a <? newsz then
    match n with
    | O => nofuel
    | S n' =>
        mem <- vkalloc ;;
        if mem =? 0 then deallocuvm pgdir newsz oldsz ;;; ret 0 else
        set_frame mem (FData (zeros PGSIZE)) ;;;
        r <- mappages pgdir a PGSIZE (V2P mem) (Z.lor PTE_W PTE_U) ;;
        if r <? 0 then deallocuvm pgdir newsz oldsz ;;; vkfree mem ;;; ret 0
        else allocuvm_loop n' pgdir oldsz newsz (u32 (a + PGSIZE))
    end
  else ret newsz.
Definition allocuvm (pgdir oldsz newsz : Z) : ST vm_t Z :=
  if KERNBASE <=? newsz then ret 0 else
  if newsz <? oldsz then ret oldsz else
  let a := PGROUNDUP oldsz in
  allocuvm_loop (Z.to_nat ((newsz - a) / PGSIZE + 1)) pgdir oldsz newsz a.

Definition clearpteu (pgdir uva : Z) : ST vm_t unit :=
  p <- walkpgdir pgdir uva false ;;
  match p with
  | None => panic "clearpteu"
  | Some pte => e <- pte_get pte ;; pte_set pte (Z.land e (u32 (Z.lnot PTE_U)))
  end.

(** The loop of [copyuvm] from page [i]: [false] is the jump to [bad]. *)
Fixpoint copyuvm_loop (n : nat) (pgdir d sz i : Z) : ST vm_t bool :=
  if i <? sz then
    match n with
    | O => nofuel
    | S n' =>
        p <- walkpgdir pgdir i false ;;
        match p with
        | None => panic "copyuvm: pte should exist"
        | Some pte =>
            e <- pte_get pte ;;
            panic_if (Z.land e PTE_P =? 0) "copyuvm: page not present" ;;;
            let pa := PTE_ADDR e in
            let flags := PTE_FLAGS e in
            mem <- vkalloc ;;
            if mem =? 0 then ret false else
            src <- data_at (P2V pa) ;;
            set_frame mem (FData src) ;;;
            r <- mappages d i PGSIZE (V2P mem) flags ;;
            if r <? 0 then vkfree mem ;;; ret false
            else copyuvm_loop n' pgdir d sz (i + PGSIZE)
        end
    end
  else ret true.
Definition copyuvm (pgdir sz : Z) : ST vm_t Z :=
  d <- setupkvm ;;
  if d =? 0 then ret 0 else
  ok <- copyuvm_loop (Z.to_nat (sz / PGSIZE + 1)) pgdir d sz 0 ;;
  if ok then ret d else freevm d ;;; ret 0.

(** [uva2ka]; a null [pte] is dereferenced. *)
Definition uva2ka (pgdir uva : Z) : ST vm_t Z :=
  p <- walkpgdir pgdir uva false ;;
  match p with
  | None => panic "uva2ka: null pointer"
  | Some pte =>
      e <- pte_get pte ;;
      if Z.land e PTE_P =? 0 then ret 0
      else if Z.land e PTE_U =? 0 then ret 0
      else ret (P2V (PTE_ADDR e))
  end.

(** [copyout]: each turn copies at least one byte. *)
Fixpoint copyout_loop (fuel : nat) (pgdir va : Z) (buf : bytes) : ST vm_t Z :=
  if 0 <? lenZ buf then
    match fuel with
    | O => nofuel
    | S fuel =>
        let va0 := PGROUNDDOWN va in
        pa0 <- uva2ka pgdir va0 ;;
        if pa0 =? 0 then ret (-1) else
        let n := PGSIZE - (va - va0) in
        let n := if lenZ buf <? n then lenZ buf else n in
        d <- data_at pa0 ;;
        set_frame pa0 (FData (blit d (va - va0) (slice buf 0 n))) ;;;
        copyout_loop fuel pgdir (u32 (va0 + PGSIZE)) (slice buf n (lenZ buf - n))
    end
  else ret 0.
Definition copyout (pgdir va : Z) (p : bytes) : ST vm_t Z :=
  copyout_loop (Z.to_nat (lenZ p)) pgdir va p.

(** [sys_pgcnt] of sysproc.c. *)
Definition pgcnt_table (l : list Z) : Z :=
  lenZ (filter (fun e => Z.land e (Z.lor PTE_P PTE_U) = Z.lor PTE_P PTE_U) l).
Fixpoint pgcnt_loop (l : list Z) (cnt : Z) : ST vm_t Z :=
  match l with
  | [] => ret cnt
  | pde :: l =>
      if negb (Z.land pde PTE_P =? 0) then
        t <- table_at (P2V (PTE_ADDR pde)) ;;
        pgcnt_loop l (cnt + pgcnt_table t)
      else pgcnt_loop l cnt
  end.
Definition sys_pgcnt (pgdir : Z) : ST vm_t Z := l <- table_at pgdir ;; pgcnt_loop l 0.
End vm.
