(* ===== verification/VmSpec.v ===== *)
(** * Page tables as maps

    [pte_of s pgdir n] is the entry for the virtual page number [n], 0 when there
    is no table for it.  [vm_ok] says that a page directory and its tables are
    separate pages; [walkpgdir] and [mappages] act on the map [pte_of], and
    [allocuvm] and [deallocuvm] on the memory of the process. *)

From S2P Require Import Prelude Bytes Cstring Kalloc Vm.

(** ** Bits *)

Lemma land_mod12 a : Z.land a 4095 = a mod 4096.
Proof. change 4095 with (Z.ones 12). by rewrite Z.land_ones. Qed.
Lemma land_P e : Z.land e PTE_P = e mod 2.
Proof. unfold PTE_P. change 1 with (Z.ones 1). by rewrite Z.land_ones. Qed.

Lemma mask_page a : 0 <= a < 4294967296 -> Z.land a (u32 (Z.lnot 4095)) = a / 4096 * 4096.
Proof.
  intros Ha. change (u32 (Z.lnot 4095)) with (Z.shiftl (Z.ones 20) 12).
  rewrite <- (Z.shiftl_mul_pow2 _ 12), <- (Z.shiftr_div_pow2 _ 12) by lia.
  apply Z.bits_inj'. intros n Hn. rewrite Z.land_spec. destruct (Z.lt_ge_cases n 12).
  - rewrite !Z.shiftl_spec_low by lia. by rewrite andb_false_r.
  - rewrite !Z.shiftl_spec, Z.shiftr_spec by lia. replace (n - 12 + 12) with n by lia.
    destruct (Z.lt_ge_cases n 32); [rewrite Z.ones_spec_low by lia; by rewrite andb_true_r|].
    rewrite Z.ones_spec_high, andb_false_r by lia. symmetry. apply Z.testbit_false; [lia|].
    rewrite Z.div_small; [done|]. split; [lia|].
    apply Z.lt_le_trans with (2 ^ 32); [lia|]. apply Z.pow_le_mono_r; lia.
Qed.

(** An aligned address and flags. *)
Lemma lor_page a f : a mod 4096 = 0 -> 0 <= f < 4096 -> Z.lor a f = a + f.
Proof.
  intros Ha Hf. assert (Z.land a f = 0) as E.
  { apply Z.bits_inj'. intros n Hn. rewrite Z.land_spec, Z.bits_0. destruct (Z.lt_ge_cases n 12) as [Hl|Hl].
    - replace a with (Z.shiftl (a / 4096) 12) by (rewrite Z.shiftl_mul_pow2 by lia; change (2 ^ 12) with 4096; zlia).
      by rewrite Z.shiftl_spec_low.
    - apply andb_false_intro2. apply Z.testbit_false; [lia|]. rewrite Z.div_small; [done|].
      split; [lia|]. apply Z.lt_le_trans with (2 ^ 12); [lia|]. apply Z.pow_le_mono_r; lia. }
  pose proof (Z.add_lor_land a f). lia.
Qed.
Lemma lor_small f g : 0 <= f < 4096 -> 0 <= g < 4096 -> 0 <= Z.lor f g < 4096.
Proof.
  intros Hf Hg. assert (Z.lor f g = Z.lor f g mod 2 ^ 12) as ->; [|apply Z.mod_pos_bound; lia].
  rewrite <- Z.land_ones by lia. rewrite Z.land_lor_distr_l, !Z.land_ones by lia.
  by rewrite !Z.mod_small by lia.
Qed.
Lemma lor_odd f : Z.lor f PTE_P mod 2 = 1.
Proof. rewrite Zmod_odd, <- Z.bit0_odd, Z.lor_spec. change (Z.testbit PTE_P 0) with true. by rewrite orb_true_r. Qed.

(** The parts of an entry. *)
Lemma entry_parts pa perm : 0 <= pa < 4294967296 -> pa mod 4096 = 0 -> 0 <= perm < 4096 ->
  let e := Z.lor (Z.lor pa perm) PTE_P in
  PTE_ADDR e = pa /\ PTE_FLAGS e = Z.lor perm PTE_P /\ e mod 2 = 1 /\ 0 <= e < 4294967296.
Proof.
  intros Hr Ha Hp e. assert (e = pa + Z.lor perm PTE_P) as Ee.
  { unfold e. rewrite <- Z.lor_assoc. apply lor_page; [done|]. apply lor_small; [done | unfold PTE_P; lia]. }
  pose proof (lor_small perm PTE_P Hp ltac:(unfold PTE_P; lia)) as Hf. pose proof (lor_odd perm) as Ho.
  assert (0 <= e < 4294967296) as He by (rewrite Ee; zlia).
  split_and!; [|unfold PTE_FLAGS; rewrite land_mod12, Ee; zlia | rewrite Ee; zlia | lia | lia].
  unfold PTE_ADDR. rewrite mask_page by done. rewrite Ee. zlia.
Qed.

(** Virtual page numbers. *)
Lemma PDX_vpn va : 0 <= va < 4294967296 -> PDX va = va / 4096 / 1024.
Proof.
  intros Hv. unfold PDX, PDXSHIFT. rewrite u32_small by done. change 1023 with (Z.ones 10).
  rewrite Z.land_ones, Z.shiftr_div_pow2 by lia. change (2 ^ 22) with 4194304. change (2 ^ 10) with 1024. zlia.
Qed.
Lemma PTX_vpn va : 0 <= va < 4294967296 -> PTX va = (va / 4096) mod 1024.
Proof.
  intros Hv. unfold PTX, PTXSHIFT. rewrite u32_small by done. change 1023 with (Z.ones 10).
  rewrite Z.land_ones, Z.shiftr_div_pow2 by lia. done.
Qed.
Lemma PGROUNDDOWN_vpn a : 0 <= a < 4294967296 -> PGROUNDDOWN a = a / 4096 * 4096.
Proof. intros Ha. apply mask_page, Ha. Qed.
Lemma P2V_V2P a : KERNBASE <= a < 4294967296 -> P2V (V2P a) = a.
Proof. unfold P2V, V2P, KERNBASE. intros Ha. rewrite (u32_small a), u32_small by lia. lia. Qed.

(** ** The map of a page directory *)

Definition tab (s : vm_t) (a : Z) : list Z :=
  match v_frame s !! a with
  | Some (FTable l) => l
  | _ => []
  end.
Definition is_tab (s : vm_t) (a : Z) : Prop := exists l, v_frame s !! a = Some (FTable l) /\ lenZ l = 1024.
Definition pde_of (s : vm_t) (pgdir i : Z) : Z := rd (tab s pgdir) i.
(** The table of entry [i] of the directory. *)
Definition tab_of (s : vm_t) (pgdir i : Z) : Z := P2V (PTE_ADDR (pde_of s pgdir i)).
Definition present (e : Z) : Prop := e mod 2 = 1.
Definition pte_of (s : vm_t) (pgdir n : Z) : Z :=
  if pde_of s pgdir (n / 1024) mod 2 =? 0 then 0 else rd (tab s (tab_of s pgdir (n / 1024))) (n mod 1024).
Definition vpn (n : Z) : Prop := 0 <= n < 1048576.

Section maps.
Context (kend : Z).
Hypothesis Hkend : KERNBASE < kend.

Record vm_ok (s : vm_t) (pgdir : Z) : Prop := {
  o_free : forall a, a ∈ v_free s -> page_ok kend a /\ v_frame s !! a = None;
  o_nodup : NoDup (v_free s);
  o_dir : is_tab s pgdir /\ page_ok kend pgdir;
  o_tab : forall i, 0 <= i < 1024 -> present (pde_of s pgdir i) ->
    is_tab s (tab_of s pgdir i) /\ tab_of s pgdir i <> pgdir /\ page_ok kend (tab_of s pgdir i);
  o_inj : forall i j, 0 <= i < 1024 -> 0 <= j < 1024 -> present (pde_of s pgdir i) ->
    present (pde_of s pgdir j) -> tab_of s pgdir i = tab_of s pgdir j -> i = j
}.

Lemma is_tab_tab s a : is_tab s a -> v_frame s !! a = Some (FTable (tab s a)) /\ lenZ (tab s a) = 1024.
Proof. intros (l & Hl & Hn). unfold tab. by rewrite Hl. Qed.

Lemma present_dec e : e mod 2 = 0 \/ present e.
Proof. unfold present. pose proof (Z.mod_pos_bound e 2). lia. Qed.

Lemma wp_pte_get s t j (Q : Z -> vm_t -> Prop) :
  is_tab s t -> Q (rd (tab s t) j) s -> wp (pte_get (t, j)) s Q.
Proof.
  intros Ht HQ. destruct (is_tab_tab _ _ Ht) as [El _]. unfold pte_get, table_at. wp_steps. simpl.
  rewrite El. by wp_steps.
Qed.
Definition with_tab (s : vm_t) (t : Z) (l : list Z) : vm_t :=
  mkVm (<[t := FTable l]> (v_frame s)) (v_free s).
Lemma wp_pte_set s t j v (Q : unit -> vm_t -> Prop) :
  is_tab s t -> Q tt (with_tab s t (upd (tab s t) j v)) -> wp (pte_set (t, j) v) s Q.
Proof.
  intros Ht HQ. destruct (is_tab_tab _ _ Ht) as [El _]. unfold pte_set, table_at, set_frame. wp_steps. simpl.
  rewrite El. by wp_steps.
Qed.

Lemma tab_with s t l a : tab (with_tab s t l) a = if a =? t then l else tab s a.
Proof.
  unfold tab, with_tab. cbn. destruct (Z.eqb_spec a t) as [->|Hne].
  - by rewrite lookup_insert_eq.
  - by rewrite lookup_insert_ne.
Qed.
Lemma is_tab_with s t l a : lenZ l = 1024 -> is_tab s a -> is_tab (with_tab s t l) a.
Proof.
  intros Hl (m & Hm & Hn). unfold is_tab, with_tab. cbn. destruct (decide (a = t)) as [->|Hne].
  - exists l. by rewrite lookup_insert_eq.
  - exists m. by rewrite lookup_insert_ne.
Qed.

(** The directory and its tables. *)
Definition own (s : vm_t) (pgdir a : Z) : Prop :=
  a = pgdir \/ exists i, 0 <= i < 1024 /\ present (pde_of s pgdir i) /\ tab_of s pgdir i = a.

(** The tables of others are the same; new tables of [pgdir] were free. *)
Record kept (s s' : vm_t) (pgdir : Z) : Prop := {
  kp_tab : forall a l, v_frame s !! a = Some (FTable l) -> ~ own s pgdir a -> v_frame s' !! a = Some (FTable l);
  kp_back : forall a l, v_frame s' !! a = Some (FTable l) -> ~ own s' pgdir a -> v_frame s !! a = Some (FTable l);
  kp_own : forall a, own s pgdir a -> own s' pgdir a;
  kp_new : forall a, own s' pgdir a -> own s pgdir a \/ a ∈ v_free s
}.
Lemma kept_refl s pgdir : kept s s pgdir.
Proof. constructor; auto. Qed.
Lemma kept_trans s s1 s2 pgdir : vm_ok s pgdir -> kept s s1 pgdir -> kept s1 s2 pgdir ->
  (forall a, own s2 pgdir a -> own s1 pgdir a \/ a ∈ v_free s) -> kept s s2 pgdir.
Proof.
  intros Hok [T1 B1 O1 N1] [T2 B2 O2 N2] Hn. constructor; auto.
  - intros a l Ha Hno. apply T2; [by apply T1|]. intros [|Hf]%N1; [done|].
    destruct (o_free _ _ Hok a Hf) as [_ ?]. congruence.
  - intros a [|]%Hn; auto.
Qed.
(** A change that leaves the tables and the directory entries alone. *)
Lemma kept_same s s' pgdir : (forall a l, v_frame s !! a = Some (FTable l) <-> v_frame s' !! a = Some (FTable l)) ->
  (forall a, tab s' a = tab s a) -> kept s s' pgdir /\ forall a, own s' pgdir a <-> own s pgdir a.
Proof.
  intros Hf Ht. assert (forall a, own s' pgdir a <-> own s pgdir a) as Ho.
  { intros a. unfold own, tab_of, pde_of. by setoid_rewrite Ht. }
  split; [|done]. constructor; try (intros a; rewrite Ho; auto); intros a l Ha _; by apply Hf.
Qed.

(** An entry of a table is set. *)
Section set.
Context (s : vm_t) (pgdir n v : Z).
Hypothesis Hok : vm_ok s pgdir.
Hypothesis Hn : vpn n.
Hypothesis Hp : present (pde_of s pgdir (n / 1024)).
Let t := tab_of s pgdir (n / 1024).
Definition set_pte : vm_t := with_tab s (tab_of s pgdir (n / 1024)) (upd (tab s (tab_of s pgdir (n / 1024))) (n mod 1024) v).

Lemma set_pte_len : lenZ (upd (tab s t) (n mod 1024) v) = 1024.
Proof.
  rewrite upd_lenZ. unfold vpn in Hn. destruct (o_tab _ _ Hok (n / 1024)) as [Ht _]; [zlia | done|].
  by apply is_tab_tab.
Qed.
Lemma set_pte_pde i : 0 <= i < 1024 -> pde_of set_pte pgdir i = pde_of s pgdir i.
Proof.
  intros Hi. unfold pde_of, set_pte. rewrite tab_with. unfold vpn in Hn.
  destruct (o_tab _ _ Hok (n / 1024)) as (_ & Hne & _); [zlia | done|].
  by rewrite (proj2 (Z.eqb_neq pgdir _)).
Qed.
Lemma set_pte_tab i : 0 <= i < 1024 -> tab_of set_pte pgdir i = tab_of s pgdir i.
Proof. intros Hi. unfold tab_of. by rewrite set_pte_pde. Qed.

Lemma set_pte_ok : vm_ok set_pte pgdir.
Proof.
  destruct (o_tab _ _ Hok (n / 1024)) as ((l & Hl & _) & Hne & Hpg); [unfold vpn in Hn; zlia | done|].
  fold t in Hl, Hne, Hpg. pose proof set_pte_len as Hlen. fold t in Hlen.
  pose proof Hok as []. constructor.
  - intros a Ha. destruct (o_free0 a Ha) as [H1 H2]. split; [done|]. cbn.
    rewrite lookup_insert_ne by (fold t; congruence). done.
  - done.
  - split; [|apply o_dir0]. apply is_tab_with; [done | apply o_dir0].
  - intros i Hi. rewrite set_pte_pde, set_pte_tab by done. intros Hpi.
    destruct (o_tab0 i Hi Hpi) as (H1 & H2 & H3). split_and!; try done. by apply is_tab_with.
  - intros i j Hi Hj. rewrite !set_pte_pde, !set_pte_tab by done. by apply o_inj0.
Qed.

Lemma set_pte_own a : own set_pte pgdir a <-> own s pgdir a.
Proof.
  unfold own. split; (intros [|(i & Hi & Hpi & Ht)]; [by left|]); right; exists i;
    rewrite ?set_pte_pde, ?set_pte_tab in * by done; done.
Qed.
Lemma set_pte_kept : kept s set_pte pgdir.
Proof.
  assert (own s pgdir (tab_of s pgdir (n / 1024))) as Ho.
  { right. exists (n / 1024). unfold vpn in Hn. split_and!; [zlia | zlia | done | done]. }
  constructor; [| |intros a; by rewrite set_pte_own | intros a; rewrite set_pte_own; auto].
  - intros a l Ha Hno. cbn. rewrite lookup_insert_ne; [done | congruence].
  - intros a l Ha Hno. rewrite set_pte_own in Hno. cbn in Ha. by rewrite lookup_insert_ne in Ha by congruence.
Qed.

Lemma set_pte_of m : vpn m -> pte_of set_pte pgdir m = if m =? n then v else pte_of s pgdir m.
Proof.
  intros Hm. unfold vpn in *. unfold pte_of. rewrite set_pte_pde, set_pte_tab by zlia.
  unfold set_pte. rewrite tab_with. fold t. pose proof set_pte_len as Hlen. rewrite upd_lenZ in Hlen.
  destruct (present_dec (pde_of s pgdir (m / 1024))) as [E|E].
  - rewrite E. simpl. destruct (Z.eqb_spec m n) as [->|]; [|done]. unfold present in Hp. lia.
  - unfold present in E. rewrite E. simpl. destruct (Z.eqb_spec (tab_of s pgdir (m / 1024)) t) as [Et|Et].
    + assert (m / 1024 = n / 1024) as Ed by (apply (o_inj _ _ Hok); [zlia | zlia | done | done | exact Et]).
      rewrite rd_upd, Et by (rewrite ?Hlen; zlia).
      destruct (Z.eqb_spec (n mod 1024) (m mod 1024)), (Z.eqb_spec m n); try done; try (subst; done).
      exfalso. zlia.
    + destruct (Z.eqb_spec m n) as [->|]; [by destruct Et | done].
Qed.
End set.

(** A table is added for entry [i] of the directory. *)
Lemma pde_new a : page_ok kend a ->
  let e := Z.lor (Z.lor (Z.lor (V2P a) PTE_P) PTE_W) PTE_U in present e /\ P2V (PTE_ADDR e) = a.
Proof.
  intros (Hm & Hk & Hlo & Hhi). unfold PGSIZE, KERNBASE, PHYSTOP in *.
  assert (V2P a = a - 2147483648) as Ev by (unfold V2P, KERNBASE; rewrite (u32_small a), u32_small by lia; lia).
  assert (Z.lor (Z.lor (Z.lor (V2P a) PTE_P) PTE_W) PTE_U = a - 2147483648 + 7) as Ee.
  { rewrite Ev, <- !Z.lor_assoc. change (Z.lor PTE_P (Z.lor PTE_W PTE_U)) with 7. apply lor_page; zlia. }
  cbv zeta. rewrite Ee. split; [unfold present; zlia|]. unfold PTE_ADDR, P2V, KERNBASE.
  rewrite mask_page by lia. zlia.
Qed.

Section new.
Context (s : vm_t) (pgdir i a : Z) (l : list Z).
Hypothesis Hok : vm_ok s pgdir.
Hypothesis Hi : 0 <= i < 1024.
Hypothesis He : pde_of s pgdir i mod 2 = 0.
Hypothesis Hf : v_free s = a :: l.
Definition new_tab : vm_t :=
  with_tab (mkVm (<[a := FTable zero_table]> (<[a := FData junk_page]> (v_frame s))) l) pgdir
    (upd (tab s pgdir) i (Z.lor (Z.lor (Z.lor (V2P a) PTE_P) PTE_W) PTE_U)).

Lemma new_page : page_ok kend a /\ v_frame s !! a = None.
Proof. apply (o_free _ _ Hok). rewrite Hf. by constructor. Qed.
Lemma new_ne : a <> pgdir.
Proof. intros E. destruct new_page as [_ Hn]. destruct (o_dir _ _ Hok) as [(m & Hm & _) _]. congruence. Qed.

Lemma new_tab_tab b : tab new_tab b = if b =? pgdir then upd (tab s pgdir) i (Z.lor (Z.lor (Z.lor (V2P a) PTE_P) PTE_W) PTE_U)
  else if b =? a then zero_table else tab s b.
Proof.
  unfold new_tab. rewrite tab_with. case_test; [done|]. unfold tab. cbn [v_frame].
  destruct (Z.eqb_spec b a) as [->|Hne]; [by rewrite lookup_insert_eq|]. by rewrite !lookup_insert_ne.
Qed.
Lemma new_tab_pde j : 0 <= j < 1024 -> pde_of new_tab pgdir j =
  if i =? j then Z.lor (Z.lor (Z.lor (V2P a) PTE_P) PTE_W) PTE_U else pde_of s pgdir j.
Proof.
  intros Hj. unfold pde_of. rewrite new_tab_tab, Z.eqb_refl.
  destruct (is_tab_tab _ _ (proj1 (o_dir _ _ Hok))) as [_ Hl]. by rewrite rd_upd by lia.
Qed.
Lemma new_tab_of j : 0 <= j < 1024 -> tab_of new_tab pgdir j = if i =? j then a else tab_of s pgdir j.
Proof.
  intros Hj. unfold tab_of. rewrite new_tab_pde by done. case_test; [|done].
  apply (pde_new a), new_page.
Qed.
Lemma new_tab_present j : 0 <= j < 1024 -> present (pde_of new_tab pgdir j) <-> i = j \/ present (pde_of s pgdir j).
Proof.
  intros Hj. rewrite new_tab_pde by done. destruct (Z.eqb_spec i j) as [Eij|Hne]; [|naive_solver].
  split; [by left|]. intros _. apply (pde_new a), new_page.
Qed.
Lemma new_tab_is b : b = a \/ is_tab s b -> is_tab new_tab b.
Proof.
  intros Hb. destruct (is_tab_tab _ _ (proj1 (o_dir _ _ Hok))) as [_ Hl]. unfold is_tab, new_tab, with_tab. cbn.
  destruct (decide (b = pgdir)) as [->|N1]; [|destruct (decide (b = a)) as [->|N2]].
  - eexists. rewrite lookup_insert_eq. split; [done|]. by rewrite upd_lenZ.
  - eexists. rewrite lookup_insert_ne, lookup_insert_eq by done. done.
  - destruct Hb as [|(m & Hm & Hn)]; [done|]. exists m. by rewrite !lookup_insert_ne.
Qed.

Lemma new_tab_ok : vm_ok new_tab pgdir.
Proof.
  destruct new_page as [Hpa Hfa]. pose proof new_ne as Hne.
  assert (forall j, 0 <= j < 1024 -> present (pde_of s pgdir j) -> tab_of s pgdir j <> a) as Hold.
  { intros j Hj Hpj Ea. destruct (o_tab _ _ Hok j Hj Hpj) as ((m & Hm & _) & _). congruence. }
  pose proof Hok as []. constructor.
  - intros b Hb. destruct (o_free0 b) as [H1 H2]; [rewrite Hf; by constructor|]. split; [done|]. cbn.
    assert (b <> a). { intros ->. rewrite Hf in o_nodup0. by apply NoDup_cons in o_nodup0 as [? _]. }
    rewrite !lookup_insert_ne; try done. intros ->. destruct o_dir0 as [(m & Hm & _) _]. congruence.
  - cbn. rewrite Hf in o_nodup0. by apply NoDup_cons in o_nodup0 as [_ ?].
  - split; [|apply o_dir0]. apply new_tab_is. right. apply o_dir0.
  - intros j Hj. rewrite new_tab_present, new_tab_of by done. intros Hpj.
    destruct (Z.eqb_spec i j) as [Eij|Hij].
    + split_and!; [apply new_tab_is; by left | done | done].
    + destruct Hpj as [|Hpj]; [done|]. destruct (o_tab0 j Hj Hpj) as (H1 & H2 & H3).
      split_and!; try done. apply new_tab_is. by right.
  - intros j k Hj Hk. rewrite !new_tab_present, !new_tab_of by done. intros Hpj Hpk.
    destruct (Z.eqb_spec i j) as [Eij|Hij], (Z.eqb_spec j k) as [Ejk|Hjk]; try done.
    + destruct (Z.eqb_spec i k) as [Eik|]; [congruence|].
      destruct Hpk as [|Hpk]; [done|]. intros E. by destruct (Hold k Hk Hpk).
    + destruct Hpj as [|Hpj]; [done|]. destruct (Z.eqb_spec i k) as [Eik|]; [intros E; by destruct (Hold j Hj Hpj)|].
      destruct Hpk as [|Hpk]; [done|]. by apply o_inj0.
Qed.

Lemma new_tab_kept : kept s new_tab pgdir.
Proof.
  destruct new_page as [_ Hfa]. constructor.
  - intros b q Hb Hno. cbn. rewrite !lookup_insert_ne; [done | congruence | congruence | intros <-; apply Hno; by left].
  - intros b q Hb Hno. cbn in Hb. rewrite !lookup_insert_ne in Hb; [done | | |]; intros <-; apply Hno; try by left.
    all: right; exists i; rewrite new_tab_present, new_tab_of, Z.eqb_refl by done; split_and!; [lia | lia | by left | done].
  - intros b [->|(j & Hj & Hpj & <-)]; [by left|]. right. exists j. rewrite new_tab_present, new_tab_of by done.
    split_and!; [lia | lia | by right |]. destruct (Z.eqb_spec i j) as [Eij|]; [|done]. rewrite <- Eij in Hpj. unfold present in Hpj. lia.
  - intros b [->|(j & Hj & Hpj & <-)]; [left; by left|]. rewrite new_tab_present, new_tab_of in * by done.
    destruct (Z.eqb_spec i j); [right; rewrite Hf; by constructor|]. left. right. exists j. naive_solver.
Qed.

Lemma new_tab_pte m : vpn m -> pte_of new_tab pgdir m = pte_of s pgdir m.
Proof.
  intros Hm. unfold vpn in Hm. assert (0 <= m / 1024 < 1024) as Hd by zlia. unfold pte_of.
  destruct (present_dec (pde_of new_tab pgdir (m / 1024))) as [E|E].
  - rewrite E. simpl. destruct (present_dec (pde_of s pgdir (m / 1024))) as [E'|E'].
    + by rewrite E'.
    + assert (present (pde_of new_tab pgdir (m / 1024))) as Hp by (apply new_tab_present; auto).
      unfold present in Hp. lia.
  - unfold present in E. rewrite E. simpl. apply new_tab_present in E as [Ei|E]; [| |done].
    + rewrite <- Ei, He, new_tab_of, Z.eqb_refl, new_tab_tab by done. rewrite (proj2 (Z.eqb_neq _ _) new_ne), Z.eqb_refl.
      etrans; [apply rd_replicate|done]. pose proof (Z.mod_pos_bound m 1024). lia.
    + destruct (Z.eqb_spec i (m / 1024)) as [Ei|Ei].
      { rewrite <- Ei in E. unfold present in E. lia. }
      rewrite E. simpl. rewrite new_tab_of, (proj2 (Z.eqb_neq _ _) Ei), new_tab_tab by done.
      destruct (o_tab _ _ Hok (m / 1024) Hd E) as ((q & Hq & _) & Hne & _).
      rewrite (proj2 (Z.eqb_neq _ _) Hne). destruct (Z.eqb_spec (tab_of s pgdir (m / 1024)) a) as [Ea|]; [|done].
      destruct new_page as [_ Hfa]. congruence.
Qed.
End new.

(** ** walkpgdir and mappages *)

(** The pages of data are the same, and the pages that the free list has lost are
    tables. *)
Record data_same (s s' : vm_t) : Prop := {
  ds_data : forall a d, v_frame s !! a = Some (FData d) <-> v_frame s' !! a = Some (FData d);
  ds_free : forall a, a ∈ v_free s' -> a ∈ v_free s;
  ds_tab : forall a, is_tab s a -> is_tab s' a;
  ds_lost : forall a, a ∈ v_free s -> a ∈ v_free s' \/ is_tab s' a
}.
Lemma data_same_refl s : data_same s s.
Proof. constructor; auto. Qed.
Lemma data_same_trans s1 s2 s3 : data_same s1 s2 -> data_same s2 s3 -> data_same s1 s3.
Proof.
  intros [H1 F1 T1 L1] [H2 F2 T2 L2]. constructor; auto.
  - intros a d. by rewrite H1, H2.
  - intros a Ha. destruct (L1 a Ha) as [Hb|Hb]; auto.
Qed.
Lemma data_same_with s t l : is_tab s t -> lenZ l = 1024 -> data_same s (with_tab s t l).
Proof.
  intros (m & Hm & _) Hl. constructor; auto.
  - intros a d. unfold with_tab. cbn. destruct (decide (a = t)) as [->|Hne].
    + rewrite lookup_insert_eq, Hm. naive_solver.
    + by rewrite lookup_insert_ne.
  - intros a. by apply is_tab_with.
Qed.
Lemma data_same_new s pgdir i a l : vm_ok s pgdir -> v_free s = a :: l -> data_same s (new_tab s pgdir i a l).
Proof.
  intros Hok Hf. pose proof (o_dir _ _ Hok) as [Ht _]. pose proof Ht as (m & Hm & _).
  destruct (o_free _ _ Hok a) as [_ Ha]; [rewrite Hf; by constructor|]. constructor.
  - intros b d. unfold new_tab, with_tab. cbn. destruct (decide (b = pgdir)) as [->|N1].
    + rewrite lookup_insert_eq, Hm. naive_solver.
    + rewrite lookup_insert_ne by done. destruct (decide (b = a)) as [->|N2].
      * rewrite lookup_insert_eq, Ha. naive_solver.
      * by rewrite !lookup_insert_ne.
  - cbn. rewrite Hf. intros b Hb. by constructor.
  - intros b Hb. apply new_tab_is; auto.
  - intros b. rewrite Hf. intros [->|Hb]%elem_of_cons; [right | by left]. apply new_tab_is; auto.
Qed.

Definition map_same (s s' : vm_t) (pgdir : Z) : Prop := forall m, vpn m -> pte_of s' pgdir m = pte_of s pgdir m.

Lemma walk_alloc s pgdir va (Q : option pte_ptr -> vm_t -> Prop) :
  vm_ok s pgdir -> 0 <= va < 4294967296 ->
  (v_free s = [] -> Q None s) ->
  (forall s', vm_ok s' pgdir -> map_same s s' pgdir -> data_same s s' -> kept s s' pgdir ->
     present (pde_of s' pgdir (va / 4096 / 1024)) ->
     Q (Some (tab_of s' pgdir (va / 4096 / 1024), (va / 4096) mod 1024)) s') ->
  wp (walkpgdir pgdir va true) s Q.
Proof.
  intros Hok Hva Hnone Hsome. pose proof (o_dir _ _ Hok) as [Hdir _].
  assert (0 <= va / 4096 / 1024 < 1024) as Hi by zlia.
  unfold walkpgdir. wp_step. apply wp_pte_get; [done|]. rewrite PDX_vpn, PTX_vpn by done.
  change (rd (tab s pgdir) _) with (pde_of s pgdir (va / 4096 / 1024)). rewrite land_P.
  destruct (present_dec (pde_of s pgdir (va / 4096 / 1024))) as [E|E].
  - rewrite E. simpl. wp_step. unfold vkalloc. wp_steps. destruct (v_free s) as [|a l] eqn:Ef.
    { wp_steps. rewrite Z.eqb_refl. wp_steps. auto. }
    wp_steps. destruct (o_free _ _ Hok a) as [(Hm & Hk & Hlo & Hhi) Ha]; [rewrite Ef; by constructor|].
    rewrite (proj2 (Z.eqb_neq a 0)) by (unfold KERNBASE in *; lia). unfold set_frame. wp_steps.
    assert (a <> pgdir) as Hap by (intros ->; destruct Hdir as (q & Hq & _); congruence).
    pose proof (new_tab_ok s pgdir _ a l Hok Hi E Ef) as Hnew.
    pose proof (Hsome (new_tab s pgdir (va / 4096 / 1024) a l) Hnew) as HQ.
    apply wp_pte_set.
    { destruct Hdir as (q & Hq & Hq'). exists q. cbn. by rewrite !lookup_insert_ne. }
    wp_steps.
    match goal with |- Q _ (with_tab ?x _ (upd ?y _ _)) => assert (y = tab s pgdir) as -> end.
    { unfold tab. cbn. by rewrite !lookup_insert_ne. }
    fold (new_tab s pgdir (va / 4096 / 1024) a l).
    rewrite (new_tab_of s pgdir _ a l Hok Hi Ef _ Hi), Z.eqb_refl in HQ. apply HQ.
    + intros m Hm'. by apply new_tab_pte.
    + by apply data_same_new.
    + by apply new_tab_kept.
    + apply new_tab_present; try done. by left.
  - unfold present in E. rewrite E. simpl. wp_steps. apply Hsome; try done; [apply data_same_refl | apply kept_refl].
Qed.

Lemma walk_noalloc s pgdir va (Q : option pte_ptr -> vm_t -> Prop) :
  vm_ok s pgdir -> 0 <= va < 4294967296 ->
  (pde_of s pgdir (va / 4096 / 1024) mod 2 = 0 -> Q None s) ->
  (present (pde_of s pgdir (va / 4096 / 1024)) ->
     Q (Some (tab_of s pgdir (va / 4096 / 1024), (va / 4096) mod 1024)) s) ->
  wp (walkpgdir pgdir va false) s Q.
Proof.
  intros Hok Hva Hnone Hsome. pose proof (o_dir _ _ Hok) as [Hdir _].
  unfold walkpgdir. wp_step. apply wp_pte_get; [done|]. rewrite PDX_vpn, PTX_vpn by done.
  change (rd (tab s pgdir) _) with (pde_of s pgdir (va / 4096 / 1024)). rewrite land_P.
  destruct (present_dec (pde_of s pgdir (va / 4096 / 1024))) as [E|E].
  - rewrite E. simpl. wp_steps. auto.
  - unfold present in *. rewrite E. simpl. wp_steps. by apply Hsome.
Qed.

(** The entry a pointer from [walkpgdir] points to. *)
Lemma wp_pte_get_of s pgdir n (Q : Z -> vm_t -> Prop) :
  vm_ok s pgdir -> vpn n -> present (pde_of s pgdir (n / 1024)) -> Q (pte_of s pgdir n) s ->
  wp (pte_get (tab_of s pgdir (n / 1024), n mod 1024)) s Q.
Proof.
  intros Hok Hn Hp HQ. apply wp_pte_get; [apply (o_tab _ _ Hok); [unfold vpn in Hn; zlia | done]|].
  unfold pte_of in HQ. unfold present in Hp. by rewrite Hp in HQ.
Qed.
Lemma wp_pte_set_of s pgdir n v (Q : unit -> vm_t -> Prop) :
  vm_ok s pgdir -> vpn n -> present (pde_of s pgdir (n / 1024)) -> Q tt (set_pte s pgdir n v) ->
  wp (pte_set (tab_of s pgdir (n / 1024), n mod 1024) v) s Q.
Proof.
  intros Hok Hn Hp HQ. apply wp_pte_set; [apply (o_tab _ _ Hok); [unfold vpn in Hn; zlia | done]|]. exact HQ.
Qed.

Definition entry (pa perm : Z) : Z := Z.lor (Z.lor pa perm) PTE_P.
(** The map [f] with [k] pages from page [n] mapped to [pa] and up. *)
Definition mapped (f : Z -> Z) (n k pa perm m : Z) : Z :=
  if (n <=? m) && (m <? n + k) then entry (pa + 4096 * (m - n)) perm else f m.

Record mapped_ok (s s' : vm_t) (pgdir n k pa perm : Z) : Prop := {
  mo_ok : vm_ok s' pgdir;
  mo_data : data_same s s';
  mo_map : forall m, vpn m -> pte_of s' pgdir m = mapped (pte_of s pgdir) n k pa perm m;
  mo_kept : kept s s' pgdir
}.

Lemma mapped_0 f n pa perm m : mapped f n 0 pa perm m = f m.
Proof. unfold mapped. destruct (_ && _) eqn:E; [bool_to_prop; lia | done]. Qed.
Lemma mapped_S f n k pa perm m : 0 <= k ->
  mapped (fun m => if m =? n then entry pa perm else f m) (n + 1) k (pa + 4096) perm m =
  mapped f n (k + 1) pa perm m.
Proof.
  intros Hk. unfold mapped. destruct (Z.eqb_spec m n) as [->|Hne].
  - rewrite (proj2 (Z.leb_gt (n + 1) n)), Z.leb_refl, (proj2 (Z.ltb_lt n (n + (k + 1)))) by lia. simpl.
    f_equal. lia.
  - destruct ((n + 1 <=? m) && (m <? n + 1 + k)) eqn:E1, ((n <=? m) && (m <? n + (k + 1))) eqn:E2;
      bool_to_prop; try lia; try done. f_equal. lia.
Qed.

(** [mappages] maps the pages in order, until the memory for a table runs out. *)
Lemma mappages_loop_spec perm N : forall s pgdir n pa,
  vm_ok s pgdir -> 0 <= n -> n + Z.of_nat N <= 1048576 -> 0 <= perm < 4096 ->
  (forall m, n <= m < n + Z.of_nat N -> ~ present (pte_of s pgdir m)) ->
  0 <= pa -> pa + 4096 * Z.of_nat N <= 4294967296 ->
  forall a, (0 < Z.of_nat N -> a = n * 4096) -> forall pa', (0 < Z.of_nat N -> pa' = pa) ->
  wp (mappages_loop N pgdir a pa' perm) s (fun r s' => exists k, 0 <= k <= Z.of_nat N /\
    (r = 0 /\ k = Z.of_nat N \/ r = -1 /\ k < Z.of_nat N /\ v_free s' = []) /\
    mapped_ok s s' pgdir n k pa perm).
Proof.
  induction N as [|N IH]; intros s pgdir n pa Hok Hn Hn2 Hperm Hfree Hpa Hpa2 a Ha pa' Hpa'.
  - cbn [mappages_loop]. wp_step. exists 0. split; [lia|]. split; [left; lia|]. constructor; [done | apply data_same_refl | | apply kept_refl].
    intros m Hm. by rewrite mapped_0.
  - rewrite (Ha ltac:(lia)), (Hpa' ltac:(lia)). cbn [mappages_loop]. wp_step.
    assert (n * 4096 / 4096 = n) as En by (by rewrite Z.div_mul). apply walk_alloc; [done | lia| |].
    { intros Hnil. wp_step. exists 0. split; [lia|]. split; [right; split_and!; lia || done|].
      constructor; [done | apply data_same_refl | | apply kept_refl]. intros m Hm. by rewrite mapped_0. }
    rewrite En. intros s1 Hok1 Hmap1 Hd1 Hk1 Hp1. assert (vpn n) as Hv by (unfold vpn; lia).
    wp_step. apply wp_pte_get_of; try done. rewrite (Hmap1 n Hv), land_P.
    destruct (present_dec (pte_of s pgdir n)) as [E|E]; [|by destruct (Hfree n); [lia|]].
    rewrite E. wp_steps; [done|]. apply wp_pte_set_of; try done. fold (entry pa perm).
    set (s2 := set_pte s1 pgdir n (entry pa perm)).
    assert (vm_ok s2 pgdir) as Hok2 by (by apply set_pte_ok).
    assert (data_same s s2) as Hd2.
    { eapply data_same_trans; [exact Hd1|].
      apply data_same_with; [apply (o_tab _ _ Hok1); [unfold vpn in Hv; zlia | done] | by apply set_pte_len]. }
    assert (forall m, vpn m -> pte_of s2 pgdir m = if m =? n then entry pa perm else pte_of s pgdir m) as Hmap2.
    { intros m Hm. unfold s2. rewrite set_pte_of by done. by rewrite Hmap1. }
    eapply wp_mono; [apply (IH s2 pgdir (n + 1) (pa + 4096))|]; try done; try lia.
    + intros m Hm. rewrite Hmap2 by (unfold vpn; lia). rewrite (proj2 (Z.eqb_neq m n)) by lia. apply Hfree. lia.
    + intros HN. unfold PGSIZE. rewrite u32_small by lia. lia.
    + intros HN. unfold PGSIZE. rewrite u32_small by lia. lia.
    + intros r s3 (k & Hk & Hr & [Hok3 Hd3 Hmap3 Hk3]). exists (k + 1). split; [lia|].
      split; [destruct Hr as [[-> ->]|(-> & ? & ?)]; [left; lia | right; split_and!; lia || done]|].
      constructor; [done | by eapply data_same_trans| |].
      * intros m Hm. rewrite Hmap3 by done.
        rewrite <- mapped_S by lia. unfold mapped. destruct (_ && _); [done | by apply Hmap2].
      * assert (kept s s2 pgdir) as Hk2.
        { apply (kept_trans _ s1); [done | done | by apply set_pte_kept|]. intros a1. unfold s2. rewrite set_pte_own by done. by left. }
        apply (kept_trans _ s2); [done | done | done|]. intros a1 [|Hf1]%(kp_new _ _ _ Hk3); [by left|].
        right. by apply (ds_free _ _ Hd2).
Qed.

(** [mappages] of a range that starts at a page and does not wrap around. *)
Lemma mappages_spec s pgdir va size pa perm :
  vm_ok s pgdir -> 0 <= va -> va mod 4096 = 0 -> 0 < size -> va + size <= 4294967296 ->
  0 <= pa -> pa mod 4096 = 0 -> pa + size <= 4294967296 -> 0 <= perm < 4096 ->
  let n := va / 4096 in
  let N := (size + 4095) / 4096 in
  (forall m, n <= m < n + N -> ~ present (pte_of s pgdir m)) ->
  wp (mappages pgdir va size pa perm) s (fun r s' => exists k, 0 <= k <= N /\
    (r = 0 /\ k = N \/ r = -1 /\ k < N /\ v_free s' = []) /\
    mapped_ok s s' pgdir n k pa perm).
Proof.
  intros Hok H0 Hal Hsz Hend Hp0 Hpal Hpend Hperm n N Hfree. unfold mappages.
  rewrite (u32_small va), (u32_small (va + size - 1)), !PGROUNDDOWN_vpn by lia. unfold PGSIZE.
  assert (u32 ((va + size - 1) / 4096 * 4096 - va / 4096 * 4096) / 4096 + 1 = N) as EN.
  { rewrite u32_small by zlia. unfold N. zlia. }
  rewrite EN. assert (0 <= N) by (unfold N; zlia).
  eapply wp_mono; [apply (mappages_loop_spec perm (Z.to_nat N) s pgdir n pa)|]; try done; try (unfold n, N in *; zlia).
  - rewrite Z2Nat.id by done. exact Hfree.
  - intros r s' (k & Hk & Hr & Hm). exists k. rewrite Z2Nat.id in * by done. done.
Qed.

(** ** The memory of a process *)

Definition UPAGES : Z := 524288.
(** The page of memory that a page of the process is mapped to. *)
Definition addr_of (s : vm_t) (pgdir m : Z) : Z := P2V (PTE_ADDR (pte_of s pgdir m)).

Record user_ok (s : vm_t) (pgdir : Z) : Prop := {
  u_page : forall m, 0 <= m < UPAGES -> present (pte_of s pgdir m) ->
    page_ok kend (addr_of s pgdir m) /\ exists d, v_frame s !! addr_of s pgdir m = Some (FData d) /\ lenZ d = 4096;
  u_inj : forall m m', 0 <= m < UPAGES -> 0 <= m' < UPAGES -> present (pte_of s pgdir m) ->
    present (pte_of s pgdir m') -> addr_of s pgdir m = addr_of s pgdir m' -> m = m'
}.

(** States with the same tables have the same map. *)
Lemma same_tabs s s' pgdir : (forall a, tab s' a = tab s a) ->
  (forall i, pde_of s' pgdir i = pde_of s pgdir i) /\ (forall i, tab_of s' pgdir i = tab_of s pgdir i) /\
  (forall m, pte_of s' pgdir m = pte_of s pgdir m).
Proof.
  intros Ht. assert (forall i, pde_of s' pgdir i = pde_of s pgdir i) as Hp by (intros; unfold pde_of; by rewrite Ht).
  assert (forall i, tab_of s' pgdir i = tab_of s pgdir i) as Hq by (intros; unfold tab_of; by rewrite Hp).
  split_and!; try done. intros m. unfold pte_of. by rewrite Hp, Hq, Ht.
Qed.

Lemma same_tabs_ok s s' pgdir : vm_ok s pgdir -> (forall a, tab s' a = tab s a) ->
  (forall a, is_tab s a -> is_tab s' a) ->
  (forall a, a ∈ v_free s' -> page_ok kend a /\ v_frame s' !! a = None) -> NoDup (v_free s') ->
  vm_ok s' pgdir.
Proof.
  intros [] Ht Hi Hf Hn. destruct (same_tabs s s' pgdir Ht) as (Hp & Hq & _). constructor; try done.
  - split; [apply Hi|]; apply o_dir0.
  - intros i Hir. rewrite Hp, Hq. intros Hpr. destruct (o_tab0 i Hir Hpr) as (H1 & H2 & H3). auto.
  - intros i j Hir Hjr. rewrite !Hp, !Hq. by apply o_inj0.
Qed.

(** A page of data is freed. *)
Definition free_page (s : vm_t) (a : Z) : vm_t := mkVm (delete a (v_frame s)) (a :: v_free s).
Lemma free_page_tab s a d b : v_frame s !! a = Some (FData d) -> tab (free_page s a) b = tab s b.
Proof.
  intros Ha. unfold tab, free_page. cbn. destruct (decide (b = a)) as [->|Hne].
  - by rewrite lookup_delete_eq, Ha.
  - by rewrite lookup_delete_ne.
Qed.
Lemma free_page_ok s pgdir a d : vm_ok s pgdir -> page_ok kend a -> v_frame s !! a = Some (FData d) ->
  vm_ok (free_page s a) pgdir.
Proof.
  intros Hok Hp Ha. apply (same_tabs_ok s); [done | by intros; eapply free_page_tab | | |].
  - intros b (l & Hl & Hn). exists l. cbn. rewrite lookup_delete_ne by congruence. done.
  - intros b [->|Hb]%elem_of_cons; [split; [done | apply lookup_delete_eq]|].
    destruct (o_free _ _ Hok b Hb) as [H1 H2]. split; [done|]. cbn. rewrite lookup_delete_ne; congruence.
  - constructor; [|apply Hok]. intros Hin. apply (o_free _ _ Hok) in Hin as [_ ?]. congruence.
Qed.
Lemma free_page_kept s pgdir a d : v_frame s !! a = Some (FData d) ->
  kept s (free_page s a) pgdir /\ forall b, own (free_page s a) pgdir b <-> own s pgdir b.
Proof.
  intros Ha. apply kept_same; [|intros b; by apply (free_page_tab s a d)].
  intros b l. cbn. destruct (decide (b = a)) as [->|]; [rewrite lookup_delete_eq, Ha; naive_solver | by rewrite lookup_delete_ne].
Qed.
Lemma wp_vkfree s a (Q : unit -> vm_t -> Prop) :
  page_ok kend a -> Q tt (free_page s a) -> wp (vkfree kend a) s Q.
Proof. intros Hp HQ. unfold vkfree. wp_steps; [by apply kfree_guard | done]. Qed.

(** What freeing the pages [[n, U)] does. *)
Definition in_user (s : vm_t) (pgdir n U a : Z) : Prop :=
  exists m, n <= m < U /\ present (pte_of s pgdir m) /\ addr_of s pgdir m = a.
Definition cleared (f : Z -> Z) (n U m : Z) : Z :=
  if (n <=? m) && (m <? U) && (f m mod 2 =? 1) then 0 else f m.
Record freed_ok (s s' : vm_t) (pgdir n U : Z) : Prop := {
  fr_ok : vm_ok s' pgdir;
  fr_user : user_ok s' pgdir;
  fr_map : forall m, vpn m -> pte_of s' pgdir m = cleared (pte_of s pgdir) n U m;
  fr_data : forall a d, v_frame s' !! a = Some (FData d) <->
    v_frame s !! a = Some (FData d) /\ ~ in_user s pgdir n U a;
  fr_free : forall a, a ∈ v_free s' <-> a ∈ v_free s \/ in_user s pgdir n U a;
  fr_tab : forall a, is_tab s a -> is_tab s' a;
  fr_keep : kept s s' pgdir;
  fr_own : forall a, own s' pgdir a -> own s pgdir a
}.

Lemma cleared_out f n U m : ~ (n <= m < U) -> cleared f n U m = f m.
Proof. intros Hm. unfold cleared. destruct (_ && _) eqn:E; [bool_to_prop; lia | done]. Qed.

Lemma freed_none s pgdir n U : vm_ok s pgdir -> user_ok s pgdir ->
  (forall m, n <= m < U -> ~ present (pte_of s pgdir m)) -> freed_ok s s pgdir n U.
Proof.
  intros Hok Hu Hno. assert (forall a, ~ in_user s pgdir n U a) as Hin
    by (intros a (m & Hm & Hp & _); by apply (Hno m)).
  constructor; try done.
  - intros m Hm. unfold cleared. destruct (_ && _) eqn:E; [|done]. bool_to_prop.
    destruct (Hno m); [lia | done].
  - naive_solver.
  - naive_solver.
  - apply kept_refl.
Qed.

Lemma freed_trans s s1 s2 pgdir n k U : 0 <= n -> n <= k <= U -> U <= UPAGES ->
  freed_ok s s1 pgdir n k -> freed_ok s1 s2 pgdir k U -> freed_ok s s2 pgdir n U.
Proof.
  intros Hn Hk HU [] []. unfold UPAGES in *.
  assert (forall a, in_user s1 pgdir k U a <-> in_user s pgdir k U a) as Hin.
  { intros a. unfold in_user, addr_of. split; intros (m & Hm & ?); exists m; split; try done;
      rewrite fr_map0, cleared_out in * by (unfold vpn; lia); done. }
  assert (forall a, in_user s pgdir n U a <-> in_user s pgdir n k a \/ in_user s pgdir k U a) as Hsplit.
  { intros a. unfold in_user. split.
    - intros (m & Hm & ?). destruct (Z.lt_ge_cases m k); [left | right]; exists m; split; done || lia.
    - intros [(m & Hm & ?)|(m & Hm & ?)]; exists m; split; done || lia. }
  constructor; try done.
  - intros m Hm. rewrite fr_map1 by done. unfold cleared at 1. rewrite fr_map0 by done.
    destruct (Z.lt_ge_cases m k).
    + rewrite (proj2 (Z.leb_gt k m)) by lia. simpl. unfold cleared.
      rewrite (proj2 (Z.ltb_lt m k)), (proj2 (Z.ltb_lt m U)) by lia. done.
    + rewrite cleared_out, (proj2 (Z.leb_le k m)) by lia. unfold cleared.
      rewrite (proj2 (Z.leb_le n m)) by lia. done.
  - intros a d. rewrite fr_data1, fr_data0, Hin, Hsplit. naive_solver.
  - intros a. rewrite fr_free1, fr_free0, Hin, Hsplit. naive_solver.
  - auto.
  - destruct fr_keep0 as [T1 B1 O1 N1], fr_keep1 as [T2 B2 O2 N2]. constructor; auto.
  - auto.
Qed.

Lemma free_one s pgdir n : vm_ok s pgdir -> user_ok s pgdir -> 0 <= n < UPAGES -> present (pte_of s pgdir n) ->
  freed_ok s (set_pte (free_page s (addr_of s pgdir n)) pgdir n 0) pgdir n (n + 1).
Proof.
  intros Hok Hu Hn Hp. unfold UPAGES in Hn. assert (vpn n) as Hv by (unfold vpn; lia).
  destruct (u_page _ _ Hu n Hn Hp) as (Hpg & d & Hd & Hlen). set (a := addr_of s pgdir n) in *.
  pose proof (free_page_ok s pgdir a d Hok Hpg Hd) as Hok1.
  destruct (same_tabs s (free_page s a) pgdir) as (Ep & Et & Em); [intros b; by apply (free_page_tab s a d)|].
  assert (present (pde_of (free_page s a) pgdir (n / 1024))) as Hpde.
  { rewrite Ep. destruct (present_dec (pde_of s pgdir (n / 1024))) as [E|E]; [|done].
    unfold present, pte_of in Hp. by rewrite E in Hp. }
  pose proof (set_pte_ok _ pgdir n 0 Hok1 Hv Hpde) as Hok2.
  set (s2 := set_pte _ _ _ _) in *.
  assert (forall m, vpn m -> pte_of s2 pgdir m = if m =? n then 0 else pte_of s pgdir m) as Hmap.
  { intros m Hm. unfold s2. rewrite set_pte_of by done. by rewrite Em. }
  assert (forall b e, v_frame s2 !! b = Some (FData e) <-> v_frame s !! b = Some (FData e) /\ b <> a) as Hdat.
  { intros b e. destruct (data_same_with (free_page s a) (tab_of (free_page s a) pgdir (n / 1024))
      (upd (tab (free_page s a) (tab_of (free_page s a) pgdir (n / 1024))) (n mod 1024) 0)) as [Hw _ _ _].
    { apply (o_tab _ _ Hok1); [zlia | done]. }
    { by apply set_pte_len. }
    etrans; [symmetry; apply Hw|]. cbn. destruct (decide (b = a)) as [->|Hne].
    - rewrite lookup_delete_eq. naive_solver.
    - rewrite lookup_delete_ne by done. naive_solver. }
  assert (forall b, in_user s pgdir n (n + 1) b <-> b = a) as Hin.
  { intros b. split; [intros (m & Hm & _ & <-); by replace m with n by lia|].
    intros ->. exists n. split; [lia | done]. }
  assert (forall m, vpn m -> m <> n -> addr_of s2 pgdir m = addr_of s pgdir m) as Haddr.
  { intros m Hm Hne. unfold addr_of. by rewrite Hmap, (proj2 (Z.eqb_neq m n) Hne). }
  assert (forall m, vpn m -> present (pte_of s2 pgdir m) -> m <> n /\ present (pte_of s pgdir m)) as Hpr.
  { intros m Hm. rewrite Hmap by done. case_test; [done|]. naive_solver. }
  constructor; try done.
  - constructor.
    + intros m Hm [Hne Hpm]%Hpr; [|unfold vpn, UPAGES in *; lia].
      rewrite Haddr by (unfold vpn, UPAGES in *; lia || done).
      destruct (u_page _ _ Hu m Hm Hpm) as (H1 & e & He & Hl). split; [done|]. exists e. split; [|done].
      apply Hdat. split; [done|]. intros Ea. destruct Hne. by apply (u_inj _ _ Hu); try done; unfold UPAGES.
    + intros m m' Hm Hm' [Hne Hpm]%Hpr [Hne' Hpm']%Hpr; unfold vpn, UPAGES in *; try lia.
      rewrite !Haddr by (unfold vpn; lia || done). by apply (u_inj _ _ Hu).
  - intros m Hm. rewrite Hmap by done. unfold cleared. destruct (Z.eqb_spec m n) as [->|Hne].
    + unfold present in Hp. rewrite Z.leb_refl, (proj2 (Z.ltb_lt n (n + 1))), Hp by lia. done.
    + destruct (_ && _) eqn:E; [bool_to_prop; lia | done].
  - intros b e. by rewrite Hdat, Hin.
  - intros b. rewrite Hin. cbn. rewrite elem_of_cons. naive_solver.
  - intros b (l & Hl & Hll). apply is_tab_with.
    + rewrite upd_lenZ. apply is_tab_tab. apply (o_tab _ _ Hok1); [zlia | done].
    + exists l. cbn. rewrite lookup_delete_ne by congruence. done.
  - destruct (free_page_kept s pgdir a d Hd) as [[T1 B1 O1 N1] Ho].
    pose proof (set_pte_own _ pgdir n 0 Hok1 Hv Hpde) as Ho2. destruct (set_pte_kept _ pgdir n 0 Hok1 Hv Hpde) as [T2 B2 O2 N2].
    constructor.
    + intros b l Hb Hno. apply T2; [by apply T1 | by rewrite Ho].
    + intros b l Hb Hno. apply B1; [by apply B2 | by rewrite <- Ho2].
    + auto.
    + intros b. unfold s2. rewrite Ho2, Ho. by left.
  - intros b. unfold s2. rewrite (set_pte_own _ pgdir n 0 Hok1 Hv Hpde). apply (free_page_kept s pgdir a d Hd).
Qed.

(** [deallocuvm] *)
Lemma next_table n : 0 <= n < UPAGES ->
  u32 (u32 (PGADDR (PDX (n * 4096) + 1) 0 0 - PGSIZE) + PGSIZE) = (n / 1024 + 1) * 1024 * 4096.
Proof.
  intros Hn. unfold UPAGES in Hn. rewrite PDX_vpn, Z.div_mul by lia.
  unfold PGADDR, PDXSHIFT, PTXSHIFT, PGSIZE. rewrite Z.shiftl_0_l, !Z.lor_0_r, Z.shiftl_mul_pow2 by lia.
  change (2 ^ 22) with 4194304. assert (0 <= n / 1024 < 512) as Hq by zlia.
  rewrite (u32_small ((n / 1024 + 1) * 4194304)) by lia.
  rewrite (u32_small ((n / 1024 + 1) * 4194304 - 4096)), u32_small by lia. lia.
Qed.

Lemma deallocuvm_loop_spec oldsz U fuel : forall s pgdir n,
  vm_ok s pgdir -> user_ok s pgdir -> 0 <= n -> U <= UPAGES ->
  (forall m, (m * 4096 <? oldsz) = (m <? U)) -> U - n <= Z.of_nat fuel ->
  wp (deallocuvm_loop kend fuel pgdir (n * 4096) oldsz) s (fun _ s' => freed_ok s s' pgdir n (Z.max n U)).
Proof.
  induction fuel as [|fuel IH]; intros s pgdir n Hok Hu Hn HU Hlt Hf; cbn [deallocuvm_loop]; rewrite Hlt.
  - rewrite (proj2 (Z.ltb_ge n U)) by lia. wp_step. rewrite Z.max_l by lia. apply freed_none; try done. lia.
  - destruct (Z.ltb_spec n U) as [Hlt'|]; [|wp_step; rewrite Z.max_l by lia; apply freed_none; try done; lia].
    unfold UPAGES in HU. rewrite Z.max_r by lia.
    assert (n * 4096 / 4096 = n) as En by (by rewrite Z.div_mul).
    wp_step. apply walk_noalloc; [done | lia | |]; rewrite En; intros Hpde.
    + rewrite next_table by (unfold UPAGES; lia).
      eapply wp_mono; [apply (IH s pgdir ((n / 1024 + 1) * 1024)); try done; unfold UPAGES; zlia|].
      intros [] s' Hfr. cbv beta in Hfr. assert (forall m, n <= m < Z.min U ((n / 1024 + 1) * 1024) -> ~ present (pte_of s pgdir m)) as Hno.
      { intros m Hm. unfold pte_of. replace (m / 1024) with (n / 1024) by zlia. by rewrite Hpde. }
      destruct (Z.le_gt_cases U ((n / 1024 + 1) * 1024)).
      * rewrite Z.max_l in Hfr by lia. apply (freed_trans _ s _ _ _ U); unfold UPAGES; try lia.
        -- apply freed_none; try done. intros m Hm. apply Hno. lia.
        -- destruct Hfr. constructor; try done.
           ++ intros m Hm. rewrite fr_map0 by done. by rewrite !cleared_out by lia.
           ++ intros a d. rewrite fr_data0. split; (intros [H1 H2]; split; [done|]; intros (m & Hm & _); lia).
           ++ intros a. rewrite fr_free0. split; (intros [|(m & Hm & _)]; [by left | lia]).
      * rewrite Z.max_r in Hfr by lia. apply (freed_trans _ s _ _ _ ((n / 1024 + 1) * 1024)); unfold UPAGES; try zlia; try done.
        apply freed_none; try done. intros m Hm. apply Hno. lia.
    + assert (vpn n) as Hv by (unfold vpn; lia). wp_step. apply wp_pte_get_of; try done. rewrite land_P.
      assert (u32 (n * 4096 + PGSIZE) = (n + 1) * 4096) as Enext by (unfold PGSIZE; rewrite u32_small; lia).
      wp_step. destruct (present_dec (pte_of s pgdir n)) as [E|E].
      * rewrite E. apply wp_when; [done|]. intros _. rewrite Enext.
        eapply wp_mono; [apply (IH s pgdir (n + 1)); try done; unfold UPAGES; lia|].
        intros [] s' Hfr. cbv beta in Hfr. rewrite Z.max_r in Hfr by lia. apply (freed_trans _ s _ _ _ (n + 1)); unfold UPAGES; try lia; try done.
        apply freed_none; try done. intros m Hm. replace m with n by lia. unfold present. lia.
      * assert (0 <= n < UPAGES) as HnU by (unfold UPAGES; lia).
        destruct (u_page _ _ Hu n HnU E) as (Hpg & d & Hd & _). pose proof (free_one s pgdir n Hok Hu HnU E) as Hone.
        unfold present in E. rewrite E. apply wp_when; [intros _|done]. wp_steps.
        { apply Z.eqb_neq. intros Ez. destruct Hpg as (_ & Hk & _). unfold addr_of in Hk. rewrite Ez in Hk.
          unfold P2V in Hk. lia. }
        apply wp_vkfree; [done|]. fold (addr_of s pgdir n).
        destruct (same_tabs s (free_page s (addr_of s pgdir n)) pgdir) as (Ep & Et & _);
          [intros b; by apply (free_page_tab s _ d)|].
        rewrite <- Et. apply wp_pte_set_of; [by apply (free_page_ok s pgdir _ d) | done | by rewrite Ep|].
        rewrite Enext. eapply wp_mono; [apply (IH _ pgdir (n + 1)); try apply Hone; try done; unfold UPAGES; lia|].
        intros [] s' Hfr. cbv beta in Hfr. rewrite Z.max_r in Hfr by lia. by apply (freed_trans _ (set_pte (free_page s (addr_of s pgdir n)) pgdir n 0) _ _ _ (n + 1)); unfold UPAGES; try lia.
Qed.
End maps.
