(* ===== verification/VmUser.v ===== *)
(** * Growing and shrinking a process

    [deallocuvm] frees exactly the pages of a range; [allocuvm] maps zeroed pages
    that were free, or, when the memory runs out, gives every page back. *)

From S2P Require Import Prelude Bytes Cstring Kalloc Vm VmSpec.

Section user.
Context (kend : Z).
Hypothesis Hkend : KERNBASE < kend.

(** The number of pages that [sz] bytes need. *)
Definition pages (sz : Z) : Z := (sz + 4095) / 4096.

Lemma PGROUNDUP_pages sz : 0 <= sz <= KERNBASE -> PGROUNDUP sz = pages sz * 4096.
Proof.
  unfold KERNBASE. intros Hs. destruct (PGROUNDUP_spec sz) as [Hm Hr]; unfold PGSIZE in *; [lia|].
  unfold pages. zlia.
Qed.
Lemma pages_lt m sz : (m * 4096 <? sz) = (m <? pages sz).
Proof. unfold pages. destruct (Z.ltb_spec (m * 4096) sz), (Z.ltb_spec m ((sz + 4095) / 4096)); zlia || done. Qed.
Lemma pages_mono a b : a <= b -> pages a <= pages b.
Proof. intros Hab. apply Z.div_le_mono; lia. Qed.
Lemma pages_range sz : 0 <= sz <= KERNBASE -> 0 <= pages sz <= UPAGES.
Proof. unfold KERNBASE, UPAGES, pages. intros. zlia. Qed.

(** [deallocuvm] to a smaller size: the pages above the new size are free and
    unmapped, and nothing else has changed. *)
Lemma deallocuvm_spec s pgdir oldsz newsz :
  vm_ok kend s pgdir -> user_ok kend s pgdir -> 0 <= newsz < oldsz -> oldsz <= KERNBASE ->
  wp (deallocuvm kend pgdir oldsz newsz) s (fun r s' =>
    r = newsz /\ freed_ok kend s s' pgdir (pages newsz) (pages oldsz)).
Proof.
  intros Hok Hu Hn Ho. unfold deallocuvm. rewrite (proj2 (Z.leb_gt oldsz newsz)) by lia.
  rewrite PGROUNDUP_pages by lia. wp_step.
  pose proof (pages_mono newsz oldsz ltac:(lia)). pose proof (pages_range newsz ltac:(lia)).
  pose proof (pages_range oldsz ltac:(lia)).
  eapply wp_mono; [apply (deallocuvm_loop_spec kend Hkend oldsz (pages oldsz)); try done; try lia|].
  - intros m. apply pages_lt.
  - unfold PGSIZE, pages in *. zlia.
  - intros [] s' Hf. cbv beta in Hf. wp_step. split; [done|]. by rewrite Z.max_r in Hf by lia.
Qed.

(** ** allocuvm *)

(** [s] is [s0] with the pages [[n0, n)] of the process added, and maybe one more
    page of memory, [extra], that is not mapped yet. *)
Record grown (s0 s : vm_t) (pgdir n0 n : Z) (extra : option Z) : Prop := {
  g_ok : vm_ok kend s pgdir;
  g_user : user_ok kend s pgdir;
  g_map : forall m, vpn m -> ~ (n0 <= m < n) -> pte_of s pgdir m = pte_of s0 pgdir m;
  g_new : forall m, n0 <= m < n -> present (pte_of s pgdir m) /\ PTE_FLAGS (pte_of s pgdir m) = 7 /\
    addr_of s pgdir m ∈ v_free s0 /\ v_frame s !! addr_of s pgdir m = Some (FData (zeros PGSIZE));
  g_data : forall a d, v_frame s0 !! a = Some (FData d) -> v_frame s !! a = Some (FData d);
  g_only : forall a d, v_frame s !! a = Some (FData d) ->
    v_frame s0 !! a = Some (FData d) \/ in_user s pgdir n0 n a \/ extra = Some a;
  g_free : forall a, a ∈ v_free s -> a ∈ v_free s0;
  g_kept : forall a, a ∈ v_free s0 -> a ∈ v_free s \/ in_user s pgdir n0 n a \/ is_tab s a \/ extra = Some a;
  g_tab : forall a, is_tab s0 a -> is_tab s a;
  g_extra : forall a, extra = Some a -> a ∈ v_free s0 /\ v_frame s !! a = Some (FData (zeros PGSIZE)) /\
    page_ok kend a /\ ~ in_user s pgdir 0 UPAGES a;
  g_keep : kept s0 s pgdir
}.

Lemma grown_refl s pgdir n0 : vm_ok kend s pgdir -> user_ok kend s pgdir -> grown s s pgdir n0 n0 None.
Proof. intros Hok Hu. constructor; try done; auto; [lia | apply kept_refl]. Qed.

(** [kalloc] and [memset]. *)
Definition fresh (s : vm_t) (a : Z) (l : list Z) : vm_t :=
  mkVm (<[a := FData (zeros PGSIZE)]> (<[a := FData junk_page]> (v_frame s))) l.

Section fresh.
Context (s : vm_t) (pgdir a : Z) (l : list Z).
Hypothesis Hok : vm_ok kend s pgdir.
Hypothesis Hf : v_free s = a :: l.

Lemma fresh_page : page_ok kend a /\ v_frame s !! a = None.
Proof. apply (o_free _ _ _ Hok). rewrite Hf. by constructor. Qed.
Lemma fresh_tab b : tab (fresh s a l) b = tab s b.
Proof.
  destruct fresh_page as [_ Ha]. unfold tab, fresh. cbn. destruct (decide (b = a)) as [->|Hne].
  - by rewrite lookup_insert_eq, Ha.
  - by rewrite !lookup_insert_ne.
Qed.
Lemma fresh_is_tab b : is_tab (fresh s a l) b <-> is_tab s b.
Proof.
  destruct fresh_page as [_ Ha]. unfold is_tab, fresh. cbn. destruct (decide (b = a)) as [->|Hne].
  - rewrite lookup_insert_eq, Ha. naive_solver.
  - by rewrite !lookup_insert_ne.
Qed.
Lemma fresh_ok : vm_ok kend (fresh s a l) pgdir.
Proof.
  destruct fresh_page as [Hp Ha]. pose proof (o_nodup _ _ _ Hok) as Hnd. rewrite Hf in Hnd.
  apply NoDup_cons in Hnd as [Hni Hnd]. apply (same_tabs_ok kend s); try done.
  - apply fresh_tab.
  - intros b. apply fresh_is_tab.
  - intros b Hb. cbn in Hb. destruct (o_free _ _ _ Hok b) as [H1 H2]; [rewrite Hf; by constructor|].
    split; [done|]. cbn. rewrite !lookup_insert_ne; [done | congruence | congruence].
Qed.
Lemma fresh_map : (forall m, pte_of (fresh s a l) pgdir m = pte_of s pgdir m) /\
  forall m, addr_of (fresh s a l) pgdir m = addr_of s pgdir m.
Proof.
  destruct (same_tabs s (fresh s a l) pgdir fresh_tab) as (_ & _ & Hm). split; [done|].
  intros m. unfold addr_of. by rewrite Hm.
Qed.
Lemma fresh_unused : user_ok kend s pgdir -> ~ in_user s pgdir 0 UPAGES a.
Proof.
  destruct fresh_page as [_ Ha]. intros Hu (m & Hm & Hp & E).
  destruct (u_page _ _ _ Hu m Hm Hp) as (_ & d & Hd & _). congruence.
Qed.
End fresh.

Lemma grown_fresh s0 s pgdir n0 n a l : vm_ok kend s0 pgdir -> grown s0 s pgdir n0 n None -> v_free s = a :: l ->
  grown s0 (fresh s a l) pgdir n0 n (Some a).
Proof.
  intros Hok0 [] Hf. destruct (fresh_page s pgdir a l g_ok0 Hf) as [Hp Ha].
  destruct (fresh_map s pgdir a l g_ok0 Hf) as [Hm Hd].
  assert (forall b d, v_frame s !! b = Some d -> v_frame (fresh s a l) !! b = Some d) as Hkeep.
  { intros b d Hb. cbn. rewrite !lookup_insert_ne; congruence. }
  assert (forall N U b, in_user (fresh s a l) pgdir N U b <-> in_user s pgdir N U b) as Hin.
  { intros N U b. unfold in_user. split; intros (m & H1 & H2 & H3); exists m; rewrite ?Hm, ?Hd in *; done. }
  pose proof (fresh_unused s pgdir a l g_ok0 Hf g_user0) as Hun.
  constructor.
  - by apply fresh_ok.
  - constructor.
    + intros m Hr. rewrite Hm, Hd. intros Hpm. destruct (u_page _ _ _ g_user0 m Hr Hpm) as (H1 & d & H2 & H3). eauto.
    + intros m m' Hr Hr'. rewrite !Hm, !Hd. by apply (u_inj _ _ _ g_user0).
  - intros m Hv Hr. rewrite Hm. by apply g_map0.
  - intros m Hr. rewrite Hm, Hd. destruct (g_new0 m Hr) as (H1 & H2 & H3 & H4). auto.
  - auto.
  - intros b d Hb. rewrite Hin. cbn in Hb. destruct (decide (b = a)) as [->|Hne]; [auto|].
    rewrite !lookup_insert_ne in Hb by done. destruct (g_only0 b d Hb) as [|[|[=]]]; auto.
  - intros b Hb. apply g_free0. rewrite Hf. by constructor.
  - intros b Hb. rewrite Hin, (fresh_is_tab s pgdir a l g_ok0 Hf). destruct (g_kept0 b Hb) as [Hb'|[|[|[=]]]]; auto.
    rewrite Hf in Hb'. apply elem_of_cons in Hb' as [->|]; auto.
  - intros b Hb. apply (fresh_is_tab s pgdir a l g_ok0 Hf). auto.
  - intros b ?; simplify_eq. rewrite Hin. split_and!; [|cbn; by rewrite lookup_insert_eq | done | done].
    apply g_free0. rewrite Hf. by constructor.
  - destruct (kept_same s (fresh s a l) pgdir) as [Hk Ho]; [|by intros; apply (fresh_tab s pgdir)|].
    { intros b q. cbn. destruct (decide (b = a)) as [->|]; [rewrite lookup_insert_eq, Ha; naive_solver | by rewrite !lookup_insert_ne]. }
    apply (kept_trans kend _ s); [done.. | intros b; rewrite Ho; by left].
Qed.

(** [mappages] maps the new page, or nothing. *)
Lemma grown_step s0 s s' pgdir n0 n a k pa : vm_ok kend s0 pgdir -> grown s0 s pgdir n0 n (Some a) ->
  mapped_ok kend s s' pgdir n k pa 6 -> kept s0 s' pgdir.
Proof.
  intros Hok0 Hg Hm. apply (kept_trans kend _ s); [done | apply Hg | apply Hm|].
  intros b [|Hb]%(kp_new _ _ _ (mo_kept _ _ _ _ _ _ _ _ Hm)); [by left|]. right. by apply (g_free _ _ _ _ _ _ Hg).
Qed.
Lemma grown_nomap s0 s s' pgdir n0 n a : vm_ok kend s0 pgdir -> grown s0 s pgdir n0 n (Some a) -> n0 <= n < UPAGES -> 0 <= n0 ->
  mapped_ok kend s s' pgdir n 0 (V2P a) 6 -> grown s0 s' pgdir n0 n (Some a).
Proof.
  intros Hok0 Hg Hn Hn0 Hmo. pose proof (grown_step _ _ _ _ _ _ _ _ _ Hok0 Hg Hmo) as Hkp.
  destruct Hg, Hmo as [Hok' [Hd Hfr Ht Hl] Hm _]. unfold UPAGES in Hn.
  assert (forall m, vpn m -> pte_of s' pgdir m = pte_of s pgdir m) as Hm' by (intros m Hv; by rewrite Hm, mapped_0).
  assert (forall m, vpn m -> addr_of s' pgdir m = addr_of s pgdir m) as Ha by (intros; unfold addr_of; by rewrite Hm').
  assert (forall N U b, 0 <= N -> U <= 524288 -> in_user s' pgdir N U b <-> in_user s pgdir N U b) as Hin.
  { intros N U b HN HU. unfold in_user. split; intros (m & H1 & H2 & H3); exists m;
      rewrite ?Hm', ?Ha in * by (unfold vpn; lia); done. }
  constructor; try done; unfold UPAGES in *.
  - constructor.
    + intros m Hr. unfold UPAGES in Hr. rewrite Hm', Ha by (unfold vpn; lia). intros Hp.
      destruct (u_page _ _ _ g_user0 m Hr Hp) as (H1 & d & H2 & H3). split; [done|]. exists d.
      split; [by apply Hd | done].
    + intros m m' Hr Hr'. unfold UPAGES in *. rewrite !Hm', !Ha by (unfold vpn; lia). by apply (u_inj _ _ _ g_user0).
  - intros m Hv Hr. rewrite Hm' by done. by apply g_map0.
  - intros m Hr. rewrite Hm', Ha by (unfold vpn; lia). destruct (g_new0 m Hr) as (H1 & H2 & H3 & H4).
    split_and!; try done. by apply Hd.
  - intros b d Hb. apply Hd. auto.
  - intros b d Hb. apply Hd in Hb. rewrite Hin by lia. auto.
  - auto.
  - intros b Hb. rewrite Hin by lia. destruct (g_kept0 b Hb) as [Hb'|[|[|]]]; auto.
    destruct (Hl b Hb') as [|]; auto.
  - auto.
  - intros b Hb. rewrite Hin by lia. destruct (g_extra0 b Hb) as (H1 & H2 & H3 & H4). split_and!; try done.
    by apply Hd.
Qed.

Lemma grown_mapped s0 s s' pgdir n0 n a : vm_ok kend s0 pgdir -> grown s0 s pgdir n0 n (Some a) -> 0 <= n0 <= n -> n < UPAGES ->
  mapped_ok kend s s' pgdir n 1 (V2P a) 6 -> grown s0 s' pgdir n0 (n + 1) None.
Proof.
  intros Hok0 Hg Hn Hn2 Hmo. pose proof (grown_step _ _ _ _ _ _ _ _ _ Hok0 Hg Hmo) as Hkp.
  destruct Hg, Hmo as [Hok' [Hd Hfr Ht Hl] Hm _]. unfold UPAGES in *.
  destruct (g_extra0 a eq_refl) as (Hfa & Hza & (Hal & Hk & Hlo & Hhi) & Hun).
  assert (0 <= V2P a < 4294967296 /\ V2P a mod 4096 = 0 /\ P2V (V2P a) = a) as (Hv1 & Hv2 & Hv3).
  { unfold KERNBASE, PHYSTOP, PGSIZE in *. rewrite P2V_V2P by (unfold KERNBASE; lia).
    unfold V2P, KERNBASE. rewrite (u32_small a), u32_small by lia. split_and!; [lia.. | zlia | done]. }
  assert (pte_of s' pgdir n = entry (V2P a) 6) as En.
  { rewrite Hm by (unfold vpn; lia). unfold mapped. rewrite Z.leb_refl, (proj2 (Z.ltb_lt n (n + 1))) by lia. simpl.
    f_equal. lia. }
  destruct (entry_parts (V2P a) 6 Hv1 Hv2 ltac:(lia)) as (Epa & Efl & Epr & _).
  fold (entry (V2P a) 6) in Epa, Efl, Epr.
  assert (addr_of s' pgdir n = a) as Ean by (unfold addr_of; by rewrite En, Epa).
  assert (forall m, vpn m -> m <> n -> pte_of s' pgdir m = pte_of s pgdir m) as Hm'.
  { intros m Hv Hne. rewrite Hm by done. unfold mapped. destruct (_ && _) eqn:E; [bool_to_prop; lia | done]. }
  assert (forall m, vpn m -> m <> n -> addr_of s' pgdir m = addr_of s pgdir m) as Ha
    by (intros; unfold addr_of; by rewrite Hm').
  assert (forall m, 0 <= m < 524288 -> m <> n -> present (pte_of s pgdir m) -> addr_of s pgdir m <> a) as Hne.
  { intros m Hr Hmn Hp E. apply Hun. by exists m. }
  assert (forall b, in_user s' pgdir n0 (n + 1) b <-> in_user s pgdir n0 n b \/ b = a) as Hin.
  { intros b. unfold in_user. split.
    - intros (m & H1 & H2 & H3). destruct (decide (m = n)) as [->|Hmn]; [right; congruence|].
      left. exists m. rewrite Hm', Ha in * by (unfold vpn; lia || done). split; [lia | done].
    - intros [(m & H1 & H2 & H3)| ->].
      + exists m. rewrite Hm', Ha by (unfold vpn; lia). split; [lia | done].
      + exists n. rewrite En. split_and!; [lia | lia | exact Epr | exact Ean]. }
  constructor; try done.
  - constructor; unfold UPAGES.
    + intros m Hr. destruct (decide (m = n)) as [->|Hmn].
      * intros _. rewrite Ean. split; [done|]. exists (zeros PGSIZE). split; [by apply Hd|].
        apply lenZ_zeros. unfold PGSIZE. lia.
      * rewrite Hm', Ha by (unfold vpn; lia || done). intros Hp.
        destruct (u_page _ _ _ g_user0 m Hr Hp) as (H1 & d & H2 & H3). split; [done|]. exists d.
        split; [by apply Hd | done].
    + intros m m' Hr Hr'. destruct (decide (m = n)) as [->|Hmn], (decide (m' = n)) as [->|Hmn']; try done.
      * rewrite Ean, (Hm' m'), (Ha m') by (unfold vpn; lia || done). intros _ Hp E. by destruct (Hne m' Hr' Hmn' Hp).
      * rewrite Ean, (Hm' m), (Ha m) by (unfold vpn; lia || done). intros Hp _ E. by destruct (Hne m Hr Hmn Hp).
      * rewrite !Hm', !Ha by (unfold vpn; lia || done). by apply (u_inj _ _ _ g_user0).
  - intros m Hv Hr. rewrite Hm' by (done || lia). apply g_map0; [done | lia].
  - intros m Hr. destruct (decide (m = n)) as [->|Hmn].
    + rewrite Ean, En. split_and!; try done. by apply Hd.
    + rewrite Hm', Ha by (unfold vpn; lia || done). destruct (g_new0 m) as (H1 & H2 & H3 & H4); [lia|].
      split_and!; try done. by apply Hd.
  - intros b d Hb. apply Hd. auto.
  - intros b d Hb. apply Hd in Hb. rewrite Hin. destruct (g_only0 b d Hb) as [|[|[=]]]; auto.
  - auto.
  - intros b Hb. rewrite Hin. destruct (g_kept0 b Hb) as [Hb'|[|[|[=]]]]; auto.
    destruct (Hl b Hb') as [|]; auto.
  - auto.
Qed.

(** Everything is given back: the pages [[n0, N)] are not mapped, the data pages are
    those of [s0], and no page is lost, except that page tables stay. *)
Record undone (s0 s : vm_t) (pgdir n0 N : Z) (extra : option Z) : Prop := {
  un_ok : vm_ok kend s pgdir;
  un_user : user_ok kend s pgdir;
  un_map : forall m, vpn m -> ~ (n0 <= m < N) -> pte_of s pgdir m = pte_of s0 pgdir m;
  un_gone : forall m, n0 <= m < N -> ~ present (pte_of s pgdir m);
  un_data : forall a d, v_frame s !! a = Some (FData d) <->
    v_frame s0 !! a = Some (FData d) \/ extra = Some a /\ d = zeros PGSIZE;
  un_kept : forall a, a ∈ v_free s0 -> a ∈ v_free s \/ is_tab s a \/ extra = Some a;
  un_free : forall a, a ∈ v_free s -> a ∈ v_free s0;
  un_keep : kept s0 s pgdir
}.

Lemma grown_undo s0 s s' pgdir n0 n N extra :
  vm_ok kend s0 pgdir ->
  grown s0 s pgdir n0 n extra -> 0 <= n0 <= n -> n <= N <= UPAGES ->
  (forall m, n <= m < N -> ~ present (pte_of s pgdir m)) ->
  freed_ok kend s s' pgdir n0 N -> undone s0 s' pgdir n0 N extra.
Proof.
  intros Hok0 [] Hn HN Hno []. unfold UPAGES in HN.
  assert (forall a, in_user s pgdir n0 N a <-> in_user s pgdir n0 n a) as Hin.
  { intros a. split; intros (m & H1 & H2 & H3); exists m; (split; [|done]); [|lia].
    destruct (Z.lt_ge_cases m n); [lia|]. by destruct (Hno m); [lia|]. }
  assert (forall a, in_user s pgdir n0 n a -> a ∈ v_free s0) as Hfresh.
  { intros a (m & H1 & H2 & <-). by apply g_new0. }
  assert (forall a d, v_frame s0 !! a = Some (FData d) -> ~ in_user s pgdir n0 n a) as Hold.
  { intros a d Ha Hi. destruct (o_free _ _ _ Hok0 a (Hfresh a Hi)) as [_ ?]. congruence. }
  constructor; try done.
  - intros m Hv Hr. rewrite fr_map, cleared_out by done. apply g_map0; [done | lia].
  - intros m Hr. rewrite fr_map by (unfold vpn; lia). unfold cleared. destruct (_ && _) eqn:E; [done|].
    intros Hp. bool_to_prop; try lia. unfold present in Hp. lia.
  - intros a d. rewrite fr_data, Hin. split.
    + intros [Ha Hi]. destruct (g_only0 a d Ha) as [|[|He]]; auto; [done|]. right. split; [done|].
      destruct (g_extra0 a He) as (_ & Hz & _). congruence.
    + intros [Ha|[He ->]]; [split; [auto | by eapply Hold]|].
      destruct (g_extra0 a He) as (_ & Hz & _ & Hun). split; [done|]. intros (m & H1 & H2). apply Hun.
      exists m. split; [unfold UPAGES; lia | done].
  - intros a Ha. rewrite fr_free, Hin. destruct (g_kept0 a Ha) as [|[|[|]]]; auto.
  - intros a. rewrite fr_free, Hin. intros [|]; auto.
  - apply (kept_trans kend _ s); [done.. | intros b Hb; left; by apply fr_own].
Qed.

Lemma undone_free s0 s pgdir n0 N a : vm_ok kend s0 pgdir -> a ∈ v_free s0 -> undone s0 s pgdir n0 N (Some a) ->
  page_ok kend a -> v_frame s0 !! a = None -> ~ in_user s pgdir 0 UPAGES a ->
  undone s0 (free_page s a) pgdir n0 N None.
Proof.
  intros Hok0 Hfa [] Hp Hn Hun.
  assert (v_frame s !! a = Some (FData (zeros PGSIZE))) as Ha by (apply un_data0; by right).
  assert (forall b, tab (free_page s a) b = tab s b) as Htab by (intros b; by apply (free_page_tab s a (zeros PGSIZE))).
  destruct (same_tabs s (free_page s a) pgdir Htab) as (_ & _ & Hm).
  assert (forall m, addr_of (free_page s a) pgdir m = addr_of s pgdir m) as Had by (intros; unfold addr_of; by rewrite Hm).
  constructor.
  - by apply (free_page_ok kend s pgdir a (zeros PGSIZE)).
  - constructor.
    + intros m Hr. rewrite Hm, Had. intros Hpm. destruct (u_page _ _ _ un_user0 m Hr Hpm) as (H1 & d & H2 & H3).
      split; [done|]. exists d. split; [|done]. cbn. rewrite lookup_delete_ne; [done|]. intros E. apply Hun.
      exists m. done.
    + intros m m' Hr Hr'. rewrite !Hm, !Had. by apply (u_inj _ _ _ un_user0).
  - intros m Hv Hr. rewrite Hm. auto.
  - intros m Hr. rewrite Hm. by apply un_gone0.
  - intros b d. cbn. destruct (decide (b = a)) as [->|Hne].
    + rewrite lookup_delete_eq, Hn. naive_solver.
    + rewrite lookup_delete_ne by done. rewrite un_data0. naive_solver.
  - intros b Hb. cbn. destruct (un_kept0 b Hb) as [|[(q & Hq & Hl)|[=]]].
    + left. by constructor.
    + right. left. exists q. cbn. rewrite lookup_delete_ne by congruence. done.
    + subst. left. constructor.
  - intros b [->|]%elem_of_cons; auto.
  - destruct (free_page_kept s pgdir a (zeros PGSIZE) Ha) as [Hk Ho].
    apply (kept_trans kend _ s); [done.. | intros b; rewrite Ho; by left].
Qed.

Lemma freed_in_user s s' pgdir n U a : freed_ok kend s s' pgdir n U ->
  in_user s' pgdir 0 UPAGES a -> in_user s pgdir 0 UPAGES a.
Proof.
  intros [] (m & Hr & Hp & Ha). unfold UPAGES in *. exists m. split; [done|].
  unfold addr_of in *. rewrite fr_map in * by (unfold vpn; lia). unfold cleared in *.
  by destruct (_ && _).
Qed.

(** The end of [allocuvm] when the memory has run out. *)
Lemma alloc_undo s0 s pgdir n oldsz newsz extra :
  vm_ok kend s0 pgdir -> grown s0 s pgdir (pages oldsz) n extra -> 0 <= oldsz < newsz -> newsz < KERNBASE ->
  pages oldsz <= n <= pages newsz ->
  (forall m, n <= m < pages newsz -> ~ present (pte_of s pgdir m)) ->
  wp (deallocuvm kend pgdir newsz oldsz) s (fun _ s' =>
    undone s0 s' pgdir (pages oldsz) (pages newsz) extra /\
    forall a, in_user s' pgdir 0 UPAGES a -> in_user s pgdir 0 UPAGES a).
Proof.
  intros Hok0 Hg Hs Hk Hn Hno. pose proof (pages_range oldsz ltac:(lia)). pose proof (pages_range newsz ltac:(lia)).
  eapply wp_mono; [apply deallocuvm_spec; try apply Hg; lia|].
  intros r s' [_ Hf]. split; [by apply (grown_undo s0 s s' pgdir (pages oldsz) n); try lia|].
  intros a. by apply (freed_in_user _ _ _ _ _ _ Hf).
Qed.

(** [allocuvm] maps one page at a time. *)
Lemma mappages_one s pgdir n a perm : vm_ok kend s pgdir -> 0 <= n < UPAGES -> page_ok kend a -> 0 <= perm < 4096 ->
  ~ present (pte_of s pgdir n) ->
  wp (mappages pgdir (n * 4096) PGSIZE (V2P a) perm) s (fun r s' =>
    r = 0 /\ mapped_ok kend s s' pgdir n 1 (V2P a) perm \/
    r = -1 /\ mapped_ok kend s s' pgdir n 0 (V2P a) perm /\ v_free s' = []).
Proof.
  intros Hok Hn (Hal & Hke & Hlo & Hhi) Hpm Hno. unfold UPAGES, PHYSTOP in *.
  assert (0 <= V2P a /\ V2P a mod 4096 = 0 /\ V2P a + 4096 <= 4294967296) as (Hv1 & Hv2 & Hv3).
  { unfold V2P, KERNBASE, PHYSTOP, PGSIZE in *. rewrite (u32_small a), u32_small by lia. split_and!; zlia. }
  eapply wp_mono; [apply (mappages_spec kend s pgdir (n * 4096) PGSIZE (V2P a) perm)|];
    unfold PGSIZE; try done; try lia.
  - by rewrite Z.mod_mul.
  - intros m Hm. rewrite Z.div_mul in Hm by done. by replace m with n by (change ((4096 + 4095) / 4096) with 1 in Hm; lia).
  - change ((4096 + 4095) / 4096) with 1. rewrite Z.div_mul by done.
    intros r s2 (k & Hk' & [[-> ->]|(-> & Hk1 & Hfr)] & Hmo); [by left|]. right. split; [done|]. split; [|done].
    by replace 0 with k at 1 by lia.
Qed.

(** The free list ran out with fewer than [N] pages. *)
Definition starved (s0 : vm_t) (pgdir n0 N : Z) : Prop := exists s1 n extra,
  n0 <= n < N /\ grown s0 s1 pgdir n0 n extra /\ v_free s1 = [].

Lemma allocuvm_loop_spec s0 pgdir oldsz newsz fuel : forall s n,
  vm_ok kend s0 pgdir -> 0 <= oldsz <= newsz -> newsz < KERNBASE ->
  (forall m, pages oldsz <= m < pages newsz -> ~ present (pte_of s0 pgdir m)) ->
  grown s0 s pgdir (pages oldsz) n None -> pages oldsz <= n <= pages newsz ->
  pages newsz - n <= Z.of_nat fuel ->
  wp (allocuvm_loop kend fuel pgdir oldsz newsz (n * 4096)) s (fun r s' =>
    r = newsz /\ grown s0 s' pgdir (pages oldsz) (pages newsz) None \/
    r = 0 /\ undone s0 s' pgdir (pages oldsz) (pages newsz) None /\ starved s0 pgdir (pages oldsz) (pages newsz)).
Proof.
  pose proof (pages_range newsz) as Hpr.
  induction fuel as [|fuel IH]; intros s n Hok0 Hs Hk Hno Hg Hn Hf; cbn [allocuvm_loop]; rewrite pages_lt.
  - rewrite (proj2 (Z.ltb_ge n (pages newsz))) by lia. wp_step. left. split; [done|].
    by replace (pages newsz) with n by lia.
  - destruct (Z.ltb_spec n (pages newsz)) as [Hlt|]; [|wp_step; left; split; [done|];
      by replace (pages newsz) with n by lia].
    specialize (Hpr ltac:(lia)). unfold UPAGES in Hpr.
    pose proof (pages_range oldsz ltac:(lia)) as Hpr0.
    assert (oldsz < newsz) as Hlt' by (destruct (decide (oldsz = newsz)) as [->|]; lia).
    assert (forall m, n <= m < pages newsz -> ~ present (pte_of s pgdir m)) as Hno'.
    { intros m Hm. rewrite (g_map _ _ _ _ _ _ Hg) by (unfold vpn; lia). apply Hno. lia. }
    wp_step. unfold vkalloc. wp_steps. destruct (v_free s) as [|a l] eqn:Ef; wp_steps.
    { rewrite Z.eqb_refl. wp_step. eapply wp_mono; [apply (alloc_undo s0 s pgdir n oldsz newsz None); try done; lia|].
      intros r s' [Hun _]. wp_step. right. split; [done|]. split; [done|]. exists s, n, None. split; [lia | done]. }
    destruct (fresh_page s pgdir a l (g_ok _ _ _ _ _ _ Hg) Ef) as [Hpa Hna].
    assert (a <> 0) as Ha0 by (destruct Hpa as (_ & _ & Hlo & _); unfold KERNBASE in *; lia).
    rewrite (proj2 (Z.eqb_neq a 0) Ha0). unfold set_frame. wp_steps.
    pose proof (grown_fresh s0 s pgdir _ n a l Hok0 Hg Ef) as Hg1. unfold fresh in Hg1.
    destruct (fresh_map s pgdir a l (g_ok _ _ _ _ _ _ Hg) Ef) as [Hm1 _]. unfold fresh in Hm1. cbn in *.
    match goal with |- wp _ ?x _ => set (s1 := x) in * end.
    eapply wp_mono; [apply (mappages_one s1 pgdir n a 6); [apply Hg1 | unfold UPAGES; lia | done | lia |]|].
    { rewrite Hm1. apply Hno'. lia. }
    intros r s2 [[-> Hmo]|(-> & Hmo & Hfr2)].
    + rewrite (proj2 (Z.ltb_ge 0 0)) by lia. unfold PGSIZE. rewrite u32_small by lia.
      replace (n * 4096 + 4096) with ((n + 1) * 4096) by lia. apply IH; try done; try lia.
      apply (grown_mapped s0 s1 s2 pgdir _ n a); try done; unfold UPAGES; lia.
    + change (-1 <? 0) with true. cbv iota.
      pose proof (grown_nomap s0 s1 s2 pgdir _ n a Hok0 Hg1 ltac:(unfold UPAGES; lia) ltac:(lia) Hmo) as Hg2.
      assert (forall m, n <= m < pages newsz -> ~ present (pte_of s2 pgdir m)) as Hno2.
      { intros m Hm. rewrite (g_map _ _ _ _ _ _ Hg2) by (unfold vpn; lia). apply Hno. lia. }
      wp_step. eapply wp_mono; [apply (alloc_undo s0 s2 pgdir n oldsz newsz (Some a)); try done; lia|].
      intros r s3 [Hun Hin]. wp_step. apply wp_vkfree; [done|]. wp_step. right. split; [done|].
      split; [|exists s2, n, (Some a); split; [lia | done]].
      destruct (g_extra _ _ _ _ _ _ Hg2 a eq_refl) as (Hf0 & _ & _ & Hni).
      apply undone_free; try done; [by apply (o_free _ _ _ Hok0)|]. intros Hi. by apply Hni, Hin.
Qed.

Lemma allocuvm_spec s pgdir oldsz newsz :
  vm_ok kend s pgdir -> user_ok kend s pgdir -> 0 <= oldsz <= newsz -> newsz < KERNBASE ->
  (forall m, pages oldsz <= m < pages newsz -> ~ present (pte_of s pgdir m)) ->
  wp (allocuvm kend pgdir oldsz newsz) s (fun r s' =>
    r = newsz /\ grown s s' pgdir (pages oldsz) (pages newsz) None \/
    r = 0 /\ undone s s' pgdir (pages oldsz) (pages newsz) None /\ starved s pgdir (pages oldsz) (pages newsz)).
Proof.
  intros Hok Hu Hs Hk Hno. unfold allocuvm. rewrite (proj2 (Z.leb_gt KERNBASE newsz)) by lia.
  rewrite (proj2 (Z.ltb_ge newsz oldsz)) by lia. rewrite PGROUNDUP_pages by lia.
  pose proof (pages_mono oldsz newsz ltac:(lia)).
  apply (allocuvm_loop_spec s pgdir oldsz newsz); try done; try lia; [by apply grown_refl|].
  unfold PGSIZE, pages in *. zlia.
Qed.

End user.
