(* ===== verification/VmSpace.v ===== *)
(** * Address spaces

    [freevm] gives back every page of an address space and nothing else, and
    [setupkvm] makes one that maps the kernel, or gives back what it took. *)

From S2P Require Import Prelude Bytes Cstring Kalloc Vm VmSpec VmUser.

Section space.
Context (kend : Z).
Hypothesis Hkend : KERNBASE < kend.

(** The pages of an address space: its directory, its tables and its memory. *)
Definition pages_of (s : vm_t) (pgdir a : Z) : Prop := own s pgdir a \/ in_user s pgdir 0 UPAGES a.

(** The pages [X] are free, and nothing else has changed. *)
Record released (s s' : vm_t) (X : Z -> Prop) : Prop := {
  rl_same : forall a, ~ X a -> v_frame s' !! a = v_frame s !! a;
  rl_gone : forall a, X a -> v_frame s' !! a = None;
  rl_free : forall a, a ∈ v_free s' <-> a ∈ v_free s \/ X a;
  rl_page : forall a, a ∈ v_free s' -> page_ok kend a /\ v_frame s' !! a = None;
  rl_nodup : NoDup (v_free s');
}.

Lemma released_ext s s' X Y : (forall a, X a <-> Y a) -> released s s' X -> released s s' Y.
Proof. intros E []. constructor; [intros a; rewrite <- E; auto.. | done | done]. Qed.

Lemma released_more s s1 X a f : released s s1 X -> page_ok kend a -> v_frame s !! a = Some f -> ~ X a ->
  released s (free_page s1 a) (fun b => X b \/ b = a).
Proof.
  intros [] Hp Ha Hn. assert (v_frame s1 !! a = Some f) as Ha1 by (by rewrite rl_same0).
  constructor; cbn.
  - intros b Hb. rewrite lookup_delete_ne by naive_solver. apply rl_same0. naive_solver.
  - intros b [Hb| ->]; [|apply lookup_delete_eq]. destruct (decide (b = a)) as [->|]; [apply lookup_delete_eq|].
    rewrite lookup_delete_ne by done. auto.
  - intros b. rewrite elem_of_cons, rl_free0. naive_solver.
  - intros b [->|Hb]%elem_of_cons; [split; [done | apply lookup_delete_eq]|].
    destruct (rl_page0 b Hb) as [? E]. split; [done|]. rewrite lookup_delete_ne; [done | congruence].
  - constructor; [|done]. intros Hin. apply rl_page0 in Hin as [_ ?]. congruence.
Qed.

Lemma own_tab s pgdir a : vm_ok kend s pgdir -> own s pgdir a -> is_tab s a /\ page_ok kend a.
Proof.
  intros Hok [->|(i & Hi & Hp & <-)]; [apply (o_dir _ _ _ Hok)|]. by destruct (o_tab _ _ _ Hok i Hi Hp) as (? & _ & ?).
Qed.
Lemma in_user_not_own s pgdir a : vm_ok kend s pgdir -> user_ok kend s pgdir ->
  in_user s pgdir 0 UPAGES a -> ~ own s pgdir a.
Proof.
  intros Hok Hu (m & Hm & Hp & <-) Ho. apply own_tab in Ho as [(l & Hl & _) _]; [|done].
  destruct (u_page _ _ _ Hu m Hm Hp) as (_ & d & Hd & _). congruence.
Qed.

(** After [deallocuvm] of all the memory of the process. *)
Lemma freed_frame s s' pgdir a : user_ok kend s pgdir -> freed_ok kend s s' pgdir 0 UPAGES -> ~ own s pgdir a ->
  (~ in_user s pgdir 0 UPAGES a -> v_frame s' !! a = v_frame s !! a) /\
  (in_user s pgdir 0 UPAGES a -> v_frame s' !! a = None).
Proof.
  intros Hu [] Hno. destruct fr_keep as [T B O N].
  assert (~ own s' pgdir a) as Hno' by (intros H; by apply Hno, fr_own). split; intros Hin.
  - destruct (v_frame s !! a) as [[l|d]|] eqn:E; [by apply T | by apply fr_data|].
    destruct (v_frame s' !! a) as [[l|d]|] eqn:E'; [|by apply fr_data in E' as [? _]; congruence | done].
    rewrite (B _ _ E' Hno') in E. done.
  - destruct (v_frame s' !! a) as [[l|d]|] eqn:E'; [|by apply fr_data in E' as [_ ?] | done].
    destruct Hin as (m & Hm & Hp & Ha). destruct (u_page _ _ _ Hu m Hm Hp) as (_ & d & Hd & _).
    rewrite Ha, (B _ _ E' Hno') in Hd. done.
Qed.

(** The tables with index less than [i]. *)
Definition tables (s : vm_t) (pgdir i a : Z) : Prop :=
  exists j, 0 <= j < i /\ present (pde_of s pgdir j) /\ tab_of s pgdir j = a.

Lemma freevm_tables s pgdir : vm_ok kend s pgdir ->
  wp (forM (Z.to_nat NPDENTRIES) 0 (freevm_entry kend pgdir)) s (fun _ s' => released s s' (tables s pgdir 1024)).
Proof.
  intros Hok. destruct (o_dir _ _ _ Hok) as [Hdir _].
  assert (forall i a, i <= 1024 -> tables s pgdir i a -> a <> pgdir /\ is_tab s a) as Htab.
  { intros i a Hi (j & Hj & Hp & <-). destruct (o_tab _ _ _ Hok j ltac:(lia) Hp) as (H1 & H2 & _). done. }
  apply (wp_forM _ _ _ (fun i s' => released s s' (tables s pgdir i))).
  - constructor; [done | intros a (j & Hj & _); lia | | apply (o_free _ _ _ Hok) | apply (o_nodup _ _ _ Hok)].
    intros a. split; [by left | intros [|(j & Hj & _)]; [done | lia]].
  - intros i s' Hi Hr. change (0 + Z.of_nat (Z.to_nat NPDENTRIES)) with 1024 in Hi. unfold freevm_entry.
    assert (~ tables s pgdir i pgdir) as Hd by (intros H; by apply Htab in H as [? _]; [|lia]).
    assert (is_tab s' pgdir /\ tab s' pgdir = tab s pgdir) as [Hdir' Et].
    { destruct Hdir as (l & Hl & Hn). unfold is_tab, tab. rewrite (rl_same _ _ _ Hr) by done. eauto. }
    wp_step. apply wp_pte_get; [done|]. rewrite Et, land_P. fold (pde_of s pgdir i).
    destruct (present_dec (pde_of s pgdir i)) as [E|E].
    + rewrite E. apply wp_when; [done | intros _]. eapply released_ext; [|exact Hr]. intros a. unfold tables.
      split; intros (j & Hj & Hp & Ha); exists j; (split; [|done]); [lia|].
      destruct (decide (j = i)) as [->|]; [unfold present in Hp; lia | lia].
    + rewrite (E : _ = 1). apply wp_when; [intros _ | done]. fold (tab_of s pgdir i).
      destruct (o_tab _ _ _ Hok i ltac:(lia) E) as ((l & Hl & _) & _ & Hp). apply wp_vkfree; [done|].
      eapply released_ext; [|eapply released_more; [exact Hr | done | exact Hl |]].
      * intros a. unfold tables. split.
        -- intros [(j & Hj & ?)| ->]; [exists j | exists i]; (split; [lia | done]).
        -- intros (j & Hj & Hpj & Ha). destruct (decide (j = i)) as [->|]; [by right|]. left. exists j. split; [lia | done].
      * intros (j & Hj & Hpj & Ha). assert (j = i); [|lia]. apply (o_inj _ _ _ Hok); [lia | lia | done..].
  - intros s' Hr. exact Hr.
Qed.

(** [freevm] frees the directory, the tables and the memory of an address space;
    every other page, and so every other address space, stays as it is. *)
Lemma freevm_spec s pgdir : vm_ok kend s pgdir -> user_ok kend s pgdir ->
  wp (freevm kend pgdir) s (fun _ s' => released s s' (pages_of s pgdir)).
Proof.
  intros Hok Hu. destruct (o_dir _ _ _ Hok) as [(ld & Hld & _) Hpd]. unfold freevm. wp_steps.
  { apply Z.eqb_neq. destruct Hpd as (_ & _ & ? & _). unfold KERNBASE in *. lia. }
  eapply wp_mono; [apply deallocuvm_spec; try done; unfold KERNBASE; lia|]. intros r s1 [_ Hf].
  change (pages 0) with 0 in Hf. change (pages KERNBASE) with UPAGES in Hf.
  pose proof (fr_ok _ _ _ _ _ _ Hf) as Hok1. wp_step. eapply wp_mono; [by apply freevm_tables|]. intros [] s2 Hr.
  apply wp_vkfree; [done|]. destruct (o_dir _ _ _ Hok1) as [(l1 & Hl1 & _) _].
  assert (~ tables s1 pgdir 1024 pgdir) as Hd.
  { intros (j & Hj & Hp & E). destruct (o_tab _ _ _ Hok1 j Hj Hp) as (_ & ? & _). done. }
  destruct (released_more _ _ _ pgdir _ Hr Hpd Hl1 Hd) as [F1 F2 F3 F4 F5].
  assert (forall a, tables s1 pgdir 1024 a \/ a = pgdir <-> own s pgdir a) as Ho.
  { intros a. split.
    - intros H. apply (fr_own _ _ _ _ _ _ Hf). destruct H as [H|H]; [by right | by left].
    - intros H. apply (kp_own _ _ _ (fr_keep _ _ _ _ _ _ Hf)) in H as [|]; [by right | by left]. }
  constructor; try done.
  - intros a Hn. unfold pages_of in Hn. rewrite F1 by (rewrite Ho; tauto). by apply (freed_frame s s1 pgdir); tauto.
  - intros a [Ha|Ha]; [by apply F2, Ho|]. assert (~ own s pgdir a) as Hn by (by apply in_user_not_own).
    rewrite F1 by (by rewrite Ho). by apply (freed_frame s s1 pgdir).
  - intros a. rewrite F3, (fr_free _ _ _ _ _ _ Hf), Ho. unfold pages_of. tauto.
Qed.

(** ** A new address space *)

Lemma own_dec s pgdir a : own s pgdir a \/ ~ own s pgdir a.
Proof.
  destruct (decide (a = pgdir)) as [->|Hne]; [left; by left|].
  destruct (decide (Exists (fun i => pde_of s pgdir i mod 2 = 1 /\ tab_of s pgdir i = a) (seqZ 0 1024))) as [H|H];
    rewrite Exists_exists in H.
  - left. right. destruct H as (i & Hi%elem_of_seqZ & ?). exists i. split; [lia | done].
  - right. intros [|(i & Hi & ?)]; [done|]. apply H. exists i. split; [apply elem_of_seqZ; lia | done].
Qed.

(** [s] is [s0] with the address space of [pgdir] added, in pages that were free. *)
Record new_space (s0 s : vm_t) (pgdir : Z) : Prop := {
  ns_ok : vm_ok kend s pgdir;
  ns_user : user_ok kend s pgdir;
  ns_same : forall a, ~ pages_of s pgdir a -> v_frame s !! a = v_frame s0 !! a;
  ns_free : forall a, a ∈ v_free s0 <-> a ∈ v_free s \/ pages_of s pgdir a;
}.

(** The free list is as [kalloc] keeps it. *)
Definition free_ok (s : vm_t) : Prop :=
  NoDup (v_free s) /\ forall a, a ∈ v_free s -> page_ok kend a /\ v_frame s !! a = None.

(** Nothing has changed but the order of the free list. *)
Record restored (s0 s : vm_t) : Prop := {
  rs_frame : forall a, v_frame s !! a = v_frame s0 !! a;
  rs_free : forall a, a ∈ v_free s <-> a ∈ v_free s0;
  rs_ok : free_ok s;
}.

Lemma pages_of_not_free s pgdir a : vm_ok kend s pgdir -> user_ok kend s pgdir -> pages_of s pgdir a -> a ∉ v_free s.
Proof.
  intros Hok Hu Ha Hf. destruct (o_free _ _ _ Hok a Hf) as [_ Hn]. destruct Ha as [Ha|(m & Hm & Hp & <-)].
  - apply own_tab in Ha as [(l & Hl & _) _]; [congruence | done].
  - destruct (u_page _ _ _ Hu m Hm Hp) as (_ & d & Hd & _). congruence.
Qed.

(** [freevm] of the new address space. *)
Lemma new_space_free s0 s pgdir : free_ok s0 -> new_space s0 s pgdir ->
  wp (freevm kend pgdir) s (fun _ s' => restored s0 s').
Proof.
  intros [_ Hf0] [Hok Hu Hs Hf]. eapply wp_mono; [by apply freevm_spec|]. intros [] s' [R1 R2 R3 R4 R5].
  assert (forall a, pages_of s pgdir a -> v_frame s0 !! a = None) as Hn by (intros a Ha; apply Hf0, Hf; by right).
  constructor; [|intros a; by rewrite R3, Hf | by split].
  intros a. destruct (own_dec s pgdir a) as [Ho|Ho].
  - by rewrite R2, Hn by (by left).
  - destruct (decide (Exists (fun m => pte_of s pgdir m mod 2 = 1 /\ addr_of s pgdir m = a) (seqZ 0 UPAGES))) as [H|H];
      rewrite Exists_exists in H.
    + assert (pages_of s pgdir a) as Ha.
      { right. destruct H as (m & Hm%elem_of_seqZ & ?). exists m. split; [lia | done]. }
      by rewrite R2, Hn.
    + assert (~ pages_of s pgdir a) as Ha.
      { intros [|(m & Hm & ?)]; [done|]. apply H. exists m. split; [apply elem_of_seqZ; lia | done]. }
      by rewrite R1, Hs.
Qed.

(** A page that became a table belongs to the directory. *)
Lemma new_tab_own s s' pgdir a : vm_ok kend s pgdir -> kept s s' pgdir -> a ∈ v_free s -> is_tab s' a -> own s' pgdir a.
Proof.
  intros Hok Hk Hf (l & Hl & _). destruct (own_dec s' pgdir a) as [|Hn]; [done|].
  pose proof (kp_back _ _ _ Hk a l Hl Hn). destruct (o_free _ _ _ Hok a Hf) as [_ ?]. congruence.
Qed.

(** A step that changes only pages of the address space. *)
Lemma frame_same s s' pgdir : kept s s' pgdir ->
  (forall a d, ~ pages_of s' pgdir a -> v_frame s !! a = Some (FData d) <-> v_frame s' !! a = Some (FData d)) ->
  forall a, ~ pages_of s' pgdir a -> v_frame s' !! a = v_frame s !! a.
Proof.
  intros [T B O N] Hd a Ha. assert (~ own s' pgdir a) as Hn by (intros H; apply Ha; by left).
  assert (~ own s pgdir a) as Hn' by auto.
  destruct (v_frame s !! a) as [[l|d]|] eqn:E; [by apply T | by apply (Hd a d Ha)|].
  destruct (v_frame s' !! a) as [[l|d]|] eqn:E'; [rewrite (B _ _ E' Hn) in E; done | | done].
  apply Hd in E'; [congruence | done].
Qed.

(** Kernel mappings: the memory of the process is the same. *)
Lemma same_user s s' pgdir : (forall m, 0 <= m < UPAGES -> pte_of s' pgdir m = pte_of s pgdir m) ->
  (forall m, 0 <= m < UPAGES -> addr_of s' pgdir m = addr_of s pgdir m) /\
  forall a, in_user s' pgdir 0 UPAGES a <-> in_user s pgdir 0 UPAGES a.
Proof.
  intros Hm. assert (forall m, 0 <= m < UPAGES -> addr_of s' pgdir m = addr_of s pgdir m) as Ha
    by (intros m H; unfold addr_of; by rewrite Hm).
  split; [done|]. intros a. unfold in_user. split; intros (m & H1 & H2 & H3); exists m; rewrite ?Hm, ?Ha in * by done; done.
Qed.
Lemma new_space_kernel s0 s s' pgdir n k pa perm : new_space s0 s pgdir -> UPAGES <= n ->
  mapped_ok kend s s' pgdir n k pa perm -> new_space s0 s' pgdir.
Proof.
  intros [Hok Hu Hs Hf] Hn [Hok' [Dd Df Dt Dl] Hm Hk].
  assert (forall m, 0 <= m < UPAGES -> pte_of s' pgdir m = pte_of s pgdir m) as Hm'.
  { intros m Hr. unfold UPAGES in *. rewrite Hm by (unfold vpn; lia). unfold mapped. destruct (_ && _) eqn:E; [bool_to_prop; lia | done]. }
  destruct (same_user s s' pgdir Hm') as [Ha Hin].
  assert (forall a, ~ pages_of s' pgdir a -> ~ pages_of s pgdir a) as Hsub.
  { intros a Hn' [H|H]; apply Hn'; [left; by apply (kp_own _ _ _ Hk) | right; by apply Hin]. }
  constructor; [done | | |].
  - constructor.
    + intros m Hr. rewrite Hm', Ha by done. intros Hp. destruct (u_page _ _ _ Hu m Hr Hp) as (H1 & d & H2 & H3).
      split; [done|]. exists d. split; [by apply Dd | done].
    + intros m m' Hr Hr'. rewrite !Hm', !Ha by done. by apply (u_inj _ _ _ Hu).
  - intros a Hn'. rewrite (frame_same s s' pgdir Hk) by (done || (intros; apply Dd)). by apply Hs, Hsub.
  - intros a. rewrite Hf. split.
    + intros [H|[H|H]]; [|right; left; by apply (kp_own _ _ _ Hk) | right; right; by apply Hin].
      destruct (Dl a H) as [|Ht]; [by left | right; left; by apply (new_tab_own s)].
    + intros [H|[H|H]]; [left; by apply Df | | right; right; by apply Hin].
      destruct (kp_new _ _ _ Hk a H) as [|]; [right; by left | by left].
Qed.

(** ** Running out of pages

    An address space has a directory, at most 1024 tables and its memory; so with
    more than [1025 + n] free pages a process of [n] pages can always be made. *)
Definition short (s0 : vm_t) (n : Z) : Prop := lenZ (v_free s0) <= 1025 + n.

Lemma short_mono s0 n n' : short s0 n -> n <= n' -> short s0 n'.
Proof. unfold short. lia. Qed.
Lemma pages_short s0 s pgdir n extra : NoDup (v_free s0) -> 0 <= n ->
  (forall a, a ∈ v_free s0 -> own s pgdir a \/ in_user s pgdir 0 n a \/ extra = Some a) ->
  short s0 (n + match extra with Some _ => 1 | None => 0 end).
Proof.
  intros Hnd Hn Hin. set (L := pgdir :: (tab_of s pgdir <$> seqZ 0 1024) ++ (addr_of s pgdir <$> seqZ 0 n) ++ option_list extra).
  assert (v_free s0 ⊆+ L) as Hsub.
  { apply NoDup_submseteq; [done|]. intros a Ha. unfold L. rewrite elem_of_cons, !elem_of_app.
    destruct (Hin a Ha) as [[->|(i & Hi & _ & <-)]|[(m & Hm & _ & <-)| ->]].
    - by left.
    - right. left. apply list_elem_of_fmap_2, elem_of_seqZ. lia.
    - right. right. left. apply list_elem_of_fmap_2, elem_of_seqZ. lia.
    - right. right. right. apply list_elem_of_singleton. done. }
  apply submseteq_length in Hsub. unfold L in Hsub. cbn [length] in Hsub. rewrite !length_app, !length_fmap, !length_seqZ in Hsub.
  unfold short, lenZ. destruct extra; cbn in Hsub; lia.
Qed.
Lemma new_space_short s0 s pgdir n : free_ok s0 -> new_space s0 s pgdir -> v_free s = [] -> 0 <= n <= UPAGES ->
  (forall m, n <= m < UPAGES -> ~ present (pte_of s pgdir m)) -> short s0 n.
Proof.
  intros [Hnd _] Hs Hf Hn Hno. rewrite <- (Z.add_0_r n). apply (pages_short s0 s pgdir n None Hnd); [lia|].
  intros a Ha%(ns_free _ _ _ Hs). rewrite Hf in Ha. destruct Ha as [Ha|[Ha|(m & Hm & Hp & E)]]; [by apply elem_of_nil in Ha | by left|].
  right. left. exists m. destruct (Z.lt_ge_cases m n); [split; [lia | done]|]. by destruct (Hno m ltac:(lia)).
Qed.

Lemma starved_short s0 s pgdir n0 N : free_ok s0 -> new_space s0 s pgdir -> 0 <= n0 -> N <= UPAGES ->
  (forall m, n0 <= m < UPAGES -> ~ present (pte_of s pgdir m)) -> starved kend s pgdir n0 N -> short s0 N.
Proof.
  intros [Hnd _] [Hok Hu Hs Hf] Hn0 HN Hno (s1 & n & extra & Hn & Hg & Hf1). unfold UPAGES in *.
  apply (short_mono s0 (n + match extra with Some _ => 1 | None => 0 end)); [|destruct extra; lia].
  apply (pages_short s0 s1 pgdir n extra Hnd); [lia|]. intros a [Ha|[Ha|(m & Hm & Hp & E)]]%Hf.
  - destruct (g_kept _ _ _ _ _ _ _ Hg a Ha) as [H|[(m & Hm & H)|[H|H]]]; [| | |by auto].
    + rewrite Hf1 in H. by apply elem_of_nil in H.
    + right. left. exists m. split; [lia | done].
    + left. apply (new_tab_own s); [done | apply Hg | done | done].
  - left. by apply (kp_own _ _ _ (g_keep _ _ _ _ _ _ _ Hg)).
  - right. left. exists m. destruct (Z.lt_ge_cases m n0); [|by destruct (Hno m ltac:(unfold UPAGES in *; lia) Hp)].
    unfold addr_of in *. rewrite (g_map _ _ _ _ _ _ _ Hg) by (unfold vpn, UPAGES in *; lia). split; [lia | done].
Qed.

(** The memory of the process grows, or gives everything back. *)
Lemma new_space_grown s0 s s' pgdir n0 n : new_space s0 s pgdir -> 0 <= n0 -> n <= UPAGES ->
  (forall m, n0 <= m < n -> ~ present (pte_of s pgdir m)) ->
  grown kend s s' pgdir n0 n None -> new_space s0 s' pgdir.
Proof.
  intros [Hok Hu Hs Hf] Hn0 Hn Hno []. unfold UPAGES in Hn.
  assert (forall a, in_user s' pgdir 0 UPAGES a <-> in_user s pgdir 0 UPAGES a \/ in_user s' pgdir n0 n a) as Hin.
  { intros a. unfold in_user, addr_of, UPAGES. split.
    - intros (m & H1 & H2 & H3). destruct (decide (n0 <= m < n)); [right; by exists m|]. left. exists m.
      rewrite <- g_map by (unfold vpn; lia || done). done.
    - intros [(m & H1 & H2 & H3)|(m & H1 & H2)]; [|exists m; split; [lia | done]]. exists m.
      destruct (decide (n0 <= m < n)); [by destruct (Hno m)|]. rewrite g_map by (unfold vpn; lia || done). done. }
  constructor; [done | done | |].
  - intros a Hn'. rewrite (frame_same s s' pgdir g_keep).
    + apply Hs. intros [H|H]; apply Hn'; [left; by apply (kp_own _ _ _ g_keep) | right; apply Hin; by left].
    + intros b d Hb. split; [apply g_data|]. intros [|[H|[=]]]%g_only; [done|]. destruct Hb. right. apply Hin. by right.
    + done.
  - intros a. rewrite Hf. unfold pages_of. rewrite Hin. split.
    + intros [H|[H|H]]; [|right; left; by apply (kp_own _ _ _ g_keep) | auto].
      destruct (g_kept a H) as [|[|[Ht|[=]]]]; [by left | auto |]. right. left. by apply (new_tab_own s).
    + intros [H|[H|[H|(m & H1 & _ & <-)]]]; [left; auto | | auto | left; by apply g_new].
      destruct (kp_new _ _ _ g_keep a H); auto.
Qed.
Lemma new_space_undone s0 s s' pgdir n0 n : new_space s0 s pgdir -> 0 <= n0 -> n <= UPAGES ->
  (forall m, n0 <= m < n -> ~ present (pte_of s pgdir m)) ->
  undone kend s s' pgdir n0 n None -> new_space s0 s' pgdir.
Proof.
  intros [Hok Hu Hs Hf] Hn0 Hn Hno []. unfold UPAGES in Hn.
  assert (forall a, in_user s' pgdir 0 UPAGES a <-> in_user s pgdir 0 UPAGES a) as Hin.
  { intros a. unfold in_user, addr_of, UPAGES.
    split; intros (m & H1 & H2 & H3); exists m.
    - assert (~ n0 <= m < n) by (intros H; by apply (un_gone m H)). rewrite <- un_map by (unfold vpn; lia || done). done.
    - assert (~ n0 <= m < n) by (intros H; by apply (Hno m H)). rewrite un_map by (unfold vpn; lia || done). done. }
  constructor; [done | done | |].
  - intros a Hn'. rewrite (frame_same s s' pgdir un_keep); [| |done].
    + apply Hs. intros [H|H]; apply Hn'; [left; by apply (kp_own _ _ _ un_keep) | right; by apply Hin].
    + intros b d Hb. rewrite un_data. naive_solver.
  - intros a. rewrite Hf. unfold pages_of. rewrite Hin. split.
    + intros [H|[H|H]]; [|right; left; by apply (kp_own _ _ _ un_keep) | auto].
      destruct (un_kept a H) as [|[Ht|[=]]]; [by left|]. right. left. by apply (new_tab_own s).
    + intros [H|[H|H]]; [left; auto | | auto]. destruct (kp_new _ _ _ un_keep a H); auto.
Qed.

(** *** setupkvm *)

(** The entries of [kmap] follow each other, from page [lo] on. *)
Fixpoint kmap_fits (lo : Z) (k : list (Z * Z * Z * Z)) : Prop :=
  match k with
  | [] => True
  | (virt, ps, pe, perm) :: k =>
      let size := u32 (pe - ps) in
      lo <= virt / 4096 /\ 0 <= virt /\ virt mod 4096 = 0 /\ 0 < size /\ virt + size <= 4294967296 /\
      0 <= ps /\ ps mod 4096 = 0 /\ ps + size <= 4294967296 /\ 0 <= perm < 4096 /\
      kmap_fits ((virt + size + 4095) / 4096) k
  end.

Lemma setupkvm_loop_spec s0 pgdir : free_ok s0 -> forall k lo s, new_space s0 s pgdir -> kmap_fits lo k -> UPAGES <= lo ->
  (forall m, vpn m -> m < UPAGES \/ lo <= m -> ~ present (pte_of s pgdir m)) ->
  wp (setupkvm_loop kend k pgdir) s (fun r s' =>
    r = pgdir /\ new_space s0 s' pgdir /\ (forall m, 0 <= m < UPAGES -> ~ present (pte_of s' pgdir m)) \/
    r = 0 /\ restored s0 s' /\ short s0 0).
Proof.
  intros Hf0. induction k as [|[[[virt ps] pe] perm] k IH]; intros lo s Hs Hk Hlo Hno; cbn [setupkvm_loop].
  { wp_step. left. split_and!; [done | done|]. intros m Hm. apply Hno; [unfold vpn, UPAGES in *; lia | left; lia]. }
  destruct Hk as (K1 & K2 & K3 & K4 & K5 & K6 & K7 & K8 & K9 & K10). set (size := u32 (pe - ps)) in *. wp_step.
  eapply wp_mono; [apply (mappages_spec kend s pgdir virt size ps perm); try done; [apply Hs|]|].
  { intros m Hm. apply Hno; [unfold vpn, UPAGES in *; zlia | right; lia]. }
  intros r s1 (j & Hj & Hr & Hm). pose proof (new_space_kernel s0 s s1 pgdir (virt / 4096) j ps perm Hs (Z.le_trans _ _ _ Hlo K1) Hm) as Hs1.
  destruct Hr as [[-> ->]|(-> & _ & Hfr)].
  - change (0 <? 0) with false. cbv iota. apply (IH ((virt + size + 4095) / 4096)); try done; [unfold UPAGES in *; zlia|].
    intros m Hv Hr. rewrite (mo_map _ _ _ _ _ _ _ _ Hm) by done. unfold mapped. unfold vpn, UPAGES in *.
    destruct (_ && _) eqn:E; [bool_to_prop; zlia|]. apply Hno; [done | bool_to_prop; zlia].
  - change (-1 <? 0) with true. cbv iota. wp_step. eapply wp_mono; [by apply (new_space_free s0)|].
    intros [] s2 H2. wp_step. right. split; [done|]. split; [done|]. apply (new_space_short s0 s1 pgdir 0 Hf0 Hs1 Hfr); [unfold UPAGES; lia|].
    intros m Hv. rewrite (mo_map _ _ _ _ _ _ _ _ Hm) by (unfold vpn, UPAGES in *; lia). unfold mapped, UPAGES in *.
    destruct (_ && _) eqn:E; [bool_to_prop; lia|]. apply Hno; [unfold vpn; lia | left; lia].
Qed.

Context (kdata : Z).
Hypothesis Hkdata : KERNLINK < kdata < KERNBASE + PHYSTOP /\ kdata mod 4096 = 0.

Lemma kmap_fit : kmap_fits UPAGES (kmap kdata).
Proof.
  unfold kmap, KERNLINK, V2P, DEVSPACE, PHYSTOP, KERNBASE, EXTMEM, UPAGES, PTE_W in *. destruct Hkdata as [H1 H2].
  cbn [kmap_fits]. rewrite !(u32_small (2147483648 + 1048576)), !(u32_small kdata) by lia.
  rewrite !(u32_small (2147483648 + 1048576 - 2147483648)), !(u32_small (kdata - 2147483648)) by lia.
  rewrite (u32_small (1048576 - 0)), (u32_small (kdata - 2147483648 - (2147483648 + 1048576 - 2147483648))),
    (u32_small (234881024 - (kdata - 2147483648))) by lia.
  change (u32 (0 - 4261412864)) with 33554432. split_and!; try zlia; try done.
Qed.

(** The directory of [setupkvm], before the kernel is mapped. *)
Definition new_dir (s : vm_t) (a : Z) (l : list Z) : vm_t :=
  mkVm (<[a := FTable zero_table]> (<[a := FData junk_page]> (v_frame s))) l.
Lemma new_dir_space s a l : free_ok s -> v_free s = a :: l ->
  new_space s (new_dir s a l) a /\ forall m, vpn m -> ~ present (pte_of (new_dir s a l) a m).
Proof.
  intros [Hnd Hf] Ef. rewrite Ef in Hnd. apply NoDup_cons in Hnd as [Hni Hnd].
  destruct (Hf a) as [Hpa Hna]; [rewrite Ef; by constructor|].
  assert (tab (new_dir s a l) a = zero_table) as Et by (unfold tab, new_dir; cbn; by rewrite lookup_insert_eq).
  assert (forall i, 0 <= i < 1024 -> pde_of (new_dir s a l) a i = 0) as Hz.
  { intros i Hi. unfold pde_of. rewrite Et. by apply rd_replicate. }
  assert (forall m, vpn m -> pte_of (new_dir s a l) a m = 0) as Hp.
  { intros m Hm. unfold pte_of, vpn in *. by rewrite Hz by zlia. }
  split; [|intros m Hm; rewrite Hp by done; by intros ?].
  assert (forall b, pages_of (new_dir s a l) a b <-> b = a) as Hpg.
  { intros b. split; [intros [[|(i & Hi & Hpr & _)]|(m & Hm & Hpr & _)]; [done|rewrite Hz in Hpr by done; done|]
      | intros ->; left; by left]. rewrite Hp in Hpr by (unfold vpn, UPAGES in *; lia). done. }
  constructor.
  - constructor; cbn.
    + intros b Hb. destruct (Hf b) as [H1 H2]; [rewrite Ef; by constructor|]. split; [done|].
      rewrite !lookup_insert_ne; [done | congruence | congruence].
    + done.
    + split; [|done]. exists zero_table. cbn. by rewrite lookup_insert_eq.
    + intros i Hi. rewrite Hz by done. by intros ?.
    + intros i j Hi Hj. rewrite Hz by done. by intros ?.
  - constructor; intros m; [|intros m']; intros Hm; [|intros Hm']; rewrite Hp by (unfold vpn, UPAGES in *; lia); by intros ?.
  - intros b. rewrite Hpg. intros Hb. cbn. by rewrite !lookup_insert_ne.
  - intros b. rewrite Hpg, Ef, elem_of_cons. cbn. tauto.
Qed.

Lemma setupkvm_spec s : free_ok s ->
  wp (setupkvm kend kdata) s (fun r s' =>
    r <> 0 /\ new_space s s' r /\ (forall m, 0 <= m < UPAGES -> ~ present (pte_of s' r m)) \/
    r = 0 /\ restored s s' /\ short s 0).
Proof.
  intros Hf. unfold setupkvm, vkalloc. wp_steps. destruct (v_free s) as [|a l] eqn:Ef; wp_steps.
  { rewrite Z.eqb_refl. wp_step. right. unfold short. rewrite Ef. done. }
  destruct (new_dir_space s a l Hf Ef) as [Hs Hno].
  assert (a <> 0) as Ha0. { destruct (proj2 Hf a) as [(_ & _ & ? & _) _]; [rewrite Ef; by constructor | unfold KERNBASE in *; lia]. }
  rewrite (proj2 (Z.eqb_neq a 0) Ha0). unfold set_frame. wp_steps; [by vm_compute|].
  eapply wp_mono; [apply (setupkvm_loop_spec s a Hf (kmap kdata) UPAGES (new_dir s a l)); try done; [apply kmap_fit|]|].
  { intros m Hm _. by apply Hno. }
  intros r s' [(-> & H)|H]; [left | by right]. by split.
Qed.
End space.
