(* ===== verification/VmMem.v ===== *)
(** * The memory of a process

    What a process reads at its addresses, through its page table; [copyout] and
    [loaduvm] write there and nowhere else, and [clearpteu] makes a page
    inaccessible to the process. *)

From S2P Require Import Prelude Bytes Cstring Kalloc Vm VmSpec VmUser VmSpace.

(** The contents of page [m], and the byte at an address. *)
Definition page_data (s : vm_t) (pgdir m : Z) : bytes :=
  match v_frame s !! addr_of s pgdir m with
  | Some (FData d) => d
  | _ => []
  end.
Definition umem (s : vm_t) (pgdir va : Z) : option Z :=
  if pte_of s pgdir (va / 4096) mod 2 =? 1 then Some (rd (page_data s pgdir (va / 4096)) (va mod 4096)) else None.
(** The process may use the page. *)
Definition user_page (s : vm_t) (pgdir m : Z) : Prop := Z.land (pte_of s pgdir m) PTE_U <> 0.

Definition with_data (s : vm_t) (a : Z) (x : bytes) : vm_t := mkVm (<[a := FData x]> (v_frame s)) (v_free s).

Section mem.
Context (kend : Z).
Hypothesis Hkend : KERNBASE < kend.

(** [s'] is [s] but for the bytes of the process at the addresses [P]. *)
Record edited (s s' : vm_t) (pgdir : Z) (P : Z -> Prop) : Prop := {
  ed_ok : vm_ok kend s' pgdir;
  ed_user : user_ok kend s' pgdir;
  ed_pte : forall m, pte_of s' pgdir m = pte_of s pgdir m;
  ed_free : v_free s' = v_free s;
  ed_frame : forall a, ~ in_user s pgdir 0 UPAGES a -> v_frame s' !! a = v_frame s !! a;
  ed_own : forall a, own s' pgdir a <-> own s pgdir a;
  ed_mem : forall va, 0 <= va < KERNBASE -> ~ P va -> umem s' pgdir va = umem s pgdir va;
}.

Lemma edited_refl s pgdir P : vm_ok kend s pgdir -> user_ok kend s pgdir -> edited s s pgdir P.
Proof. by constructor. Qed.
Lemma edited_in_user s s' pgdir P : edited s s' pgdir P ->
  forall n U a, in_user s' pgdir n U a <-> in_user s pgdir n U a.
Proof. intros He n U a. unfold in_user, addr_of. by setoid_rewrite (ed_pte _ _ _ _ He). Qed.
Lemma edited_trans s1 s2 s3 pgdir P Q R : edited s1 s2 pgdir P -> edited s2 s3 pgdir Q ->
  (forall va, P va \/ Q va -> R va) -> edited s1 s3 pgdir R.
Proof.
  intros E1 E2 HR. constructor; try apply E2.
  - intros m. by rewrite (ed_pte _ _ _ _ E2), (ed_pte _ _ _ _ E1).
  - by rewrite (ed_free _ _ _ _ E2), (ed_free _ _ _ _ E1).
  - intros a Ha. rewrite (ed_frame _ _ _ _ E2) by (by rewrite (edited_in_user _ _ _ _ E1)). by apply E1.
  - intros a. by rewrite (ed_own _ _ _ _ E2), (ed_own _ _ _ _ E1).
  - intros va Hv Hn. rewrite (ed_mem _ _ _ _ E2), (ed_mem _ _ _ _ E1) by auto. done.
Qed.
Lemma edited_space s0 s s' pgdir P : new_space kend s0 s pgdir -> edited s s' pgdir P -> new_space kend s0 s' pgdir.
Proof.
  intros [Hok Hu Hs Hf] He.
  assert (forall a, pages_of s' pgdir a <-> pages_of s pgdir a) as Hp.
  { intros a. unfold pages_of. by rewrite (ed_own _ _ _ _ He), (edited_in_user _ _ _ _ He). }
  constructor; try apply He.
  - intros a. rewrite Hp. intros Ha. rewrite (ed_frame _ _ _ _ He); [by apply Hs|]. intros H. apply Ha. by right.
  - intros a. by rewrite Hf, Hp, (ed_free _ _ _ _ He).
Qed.

(** A page of the process is written. *)
Section write.
Context (s : vm_t) (pgdir m : Z) (x : bytes).
Hypothesis Hok : vm_ok kend s pgdir.
Hypothesis Hu : user_ok kend s pgdir.
Hypothesis Hm : 0 <= m < UPAGES.
Hypothesis Hp : present (pte_of s pgdir m).
Hypothesis Hx : lenZ x = 4096.
Let s' := with_data s (addr_of s pgdir m) x.

Lemma write_page : exists d, v_frame s !! addr_of s pgdir m = Some (FData d) /\ lenZ d = 4096.
Proof. by destruct (u_page _ _ _ Hu m Hm Hp) as (_ & d & ? & ?); eauto. Qed.
Lemma write_tab a : tab s' a = tab s a.
Proof.
  destruct write_page as (d & Hd & _). unfold s', tab, with_data. cbn. destruct (decide (a = addr_of s pgdir m)) as [->|].
  - by rewrite lookup_insert_eq, Hd.
  - by rewrite lookup_insert_ne.
Qed.
Lemma write_pte k : pte_of s' pgdir k = pte_of s pgdir k.
Proof. apply (same_tabs s s' pgdir write_tab). Qed.
Lemma write_addr k : addr_of s' pgdir k = addr_of s pgdir k.
Proof. unfold addr_of. by rewrite write_pte. Qed.
Lemma write_edited : edited s s' pgdir (fun va => va / 4096 = m).
Proof.
  destruct write_page as (d & Hd & Hl).
  assert (forall a l, v_frame s !! a = Some (FTable l) <-> v_frame s' !! a = Some (FTable l)) as Ht.
  { intros a l. cbn. destruct (decide (a = addr_of s pgdir m)) as [->|]; [rewrite lookup_insert_eq, Hd; naive_solver | by rewrite lookup_insert_ne]. }
  constructor; try done.
  - apply (same_tabs_ok kend s); [done | apply write_tab | | |apply (o_nodup _ _ _ Hok)].
    + intros a (l & Hl' & Hn). exists l. split; [by apply Ht | done].
    + intros a Ha. destruct (o_free _ _ _ Hok a Ha) as [H1 H2]. split; [done|]. cbn. rewrite lookup_insert_ne; [done | congruence].
  - constructor.
    + intros k Hk. rewrite write_pte, write_addr. intros Hpk. destruct (u_page _ _ _ Hu k Hk Hpk) as (H1 & e & H2 & H3).
      split; [done|]. cbn. destruct (decide (addr_of s pgdir k = addr_of s pgdir m)) as [->|].
      * exists x. by rewrite lookup_insert_eq.
      * exists e. by rewrite lookup_insert_ne.
    + intros k k' Hk Hk'. rewrite !write_pte, !write_addr. by apply (u_inj _ _ _ Hu).
  - apply write_pte.
  - intros a Ha. cbn. rewrite lookup_insert_ne; [done|]. intros <-. apply Ha. by exists m.
  - intros a. by apply (kept_same s s' pgdir Ht write_tab).
  - intros va Hv Hne. unfold umem. rewrite write_pte. destruct (Z.eqb_spec (pte_of s pgdir (va / 4096) mod 2) 1) as [E|]; [|done].
    unfold page_data. rewrite write_addr. cbn. rewrite lookup_insert_ne; [done|]. intros Ea. apply Hne. symmetry.
    apply (u_inj _ _ _ Hu); [done | unfold KERNBASE, UPAGES in *; zlia | done | exact E | done].
Qed.
Lemma write_mem va : va / 4096 = m -> umem s' pgdir va = Some (rd x (va mod 4096)).
Proof.
  intros E. unfold umem. rewrite write_pte, E, (Hp : _ = 1). unfold page_data. rewrite write_addr. cbn. by rewrite lookup_insert_eq.
Qed.
End write.

Lemma present_pde s pgdir m : present (pte_of s pgdir m) -> present (pde_of s pgdir (m / 1024)).
Proof.
  unfold pte_of. intros Hp. destruct (present_dec (pde_of s pgdir (m / 1024))) as [E|]; [|done]. by rewrite E in Hp.
Qed.

(** Part of a page is written. *)
Lemma write_part s pgdir m off piece : vm_ok kend s pgdir -> user_ok kend s pgdir -> 0 <= m < UPAGES ->
  present (pte_of s pgdir m) -> 0 <= off -> off + lenZ piece <= 4096 ->
  let s' := with_data s (addr_of s pgdir m) (blit (page_data s pgdir m) off piece) in
  edited s s' pgdir (fun va => m * 4096 + off <= va < m * 4096 + off + lenZ piece) /\
  forall k, 0 <= k < lenZ piece -> umem s' pgdir (m * 4096 + off + k) = Some (rd piece k).
Proof.
  intros Hok Hu Hm Hp Ho Hl s'. destruct (write_page s pgdir m Hu Hm Hp) as (d & Hd & Hdl).
  assert (page_data s pgdir m = d) as Ed by (unfold page_data; by rewrite Hd).
  assert (lenZ (blit (page_data s pgdir m) off piece) = 4096) as Hx by (rewrite Ed, lenZ_blit; lia).
  pose proof (write_edited s pgdir m _ Hok Hu Hm Hp Hx) as [E1 E2 E3 E4 E5 E6 E7]. fold s' in E1, E2, E3, E4, E5, E6, E7.
  pose proof (write_mem s pgdir m (blit (page_data s pgdir m) off piece) Hu Hm Hp) as Hw. split.
  - constructor; try done. intros va Hv Hn. destruct (decide (va / 4096 = m)) as [E|E]; [|by apply E7].
    unfold s'. rewrite Hw by done. rewrite Ed, rd_blit_out by zlia.
    unfold umem. rewrite E, (Hp : _ = 1), Ed. done.
  - intros k Hk. unfold s'. rewrite Hw by zlia. f_equal. rewrite Ed, rd_blit_in by zlia. f_equal. zlia.
Qed.

Lemma wp_data_at s pgdir m (Q : bytes -> vm_t -> Prop) : user_ok kend s pgdir -> 0 <= m < UPAGES ->
  present (pte_of s pgdir m) -> Q (page_data s pgdir m) s -> wp (data_at (addr_of s pgdir m)) s Q.
Proof.
  intros Hu Hm Hp HQ. destruct (write_page s pgdir m Hu Hm Hp) as (d & Hd & _). unfold data_at, page_data in *.
  rewrite Hd in HQ. wp_steps. rewrite Hd. by wp_steps.
Qed.

Lemma uva2ka_spec s pgdir m (Q : Z -> vm_t -> Prop) : vm_ok kend s pgdir -> vpn m -> present (pte_of s pgdir m) ->
  (~ user_page s pgdir m -> Q 0 s) -> (user_page s pgdir m -> Q (addr_of s pgdir m) s) ->
  wp (uva2ka pgdir (m * 4096)) s Q.
Proof.
  intros Hok Hm Hp H0 H1. unfold uva2ka. wp_step. assert (m * 4096 / 4096 = m) as Em by (by rewrite Z.div_mul).
  pose proof (present_pde _ _ _ Hp) as Hpde. unfold vpn in Hm.
  apply (walk_noalloc kend); [done | lia | |]; rewrite Em; [unfold present in Hpde; lia|]. intros _. wp_step.
  apply (wp_pte_get_of kend); [done | done | done|]. rewrite land_P, (Hp : _ = 1). change (1 =? 0) with false. cbv iota.
  unfold user_page in *. destruct (Z.eqb_spec (Z.land (pte_of s pgdir m) PTE_U) 0) as [E|E]; wp_step; auto.
Qed.

(** [copyout] writes the bytes, if the process may use all the pages. *)
Lemma copyout_loop_spec pgdir fuel : forall s va buf,
  vm_ok kend s pgdir -> user_ok kend s pgdir -> 0 <= va -> va + lenZ buf <= KERNBASE ->
  (forall k, 0 <= k < lenZ buf -> present (pte_of s pgdir ((va + k) / 4096))) -> lenZ buf <= Z.of_nat fuel ->
  wp (copyout_loop fuel pgdir va buf) s (fun r s' =>
    edited s s' pgdir (fun a => va <= a < va + lenZ buf) /\
    (r = 0 /\ (forall k, 0 <= k < lenZ buf -> user_page s pgdir ((va + k) / 4096) /\ umem s' pgdir (va + k) = Some (rd buf k)) \/
     r = -1 /\ exists k, 0 <= k < lenZ buf /\ ~ user_page s pgdir ((va + k) / 4096))).
Proof.
  induction fuel as [|fuel IH]; intros s va buf Hok Hu Hva Hend Hpr Hf; pose proof (lenZ_nonneg buf) as Hlen; cbn [copyout_loop].
  { rewrite (proj2 (Z.ltb_ge 0 (lenZ buf))) by lia. wp_step. split; [by apply edited_refl|]. left. split; [done | lia]. }
  destruct (Z.ltb_spec 0 (lenZ buf)) as [Hpos|]; [|wp_step; split; [by apply edited_refl|]; left; split; [done | lia]].
  unfold KERNBASE in Hend. rewrite PGROUNDDOWN_vpn by lia. set (m := va / 4096). assert (0 <= m < UPAGES) as Hm by (unfold m, UPAGES; zlia).
  assert (present (pte_of s pgdir m)) as Hp. { specialize (Hpr 0 ltac:(lia)). by rewrite Z.add_0_r in Hpr. }
  wp_step. apply uva2ka_spec; [done | unfold vpn, UPAGES in *; lia | done | |].
  { intros Hn. rewrite Z.eqb_refl. wp_step. split; [by apply edited_refl|]. right. split; [done|]. exists 0.
    rewrite Z.add_0_r. split; [lia | done]. }
  intros Hup. destruct (u_page _ _ _ Hu m Hm Hp) as ((_ & _ & Hlo & _) & _).
  rewrite (proj2 (Z.eqb_neq _ 0)) by (unfold KERNBASE in *; lia). cbv zeta. unfold PGSIZE.
  set (n := if lenZ buf <? 4096 - (va - m * 4096) then lenZ buf else 4096 - (va - m * 4096)).
  assert (0 < n <= lenZ buf /\ n <= 4096 - (va - m * 4096) /\ (n < lenZ buf -> n = 4096 - (va - m * 4096)) /\ va - m * 4096 = va mod 4096)
    as (Hn1 & Hn2 & Hn3 & Ho) by (unfold n, m; case_test; zlia).
  wp_step. apply wp_data_at; [done | done | done|]. unfold set_frame. wp_steps. fold (with_data s (addr_of s pgdir m) (blit (page_data s pgdir m) (va - m * 4096) (slice buf 0 n))).
  assert (lenZ (slice buf 0 n) = n) as Hsl by (apply lenZ_slice; lia).
  destruct (write_part s pgdir m (va - m * 4096) (slice buf 0 n) Hok Hu Hm Hp ltac:(rewrite Ho; zlia) ltac:(lia)) as [He Hw].
  set (s1 := with_data _ _ _) in *. rewrite Hsl in He, Hw. replace (m * 4096 + (va - m * 4096)) with va in He, Hw by lia.
  assert (lenZ (slice buf n (lenZ buf - n)) = lenZ buf - n) as Hsl2 by (apply lenZ_slice; lia).
  assert (forall k, 0 <= k < n -> user_page s pgdir ((va + k) / 4096)) as Hup'.
  { intros k Hk. by replace ((va + k) / 4096) with m by (unfold m in *; zlia). }
  destruct (decide (n = lenZ buf)) as [En|En].
  - rewrite En, Z.sub_diag, slice_nil by lia. assert (copyout_loop fuel pgdir (u32 (m * 4096 + 4096)) [] = ret 0) as -> by by destruct fuel.
    wp_step. rewrite En in *. split; [exact He|]. left. split; [done|]. intros k Hk. split; [by apply Hup'|].
    rewrite Hw by lia. by rewrite rd_slice by lia.
  - assert (u32 (m * 4096 + 4096) = va + n) as -> by (rewrite u32_small; lia).
    eapply wp_mono; [apply (IH s1 (va + n)); try apply He; rewrite ?Hsl2; unfold KERNBASE; try lia|].
    { intros k Hk. rewrite (ed_pte _ _ _ _ He). rewrite <- Z.add_assoc. apply Hpr. lia. }
    intros r s2. rewrite Hsl2. intros [He2 Hr]. split.
    { eapply edited_trans; [exact He | exact He2 | cbn; intros a; lia]. }
    assert (forall k, user_page s1 pgdir k <-> user_page s pgdir k) as Hus by (intros k; unfold user_page; by rewrite (ed_pte _ _ _ _ He)).
    destruct Hr as [[-> Hr]|(-> & k & Hk & Hr)]; [left | right]; (split; [done|]).
    + intros k Hk. destruct (Z.lt_ge_cases k n).
      * split; [by apply Hup'; lia|]. rewrite (ed_mem _ _ _ _ He2) by (unfold KERNBASE; lia). rewrite Hw by lia. by rewrite rd_slice by lia.
      * destruct (Hr (k - n) ltac:(lia)) as [H1 H2]. replace (va + n + (k - n)) with (va + k) in * by lia. split; [by apply Hus|].
        rewrite H2, rd_slice by lia. do 2 f_equal. lia.
    + exists (n + k). rewrite Z.add_assoc. split; [lia|]. by rewrite <- Hus.
Qed.

Lemma copyout_spec s pgdir va buf :
  vm_ok kend s pgdir -> user_ok kend s pgdir -> 0 <= va -> va + lenZ buf <= KERNBASE ->
  (forall k, 0 <= k < lenZ buf -> present (pte_of s pgdir ((va + k) / 4096))) ->
  wp (copyout pgdir va buf) s (fun r s' =>
    edited s s' pgdir (fun a => va <= a < va + lenZ buf) /\
    (r = 0 /\ (forall k, 0 <= k < lenZ buf -> user_page s pgdir ((va + k) / 4096) /\ umem s' pgdir (va + k) = Some (rd buf k)) \/
     r = -1 /\ exists k, 0 <= k < lenZ buf /\ ~ user_page s pgdir ((va + k) / 4096))).
Proof.
  intros. apply copyout_loop_spec; try done. pose proof (lenZ_nonneg buf). lia.
Qed.

(** ** clearpteu *)

Definition no_u (e : Z) : Z := Z.land e (u32 (Z.lnot PTE_U)).
Lemma no_u_parts e : PTE_ADDR (no_u e) = PTE_ADDR e /\ no_u e mod 2 = e mod 2 /\ Z.land (no_u e) PTE_U = 0.
Proof.
  unfold no_u, PTE_ADDR. rewrite <- !land_P, <- !Z.land_assoc.
  change (Z.land (u32 (Z.lnot PTE_U)) (u32 (Z.lnot 4095))) with (u32 (Z.lnot 4095)).
  change (Z.land (u32 (Z.lnot PTE_U)) PTE_P) with PTE_P. change (Z.land (u32 (Z.lnot PTE_U)) PTE_U) with 0.
  split_and!; [done | done | apply Z.land_0_r].
Qed.

(** Page [m] is hidden from the process, with its contents. *)
Record hidden (s s' : vm_t) (pgdir m : Z) : Prop := {
  hd_ok : vm_ok kend s' pgdir;
  hd_user : user_ok kend s' pgdir;
  hd_pte : forall k, vpn k -> pte_of s' pgdir k = if k =? m then no_u (pte_of s pgdir m) else pte_of s pgdir k;
  hd_free : v_free s' = v_free s;
  hd_frame : forall a, ~ own s pgdir a -> v_frame s' !! a = v_frame s !! a;
  hd_own : forall a, own s' pgdir a <-> own s pgdir a;
}.

Lemma hidden_addr s s' pgdir m : hidden s s' pgdir m -> forall k, vpn k ->
  addr_of s' pgdir k = addr_of s pgdir k /\ pte_of s' pgdir k mod 2 = pte_of s pgdir k mod 2.
Proof.
  intros Hh k Hk. unfold addr_of. rewrite (hd_pte _ _ _ _ Hh) by done. destruct (Z.eqb_spec k m) as [->|]; [|done].
  by destruct (no_u_parts (pte_of s pgdir m)) as (-> & -> & _).
Qed.
Lemma hidden_in_user s s' pgdir m : hidden s s' pgdir m -> forall a, in_user s' pgdir 0 UPAGES a <-> in_user s pgdir 0 UPAGES a.
Proof.
  intros Hh a. unfold in_user, present, UPAGES. split; intros (k & Hk & H1 & H2); exists k;
    destruct (hidden_addr _ _ _ _ Hh k) as [E1 E2]; try (unfold vpn; lia); rewrite E1, E2 in *; done.
Qed.
Lemma hidden_space s0 s s' pgdir m : new_space kend s0 s pgdir -> hidden s s' pgdir m -> new_space kend s0 s' pgdir.
Proof.
  intros [Hok Hu Hs Hf] Hh.
  assert (forall a, pages_of s' pgdir a <-> pages_of s pgdir a) as Hp.
  { intros a. unfold pages_of. by rewrite (hd_own _ _ _ _ Hh), (hidden_in_user _ _ _ _ Hh). }
  constructor; try apply Hh.
  - intros a. rewrite Hp. intros Ha. rewrite (hd_frame _ _ _ _ Hh); [by apply Hs|]. intros H. apply Ha. by left.
  - intros a. by rewrite Hf, Hp, (hd_free _ _ _ _ Hh).
Qed.
Lemma hidden_mem s s' pgdir m va : vm_ok kend s pgdir -> user_ok kend s pgdir -> hidden s s' pgdir m ->
  0 <= va < KERNBASE -> umem s' pgdir va = umem s pgdir va.
Proof.
  intros Hok Hu Hh Hv. unfold umem, page_data, KERNBASE in *. assert (vpn (va / 4096)) as Hvp by (unfold vpn; zlia).
  destruct (hidden_addr _ _ _ _ Hh _ Hvp) as [-> ->]. destruct (Z.eqb_spec (pte_of s pgdir (va / 4096) mod 2) 1) as [E|]; [|done].
  rewrite (hd_frame _ _ _ _ Hh); [done|]. apply (in_user_not_own kend); [done | done|].
  exists (va / 4096). split; [unfold UPAGES; zlia | done].
Qed.

Lemma clearpteu_spec s pgdir m : vm_ok kend s pgdir -> user_ok kend s pgdir -> 0 <= m < UPAGES ->
  present (pte_of s pgdir m) -> wp (clearpteu pgdir (m * 4096)) s (fun _ s' => hidden s s' pgdir m).
Proof.
  intros Hok Hu Hm Hp. unfold clearpteu. wp_step. assert (m * 4096 / 4096 = m) as Em by (by rewrite Z.div_mul).
  pose proof (present_pde _ _ _ Hp) as Hpde. assert (vpn m) as Hv by (unfold vpn, UPAGES in *; lia).
  apply (walk_noalloc kend); [done | unfold UPAGES in *; lia | |]; rewrite Em; [unfold present in Hpde; lia|]. intros _. wp_step.
  apply (wp_pte_get_of kend); [done..|]. apply (wp_pte_set_of kend); [done..|]. fold (no_u (pte_of s pgdir m)).
  set (s' := set_pte _ _ _ _). pose proof (set_pte_of kend s pgdir m (no_u (pte_of s pgdir m)) Hok Hv Hpde) as Hpte. fold s' in Hpte.
  pose proof (set_pte_own kend s pgdir m (no_u (pte_of s pgdir m)) Hok Hv Hpde) as Ho. fold s' in Ho.
  assert (forall k, vpn k -> addr_of s' pgdir k = addr_of s pgdir k /\ pte_of s' pgdir k mod 2 = pte_of s pgdir k mod 2) as Ha.
  { intros k Hk. unfold addr_of. rewrite Hpte by done. destruct (Z.eqb_spec k m) as [->|]; [|done].
    by destruct (no_u_parts (pte_of s pgdir m)) as (-> & -> & _). }
  assert (forall a, ~ own s pgdir a -> v_frame s' !! a = v_frame s !! a) as Hfr.
  { intros a Hn. cbn. rewrite lookup_insert_ne; [done|]. intros <-. apply Hn. right. exists (m / 1024).
    unfold UPAGES in Hm. split_and!; [zlia | zlia | done | done]. }
  constructor; try done; [by apply set_pte_ok|]. constructor; unfold UPAGES, present.
  - intros k Hk. destruct (Ha k) as [-> ->]; [unfold vpn; lia|]. intros Hpk.
    destruct (u_page _ _ _ Hu k Hk Hpk) as (H1 & d & H2 & H3). split; [done|]. exists d. split; [|done].
    rewrite Hfr; [done|]. apply (in_user_not_own kend); [done | done | by exists k].
  - intros k k' Hk Hk'. destruct (Ha k) as [-> ->]; [unfold vpn; lia|]. destruct (Ha k') as [-> ->]; [unfold vpn; lia|].
    by apply (u_inj _ _ _ Hu).
Qed.

(** ** loaduvm *)

(** What [readi] returns for a file with contents [c]. *)
Definition file_read (c : bytes) (off n : Z) : Z * bytes :=
  if (lenZ c <? off) || (UINT_LIM <=? off + n) then (-1, []) else let data := slice c off n in (lenZ data, data).

Lemma file_read_len c off n : 0 <= off -> 0 <= n -> lenZ c < UINT_LIM ->
  lenZ (file_read c off n).2 <= n /\
  ((file_read c off n).1 = n <-> off + n <= lenZ c) /\ (off + n <= lenZ c -> (file_read c off n).2 = slice c off n).
Proof.
  intros Ho Hn Hc. unfold file_read, UINT_LIM in *.
  assert (off <= lenZ c -> lenZ (slice c off n) = Z.min n (lenZ c - off)) as Hs.
  { intros Hoc. unfold lenZ, slice in *. rewrite length_take, length_drop. lia. }
  destruct (Z.ltb_spec (lenZ c) off), (Z.leb_spec 4294967296 (off + n)); cbn -[slice lenZ]; change (lenZ (@nil Z)) with 0;
    rewrite ?Hs by lia; split_and!; lia || done.
Qed.

Section load.
Context {K : Type} (L : K -> Prop) (c : bytes) (readi : Z -> Z -> ST K (Z * bytes)).
Hypothesis Hc : lenZ c < UINT_LIM.
Hypothesis Hreadi : forall k off n, L k -> 0 <= off < UINT_LIM -> 0 <= n < UINT_LIM ->
  wp (readi off n) k (fun r k' => r = file_read c off n /\ L k').
Context (pgdir addr offset sz : Z).
Hypothesis Haddr : 0 <= addr /\ addr mod 4096 = 0 /\ addr + sz <= KERNBASE.
Hypothesis Hoff : 0 <= offset < UINT_LIM.

(** The bytes up to [i] are those of the file. *)
Definition loaded_to (s : vm_t) (i : Z) : Prop :=
  forall j, 0 <= j < i -> umem s pgdir (addr + j) = Some (rd c (offset + j)).

Lemma loaduvm_loop_spec fuel : forall s k i, vm_ok kend s pgdir -> user_ok kend s pgdir -> L k ->
  (forall j, 0 <= j < sz -> present (pte_of s pgdir ((addr + j) / 4096))) ->
  0 <= i -> i mod 4096 = 0 -> (0 < i -> offset + Z.min i sz <= lenZ c) -> loaded_to s (Z.min i sz) ->
  sz - i <= Z.of_nat fuel * 4096 ->
  wp (loaduvm_loop fuel pgdir addr readi i offset sz) (s, k) (fun r t => L t.2 /\
    edited s t.1 pgdir (fun a => addr <= a < addr + sz) /\
    (r = 0 /\ loaded_to t.1 sz /\ (i < sz -> offset + sz <= lenZ c) \/ r = -1 /\ i < sz /\ lenZ c < offset + sz)).
Proof.
  induction fuel as [|fuel IH]; intros s k i Hok Hu HL Hpr Hi0 Hal Hio Hld Hf; cbn [loaduvm_loop];
    destruct (Z.ltb_spec i sz) as [Hlt|Hge]; [lia | | |];
    try (wp_step; split_and!; [done | by apply edited_refl|]; left; split_and!; [done | by rewrite Z.min_r in Hld by lia | lia]).
  destruct Haddr as (A1 & A2 & A3). unfold KERNBASE, UINT_LIM in *. set (m := (addr + i) / 4096).
  assert (addr + i = m * 4096 /\ 0 <= m < UPAGES) as [Em Hm] by (unfold m, UPAGES; zlia).
  pose proof (Hpr i ltac:(lia)) as Hp. fold m in Hp. pose proof (present_pde _ _ _ Hp) as Hpde.
  rewrite (u32_small (addr + i)) by lia. rewrite Em. assert (m * 4096 / 4096 = m) as Em' by (by rewrite Z.div_mul).
  wp_step. apply wp_zoom; cbn [fst snd]. apply (walk_noalloc kend); [done | unfold UPAGES in *; lia | |]; rewrite Em'; [unfold present in Hpde; lia|].
  intros _. wp_step. apply wp_zoom; cbn [fst snd]. apply (wp_pte_get_of kend); [done | unfold vpn, UPAGES in *; lia | done|]. cbv zeta.
  set (n := if sz - i <? PGSIZE then sz - i else PGSIZE).
  assert (0 < n <= 4096 /\ i + n <= sz /\ (n < 4096 -> i + n = sz)) as (N1 & N2 & N3) by (unfold n, PGSIZE; case_test; lia).
  assert (0 <= offset + i < 4294967296) as Hoi by (destruct (decide (i = 0)); lia). rewrite (u32_small (offset + i)) by done.
  wp_step. apply wp_zoom; cbn [fst snd]. eapply wp_mono; [apply Hreadi; unfold UINT_LIM; [done | lia | lia]|]. intros r k' [-> HL'].
  destruct (file_read_len c (offset + i) n ltac:(lia) ltac:(lia) Hc) as (R1 & R2 & R3). set (rr := file_read _ _ _) in *.
  wp_step. apply wp_zoom; cbn [fst snd]. fold (addr_of s pgdir m). apply wp_data_at; [done..|]. wp_step. apply wp_zoom; cbn [fst snd].
  unfold set_frame. wp_steps. fold (with_data s (addr_of s pgdir m) (blit (page_data s pgdir m) 0 rr.2)). cbn [fst snd].
  destruct (write_part s pgdir m 0 rr.2 Hok Hu Hm Hp ltac:(lia) ltac:(lia)) as [He Hw]. set (s1 := with_data _ _ _) in *.
  rewrite !Z.add_0_r in He. rewrite <- Em in He. setoid_rewrite Z.add_0_r in Hw. rewrite <- Em in Hw.
  assert (edited s s1 pgdir (fun a => addr <= a < addr + sz)) as He1.
  { eapply edited_trans; [exact He | apply (edited_refl s1 _ (fun _ => False)); apply He | cbn; intros a [|]; [lia | done]]. }
  destruct (Z.eqb_spec rr.1 n) as [E|E]; cbn [negb]; [|wp_step; split_and!; [done | done | right; split_and!; [done | done | lia]]].
  pose proof (proj1 R2 E) as Hin. rewrite (R3 Hin) in Hw, He. rewrite lenZ_slice in Hw, He by lia.
  eapply wp_mono; [apply (IH s1 k' _ (ed_ok _ _ _ _ He) (ed_user _ _ _ _ He)); try done; unfold PGSIZE; try zlia|].
  - intros j Hj. rewrite (ed_pte _ _ _ _ He). by apply Hpr.
  - intros j Hj. destruct (Z.lt_ge_cases j i).
    + rewrite (ed_mem _ _ _ _ He) by (unfold KERNBASE; lia). apply Hld. lia.
    + replace (addr + j) with (addr + i + (j - i)) by lia. rewrite Hw by lia. rewrite rd_slice by lia. do 2 f_equal. lia.
  - cbv beta. intros r [s2 k2] (Q1 & Q2 & Q3). cbn [fst snd] in *. unfold PGSIZE in Q3. split_and!; [done | eapply edited_trans; [exact He1 | exact Q2 | cbn; tauto]|].
    destruct Q3 as [(-> & Q3 & Q4)|(-> & Q3 & Q4)]; [left | right]; split_and!; try done; lia.
Qed.

(** [loaduvm] reads the bytes of the file into the pages; -1 if the file is too
    short. *)
Lemma loaduvm_spec s k : vm_ok kend s pgdir -> user_ok kend s pgdir -> L k -> 0 <= sz ->
  (forall j, 0 <= j < sz -> present (pte_of s pgdir ((addr + j) / 4096))) ->
  wp (loaduvm pgdir addr readi offset sz) (s, k) (fun r t => L t.2 /\
    edited s t.1 pgdir (fun a => addr <= a < addr + sz) /\
    (r = 0 /\ loaded_to t.1 sz /\ (0 < sz -> offset + sz <= lenZ c) \/ r = -1 /\ 0 < sz /\ lenZ c < offset + sz)).
Proof.
  intros Hok Hu HL Hsz Hpr. unfold loaduvm. destruct Haddr as (A1 & A2 & A3). wp_steps; [unfold PGSIZE; by rewrite A2|].
  apply (loaduvm_loop_spec _ s k 0); try done; [intros j Hj; lia | unfold PGSIZE; zlia].
Qed.
End load.
End mem.
