(* ===== verification/VmFork.v ===== *)
(** * Copying an address space

    [copyuvm], which [fork] calls: the child has the same bytes with the same
    permissions at the same addresses, in pages of its own, or nothing has changed. *)

From S2P Require Import Prelude Bytes Cstring Kalloc Vm VmSpec VmUser VmSpace VmMem.

Section fork.
Context (kend : Z).
Hypothesis Hkend : KERNBASE < kend.

(** ** Two address spaces *)

Lemma new_space_others s0 s pgdir a f : free_ok kend s0 -> new_space kend s0 s pgdir ->
  v_frame s0 !! a = Some f -> v_frame s !! a = Some f.
Proof.
  intros [_ Hf0] Hs Ha. rewrite (ns_same _ _ _ _ Hs); [done|]. intros Hp.
  destruct (Hf0 a) as [_ ?]; [apply (ns_free _ _ _ _ Hs); by right | congruence].
Qed.

(** An address space of [s0] that is the same in [s]. *)
Record beside (s0 s : vm_t) (pgdir : Z) : Prop := {
  bs_ok : vm_ok kend s pgdir;
  bs_user : user_ok kend s pgdir;
  bs_pte : forall m, vpn m -> pte_of s pgdir m = pte_of s0 pgdir m;
  bs_data : forall m, 0 <= m < UPAGES -> present (pte_of s0 pgdir m) -> page_data s pgdir m = page_data s0 pgdir m;
  bs_own : forall a, own s pgdir a <-> own s0 pgdir a;
}.
Lemma beside_pages s0 s pgdir : beside s0 s pgdir -> forall a, pages_of s pgdir a <-> pages_of s0 pgdir a.
Proof.
  intros Hb a. unfold pages_of. rewrite (bs_own _ _ _ Hb). assert (forall m, 0 <= m < UPAGES -> vpn m) as Hv by (unfold vpn, UPAGES; lia).
  unfold in_user, addr_of. split; (intros [|(m & H1 & H2 & H3)]; [by left | right; exists m]);
    rewrite (bs_pte _ _ _ Hb) in * by auto; done.
Qed.
Lemma beside_mem s0 s pgdir va : beside s0 s pgdir -> 0 <= va < KERNBASE -> umem s pgdir va = umem s0 pgdir va.
Proof.
  intros Hb Hv. unfold umem, KERNBASE in *. rewrite (bs_pte _ _ _ Hb) by (unfold vpn; zlia).
  destruct (Z.eqb_spec (pte_of s0 pgdir (va / 4096) mod 2) 1) as [E|]; [|done].
  rewrite (bs_data _ _ _ Hb); [done | unfold UPAGES; zlia | exact E].
Qed.

(** It is enough that its pages are the same. *)
Lemma beside_frames s0 s pgdir : vm_ok kend s0 pgdir -> user_ok kend s0 pgdir -> free_ok kend s ->
  (forall a f, pages_of s0 pgdir a -> v_frame s0 !! a = Some f -> v_frame s !! a = Some f) -> beside s0 s pgdir.
Proof.
  intros Hok Hu [Hnd Hfr] Ho.
  assert (forall a, own s0 pgdir a -> is_tab s0 a -> is_tab s a /\ tab s a = tab s0 a) as Ht.
  { intros a Ha (l & Hl & Hn). unfold is_tab, tab. rewrite (Ho a _ (or_introl Ha) Hl), Hl. eauto. }
  destruct (o_dir _ _ _ Hok) as [Hd Hpd]. destruct (Ht _ (or_introl eq_refl) Hd) as [Hd' Ed].
  assert (forall i, pde_of s pgdir i = pde_of s0 pgdir i) as Hpde by (intros i; unfold pde_of; by rewrite Ed).
  assert (forall i, tab_of s pgdir i = tab_of s0 pgdir i) as Hto by (intros i; unfold tab_of; by rewrite Hpde).
  assert (forall i, 0 <= i < 1024 -> present (pde_of s0 pgdir i) -> own s0 pgdir (tab_of s0 pgdir i)) as Hown by (intros i ??; right; eauto).
  assert (forall m, vpn m -> pte_of s pgdir m = pte_of s0 pgdir m) as Hpte.
  { intros m Hm. unfold pte_of. rewrite Hpde. destruct (present_dec (pde_of s0 pgdir (m / 1024))) as [E|E]; [by rewrite E|].
    rewrite (E : _ = 1). assert (0 <= m / 1024 < 1024) as Hi by (unfold vpn in Hm; zlia).
    destruct (o_tab _ _ _ Hok (m / 1024) Hi E) as (H & _ & _). rewrite Hto. by destruct (Ht _ (Hown _ Hi E) H) as [_ ->]. }
  assert (forall m, vpn m -> addr_of s pgdir m = addr_of s0 pgdir m) as Had by (intros; unfold addr_of; by rewrite Hpte).
  assert (forall m, 0 <= m < UPAGES -> vpn m) as Hv by (unfold vpn, UPAGES; lia).
  assert (forall m, 0 <= m < UPAGES -> present (pte_of s0 pgdir m) -> pages_of s0 pgdir (addr_of s0 pgdir m)) as Hpg
    by (intros m ??; right; by exists m).
  constructor; [| |done| |].
  - constructor; [done | done | done | |].
    + intros i Hi. rewrite Hpde, Hto. intros Hp. destruct (o_tab _ _ _ Hok i Hi Hp) as (H1 & H2 & H3).
      split; [apply Ht; auto | done].
    + intros i j Hi Hj. rewrite !Hpde, !Hto. by apply (o_inj _ _ _ Hok).
  - constructor.
    + intros m Hm. rewrite Hpte, Had by auto. intros Hp. destruct (u_page _ _ _ Hu m Hm Hp) as (H1 & x & H2 & H3).
      split; [done|]. exists x. split; [apply Ho; auto | done].
    + intros m m' Hm Hm'. rewrite !Hpte, !Had by auto. by apply (u_inj _ _ _ Hu).
  - intros m Hm Hp. unfold page_data. rewrite Had by auto. destruct (u_page _ _ _ Hu m Hm Hp) as (_ & x & H2 & _).
    rewrite H2. by rewrite (Ho _ _ (Hpg m Hm Hp) H2).
  - intros a. unfold own. setoid_rewrite Hpde. by setoid_rewrite Hto.
Qed.

Lemma vm_free_ok s pgdir : vm_ok kend s pgdir -> free_ok kend s.
Proof. intros []. by split. Qed.
Lemma new_space_beside s0 s d pgdir : free_ok kend s0 -> new_space kend s0 s d ->
  vm_ok kend s0 pgdir -> user_ok kend s0 pgdir -> beside s0 s pgdir.
Proof.
  intros Hf Hs Hok Hu. apply beside_frames; [done | done | eapply vm_free_ok, Hs|].
  intros a f _. by apply (new_space_others s0 s d).
Qed.

(** ** One page *)

(** A new address space, and a page of data [x] at [a] that is not in it yet. *)
Record spare (s0 s : vm_t) (d a : Z) (x : bytes) : Prop := {
  sp_ok : vm_ok kend s d;
  sp_user : user_ok kend s d;
  sp_page : page_ok kend a /\ v_frame s !! a = Some (FData x) /\ lenZ x = 4096;
  sp_out : ~ in_user s d 0 UPAGES a;
  sp_same : forall b, ~ pages_of s d b -> b <> a -> v_frame s !! b = v_frame s0 !! b;
  sp_free : forall b, b ∈ v_free s0 <-> b ∈ v_free s \/ pages_of s d b \/ b = a;
}.

(** [kalloc] and [memmove]. *)
Definition filled (s : vm_t) (a : Z) (l : list Z) (x : bytes) : vm_t :=
  mkVm (<[a := FData x]> (<[a := FData junk_page]> (v_frame s))) l.
Lemma filled_tab s a l x b : v_frame s !! a = None -> tab (filled s a l x) b = tab s b /\ (is_tab s b -> is_tab (filled s a l x) b).
Proof.
  intros Ha. unfold tab, is_tab, filled. cbn. destruct (decide (b = a)) as [->|Hne].
  - rewrite lookup_insert_eq, Ha. naive_solver.
  - by rewrite !lookup_insert_ne.
Qed.
Lemma filled_spare s0 s d a l x : new_space kend s0 s d -> v_free s = a :: l -> lenZ x = 4096 ->
  spare s0 (filled s a l x) d a x /\ forall m, pte_of (filled s a l x) d m = pte_of s d m.
Proof.
  intros [Hok Hu Hs Hf] Ef Hx. destruct (o_free _ _ _ Hok a) as [Hpa Ha]; [rewrite Ef; by constructor|].
  pose proof (o_nodup _ _ _ Hok) as Hnd. rewrite Ef in Hnd. apply NoDup_cons in Hnd as [Hni Hnd].
  set (s1 := filled s a l x). assert (forall b, tab s1 b = tab s b) as Ht by (intros b; by apply filled_tab).
  destruct (same_tabs s s1 d Ht) as (Hpd & Hto & Hm).
  assert (forall m, addr_of s1 d m = addr_of s d m) as Had by (intros; unfold addr_of; by rewrite Hm).
  assert (forall b, b <> a -> v_frame s1 !! b = v_frame s !! b) as Hfr by (intros b Hb; cbn; by rewrite !lookup_insert_ne).
  assert (forall b, in_user s1 d 0 UPAGES b <-> in_user s d 0 UPAGES b) as Hin.
  { intros b. unfold in_user. setoid_rewrite Hm. by setoid_rewrite Had. }
  assert (forall b, pages_of s1 d b <-> pages_of s d b) as Hpg.
  { intros b. unfold pages_of, own. rewrite Hin. setoid_rewrite Hpd. by setoid_rewrite Hto. }
  split; [|done]. constructor.
  - apply (same_tabs_ok kend s); try done; [intros b; by apply filled_tab|].
    intros b Hb. destruct (o_free _ _ _ Hok b) as [H1 H2]; [rewrite Ef; by constructor|]. split; [done|].
    rewrite Hfr; [done | intros ->; done].
  - constructor.
    + intros m Hmr. rewrite Hm, Had. intros Hp. destruct (u_page _ _ _ Hu m Hmr Hp) as (H1 & y & H2 & H3).
      split; [done|]. exists y. rewrite Hfr; [done | congruence].
    + intros m m' Hr Hr'. rewrite !Hm, !Had. by apply (u_inj _ _ _ Hu).
  - split_and!; [apply Hpa.. | cbn; by rewrite lookup_insert_eq | done].
  - rewrite Hin. by apply (fresh_unused kend s d a l).
  - intros b. rewrite Hpg. intros Hb Hne. rewrite Hfr by done. by apply Hs.
  - intros b. rewrite Hf, Hpg, Ef, elem_of_cons. cbn. tauto.
Qed.

(** The pages of the child after [mappages] has mapped [k] pages. *)
Section mapping.
Context (s0 s s' : vm_t) (d a n perm : Z) (x : bytes).
Hypothesis Hs : spare s0 s d a x.
Hypothesis Hn : 0 <= n < UPAGES.
Hypothesis Hperm : 0 <= perm < 4096.
Hypothesis Hno : ~ present (pte_of s d n).

Lemma spare_own b : kept s s' d -> data_same s s' -> v_frame s !! a = Some (FData x) ->
  b <> a -> own s' d b \/ v_frame s' !! b = v_frame s !! b.
Proof.
  intros Hk Hd Ha Hb. destruct (own_dec s' d b) as [|Hnb]; [by left | right].
  destruct Hk as [T B O N]. assert (~ own s d b) by auto.
  destruct (v_frame s !! b) as [[l|y]|] eqn:E; [by apply T | by apply Hd|].
  destruct (v_frame s' !! b) as [[l|y]|] eqn:E'; [rewrite (B _ _ E') in E by done; done | apply Hd in E'; congruence | done].
Qed.

(** Nothing has been mapped. *)
Lemma spare_nomap pa : mapped_ok kend s s' d n 0 pa perm -> spare s0 s' d a x.
Proof.
  destruct Hs as [Hok Hu (Hpa & Ha & Hx) Hout Hsame Hfree]. intros [Hok' Hds Hm Hk].
  assert (forall m, 0 <= m < UPAGES -> pte_of s' d m = pte_of s d m) as Hm'.
  { intros m Hr. rewrite Hm by (unfold vpn, UPAGES in *; lia). apply mapped_0. }
  destruct (same_user s s' d Hm') as [Had Hin]. destruct Hds as [Dd Df Dt Dl].
  constructor; [done | | split_and!; [apply Hpa.. | by apply Dd | done] | by rewrite Hin | |].
  - constructor.
    + intros m Hr. rewrite Hm', Had by done. intros Hp. destruct (u_page _ _ _ Hu m Hr Hp) as (H1 & y & H2 & H3).
      split; [done|]. exists y. split; [by apply Dd | done].
    + intros m m' Hr Hr'. rewrite !Hm', !Had by done. by apply (u_inj _ _ _ Hu).
  - intros b Hb Hne. destruct (spare_own b Hk ltac:(by constructor) Ha Hne) as [|E]; [destruct Hb; by left|].
    rewrite E. apply Hsame; [|done]. intros [|]; apply Hb; [left; by apply (kp_own _ _ _ Hk) | right; by apply Hin].
  - intros b. rewrite Hfree. unfold pages_of. rewrite Hin. split.
    + intros [H|[[H|H]|H]]; [|right; left; left; by apply (kp_own _ _ _ Hk) | auto..].
      destruct (Dl b H) as [|Ht]; [by left|]. right. left. left. by apply (new_tab_own kend s).
    + intros [H|[[H|H]|H]]; [left; auto | | auto..]. destruct (kp_new _ _ _ Hk b H); auto.
Qed.

(** The page is mapped. *)
Lemma spare_mapped : mapped_ok kend s s' d n 1 (V2P a) perm ->
  new_space kend s0 s' d /\ addr_of s' d n = a /\ v_frame s' !! a = Some (FData x) /\
  pte_of s' d n mod 2 = 1 /\ PTE_FLAGS (pte_of s' d n) = Z.lor perm PTE_P /\
  (forall m, 0 <= m < UPAGES -> m <> n -> pte_of s' d m = pte_of s d m).
Proof.
  destruct Hs as [Hok Hu (Hpa & Ha & Hx) Hout Hsame Hfree]. intros [Hok' Hds Hm Hk].
  assert (0 <= V2P a < 4294967296 /\ V2P a mod 4096 = 0 /\ P2V (V2P a) = a) as (Hv1 & Hv2 & Hv3).
  { destruct Hpa as (P1 & P2 & P3 & P4). unfold KERNBASE, PHYSTOP, PGSIZE in *. rewrite P2V_V2P by (unfold KERNBASE; lia).
    unfold V2P, KERNBASE. rewrite (u32_small a), u32_small by lia. split_and!; [lia.. | zlia | done]. }
  destruct (entry_parts (V2P a) perm Hv1 Hv2 Hperm) as (Epa & Efl & Epr & _). fold (entry (V2P a) perm) in Epa, Efl, Epr.
  assert (forall m, 0 <= m < UPAGES -> pte_of s' d m = if m =? n then entry (V2P a) perm else pte_of s d m) as Hm'.
  { intros m Hr. rewrite Hm by (unfold vpn, UPAGES in *; lia). unfold mapped. destruct (Z.eqb_spec m n) as [->|].
    - rewrite (proj2 (Z.leb_le n n)), (proj2 (Z.ltb_lt n (n + 1))) by lia. cbn. f_equal. lia.
    - destruct (_ && _) eqn:E; [bool_to_prop; lia | done]. }
  assert (pte_of s' d n = entry (V2P a) perm) as En by (by rewrite Hm', Z.eqb_refl).
  assert (addr_of s' d n = a) as Ean by (unfold addr_of; by rewrite En, Epa).
  assert (forall m, 0 <= m < UPAGES -> m <> n -> pte_of s' d m = pte_of s d m) as Hmo.
  { intros m Hr Hne. rewrite Hm' by done. by rewrite (proj2 (Z.eqb_neq m n)). }
  destruct Hds as [Dd Df Dt Dl]. pose proof (proj1 (Dd _ _) Ha) as Ha'.
  split; [|rewrite En; split_and!; done].
  assert (forall b, in_user s' d 0 UPAGES b <-> in_user s d 0 UPAGES b \/ b = a) as Hin.
  { intros b. unfold in_user. split.
    - intros (m & H1 & H2 & H3). destruct (decide (m = n)) as [->|Hne]; [right; congruence|]. left. exists m.
      unfold addr_of in *. rewrite Hmo in * by done. done.
    - intros [(m & H1 & H2 & H3)| ->]; [|exists n; rewrite En; done]. assert (m <> n) by (intros ->; done). exists m.
      unfold addr_of in *. rewrite Hmo by done. done. }
  constructor; [done | | |].
  - constructor.
    + intros m Hr. destruct (decide (m = n)) as [->|Hne]; [intros _; rewrite Ean; eauto|].
      unfold addr_of. rewrite Hmo by done. fold (addr_of s d m). intros Hp.
      destruct (u_page _ _ _ Hu m Hr Hp) as (H1 & y & H2 & H3). split; [done|]. exists y. split; [by apply Dd | done].
    + assert (forall m, 0 <= m < UPAGES -> m <> n -> present (pte_of s d m) -> addr_of s d m <> a) as Hna.
      { intros m Hr _ Hp E. apply Hout. by exists m. }
      intros m m' Hr Hr' Hp Hp' E.
      unfold addr_of in E. destruct (decide (m = n)) as [->|Hne], (decide (m' = n)) as [->|Hne']; [done | | |].
      * rewrite Hmo in Hp' by done. rewrite En, Epa, Hv3, Hmo in E by done. by destruct (Hna m' Hr' Hne' Hp').
      * rewrite Hmo in Hp by done. rewrite En, Epa, Hv3, Hmo in E by done. by destruct (Hna m Hr Hne Hp).
      * rewrite Hmo in Hp, Hp' by done. rewrite !Hmo in E by done. by apply (u_inj _ _ _ Hu).
  - intros b Hb. assert (b <> a) as Hne by (intros ->; apply Hb; right; apply Hin; by right).
    destruct (spare_own b Hk ltac:(by constructor) Ha Hne) as [|E]; [destruct Hb; by left|]. rewrite E. apply Hsame; [|done].
    intros [|]; apply Hb; [left; by apply (kp_own _ _ _ Hk) | right; apply Hin; by left].
  - intros b. rewrite Hfree. unfold pages_of. rewrite Hin. split.
    + intros [H|[[H|H]|H]]; [|right; left; by apply (kp_own _ _ _ Hk) | auto..].
      destruct (Dl b H) as [|Ht]; [by left|]. right. left. by apply (new_tab_own kend s).
    + intros [H|[H|[H|H]]]; [left; auto | | auto..]. destruct (kp_new _ _ _ Hk b H); auto.
Qed.
End mapping.

(** [mappages] has failed: the page is given back. *)
Lemma spare_free s0 s d a x : free_ok kend s0 -> spare s0 s d a x -> new_space kend s0 (free_page s a) d.
Proof.
  intros [_ Hf0] [Hok Hu (Hpa & Ha & Hx) Hout Hsame Hfree].
  destruct (same_tabs s (free_page s a) d (fun b => free_page_tab s a x b Ha)) as (_ & _ & Hm).
  assert (forall m, addr_of (free_page s a) d m = addr_of s d m) as Had by (intros; unfold addr_of; by rewrite Hm).
  destruct (free_page_kept s d a x Ha) as [_ Ho].
  assert (forall b, pages_of (free_page s a) d b <-> pages_of s d b) as Hpg.
  { intros b. unfold pages_of, in_user. rewrite Ho. setoid_rewrite Hm. by setoid_rewrite Had. }
  assert (~ pages_of s d a) as Hna.
  { intros [H|H]; [|done]. apply (own_tab kend) in H as [(l & Hl & _) _]; [congruence | done]. }
  constructor.
  - by apply (free_page_ok kend s d a x).
  - constructor.
    + intros m Hr. rewrite Hm, Had. intros Hp. destruct (u_page _ _ _ Hu m Hr Hp) as (H1 & y & H2 & H3).
      split; [done|]. exists y. cbn. rewrite lookup_delete_ne; [done|]. intros E. apply Hout. by exists m.
    + intros m m' Hr Hr'. rewrite !Hm, !Had. by apply (u_inj _ _ _ Hu).
  - intros b. rewrite Hpg. intros Hb. cbn. destruct (decide (b = a)) as [->|Hne].
    + rewrite lookup_delete_eq. symmetry. apply Hf0, Hfree. auto.
    + rewrite lookup_delete_ne by done. by apply Hsame.
  - intros b. rewrite Hfree, Hpg. cbn. rewrite elem_of_cons. tauto.
Qed.

Lemma spare_short s0 s d a x n : free_ok kend s0 -> spare s0 s d a x -> v_free s = [] -> 0 <= n <= UPAGES ->
  (forall m, n <= m < UPAGES -> ~ present (pte_of s d m)) -> short s0 (n + 1).
Proof.
  intros [Hnd _] Hs Hf Hn Hno. apply (pages_short s0 s d n (Some a) Hnd); [lia|].
  intros b Hb%(sp_free _ _ _ _ _ Hs). rewrite Hf in Hb.
  destruct Hb as [Hb|[[Hb|(m & Hm & Hp & E)]| ->]]; [by apply elem_of_nil in Hb | by left | | auto].
  right. left. exists m. destruct (Z.lt_ge_cases m n); [split; [lia | done]|]. by destruct (Hno m ltac:(lia)).
Qed.

(** Page [m] of the child is as the parent's. *)
Record copied (s0 s : vm_t) (pgdir d m : Z) : Prop := {
  cp_present : present (pte_of s d m);
  cp_flags : PTE_FLAGS (pte_of s d m) = PTE_FLAGS (pte_of s0 pgdir m);
  cp_data : page_data s d m = page_data s0 pgdir m;
}.

Lemma flags_parts e : present e -> 0 <= PTE_FLAGS e < 4096 /\ Z.lor (PTE_FLAGS e) PTE_P = PTE_FLAGS e.
Proof.
  intros Hp. unfold PTE_FLAGS. rewrite land_mod12. split; [zlia|].
  pose proof (Z.add_lor_land (e mod 4096) PTE_P) as E. rewrite land_P in E. unfold present, PTE_P in *. zlia.
Qed.


(** What the loop has done before page [n]. *)
Record copying (s0 s : vm_t) (pgdir d n : Z) : Prop := {
  cy_space : new_space kend s0 s d;
  cy_done : forall m, 0 <= m < n -> copied s0 s pgdir d m;
  cy_rest : forall m, n <= m < UPAGES -> ~ present (pte_of s d m);
}.

(** One more page. *)
Lemma copying_step s0 s s1 s2 pgdir d n a : copying s0 s pgdir d n -> 0 <= n < UPAGES -> present (pte_of s0 pgdir n) ->
  spare s0 s1 d a (page_data s0 pgdir n) -> (forall m, pte_of s1 d m = pte_of s d m) ->
  (forall b y, v_frame s !! b = Some (FData y) -> v_frame s1 !! b = Some (FData y)) ->
  mapped_ok kend s1 s2 d n 1 (V2P a) (PTE_FLAGS (pte_of s0 pgdir n)) -> copying s0 s2 pgdir d (n + 1).
Proof.
  intros [Hs Hd Hr] Hn Hp Hsp Hm1 Hf1 Hmo. destruct (flags_parts _ Hp) as [Hfr Hfl].
  destruct (spare_mapped s0 s1 s2 d a n _ _ Hsp Hn Hfr) as (N1 & N2 & N3 & N4 & N5 & N6); [|done|].
  { rewrite Hm1. apply Hr. lia. }
  constructor; [done| |].
  - intros m Hm. destruct (decide (m = n)) as [->|Hne].
    + constructor; [done | by rewrite N5, Hfl | unfold page_data at 1; by rewrite N2, N3].
    + destruct (Hd m ltac:(lia)) as [C1 C2 C3]. assert (pte_of s2 d m = pte_of s d m) as Em by (rewrite N6, Hm1 by lia; done).
      constructor; [by rewrite Em | by rewrite Em|]. rewrite <- C3. unfold page_data, addr_of. rewrite Em. fold (addr_of s d m).
      destruct (u_page _ _ _ (ns_user _ _ _ _ Hs) m ltac:(lia) C1) as (_ & y & Hy & _). rewrite Hy.
      by rewrite (proj1 (ds_data _ _ (mo_data _ _ _ _ _ _ _ _ Hmo) _ _) (Hf1 _ _ Hy)).
  - intros m Hm. rewrite N6, Hm1 by lia. apply Hr. lia.
Qed.

Lemma copyuvm_loop_spec s0 pgdir d sz : free_ok kend s0 -> vm_ok kend s0 pgdir -> user_ok kend s0 pgdir ->
  0 <= sz <= KERNBASE -> (forall m, 0 <= m < pages sz -> present (pte_of s0 pgdir m)) ->
  forall fuel n s, copying s0 s pgdir d n -> 0 <= n <= pages sz -> (Z.to_nat (pages sz - n) <= fuel)%nat ->
  wp (copyuvm_loop kend fuel pgdir d sz (n * 4096)) s (fun ok s' =>
    ok = true /\ copying s0 s' pgdir d (pages sz) \/
    ok = false /\ new_space kend s0 s' d /\ short s0 (pages sz)).
Proof.
  intros Hf0 Hok0 Hu0 Hsz Hall. pose proof (pages_range sz Hsz) as Hpr.
  induction fuel as [|fuel IH]; intros n s Hc Hn Hfu; cbn [copyuvm_loop]; rewrite pages_lt;
    destruct (Z.ltb_spec n (pages sz)) as [Hlt|Hge]; [lia | | |];
    try (wp_step; left; by replace (pages sz) with n by lia).
  pose proof (Hall n ltac:(lia)) as Hp. pose proof (cy_space _ _ _ _ _ Hc) as Hs.
  destruct (new_space_beside s0 s d pgdir Hf0 Hs Hok0 Hu0) as [B1 B2 B3 B4 _].
  assert (vpn n) as Hv by (unfold vpn, UPAGES in *; lia). assert (present (pte_of s pgdir n)) as Hps by (by rewrite B3).
  pose proof (present_pde _ _ _ Hps) as Hpde. wp_step. assert (n * 4096 / 4096 = n) as Em by (by rewrite Z.div_mul).
  apply (walk_noalloc kend); [done | unfold UPAGES in *; lia | |]; rewrite Em; [unfold present in Hpde; lia|]. intros _. wp_step.
  apply (wp_pte_get_of kend); [done..|]. rewrite B3 by done. rewrite land_P, (Hp : _ = 1). wp_steps; [done|].
  destruct (u_page _ _ _ B2 n ltac:(lia) Hps) as (Hpp & y & Hy & Hyl). specialize (B4 n ltac:(lia) Hp).
  unfold page_data in B4 at 1. rewrite Hy in B4. unfold addr_of in Hy. rewrite B3 in Hy by done.
  unfold vkalloc. wp_steps. destruct (v_free s) as [|a l] eqn:Ef; wp_steps.
  { right. split; [done|]. split; [done|]. apply (short_mono s0 n); [|lia].
    apply (new_space_short kend s0 s d n); [done | done | done | lia | apply Hc]. }
  destruct (o_free _ _ _ (ns_ok _ _ _ _ Hs) a) as [(P1 & P2 & P3 & P4) Ha]; [rewrite Ef; by constructor|].
  rewrite (proj2 (Z.eqb_neq a 0)) by (unfold KERNBASE in *; lia). unfold data_at, set_frame. wp_steps. cbn [v_frame].
  rewrite lookup_insert_ne by congruence. rewrite Hy. wp_steps. subst y.
  destruct (filled_spare s0 s d a l _ Hs Ef Hyl) as [Hsp Hm1]. set (s1 := filled s a l (page_data s0 pgdir n)) in *.
  change (wp (mappages d (n * 4096) PGSIZE (V2P a) (PTE_FLAGS (pte_of s0 pgdir n))) s1 
    (fun r s' => wp (if r <? 0 then vkfree kend a ;;; ret false else copyuvm_loop kend fuel pgdir d sz (n * 4096 + PGSIZE)) s'
      (fun ok s' => ok = true /\ copying s0 s' pgdir d (pages sz) \/ ok = false /\ new_space kend s0 s' d /\ short s0 (pages sz)))).
  eapply wp_mono; [apply (mappages_one kend s1 d n a); [apply Hsp | lia | done | by apply flags_parts |]|].
  { rewrite Hm1. apply (cy_rest _ _ _ _ _ Hc). lia. }
  intros r s2 [[-> Hmo]|(-> & Hmo & Hfr)].
  - change (0 <? 0) with false. cbv iota. replace (n * 4096 + PGSIZE) with ((n + 1) * 4096) by (unfold PGSIZE; lia).
    apply IH; [|lia..]. apply (copying_step s0 s s1 s2 pgdir d n a); try done; [lia|].
    intros b y Hb. cbn. rewrite !lookup_insert_ne; [done | congruence | congruence].
  - change (-1 <? 0) with true. cbv iota. wp_step. apply wp_vkfree; [done|]. wp_step. right. split; [done|].
    assert (spare s0 s2 d a (page_data s0 pgdir n)) as Hsp2 by (eapply spare_nomap; [exact Hsp | exact Hmo]).
    split; [by apply (spare_free s0 s2 d a (page_data s0 pgdir n))|]. apply (short_mono s0 (n + 1)); [|lia].
    apply (spare_short s0 s2 d a (page_data s0 pgdir n)); try done; [lia|]. intros m Hm.
    rewrite (mo_map _ _ _ _ _ _ _ _ Hmo), mapped_0, Hm1 by (unfold vpn, UPAGES in *; lia). apply (cy_rest _ _ _ _ _ Hc). lia.
Qed.

Context (kdata : Z).
Hypothesis Hkdata : KERNLINK < kdata < KERNBASE + PHYSTOP /\ kdata mod 4096 = 0.

(** C0: [copyuvm], the copy of the memory of the parent in [fork]: for a process
    of size [sz] whose pages are all mapped it returns a new page directory, made
    of pages that were free, in which every address below the size reads the same
    byte with the same permissions and no other page is mapped, and the address
    space of the parent is unchanged; or, only if there are no more than 1025 pages
    besides those that the memory needs, it returns 0 and every page it took is on
    the free list again. *)
Theorem copyuvm_correct s pgdir sz :
  vm_ok kend s pgdir -> user_ok kend s pgdir -> 0 <= sz <= KERNBASE ->
  (forall m, 0 <= m < pages sz -> present (pte_of s pgdir m)) ->
  wp (copyuvm kend kdata pgdir sz) s (fun d s' =>
    d <> 0 /\ new_space kend s s' d /\ beside s s' pgdir /\
      (forall va, 0 <= va < pages sz * 4096 -> umem s' d va = umem s pgdir va) /\
      (forall m, 0 <= m < pages sz -> PTE_FLAGS (pte_of s' d m) = PTE_FLAGS (pte_of s pgdir m)) /\
      (forall m, pages sz <= m < UPAGES -> ~ present (pte_of s' d m)) \/
    d = 0 /\ restored kend s s' /\ short s (pages sz)).
Proof.
  intros Hok Hu Hsz Hall. pose proof (vm_free_ok _ _ Hok) as Hf. pose proof (pages_range sz Hsz) as Hpr.
  unfold copyuvm. wp_step. eapply wp_mono; [by apply (setupkvm_spec kend Hkend kdata Hkdata)|].
  intros d s1 [(Hd & Hs1 & Hno)|(-> & Hr & Hsh)].
  2: { change (0 =? 0) with true. cbv iota. wp_step. right. split; [done|]. split; [done|]. apply (short_mono s 0); [done | lia]. }
  rewrite (proj2 (Z.eqb_neq d 0) Hd). wp_step. change 0 with (0 * 4096) at 1.
  eapply wp_mono; [apply (copyuvm_loop_spec s pgdir d sz Hf Hok Hu Hsz Hall)|].
  - constructor; [done | intros m Hm; lia | done].
  - lia.
  - unfold pages, PGSIZE. zlia.
  - intros ok s2 [[-> [C1 C2 C3]]|(-> & Hn & Hsh)].
    + wp_step. left. split_and!; [done | done | by apply (new_space_beside s s2 d) | | |done].
      * intros va Hva. destruct (C2 (va / 4096) ltac:(zlia)) as [D1 _ D3]. unfold umem.
        rewrite (D1 : _ = 1), (Hall (va / 4096) ltac:(zlia) : _ = 1), D3. done.
      * intros m Hm. by apply C2.
    + wp_step. eapply wp_mono; [by apply (new_space_free kend Hkend s)|]. intros [] s3 H3. wp_step. by right.
Qed.
End fork.
