(* ===== verification/VmDemo.v ===== *)
(** * An instance of the virtual-memory theorem

    A process with an empty page directory and four free pages grows to 5000 bytes. *)

From S2P Require Import Prelude Bytes Cstring Kalloc Vm VmSpec VmUser.

Definition demo_end : Z := 2150629376.
Definition demo_dir : Z := 2151677952.
Definition demo_vm : vm_t :=
  mkVm {[demo_dir := FTable zero_table]}
    [demo_dir + 4096; demo_dir + 8192; demo_dir + 12288; demo_dir + 16384].

Lemma demo_pde i : 0 <= i < 1024 -> pde_of demo_vm demo_dir i = 0.
Proof.
  intros Hi. unfold pde_of, tab, demo_vm. simpl. rewrite lookup_singleton_eq. unfold zero_table, rd.
  rewrite (list_lookup_total_correct _ _ 0); [done|]. apply lookup_replicate_2. lia.
Qed.
Lemma demo_pte m : vpn m -> pte_of demo_vm demo_dir m = 0.
Proof. unfold vpn. intros Hm. unfold pte_of. rewrite demo_pde by zlia. done. Qed.

Lemma demo_vm_ok : vm_ok demo_end demo_vm demo_dir.
Proof.
  constructor.
  - intros a Ha. unfold demo_vm in Ha. simpl in Ha.
    rewrite !elem_of_cons, elem_of_nil in Ha. unfold page_ok, demo_dir, demo_end in *.
    destruct Ha as [->|[->|[->|[->|[]]]]]; (split; [split_and!; by vm_compute | by vm_compute]).
  - apply (bool_decide_unpack _). by vm_compute.
  - split; [|split_and!; by vm_compute]. exists zero_table. split; [apply lookup_singleton_eq | done].
  - intros i Hi. rewrite demo_pde by done. by intros ?.
  - intros i j Hi Hj. rewrite demo_pde by done. by intros ?.
Qed.
Lemma demo_vm_user_ok : user_ok demo_end demo_vm demo_dir.
Proof.
  constructor; unfold UPAGES; intros m; [|intros m'];
    intros Hm; [|intros Hm']; rewrite demo_pte by (unfold vpn; lia); by intros ?.
Qed.


(** It runs: the result, and the pages left. *)
Lemma allocuvm_demo :
  match allocuvm demo_end demo_dir 0 5000 demo_vm with
  | Ok (r, s) => r = 5000 /\ v_free s = [demo_dir + 16384]
  | _ => False
  end.
Proof. by vm_compute. Qed.
