(* ===== verification/Store.v ===== *)
(** * The buffer-cache interface

    What the buffer cache (bio.c) promises to the log (log.c): the abstract
    state [astore] of a cached disk, the operations as a class, and their laws
    as a second class.  [Bio.v] implements the operations as the code does and
    proves the laws; [Log.v] is proved against the interface. *)

From S2P Require Import Prelude Bytes.

(** src/xv6/param.h *)
Definition MAXOPBLOCKS : Z := 10.
Definition LOGSIZE : Z := MAXOPBLOCKS * 3.
Definition NBUF : Z := MAXOPBLOCKS * 3.
Definition ROOTDEV : Z := 1.

(** [av b] is the contents of block [b] that a reader of the cache sees,
    [ad b] the contents on disk; the blocks of [adirty] are pinned in the
    cache; [aheld] maps the handle of a locked buffer to its block; [atrace]
    is the history of the block writes the disk has completed, in order. *)
Record astore := mkAstore {
  asize : Z;
  av : Z -> bytes;
  ad : Z -> bytes;
  adirty : gset Z;
  aheld : gmap Z Z;
  atrace : list (Z * bytes);
}.

Definition fupd (f : Z -> bytes) (b : Z) (d : bytes) : Z -> bytes :=
  fun x => if x =? b then d else f x.

Definition held (A : astore) (b : Z) : Prop := exists h, aheld A !! h = Some b.

Definition a_hold (A : astore) (h b : Z) : astore :=
  mkAstore (asize A) (av A) (ad A) (adirty A) (<[h := b]> (aheld A)) (atrace A).
Definition a_set (A : astore) (b : Z) (d : bytes) : astore :=
  mkAstore (asize A) (fupd (av A) b d) (ad A) (adirty A) (aheld A) (atrace A).
Definition a_pin (A : astore) (b : Z) : astore :=
  mkAstore (asize A) (av A) (ad A) (adirty A ∪ {[b]}) (aheld A) (atrace A).
Definition a_write (A : astore) (b : Z) : astore :=
  mkAstore (asize A) (av A) (fupd (ad A) b (av A b)) (adirty A ∖ {[b]}) (aheld A)
    (atrace A ++ [(b, av A b)]).
Definition a_relse (A : astore) (h : Z) : astore :=
  mkAstore (asize A) (av A) (ad A) (adirty A) (delete h (aheld A)) (atrace A).

(** The store after boot: nothing is cached. *)
Definition a_boot (n : Z) (d : Z -> bytes) : astore := mkAstore n d d ∅ ∅ [].

(** A pinned block is in the cache; otherwise a buffer that is neither pinned
    nor held must be left to recycle. *)
Definition room (A : astore) (b : Z) : Prop :=
  b ∈ adirty A \/ Z.of_nat (size (aheld A)) + Z.of_nat (size (adirty A)) < NBUF.

(** A block that is neither held nor pinned is the same in the cache and on
    disk, so that its buffer may be recycled. *)
Record astore_wf (A : astore) : Prop := {
  aw_view : forall b, 0 <= b < asize A -> wf_block (av A b);
  aw_disk : forall b, 0 <= b < asize A -> wf_block (ad A b);
  aw_clean : forall b, b ∉ adirty A -> ~ held A b -> av A b = ad A b;
  aw_dirty : forall b, b ∈ adirty A -> 0 <= b < asize A;
  aw_held : forall h b, aheld A !! h = Some b -> 0 <= b < asize A;
  aw_inj : forall h1 h2 b,
    aheld A !! h1 = Some b -> aheld A !! h2 = Some b -> h1 = h2;
}.

(** Stores with the same contents: the contents are functions, compared
    pointwise. *)
#[export] Instance astore_equiv : Equiv astore := fun A B =>
  asize A = asize B /\ (forall b, av A b = av B b) /\ (forall b, ad A b = ad B b) /\
  adirty A = adirty B /\ aheld A = aheld B /\ atrace A = atrace B.
#[export] Instance astore_equivalence : Equivalence (≡@{astore}).
Proof.
  split.
  - intros A. by unfold equiv, astore_equiv.
  - intros A B (H1 & H2 & H3 & H4 & H5 & H6). by split_and!.
  - intros A B C (H1 & H2 & H3 & H4 & H5 & H6) (K1 & K2 & K3 & K4 & K5 & K6).
    split_and!; intros; etrans; eauto.
Qed.

(** Operations on the cache: [bdata] and [bblock] read [b->data] and
    [b->blockno], [bset] is a write of the holder to [b->data], [bpin] sets
    [B_DIRTY]. *)
Class BufCache (S : Type) := {
  bread : Z -> Z -> ST S Z;
  bdata : Z -> S -> bytes;
  bblock : Z -> S -> Z;
  bset : Z -> bytes -> ST S unit;
  bpin : Z -> ST S unit;
  bwrite : Z -> ST S unit;
  brelse : Z -> ST S unit;
}.

Class BufCacheLaws (S : Type) `{BufCache S} (rep : S -> astore -> Prop) := {
  law_wf s A : rep s A -> astore_wf A;
  law_proper s :: Proper ((≡@{astore}) ==> impl) (rep s);
  law_bdata s A h b : rep s A -> aheld A !! h = Some b -> bdata h s = av A b;
  law_bblock s A h b : rep s A -> aheld A !! h = Some b -> bblock h s = b;
  law_bread s A b :
    rep s A -> 0 <= b < asize A -> ~ held A b -> room A b ->
    wp (bread ROOTDEV b) s (fun h s' => aheld A !! h = None /\ rep s' (a_hold A h b));
  law_bset s A h b d :
    rep s A -> aheld A !! h = Some b -> wf_block d ->
    wp (bset h d) s (fun _ s' => rep s' (a_set A b d));
  law_bpin s A h b :
    rep s A -> aheld A !! h = Some b -> wp (bpin h) s (fun _ s' => rep s' (a_pin A b));
  law_bwrite s A h b :
    rep s A -> aheld A !! h = Some b -> wp (bwrite h) s (fun _ s' => rep s' (a_write A b));
  law_brelse s A h b :
    rep s A -> aheld A !! h = Some b -> (b ∈ adirty A \/ av A b = ad A b) ->
    wp (brelse h) s (fun _ s' => rep s' (a_relse A h));
}.

Lemma fupd_eq f b d : fupd f b d b = d.
Proof. unfold fupd. by rewrite Z.eqb_refl. Qed.
Lemma fupd_ne f b d x : x <> b -> fupd f b d x = f x.
Proof. unfold fupd. intros. test_solver. Qed.

(** ** The abstract operations keep the store well formed *)

Lemma held_hold A h b x : aheld A !! h = None -> held (a_hold A h b) x <-> x = b \/ held A x.
Proof.
  intros Hfresh. unfold held. cbn. split.
  - intros [h' Hh']. destruct (decide (h' = h)) as [->|Hne].
    + rewrite lookup_insert_eq in Hh'. left. congruence.
    + rewrite lookup_insert_ne in Hh' by done. eauto.
  - intros [->|[h' Hh']]; [exists h; by rewrite lookup_insert_eq|].
    exists h'. rewrite lookup_insert_ne; [done|]. intros ->. congruence.
Qed.

Lemma held_relse A h b x :
  astore_wf A -> aheld A !! h = Some b -> held (a_relse A h) x <-> x <> b /\ held A x.
Proof.
  intros Hwf Hh. unfold held. cbn. split.
  - intros [h' [Hne Hh']%lookup_delete_Some]. split; [|eauto].
    intros ->. by apply Hne, (aw_inj _ Hwf h h' b).
  - intros [Hne [h' Hh']]. exists h'. apply lookup_delete_Some. split; [|done].
    intros ->. congruence.
Qed.

Lemma wf_hold A h b :
  astore_wf A -> aheld A !! h = None -> ~ held A b -> 0 <= b < asize A ->
  astore_wf (a_hold A h b).
Proof.
  intros [H1 H2 H3 H4 H5 H6] Hfresh Hb Hr. split; cbn; try done.
  - intros x Hx Hn. apply H3; [done|]. intros Hx'. apply Hn, held_hold; auto.
  - intros h' x [[-> ->]|[_ Hx]]%lookup_insert_Some; [done|]. by apply (H5 h').
  - intros h1 h2 x [[-> ->]|[N1 X1]]%lookup_insert_Some [[-> E]|[N2 X2]]%lookup_insert_Some;
      try done; [exfalso; apply Hb; eexists; eassumption | | by apply (H6 h1 h2 x)].
    subst. exfalso. apply Hb. eexists; eassumption.
Qed.

Lemma wf_set A h b d :
  astore_wf A -> aheld A !! h = Some b -> wf_block d -> astore_wf (a_set A b d).
Proof.
  intros [H1 H2 H3 H4 H5 H6] Hh Hd. split; cbn; try done.
  - intros x Hx. unfold fupd. case_test; auto.
  - intros x Hx Hn. rewrite fupd_ne; [by apply H3|]. intros ->. apply Hn. by exists h.
Qed.

Lemma wf_pin A h b : astore_wf A -> aheld A !! h = Some b -> astore_wf (a_pin A b).
Proof.
  intros [H1 H2 H3 H4 H5 H6] Hh. split; cbn; try done.
  - intros x [Hx _]%not_elem_of_union Hn. by apply H3.
  - intros x [Hx| ->%elem_of_singleton]%elem_of_union; [auto|]. by apply (H5 h).
Qed.

Lemma wf_write A h b : astore_wf A -> aheld A !! h = Some b -> astore_wf (a_write A b).
Proof.
  intros [H1 H2 H3 H4 H5 H6] Hh. split; cbn; try done.
  - intros x Hx. unfold fupd. case_test; subst; auto.
  - intros x Hx Hn. destruct (decide (x = b)) as [->|Hne]; [by rewrite fupd_eq|].
    rewrite fupd_ne by done. apply H3; [|done]. intros Hx'. apply Hx.
    apply elem_of_difference. split; [done|]. by rewrite elem_of_singleton.
  - intros x [Hx _]%elem_of_difference. auto.
Qed.

Lemma wf_relse A h b :
  astore_wf A -> aheld A !! h = Some b -> b ∈ adirty A \/ av A b = ad A b ->
  astore_wf (a_relse A h).
Proof.
  intros Hwf Hh Hb. pose proof Hwf as [H1 H2 H3 H4 H5 H6]. split; cbn; try done.
  - intros x Hx Hn. destruct (decide (x = b)) as [->|Hne]; [by destruct Hb|].
    apply H3; [done|]. intros Hx'. apply Hn. by apply (held_relse _ _ b).
  - intros h' x [_ Hx]%lookup_delete_Some. by apply (H5 h').
  - intros h1 h2 x [_ X1]%lookup_delete_Some [_ X2]%lookup_delete_Some. by apply (H6 h1 h2 x).
Qed.
