(* ===== verification/Dlist.v ===== *)
(** * Doubly linked lists

    [linked nx pv x l z]: from node [x] the [nx] pointers go through the nodes
    of [l] to [z] and the [pv] pointers go the same way back.  A circular list
    with head [h] is [linked nx pv h l h].  Used for the buffer cache. *)

From S2P Require Import Prelude.

Definition fset (f : Z -> Z) (i v : Z) : Z -> Z := fun x => if x =? i then v else f x.

Lemma fset_eq f i v : fset f i v i = v.
Proof. unfold fset. by rewrite Z.eqb_refl. Qed.
Lemma fset_ne f i v x : x <> i -> fset f i v x = f x.
Proof. unfold fset. intros. test_solver. Qed.

Fixpoint linked (nx pv : Z -> Z) (x : Z) (l : list Z) (z : Z) : Prop :=
  match l with
  | [] => nx x = z /\ pv z = x
  | y :: l => nx x = y /\ pv y = x /\ linked nx pv y l z
  end.

Lemma linked_app nx pv x l1 y l2 z :
  linked nx pv x (l1 ++ y :: l2) z <-> linked nx pv x l1 y /\ linked nx pv y l2 z.
Proof. revert x. induction l1 as [|a l1 IH]; intros x; cbn; [|rewrite IH]; tauto. Qed.

(** The predicate reads [nx] at [x :: l] and [pv] at [l ++ [z]]. *)
Lemma linked_ext nx pv nx' pv' x l z :
  (forall i, i ∈ x :: l -> nx' i = nx i) -> (forall i, i ∈ l ++ [z] -> pv' i = pv i) ->
  linked nx pv x l z -> linked nx' pv' x l z.
Proof.
  revert x. induction l as [|y l IH]; intros x Hn Hp Hl; cbn in *.
  - rewrite Hn, Hp by set_solver. done.
  - destruct Hl as (? & ? & Hl). rewrite Hn, Hp by set_solver. split_and!; [done..|].
    apply IH; [| |done]; intros i Hi; [apply Hn | apply Hp]; set_solver.
Qed.

(** The neighbours of an element. *)
Lemma linked_prev nx pv x l z : linked nx pv x l z -> pv z ∈ x :: l.
Proof.
  revert x. induction l as [|y l IH]; intros x Hl; cbn in Hl.
  - destruct Hl as [_ ->]. apply list_elem_of_here.
  - destruct Hl as (_ & _ & Hl). apply list_elem_of_further. by apply IH.
Qed.

Lemma linked_next nx pv x l z : linked nx pv x l z -> nx x ∈ l ++ [z].
Proof.
  destruct l as [|y l]; cbn; intros Hl; [destruct Hl as [-> _] | destruct Hl as (-> & _)];
    apply list_elem_of_here.
Qed.

(** [b->next->prev = b->prev; b->prev->next = b->next]. *)
Lemma linked_unlink nx pv x l1 b l2 z :
  NoDup (x :: l1 ++ b :: l2) -> NoDup (l1 ++ b :: l2 ++ [z]) ->
  linked nx pv x (l1 ++ b :: l2) z ->
  linked (fset nx (pv b) (nx b)) (fset pv (nx b) (pv b)) x (l1 ++ l2) z.
Proof.
  revert x. induction l1 as [|a l1 IH]; intros x Hnd1 Hnd2 Hl.
  - cbn in Hl. destruct Hl as (Hx & Hb & Hl). rewrite Hb.
    apply NoDup_cons in Hnd1 as [Hx1 Hnd1].
    destruct l2 as [|y l2]; cbn in Hl |- *.
    + destruct Hl as [-> _]. by rewrite !fset_eq.
    + destruct Hl as (Hy & Hpy & Hl). rewrite Hy, !fset_eq. split_and!; [done..|].
      cbn in Hnd2. apply NoDup_cons in Hnd2 as [_ Hnd2]. apply NoDup_cons in Hnd2 as [Hy2 _].
      eapply linked_ext; [| |exact Hl]; intros i Hi; apply fset_ne; intros ->;
        [apply Hx1; set_solver | done].
  - cbn in Hl. destruct Hl as (Hx & Ha & Hl).
    apply NoDup_cons in Hnd1 as [Hx1 Hnd1]. cbn in Hnd2.
    apply NoDup_cons in Hnd2 as [Ha2 Hnd2].
    pose proof (proj1 (linked_app _ _ _ _ _ _ _) Hl) as [Hl1 Hl2].
    cbn. rewrite !fset_ne; [split_and!; [done..|]; by apply IH | |].
    + intros ->. apply Ha2. pose proof (linked_next _ _ _ _ _ Hl2). set_solver.
    + intros ->. apply Hx1. pose proof (linked_prev _ _ _ _ _ Hl1). set_solver.
Qed.

(** [b->next = h->next; b->prev = h; h->next->prev = b; h->next = b]. *)
Lemma linked_push nx pv h l b :
  b <> h -> b ∉ l -> NoDup (h :: l) -> linked nx pv h l h ->
  linked (fset (fset nx b (nx h)) h b) (fset (fset pv b h) (nx h) b) h (b :: l) h.
Proof.
  intros Hbh Hb Hnd Hl. apply NoDup_cons in Hnd as [Hh Hnd].
  assert (Hne : nx h <> b).
  { intros E. pose proof (linked_next _ _ _ _ _ Hl). set_solver. }
  cbn. rewrite fset_eq, (fset_ne _ (nx h)), fset_eq by done. split_and!; [done..|].
  destruct l as [|y l]; cbn in Hl |- *.
  - destruct Hl as [Hx _]. rewrite Hx, (fset_ne _ h), !fset_eq by done. done.
  - destruct Hl as (Hx & Hy & Hl). rewrite Hx, (fset_ne _ h b), !fset_eq by done.
    split_and!; [done..|]. apply NoDup_cons in Hnd as [Hy2 Hnd].
    eapply linked_ext; [| |exact Hl]; intros i Hi; rewrite !fset_ne; set_solver.
Qed.

Lemma linked_rev nx pv x l z : linked nx pv x l z <-> linked pv nx z (reverse l) x.
Proof.
  revert x. induction l as [|y l IH]; intros x; [cbn; tauto|].
  rewrite reverse_cons, linked_app. cbn [linked]. rewrite IH. tauto.
Qed.

(** The pointers determine the list. *)
Lemma linked_det nx pv x l l' z :
  linked nx pv x l z -> linked nx pv x l' z -> z ∉ l -> z ∉ l' -> l = l'.
Proof.
  revert x l'. induction l as [|y l IH]; intros x [|y' l'] H1 H2 Hz Hz'; cbn in *; try done.
  - destruct H1, H2 as (? & _). subst. set_solver.
  - destruct H1 as (? & _), H2. subst. set_solver.
  - destruct H1 as (<- & _ & H1), H2 as (<- & _ & H2). f_equal.
    apply (IH (nx x)); try done; set_solver.
Qed.
