(* ===== verification/Bio.v ===== *)
(** * The buffer cache (src/xv6/bio.c) on the memory disk (src/xv6/memide.c)

    The cache is modelled at the level of its pointers: the array of buffers,
    whose last element is the list head, linked both ways through [prev] and
    [next].  The file proves that the code implements the abstract store of
    [Store.v] (instance [bio_laws]) and that the list is a least-recently-used
    order of all the buffers. *)

From S2P Require Import Prelude Bytes Sleeplock Store Dlist.

Definition B_VALID : Z := 2.
Definition B_DIRTY : Z := 4.

(** [struct buf]; a pointer is an index of [bufs], [HEAD] is [&bcache.head]. *)
Record buf := mkBuf {
  flags : Z; dev : Z; blockno : Z; lock : sleeplock; refcnt : Z;
  prev : Z; next : Z; data : bytes
}.
Definition HEAD : Z := NBUF.

Definition buf0 : buf := mkBuf 0 0 0 initsleeplock 0 0 0 (zeros BSIZE).
#[export] Instance buf_inhabited : Inhabited buf := populate buf0.

Definition set_flags (v : Z) (b : buf) : buf :=
  mkBuf v (dev b) (blockno b) (lock b) (refcnt b) (prev b) (next b) (data b).
Definition set_block (d n : Z) (b : buf) : buf :=
  mkBuf (flags b) d n (lock b) (refcnt b) (prev b) (next b) (data b).
Definition set_lock (l : sleeplock) (b : buf) : buf :=
  mkBuf (flags b) (dev b) (blockno b) l (refcnt b) (prev b) (next b) (data b).
Definition set_refcnt (v : Z) (b : buf) : buf :=
  mkBuf (flags b) (dev b) (blockno b) (lock b) v (prev b) (next b) (data b).
Definition set_prev (v : Z) (b : buf) : buf :=
  mkBuf (flags b) (dev b) (blockno b) (lock b) (refcnt b) v (next b) (data b).
Definition set_next (v : Z) (b : buf) : buf :=
  mkBuf (flags b) (dev b) (blockno b) (lock b) (refcnt b) (prev b) v (data b).
Definition set_data (d : bytes) (b : buf) : buf :=
  mkBuf (flags b) (dev b) (blockno b) (lock b) (refcnt b) (prev b) (next b) d.

(** [bcache] and the disk of memide.c, an array of blocks of [BSIZE] bytes.
    [bpid] is [myproc()->pid]; [dtrace] is a history variable, the block
    writes in the order the disk completed them. *)
Record bcache := mkBcache {
  bufs : list buf;
  bpid : Z;
  disksize : Z;
  memdisk : Z -> bytes;
  dtrace : list (Z * bytes);
}.

Definition buf_at (c : bcache) (i : Z) : buf := rd (bufs c) i.
Definition setbuf (i : Z) (f : buf -> buf) (c : bcache) : bcache :=
  mkBcache (upd (bufs c) i (f (buf_at c i))) (bpid c) (disksize c) (memdisk c) (dtrace c).
Definition bmod (i : Z) (f : buf -> buf) : ST bcache unit := modify (setbuf i f).

(** ** memide.c *)

(** [_binary_fs_img_start] is the image linked into the kernel. *)
Definition ideinit (img : bytes) : ST bcache unit :=
  modify (fun c => mkBcache (bufs c) (bpid c) (u32 (lenZ img) / BSIZE)
                     (fun b => slice img (b * BSIZE) BSIZE) (dtrace c)).

Definition disk_write (b : Z) (d : bytes) (c : bcache) : bcache :=
  mkBcache (bufs c) (bpid c) (disksize c) (fupd (memdisk c) b d) (dtrace c ++ [(b, d)]).

Definition iderw (i : Z) : ST bcache unit :=
  c <- get ;;
  let b := buf_at c i in
  panic_if (negb (holdingsleep (bpid c) (lock b))) "iderw: buf not locked" ;;;
  panic_if (Z.land (flags b) (Z.lor B_VALID B_DIRTY) =? B_VALID) "iderw: nothing to do" ;;;
  panic_if (negb (dev b =? 1)) "iderw: request not for disk 1" ;;;
  panic_if (disksize c <=? blockno b) "iderw: block out of range" ;;;
  (if negb (Z.land (flags b) B_DIRTY =? 0) then
     bmod i (set_flags (Z.land (flags b) (Z.lnot B_DIRTY))) ;;;
     modify (disk_write (blockno b) (data b))
   else
     bmod i (set_data (memdisk c (blockno b)))) ;;;
  f <- gets (fun c => flags (buf_at c i)) ;;
  bmod i (set_flags (Z.lor f B_VALID)).

(** ** bio.c *)

Definition binit_one (b : Z) : ST bcache unit :=
  n <- gets (fun c => next (buf_at c HEAD)) ;;
  bmod b (set_next n) ;;;
  bmod b (set_prev HEAD) ;;;
  bmod b (set_lock initsleeplock) ;;;
  bmod n (set_prev b) ;;;
  bmod HEAD (set_next b).

Definition binit : ST bcache unit :=
  bmod HEAD (set_prev HEAD) ;;;
  bmod HEAD (set_next HEAD) ;;;
  forM (Z.to_nat NBUF) 0 binit_one.

(** The two loops of [bget]; [fuel] bounds the nodes visited. *)
Fixpoint find_cached (fuel : nat) (dev' blockno' b : Z) : ST bcache (option Z) :=
  match fuel with
  | O => nofuel
  | S fuel =>
      if b =? HEAD then ret None else
      x <- gets (fun c => buf_at c b) ;;
      if (dev x =? dev') && (blockno x =? blockno') then ret (Some b)
      else find_cached fuel dev' blockno' (next x)
  end.

Fixpoint find_unused (fuel : nat) (b : Z) : ST bcache (option Z) :=
  match fuel with
  | O => nofuel
  | S fuel =>
      if b =? HEAD then ret None else
      x <- gets (fun c => buf_at c b) ;;
      if (refcnt x =? 0) && (Z.land (flags x) B_DIRTY =? 0) then ret (Some b)
      else find_unused fuel (prev x)
  end.

(** [acquiresleep(&b->lock)]. *)
Definition buf_acquire (b : Z) : ST bcache unit :=
  c <- get ;;
  match acquiresleep (bpid c) (lock (buf_at c b)) with
  | Ok lk => bmod b (set_lock lk)
  | _ => sleep_on "buffer"
  end.

Definition LIST_FUEL : nat := S (Z.to_nat NBUF).

Definition bget (dev' blockno' : Z) : ST bcache Z :=
  h <- gets (fun c => buf_at c HEAD) ;;
  r <- find_cached LIST_FUEL dev' blockno' (next h) ;;
  match r with
  | Some b =>
      x <- gets (fun c => buf_at c b) ;;
      bmod b (set_refcnt (u32 (refcnt x + 1))) ;;;
      buf_acquire b ;;;
      ret b
  | None =>
      r <- find_unused LIST_FUEL (prev h) ;;
      match r with
      | Some b =>
          bmod b (set_block dev' blockno') ;;;
          bmod b (set_flags 0) ;;;
          bmod b (set_refcnt 1) ;;;
          buf_acquire b ;;;
          ret b
      | None => panic "bget: no buffers"
      end
  end.

Definition bio_bread (dev' blockno' : Z) : ST bcache Z :=
  b <- bget dev' blockno' ;;
  x <- gets (fun c => buf_at c b) ;;
  when (Z.land (flags x) B_VALID =? 0) (iderw b) ;;;
  ret b.

Definition bio_bwrite (b : Z) : ST bcache unit :=
  c <- get ;;
  let x := buf_at c b in
  panic_if (negb (holdingsleep (bpid c) (lock x))) "bwrite" ;;;
  bmod b (set_flags (Z.lor (flags x) B_DIRTY)) ;;;
  iderw b.

(** The pointer assignments of [brelse]; each reads the current pointers. *)
Definition move_to_front (b : Z) : ST bcache unit :=
  x <- gets (fun c => buf_at c b) ;;
  bmod (next x) (set_prev (prev x)) ;;;
  x <- gets (fun c => buf_at c b) ;;
  bmod (prev x) (set_next (next x)) ;;;
  h <- gets (fun c => buf_at c HEAD) ;;
  bmod b (set_next (next h)) ;;;
  bmod b (set_prev HEAD) ;;;
  h <- gets (fun c => buf_at c HEAD) ;;
  bmod (next h) (set_prev b) ;;;
  bmod HEAD (set_next b).

Definition bio_brelse (b : Z) : ST bcache unit :=
  c <- get ;;
  let x := buf_at c b in
  panic_if (negb (holdingsleep (bpid c) (lock x))) "brelse" ;;;
  bmod b (set_lock (releasesleep (lock x))) ;;;
  bmod b (set_refcnt (u32 (refcnt x - 1))) ;;;
  x <- gets (fun c => buf_at c b) ;;
  when (refcnt x =? 0) (move_to_front b).

#[export] Instance bio_cache : BufCache bcache := {
  bread := bio_bread;
  bdata b c := data (buf_at c b);
  bblock b c := blockno (buf_at c b);
  bset b d := bmod b (set_data d);
  bpin b := x <- gets (fun c => buf_at c b) ;; bmod b (set_flags (Z.lor (flags x) B_DIRTY));
  bwrite := bio_bwrite;
  brelse := bio_brelse;
}.

Arguments setbuf : simpl never.
Arguments buf_at : simpl never.
Arguments u32 : simpl never.

(** ** The list of buffers *)

Definition nxf (c : bcache) (i : Z) : Z := next (buf_at c i).
Definition pvf (c : bcache) (i : Z) : Z := prev (buf_at c i).

(** [order] is the list of all the buffers, most recently used first. *)
Record lru (c : bcache) (order : list Z) : Prop := {
  lru_nodup : NoDup order;
  lru_all : forall i, i ∈ order <-> 0 <= i < NBUF;
  lru_linked : linked (nxf c) (pvf c) HEAD order HEAD;
}.

Definition sized (c : bcache) : Prop := lenZ (bufs c) = NBUF + 1.

Lemma sized_setbuf i f c : sized c -> sized (setbuf i f c).
Proof. unfold sized, setbuf. cbn. by rewrite upd_lenZ. Qed.
#[export] Hint Resolve sized_setbuf : xv6.

Lemma buf_at_setbuf i f c j :
  sized c -> 0 <= i <= NBUF -> 0 <= j ->
  buf_at (setbuf i f c) j = if i =? j then f (buf_at c i) else buf_at c j.
Proof. unfold sized. intros. unfold buf_at at 1, setbuf. cbn.
  rewrite rd_upd by lia. done. Qed.

Lemma buf_at_setbuf_eq i f c :
  sized c -> 0 <= i <= NBUF -> buf_at (setbuf i f c) i = f (buf_at c i).
Proof. intros. rewrite buf_at_setbuf, Z.eqb_refl by side. done. Qed.

Lemma setbuf_setbuf i f g c :
  sized c -> 0 <= i <= NBUF ->
  setbuf i f (setbuf i g c) = setbuf i (fun x => f (g x)) c.
Proof.
  intros. unfold setbuf at 1. rewrite buf_at_setbuf_eq by done. unfold setbuf. cbn.
  unfold upd. by rewrite list_insert_insert_eq.
Qed.

Lemma nxf_set_next i v c j :
  sized c -> 0 <= i <= NBUF -> 0 <= j -> nxf (setbuf i (set_next v) c) j = fset (nxf c) i v j.
Proof.
  intros. unfold nxf, fset. rewrite buf_at_setbuf, (Z.eqb_sym j i) by side. by case_test.
Qed.
Lemma pvf_set_prev i v c j :
  sized c -> 0 <= i <= NBUF -> 0 <= j -> pvf (setbuf i (set_prev v) c) j = fset (pvf c) i v j.
Proof.
  intros. unfold pvf, fset. rewrite buf_at_setbuf, (Z.eqb_sym j i) by side. by case_test.
Qed.
Lemma nxf_setbuf i f c j :
  sized c -> 0 <= i <= NBUF -> 0 <= j -> (forall x, next (f x) = next x) ->
  nxf (setbuf i f c) j = nxf c j.
Proof.
  intros ? ? ? Hf. unfold nxf. rewrite buf_at_setbuf by side.
  case_test; subst; by rewrite ?Hf.
Qed.
Lemma pvf_setbuf i f c j :
  sized c -> 0 <= i <= NBUF -> 0 <= j -> (forall x, prev (f x) = prev x) ->
  pvf (setbuf i f c) j = pvf c j.
Proof.
  intros ? ? ? Hf. unfold pvf. rewrite buf_at_setbuf by side.
  case_test; subst; by rewrite ?Hf.
Qed.

(** The links depend on the [next] and [prev] fields only. *)
Lemma linked_nodes (nx pv nx' pv' : Z -> Z) l :
  (forall i, i ∈ l -> 0 <= i <= NBUF) ->
  (forall i, 0 <= i <= NBUF -> nx' i = nx i) -> (forall i, 0 <= i <= NBUF -> pv' i = pv i) ->
  linked nx pv HEAD l HEAD -> linked nx' pv' HEAD l HEAD.
Proof.
  intros Hl Hn Hp. assert (0 <= HEAD <= NBUF) by (unfold HEAD, NBUF, MAXOPBLOCKS; lia).
  apply linked_ext; intros i Hi.
  - apply Hn. apply elem_of_cons in Hi as [->|Hi]; auto.
  - apply Hp. apply elem_of_app in Hi as [Hi|Hi]; auto.
    apply list_elem_of_singleton in Hi as ->. done.
Qed.

(** ** The scans of [bget] *)

Lemma find_cached_spec d n c fuel x l :
  linked (nxf c) (pvf c) x l HEAD -> HEAD ∉ l -> (length l < fuel)%nat ->
  wp (find_cached fuel d n (nxf c x)) c (fun r c' => c' = c /\
    match r with
    | Some b => b ∈ l /\ dev (buf_at c b) = d /\ blockno (buf_at c b) = n
    | None => forall b, b ∈ l -> ~ (dev (buf_at c b) = d /\ blockno (buf_at c b) = n)
    end).
Proof.
  revert x fuel. induction l as [|y l IH]; intros x [|fuel] Hl Hh Hf; cbn in Hf; try lia;
    cbn in Hl |- *.
  - destruct Hl as [-> _]. split; [done|]. intros b Hb. by apply not_elem_of_nil in Hb.
  - destruct Hl as (-> & _ & Hl). apply not_elem_of_cons in Hh as [Hy Hh].
    rewrite (proj2 (Z.eqb_neq _ _)) by congruence. wp_steps.
    case_test; [apply wp_ret; split_and!; try done; apply list_elem_of_here|..].
    all: eapply wp_mono; [apply (IH y fuel Hl Hh); lia|]; intros [b|] c' [-> Hr];
      (split; [done|]).
    1, 3: destruct Hr; split; [by apply list_elem_of_further|done].
    all: intros b [->|Hb]%elem_of_cons; [tauto | by apply Hr].
Qed.

(** A buffer that may be recycled. *)
Definition unused (c : bcache) (b : Z) : Prop :=
  refcnt (buf_at c b) = 0 /\ Z.land (flags (buf_at c b)) B_DIRTY = 0.

Lemma find_unused_spec c fuel x l :
  linked (pvf c) (nxf c) x l HEAD -> HEAD ∉ l -> (length l < fuel)%nat ->
  wp (find_unused fuel (pvf c x)) c (fun r c' => c' = c /\
    match r with
    | Some b => unused c b /\
        exists l1 l2, l = l1 ++ b :: l2 /\ forall j, j ∈ l1 -> ~ unused c j
    | None => forall j, j ∈ l -> ~ unused c j
    end).
Proof.
  revert x fuel. induction l as [|y l IH]; intros x [|fuel] Hl Hh Hf; cbn in Hf; try lia;
    cbn in Hl |- *.
  - destruct Hl as [-> _]. split; [done|]. intros b Hb. by apply not_elem_of_nil in Hb.
  - destruct Hl as (-> & _ & Hl). apply not_elem_of_cons in Hh as [Hy Hh].
    rewrite (proj2 (Z.eqb_neq _ _)) by congruence. wp_steps. case_test.
    { apply wp_ret. split_and!; try done. exists [], l. split; [done|].
      intros j Hj. by apply not_elem_of_nil in Hj. }
    all: assert (Hyu : ~ unused c y) by (unfold unused; tauto).
    all: eapply wp_mono; [apply (IH y fuel Hl Hh); lia|]; intros [b|] c' [-> Hr];
      (split; [done|]).
    all: try (intros j [->|Hj]%elem_of_cons; [done | by apply Hr]).
    all: destruct Hr as (Hu & l1 & l2 & -> & Hl1); split; [done|];
      exists (y :: l1), l2; split; [done|]; intros j [->|Hj]%elem_of_cons; auto.
Qed.

(** ** Representation of the abstract store *)

(** Buffer [i], with contents [x], in the store [A]: it caches a block of
    disk 1, or it has not been used since boot. *)
Definition buf_ok (A : astore) (pid i : Z) (x : buf) : Prop :=
  refcnt x = (if sl_locked (lock x) then 1 else 0) /\
  ((dev x = ROOTDEV /\ 0 <= blockno x < asize A /\
    flags x = (if bool_decide (blockno x ∈ adirty A) then 6 else 2) /\
    data x = av A (blockno x) /\
    aheld A !! i = (if sl_locked (lock x) then Some (blockno x) else None) /\
    (sl_locked (lock x) = true -> sl_pid (lock x) = pid))
   \/ (dev x = 0 /\ flags x = 0 /\ sl_locked (lock x) = false /\ aheld A !! i = None)).

Record brep (c : bcache) (A : astore) : Prop := {
  br_len : sized c;
  br_lru : exists order, lru c order;
  br_buf : forall i, 0 <= i < NBUF -> buf_ok A (bpid c) i (buf_at c i);
  br_uniq : forall i j, 0 <= i < NBUF -> 0 <= j < NBUF ->
    dev (buf_at c i) = ROOTDEV -> dev (buf_at c j) = ROOTDEV ->
    blockno (buf_at c i) = blockno (buf_at c j) -> i = j;
  br_dirty : forall b, b ∈ adirty A ->
    exists i, 0 <= i < NBUF /\ dev (buf_at c i) = ROOTDEV /\ blockno (buf_at c i) = b;
  br_held : forall h b, aheld A !! h = Some b -> 0 <= h < NBUF;
  br_wf : astore_wf A;
  br_disk : forall b, memdisk c b = ad A b;
  br_size : disksize c = asize A;
  br_trace : dtrace c = atrace A;
}.

Lemma buf_ok_frame A A' pid i x :
  asize A' = asize A ->
  (dev x = ROOTDEV -> av A' (blockno x) = av A (blockno x)) ->
  (dev x = ROOTDEV -> blockno x ∈ adirty A' <-> blockno x ∈ adirty A) ->
  aheld A' !! i = aheld A !! i -> buf_ok A pid i x -> buf_ok A' pid i x.
Proof.
  intros Hs Hv Hd Hh [Hr [(H1 & H2 & H3 & H4 & H5 & H6)|H]]; (split; [done|]).
  - left. rewrite Hs, Hv, Hh by done. split_and!; try done; try lia.
    rewrite H3. by rewrite (bool_decide_ext _ _ (Hd H1)).
  - right. by rewrite Hh.
Qed.

Lemma lru_step c c' i x' order :
  sized c -> 0 <= i < NBUF -> bufs c' = upd (bufs c) i x' ->
  next x' = next (buf_at c i) -> prev x' = prev (buf_at c i) -> lru c order -> lru c' order.
Proof.
  intros Hlen Hi Hb Hn Hp [H1 H2 H3].
  assert (Hat : forall j, 0 <= j -> buf_at c' j = if i =? j then x' else buf_at c j).
  { intros j Hj. unfold buf_at. rewrite Hb. apply rd_upd; [|done].
    unfold sized in Hlen. lia. }
  split; [done..|]. eapply linked_nodes; [..|exact H3].
  - intros j Hj%H2. lia.
  - intros j Hj. unfold nxf. rewrite Hat by lia. case_test; [by subst|done].
  - intros j Hj. unfold pvf. rewrite Hat by lia. case_test; [by subst|done].
Qed.

(** Buffer [i] is given new contents that cache block [b]; the store changes
    at block [b] and at handle [i] only. *)
Lemma brep_step c c' A A' i x' :
  brep c A -> 0 <= i < NBUF -> bufs c' = upd (bufs c) i x' ->
  next x' = next (buf_at c i) -> prev x' = prev (buf_at c i) -> dev x' = ROOTDEV ->
  bpid c' = bpid c -> disksize c' = disksize c ->
  (forall b, memdisk c' b = ad A' b) -> dtrace c' = atrace A' -> asize A' = asize A ->
  (forall j, 0 <= j < NBUF -> j <> i -> dev (buf_at c j) = ROOTDEV ->
     blockno (buf_at c j) <> blockno x') ->
  (dev (buf_at c i) = ROOTDEV -> blockno (buf_at c i) ∈ adirty A ->
     blockno (buf_at c i) = blockno x') ->
  (forall b, b <> blockno x' -> av A' b = av A b) ->
  (forall b, b <> blockno x' -> b ∈ adirty A' <-> b ∈ adirty A) ->
  (forall h, h <> i -> aheld A' !! h = aheld A !! h) ->
  buf_ok A' (bpid c) i x' -> astore_wf A' -> brep c' A'.
Proof.
  intros [Hlen [order Hlru] Hbuf Huniq Hdirty Hheld Hwf Hdisk Hsize Htr] Hi Hb Hn Hp Hd Hpid
    Hds Hmd Hdt Has Hoth Hold Hv Hdi Hh Hok Hwf'.
  assert (Hat : forall j, 0 <= j -> buf_at c' j = if i =? j then x' else buf_at c j).
  { intros j Hj. unfold buf_at. rewrite Hb. apply rd_upd; [|done].
    unfold sized in Hlen. lia. }
  split; try done.
  - unfold sized. by rewrite Hb, upd_lenZ.
  - exists order. by eapply lru_step.
  - intros j Hj. rewrite Hpid, Hat by lia. case_test; [by subst|].
    apply (buf_ok_frame A); auto.
  - intros j k Hj Hk. rewrite !Hat by lia. repeat case_test; subst; auto.
    + intros _ H1 H2. exfalso. by apply (Hoth k).
    + intros H1 _ H2. exfalso. by apply (Hoth j).
  - intros b Hb'. destruct (decide (b = blockno x')) as [->|Hne].
    + exists i. rewrite Hat, Z.eqb_refl by lia. done.
    + apply Hdi in Hb'; [|done]. destruct (Hdirty b Hb') as (j & Hj & Hjd & Hjb).
      exists j. rewrite Hat by lia. case_test; [|done]. subst j b. exfalso. auto.
  - intros h b. destruct (decide (h = i)) as [->|Hne]; [done|]. rewrite Hh by done.
    apply Hheld.
  - congruence.
Qed.

(** A handle of a held block. *)
Lemma brep_handle c A h b :
  brep c A -> aheld A !! h = Some b ->
  0 <= h < NBUF /\ dev (buf_at c h) = ROOTDEV /\ blockno (buf_at c h) = b /\
  lock (buf_at c h) = mkSleeplock true (bpid c) /\ refcnt (buf_at c h) = 1 /\
  data (buf_at c h) = av A b /\
  flags (buf_at c h) = (if bool_decide (b ∈ adirty A) then 6 else 2) /\ 0 <= b < asize A.
Proof.
  intros Hrep Hh. pose proof (br_held _ _ Hrep _ _ Hh) as Hr.
  destruct (br_buf _ _ Hrep h Hr) as [Hc [(H1 & H2 & H3 & H4 & H5 & H6)|H]];
    [|destruct H as (_ & _ & _ & H); congruence].
  destruct (lock (buf_at c h)) as [[] pid']; cbn in *; rewrite Hh in H5; [|done].
  injection H5 as H5. subst b. rewrite H6 by done. split_and!; (done || lia).
Qed.

Lemma brep_other c A h b j :
  brep c A -> aheld A !! h = Some b -> 0 <= j < NBUF -> j <> h ->
  dev (buf_at c j) = ROOTDEV -> blockno (buf_at c j) <> b.
Proof.
  intros Hrep Hh Hj Hne Hd E. destruct (brep_handle _ _ _ _ Hrep Hh) as (H1 & H2 & H3 & _).
  apply Hne, (br_uniq _ _ Hrep); try done. congruence.
Qed.

(** ** The operations on a held buffer *)

Lemma bufs_setbuf i f c : bufs (setbuf i f c) = upd (bufs c) i (f (buf_at c i)).
Proof. done. Qed.

Lemma bio_law_bset c A h b d :
  brep c A -> aheld A !! h = Some b -> wf_block d ->
  wp (bset h d) c (fun _ c' => brep c' (a_set A b d)).
Proof.
  intros Hrep Hh Hd. cbn. apply wp_modify.
  destruct (brep_handle _ _ _ _ Hrep Hh) as (Hr & Hdev & Hb & Hl & Hc & _ & Hf & Hbr).
  eapply (brep_step c _ A _ h); try apply bufs_setbuf; cbn; try done; rewrite ?Hb.
  - apply (br_disk _ _ Hrep).
  - apply (br_trace _ _ Hrep).
  - intros j Hj Hne Hjd. by apply (brep_other _ _ _ _ _ Hrep Hh).
  - intros x Hx. by apply fupd_ne.
  - split; cbn; rewrite Hl; [done|]. left. rewrite Hb. cbn. rewrite fupd_eq.
    split_and!; try done; lia.
  - by apply (wf_set _ h); [apply (br_wf _ _ Hrep)|..].
Qed.

Lemma bio_law_bpin c A h b :
  brep c A -> aheld A !! h = Some b -> wp (bpin h) c (fun _ c' => brep c' (a_pin A b)).
Proof.
  intros Hrep Hh. cbn. wp_steps. apply wp_modify.
  destruct (brep_handle _ _ _ _ Hrep Hh) as (Hr & Hdev & Hb & Hl & Hc & Hd & Hf & Hbr).
  eapply (brep_step c _ A _ h); try apply bufs_setbuf; cbn; try done; rewrite ?Hb.
  - apply (br_disk _ _ Hrep).
  - apply (br_trace _ _ Hrep).
  - intros j Hj Hne Hjd. by apply (brep_other _ _ _ _ _ Hrep Hh).
  - intros x Hx. rewrite elem_of_union, elem_of_singleton. tauto.
  - split; cbn; rewrite Hl; [done|]. left. rewrite Hb, Hf. cbn. split_and!; try done; try lia.
    rewrite (bool_decide_eq_true_2 (b ∈ _ ∪ _)) by set_solver. by case_bool_decide.
  - by apply (wf_pin _ h); [apply (br_wf _ _ Hrep)|..].
Qed.

Lemma disksize_setbuf i f c : disksize (setbuf i f c) = disksize c.
Proof. done. Qed.
Lemma buf_at_disk_write b d c i : buf_at (disk_write b d c) i = buf_at c i.
Proof. done. Qed.

(** [iderw] on a buffer the process holds. *)
Lemma iderw_write c h b :
  sized c -> 0 <= h < NBUF -> lock (buf_at c h) = mkSleeplock true (bpid c) ->
  dev (buf_at c h) = 1 -> blockno (buf_at c h) = b -> b < disksize c ->
  flags (buf_at c h) = 6 ->
  wp (iderw h) c (fun _ c' =>
    c' = disk_write b (data (buf_at c h)) (setbuf h (set_flags 2) c)).
Proof.
  intros Hlen Hh Hl Hd Hb Hlt Hf. unfold iderw, bmod. wp_steps.
  - rewrite Hl. unfold holdingsleep. cbn. by rewrite Z.eqb_refl.
  - by rewrite Hf.
  - by rewrite Hd.
  - apply Z.leb_gt. lia.
  - rewrite Hf, Hb. change (Z.land 6 B_DIRTY) with 4. change (Z.land 6 (Z.lnot B_DIRTY)) with 2.
    cbn [Z.eqb negb]. wp_steps.
    rewrite buf_at_disk_write, buf_at_setbuf_eq by side. cbn.
    change (disk_write b (data (buf_at c h)) (setbuf h (set_flags 2) (setbuf h (set_flags 2) c))
      = disk_write b (data (buf_at c h)) (setbuf h (set_flags 2) c)).
    by rewrite setbuf_setbuf by side.
Qed.

Lemma iderw_read c h b :
  sized c -> 0 <= h < NBUF -> lock (buf_at c h) = mkSleeplock true (bpid c) ->
  dev (buf_at c h) = 1 -> blockno (buf_at c h) = b -> b < disksize c ->
  flags (buf_at c h) = 0 ->
  wp (iderw h) c (fun _ c' =>
    c' = setbuf h (fun x => set_flags 2 (set_data (memdisk c b) x)) c).
Proof.
  intros Hlen Hh Hl Hd Hb Hlt Hf. unfold iderw, bmod. wp_steps.
  - rewrite Hl. unfold holdingsleep. cbn. by rewrite Z.eqb_refl.
  - by rewrite Hf.
  - by rewrite Hd.
  - apply Z.leb_gt. lia.
  - rewrite Hf, Hb. change (Z.land 0 B_DIRTY) with 0. cbn [Z.eqb negb]. wp_steps.
    rewrite buf_at_setbuf_eq by side. cbn. rewrite Hf. cbn.
    by rewrite setbuf_setbuf by side.
Qed.

Lemma bio_law_bwrite c A h b :
  brep c A -> aheld A !! h = Some b -> wp (bwrite h) c (fun _ c' => brep c' (a_write A b)).
Proof.
  intros Hrep Hh. cbn. unfold bio_bwrite.
  destruct (brep_handle _ _ _ _ Hrep Hh) as (Hr & Hdev & Hb & Hl & Hc & Hd & Hf & Hbr).
  pose proof (br_len _ _ Hrep) as Hlen. wp_steps.
  { rewrite Hl. unfold holdingsleep. cbn. by rewrite Z.eqb_refl. }
  apply wp_modify. replace (Z.lor (flags (buf_at c h)) B_DIRTY) with 6
    by (rewrite Hf; by case_bool_decide).
  eapply wp_mono; [apply (iderw_write _ h b)|];
    rewrite ?buf_at_setbuf_eq, ?disksize_setbuf, ?(br_size _ _ Hrep); try side.
  intros [] c' ->. rewrite setbuf_setbuf by side. cbn. rewrite Hd.
  eapply (brep_step c _ A _ h (set_flags 2 (buf_at c h))); cbn; try done; rewrite ?Hb.
  - intros x. unfold fupd. case_test; [done|]. apply (br_disk _ _ Hrep).
  - f_equal. apply (br_trace _ _ Hrep).
  - intros j Hj Hne Hjd. by apply (brep_other _ _ _ _ _ Hrep Hh).
  - intros x Hx. rewrite elem_of_difference, elem_of_singleton. tauto.
  - split; cbn; rewrite Hl; [done|]. left. rewrite Hb, Hd. cbn. split_and!; try done; try lia.
    rewrite (bool_decide_eq_false_2 (b ∈ _ ∖ _)) by set_solver. done.
  - by apply (wf_write _ h); [apply (br_wf _ _ Hrep)|..].
Qed.

(** ** [bread] *)

Lemma HEAD_NBUF : HEAD = 30 /\ NBUF = 30.
Proof. done. Qed.

Lemma lru_perm c order : lru c order -> order ≡ₚ seqZ 0 NBUF.
Proof.
  intros [Hnd Hall _]. apply NoDup_Permutation; [done|apply NoDup_seqZ|].
  intros i. rewrite Hall, elem_of_seqZ. lia.
Qed.

Lemma lru_facts c order : lru c order -> length order = 30%nat /\ HEAD ∉ order.
Proof.
  intros Hlru. split.
  - by rewrite (lru_perm _ _ Hlru), length_seqZ.
  - rewrite (lru_all _ _ Hlru). destruct HEAD_NBUF. lia.
Qed.

(** An injection of a list into a finite set. *)
Lemma length_le_size {A} (f : A -> Z) (l : list A) (X : gset Z) :
  NoDup l -> (forall x y, x ∈ l -> y ∈ l -> f x = f y -> x = y) ->
  (forall x, x ∈ l -> f x ∈ X) -> (length l <= size X)%nat.
Proof.
  intros Hnd Hinj HX. rewrite <- (length_fmap f).
  rewrite <- (size_list_to_set (C := gset Z)) by (by apply NoDup_fmap_2_strong).
  apply subseteq_size. intros y Hy. apply elem_of_list_to_set, list_elem_of_fmap in Hy.
  destruct Hy as (x & -> & Hx). auto.
Qed.

(** If no buffer can be recycled, every buffer is held or pinned. *)
Lemma no_unused_full c A :
  brep c A ->
  (forall i, 0 <= i < NBUF -> ~ (refcnt (buf_at c i) = 0 /\
     Z.land (flags (buf_at c i)) B_DIRTY = 0)) ->
  NBUF <= Z.of_nat (size (aheld A)) + Z.of_nat (size (adirty A)).
Proof.
  intros Hrep Hfull. set (P := fun i => sl_locked (lock (buf_at c i)) = true).
  pose proof (filter_app_complement P (seqZ 0 NBUF)) as Hsplit.
  apply Permutation_length in Hsplit. rewrite length_app, length_seqZ in Hsplit.
  assert (H1 : (length (filter P (seqZ 0 NBUF)) <= size (dom (aheld A)))%nat).
  { apply (length_le_size id); [apply NoDup_filter, NoDup_seqZ | auto |].
    intros i [HP Hi%elem_of_seqZ]%list_elem_of_filter. apply elem_of_dom.
    destruct (br_buf _ _ Hrep i ltac:(lia)) as [_ [(_ & _ & _ & _ & Hh & _)|(_ & _ & Hh & _)]].
    - rewrite HP in Hh. eauto.
    - unfold P in HP. congruence. }
  assert (H2 : (length (filter (fun i => ~ P i) (seqZ 0 NBUF)) <= size (adirty A))%nat).
  { assert (Hd : forall i, i ∈ filter (fun i => ~ P i) (seqZ 0 NBUF) -> 0 <= i < NBUF /\
      dev (buf_at c i) = ROOTDEV /\ blockno (buf_at c i) ∈ adirty A).
    { intros i [HP Hi%elem_of_seqZ]%list_elem_of_filter. split; [lia|].
      apply not_true_is_false in HP. specialize (Hfull i ltac:(lia)).
      destruct (br_buf _ _ Hrep i ltac:(lia)) as [Hr Hc]. rewrite HP in Hr.
      destruct Hc as [(Hd & _ & Hf & _)|(_ & Hf & _)].
      - split; [done|]. case_bool_decide; [done|]. exfalso. apply Hfull. by rewrite Hf.
      - exfalso. apply Hfull. by rewrite Hf. }
    apply (length_le_size (fun i => blockno (buf_at c i)));
      [apply NoDup_filter, NoDup_seqZ | | intros i Hi; by apply Hd].
    intros i j (Hi1 & Hi2 & _)%Hd (Hj1 & Hj2 & _)%Hd. by apply (br_uniq _ _ Hrep). }
  rewrite size_dom in H1. destruct HEAD_NBUF as [_ E]. rewrite E in *. lia.
Qed.

(** Buffer [i] is handed out locked, caching block [b]. *)
Lemma brep_got c c' A i b x' :
  brep c A -> 0 <= i < NBUF -> 0 <= b < asize A -> ~ held A b ->
  bufs c' = upd (bufs c) i x' ->
  bpid c' = bpid c -> disksize c' = disksize c -> memdisk c' = memdisk c ->
  dtrace c' = dtrace c -> next x' = next (buf_at c i) -> prev x' = prev (buf_at c i) ->
  sl_locked (lock (buf_at c i)) = false ->
  (dev (buf_at c i) = ROOTDEV -> blockno (buf_at c i) ∈ adirty A -> blockno (buf_at c i) = b) ->
  (forall j, 0 <= j < NBUF -> j <> i -> dev (buf_at c j) = ROOTDEV ->
     blockno (buf_at c j) <> b) ->
  dev x' = ROOTDEV -> blockno x' = b -> lock x' = mkSleeplock true (bpid c) -> refcnt x' = 1 ->
  flags x' = (if bool_decide (b ∈ adirty A) then 6 else 2) -> data x' = av A b ->
  aheld A !! i = None /\ brep c' (a_hold A i b) /\ (forall order, lru c order -> lru c' order).
Proof.
  intros Hrep Hi Hb Hnh Hbufs E1 E2 E3 E4 En Ep Hul Hold Hoth Hd Hbn Hl Hr Hf Hdat.
  assert (Hnone : aheld A !! i = None).
  { destruct (br_buf _ _ Hrep i Hi) as [_ [(_ & _ & _ & _ & H & _)|(_ & _ & _ & H)]]; [|done].
    by rewrite Hul in H. }
  split_and!; [done| |].
  2: { intros order. by apply (lru_step c c' i x'); [apply (br_len _ _ Hrep)|..]. }
  eapply (brep_step c _ A _ i x'); cbn; try done; rewrite ?Hbn; try done.
  - intros x. rewrite E3. apply (br_disk _ _ Hrep).
  - rewrite E4. apply (br_trace _ _ Hrep).
  - intros h Hne. by apply lookup_insert_ne.
  - split; rewrite Hl; [done|]. left. rewrite Hbn. cbn. rewrite lookup_insert_eq.
    split_and!; try done; lia.
  - apply wf_hold; try done. apply (br_wf _ _ Hrep).
Qed.

Lemma bread_cached c A i b :
  brep c A -> 0 <= i < NBUF -> dev (buf_at c i) = ROOTDEV -> blockno (buf_at c i) = b ->
  ~ held A b ->
  wp (x <- gets (fun c => buf_at c i) ;;
      bmod i (set_refcnt (u32 (refcnt x + 1))) ;;; buf_acquire i ;;; ret i) c
     (fun h c' => (h = i /\ Z.land (flags (buf_at c' i)) B_VALID <> 0) /\
        aheld A !! i = None /\ brep c' (a_hold A i b) /\
        (forall order, lru c order -> lru c' order)).
Proof.
  intros Hrep Hi Hd Hb Hnh. pose proof (br_len _ _ Hrep) as Hlen.
  destruct (br_buf _ _ Hrep i Hi) as [Hr [(_ & Hbr & Hf & Hdat & Hh & Hpid)|H]];
    [|destruct H as (H & _); rewrite Hd in H; done].
  destruct (sl_locked (lock (buf_at c i))) eqn:Hul.
  { exfalso. apply Hnh. exists i. by rewrite <- Hb. }
  wp_steps. unfold bmod at 1. wp_steps. unfold buf_acquire. wp_steps.
  rewrite buf_at_setbuf_eq by side. cbn. unfold acquiresleep. rewrite Hul. unfold bmod. wp_steps.
  rewrite setbuf_setbuf by side. split.
  { split; [done|]. rewrite buf_at_setbuf_eq by side. cbn. rewrite Hf. by case_bool_decide. }
  eapply (brep_got c _ A i b); try apply bufs_setbuf; cbn; try done; try congruence.
  - intros j Hj Hne Hjd Hjb. apply Hne, (br_uniq _ _ Hrep); try done. congruence.
  - rewrite Hr. done.
  - by rewrite <- Hb.
Qed.

Lemma bread_recycled c A i b :
  brep c A -> 0 <= i < NBUF -> 0 <= b < asize A -> ~ held A b ->
  refcnt (buf_at c i) = 0 -> Z.land (flags (buf_at c i)) B_DIRTY = 0 ->
  (forall j, 0 <= j < NBUF -> ~ (dev (buf_at c j) = ROOTDEV /\ blockno (buf_at c j) = b)) ->
  wp (bmod i (set_block ROOTDEV b) ;;; bmod i (set_flags 0) ;;; bmod i (set_refcnt 1) ;;;
      buf_acquire i ;;; ret i) c
     (fun h c1 => h = i /\ flags (buf_at c1 i) = 0 /\
        wp (iderw i) c1 (fun _ c' => aheld A !! i = None /\ brep c' (a_hold A i b) /\
          (forall order, lru c order -> lru c' order))).
Proof.
  intros Hrep Hi Hbr Hnh Hr Hclean Hunc. pose proof (br_len _ _ Hrep) as Hlen.
  assert (Hul : sl_locked (lock (buf_at c i)) = false).
  { destruct (br_buf _ _ Hrep i Hi) as [Hr' _]. by destruct (sl_locked _); [congruence|]. }
  assert (Hnd : b ∉ adirty A).
  { intros (j & Hj & Hjb)%(br_dirty _ _ Hrep). by apply (Hunc j). }
  assert (Hold : dev (buf_at c i) = ROOTDEV -> blockno (buf_at c i) ∉ adirty A).
  { intros Hd Hin. destruct (br_buf _ _ Hrep i Hi) as [_ [(_ & _ & Hf & _)|(H & _)]];
      [|rewrite Hd in H; done].
    rewrite bool_decide_eq_true_2 in Hf by done. by rewrite Hf in Hclean. }
  unfold bmod. wp_steps. rewrite !setbuf_setbuf by side.
  unfold buf_acquire. wp_steps. rewrite buf_at_setbuf_eq by side. cbn.
  unfold acquiresleep. rewrite Hul. unfold bmod. wp_steps. rewrite !setbuf_setbuf by side.
  split_and!; [done | by rewrite buf_at_setbuf_eq by side |].
  eapply wp_mono; [eapply (iderw_read _ i b)|]; rewrite ?buf_at_setbuf_eq by side;
    rewrite ?disksize_setbuf, ?(br_size _ _ Hrep); try side.
  intros [] c' ->. rewrite setbuf_setbuf by side.
  eapply (brep_got c _ A i b); try apply bufs_setbuf; cbn; try done.
  - intros Hd Hin. by destruct Hold.
  - intros j Hj _ Hjd Hjb. by apply (Hunc j).
  - by rewrite bool_decide_eq_false_2.
  - change (memdisk c b = av A b). rewrite (br_disk _ _ Hrep).
    symmetry. by apply (aw_clean _ (br_wf _ _ Hrep)).
Qed.

(** No buffer caches block [b]. *)
Definition uncached (c : bcache) (b : Z) : Prop :=
  forall j, 0 <= j < NBUF -> ~ (dev (buf_at c j) = ROOTDEV /\ blockno (buf_at c j) = b).

Lemma bio_bread_spec c A b order :
  brep c A -> 0 <= b < asize A -> ~ held A b -> room A b -> lru c order ->
  wp (bio_bread ROOTDEV b) c (fun h c' =>
    (aheld A !! h = None /\ brep c' (a_hold A h b) /\ lru c' order) /\
    (uncached c b -> unused c h /\
       exists l1 l2, order = l1 ++ h :: l2 /\ forall j, j ∈ l2 -> ~ unused c j)).
Proof.
  intros Hrep Hbr Hnh Hroom Hlru.
  destruct (lru_facts _ _ Hlru) as [Hlen Hhead]. pose proof (lru_linked _ _ Hlru) as Hl.
  unfold bio_bread, bget. wp_steps.
  eapply wp_mono; [apply (find_cached_spec _ _ c LIST_FUEL HEAD order Hl Hhead);
    rewrite Hlen; unfold LIST_FUEL; destruct HEAD_NBUF; lia|].
  intros [i|] c' [-> Hr].
  - destruct Hr as (Hi%(lru_all _ _ Hlru) & Hd & Hb).
    eapply wp_mono; [by apply (bread_cached c A i b)|].
    intros h c' ((-> & Hv) & Hnone & Hrep' & Hlru'). wp_steps; [by apply Z.eqb_eq in H|].
    split; [auto|]. intros Hunc. by destruct (Hunc i Hi).
  - assert (Hunc : uncached c b) by (intros j Hj; by apply Hr, (lru_all _ _ Hlru)).
    wp_step. eapply wp_mono; [apply (find_unused_spec c LIST_FUEL HEAD (reverse order))|].
    { by apply (proj1 (linked_rev _ _ _ _ _)). }
    { by rewrite elem_of_reverse. }
    { rewrite length_reverse, Hlen. unfold LIST_FUEL. destruct HEAD_NBUF. lia. }
    intros [i|] c' [-> Hu].
    + destruct Hu as ([Hrc Hfl] & l1 & l2 & E & Hl1).
      assert (Eo : order = reverse l2 ++ i :: reverse l1).
      { rewrite <- (reverse_involutive order), E, reverse_app, reverse_cons, <- app_assoc. done. }
      assert (Hi : 0 <= i < NBUF).
      { apply (lru_all _ _ Hlru). rewrite Eo. set_solver. }
      eapply wp_mono; [by apply (bread_recycled c A i b)|].
      intros h c1 (-> & Hf0 & Hw). wp_steps; [|by rewrite Hf0 in H].
      eapply wp_mono; [exact Hw|]. intros [] c' (H1 & H2 & H3). wp_steps. split; [auto|].
      intros _. split; [done|]. exists (reverse l2), (reverse l1). split; [done|].
      intros j. rewrite elem_of_reverse. apply Hl1.
    + exfalso. destruct Hroom as [Hin|Hlt].
      * apply (br_dirty _ _ Hrep) in Hin as (j & Hj & Hjb). by apply (Hunc j).
      * pose proof (no_unused_full c A Hrep) as Hfull. apply Z.lt_nge in Hlt. apply Hlt, Hfull.
        intros j Hj. apply Hu. by rewrite elem_of_reverse, (lru_all _ _ Hlru).
Qed.

(** ** [brelse] *)

(** Buffers that differ in their links only. *)
Definition same_payload (x y : buf) : Prop :=
  flags x = flags y /\ dev x = dev y /\ blockno x = blockno y /\ lock x = lock y /\
  refcnt x = refcnt y /\ data x = data y.

Definition same_but_links (c c' : bcache) : Prop :=
  sized c' /\ (forall j, 0 <= j <= NBUF -> same_payload (buf_at c' j) (buf_at c j)) /\
  bpid c' = bpid c /\ disksize c' = disksize c /\ memdisk c' = memdisk c /\
  dtrace c' = dtrace c.

Lemma same_refl c : sized c -> same_but_links c c.
Proof. by intros. Qed.

Lemma same_setbuf c c' i f :
  same_but_links c c' -> 0 <= i <= NBUF -> (forall x, same_payload (f x) x) ->
  same_but_links c (setbuf i f c').
Proof.
  intros (Hs & Hp & Hr) Hi Hf. split; [by apply sized_setbuf|]. split; [|done].
  intros j Hj. rewrite buf_at_setbuf by side. case_test; [subst|by apply Hp].
  specialize (Hf (buf_at c' j)). specialize (Hp j Hj).
  unfold same_payload in *. intuition congruence.
Qed.

Lemma same_buf_ok A pid i x y : same_payload x y -> buf_ok A pid i y -> buf_ok A pid i x.
Proof. intros (H1 & H2 & H3 & H4 & H5 & H6). unfold buf_ok. by rewrite H1, H2, H3, H4, H5, H6. Qed.

Lemma brep_links c c' A order :
  brep c A -> same_but_links c c' -> lru c' order -> brep c' A.
Proof.
  intros [Hlen _ Hbuf Huniq Hdirty Hheld Hwf Hdisk Hsize Htr] (Hs & Hp & E1 & E2 & E3 & E4) Hlru.
  assert (Hf : forall j, 0 <= j < NBUF -> dev (buf_at c' j) = dev (buf_at c j) /\
    blockno (buf_at c' j) = blockno (buf_at c j)).
  { intros j Hj. destruct (Hp j ltac:(lia)) as (_ & ? & ? & _). done. }
  split; try done; try congruence.
  - by exists order.
  - intros i Hi. rewrite E1. eapply same_buf_ok; [apply Hp; lia|by apply Hbuf].
  - intros i j Hi Hj. destruct (Hf i Hi) as [-> ->], (Hf j Hj) as [-> ->]. by apply Huniq.
  - intros b Hb. destruct (Hdirty b Hb) as (i & Hi & Hib). exists i.
    destruct (Hf i Hi) as [-> ->]. done.
Qed.

Lemma nxf_set_next_if i v c j :
  sized c -> 0 <= i <= NBUF -> 0 <= j ->
  nxf (setbuf i (set_next v) c) j = if j =? i then v else nxf c j.
Proof. apply nxf_set_next. Qed.
Lemma pvf_set_prev_if i v c j :
  sized c -> 0 <= i <= NBUF -> 0 <= j ->
  pvf (setbuf i (set_prev v) c) j = if j =? i then v else pvf c j.
Proof. apply pvf_set_prev. Qed.

(** Read the pointers of a state built by pointer assignments. *)
Ltac read_links :=
  repeat first
    [ rewrite nxf_set_next_if by side | rewrite pvf_set_prev_if by side
    | rewrite nxf_setbuf by side | rewrite pvf_setbuf by side ].

(** The second half of [move_to_front] and of [binit_one]. *)
Lemma push_front_spec c b l c' :
  sized c -> 0 <= b < NBUF -> NoDup l -> (forall i, i ∈ l -> 0 <= i < NBUF) -> b ∉ l ->
  linked (nxf c) (pvf c) HEAD l HEAD ->
  (0 <= nxf c HEAD <= NBUF -> forall i, 0 <= i <= NBUF ->
     nxf c' i = fset (fset (nxf c) b (nxf c HEAD)) HEAD b i /\
     pvf c' i = fset (fset (pvf c) b HEAD) (nxf c HEAD) b i) ->
  linked (nxf c') (pvf c') HEAD (b :: l) HEAD.
Proof.
  intros Hs Hb Hnd Hl Hnb Hlk Hc'. destruct HEAD_NBUF as [EH EN].
  assert (Hn : 0 <= nxf c HEAD <= NBUF).
  { pose proof (linked_next _ _ _ _ _ Hlk) as [Hin|Hin]%elem_of_app; [apply Hl in Hin; lia|].
    apply list_elem_of_singleton in Hin as ->. lia. }
  eapply linked_nodes; [..|apply (linked_push (nxf c) (pvf c) HEAD l b)]; try done.
  - intros i [->|Hi]%elem_of_cons; [lia|]. apply Hl in Hi. lia.
  - intros i Hi. by apply Hc'.
  - intros i Hi. by apply Hc'.
  - lia.
  - apply NoDup_cons. split; [|done]. intros Hi%Hl. lia.
Qed.

Lemma move_to_front_spec c b l1 l2 :
  sized c -> lru c (l1 ++ b :: l2) ->
  wp (move_to_front b) c (fun _ c' => same_but_links c c' /\ lru c' (b :: l1 ++ l2)).
Proof.
  intros Hs Hlru. pose proof Hlru as [Hnd Hall Hlk]. destruct HEAD_NBUF as [EH EN].
  assert (Hb : 0 <= b < NBUF) by (apply Hall; set_solver).
  assert (Hhead : HEAD ∉ l1 ++ b :: l2) by (rewrite Hall; lia).
  pose proof (proj1 (linked_app _ _ _ _ _ _ _) Hlk) as [Hlk1 Hlk2].
  pose proof Hnd as Hnd'. rewrite <- Permutation_middle in Hnd'.
  apply NoDup_cons in Hnd' as [Hbl Hnd'].
  assert (Hr : forall i, i ∈ HEAD :: l1 ++ b :: l2 -> 0 <= i <= NBUF).
  { intros i [->|Hi%Hall]%elem_of_cons; lia. }
  assert (Hpb : 0 <= pvf c b <= NBUF /\ pvf c b <> b).
  { pose proof (linked_prev _ _ _ _ _ Hlk1) as Hp. split; [apply Hr; set_solver|].
    intros E. rewrite E in Hp. set_solver. }
  assert (Hnb : 0 <= nxf c b <= NBUF /\ nxf c b <> b).
  { pose proof (linked_next _ _ _ _ _ Hlk2) as Hp. split; [apply Hr; set_solver|].
    intros E. rewrite E in Hp. set_solver. }
  unfold move_to_front, bmod. wp_steps.
  fold (nxf c b) (pvf c b). set (c1 := setbuf (nxf c b) (set_prev (pvf c b)) c).
  assert (Es1 : sized c1) by (by apply sized_setbuf).
  assert (E1 : nxf c1 b = nxf c b /\ pvf c1 b = pvf c b).
  { unfold c1. read_links. rewrite (proj2 (Z.eqb_neq b _)) by lia. done. }
  fold (nxf c1 b) (pvf c1 b).
  destruct E1 as [-> ->]. set (c2 := setbuf (pvf c b) (set_next (nxf c b)) c1).
  assert (Es2 : sized c2) by (by apply sized_setbuf).
  assert (Hlk' : linked (nxf c2) (pvf c2) HEAD (l1 ++ l2) HEAD).
  { eapply linked_nodes; [..|apply (linked_unlink (nxf c) (pvf c) HEAD l1 b l2 HEAD)]; try done.
    - intros i Hi. apply Hr. set_solver.
    - intros i Hi. unfold c2, c1, fset. read_links. done.
    - intros i Hi. unfold c2, c1, fset. read_links. done.
    - by apply NoDup_cons.
    - change (NoDup (l1 ++ (b :: l2) ++ [HEAD])). rewrite app_assoc. apply NoDup_app.
      split_and!; [done| |by apply NoDup_singleton]. intros x Hx ->%list_elem_of_singleton. done. }
  fold (nxf c2 HEAD). set (c4 := setbuf b (set_prev HEAD) _). fold (nxf c4 HEAD).
  assert (EH2 : nxf c4 HEAD = nxf c2 HEAD).
  { unfold c4. read_links. rewrite (proj2 (Z.eqb_neq HEAD b)) by lia. done. }
  rewrite EH2. assert (Hh2 : 0 <= nxf c2 HEAD <= NBUF).
  { pose proof (linked_next _ _ _ _ _ Hlk') as Hp. apply Hr. set_solver. }
  split.
  - repeat (apply same_setbuf; [|lia|done]). by apply same_refl.
  - split.
    + apply NoDup_cons. done.
    + intros i. rewrite <- Hall. set_solver.
    + eapply (push_front_spec c2 b); try done.
      * intros i Hi. assert (Hi' : i ∈ l1 ++ b :: l2) by set_solver. by apply Hall in Hi'.
      * intros _ i Hi. unfold fset, c4. read_links. done.
Qed.

Lemma lru_det c o1 o2 : lru c o1 -> lru c o2 -> o1 = o2.
Proof.
  intros H1 H2. eapply linked_det; [apply (lru_linked _ _ H1)|apply (lru_linked _ _ H2)|..];
    by eapply lru_facts.
Qed.

Lemma bio_law_brelse c A h b :
  brep c A -> aheld A !! h = Some b -> b ∈ adirty A \/ av A b = ad A b ->
  wp (brelse h) c (fun _ c' => brep c' (a_relse A h) /\
    forall l1 l2, lru c (l1 ++ h :: l2) -> lru c' (h :: l1 ++ l2)).
Proof.
  intros Hrep Hh Hclean.
  destruct (brep_handle _ _ _ _ Hrep Hh) as (Hr & Hdev & Hb & Hl & Hc & Hd & Hf & Hbr).
  pose proof (br_len _ _ Hrep) as Hlen. cbn. unfold bio_brelse, bmod. wp_steps.
  { rewrite Hl. unfold holdingsleep. cbn. by rewrite Z.eqb_refl. }
  2: by rewrite setbuf_setbuf, buf_at_setbuf_eq in H by side; cbn in H; rewrite Hc in H.
  rewrite setbuf_setbuf by side. cbn. rewrite Hc. clear H.
  set (c1 := setbuf h _ c).
  assert (Hrep1 : brep c1 (a_relse A h)).
  { eapply (brep_step c _ A _ h); try apply bufs_setbuf; cbn; try done; rewrite ?Hb; try done.
    - apply (br_disk _ _ Hrep).
    - apply (br_trace _ _ Hrep).
    - intros j Hj Hne Hjd. by apply (brep_other _ _ _ _ _ Hrep Hh).
    - intros j Hj. by apply lookup_delete_ne.
    - split; cbn; [done|]. left. rewrite Hb. cbn. rewrite lookup_delete_eq, Hd.
      split_and!; try done; lia.
    - by apply (wf_relse _ h b); [apply (br_wf _ _ Hrep)|..]. }
  assert (Hlru1 : forall order, lru c order -> lru c1 order).
  { intros order [H1 H2 H3]. split; [done..|]. eapply linked_nodes; [..|exact H3].
    - intros j Hj%H2. lia.
    - intros j Hj. by apply nxf_setbuf; side.
    - intros j Hj. by apply pvf_setbuf; side. }
  destruct (br_lru _ _ Hrep) as [order Ho]. pose proof (proj2 (lru_all _ _ Ho h) Hr) as Hin.
  apply list_elem_of_split in Hin as (l1 & l2 & ->).
  eapply wp_mono; [apply (move_to_front_spec c1 h l1 l2); [by apply sized_setbuf|auto]|].
  intros [] c' [Hsame Hlru']. split; [by eapply brep_links|]. intros m1 m2 Hm.
  pose proof (lru_det _ _ _ Hm Ho) as E. pose proof (lru_nodup _ _ Hm) as Hnd.
  assert (m1 = l1 /\ m2 = l2) as [-> ->]; [|done].
  rewrite <- Permutation_middle in Hnd. apply NoDup_cons in Hnd as [Hnin _].
  apply app_eq_inv in E as [(k & -> & E)|(k & -> & E)]; destruct k as [|a k];
    simplify_eq/=; rewrite ?app_nil_r; try done; exfalso; set_solver.
Qed.

(** ** Initialisation *)

(** The cache in the kernel's zeroed memory. *)
Record boot (c : bcache) : Prop := {
  bt_len : sized c;
  bt_buf : forall j, 0 <= j <= NBUF -> same_payload (buf_at c j) buf0;
  bt_trace : dtrace c = [];
  bt_disk : forall b, 0 <= b < disksize c -> wf_block (memdisk c b);
}.

Lemma boot_setbuf c i f :
  boot c -> 0 <= i <= NBUF -> (forall x, same_payload x buf0 -> same_payload (f x) buf0) ->
  boot (setbuf i f c).
Proof.
  intros [H1 H2 H3 H4] Hi Hf. split; try done; [by apply sized_setbuf|].
  intros j Hj. rewrite buf_at_setbuf by side. case_test; auto.
Qed.

Lemma binit_one_spec c b :
  boot c -> 0 <= b < NBUF -> linked (nxf c) (pvf c) HEAD (reverse (seqZ 0 b)) HEAD ->
  wp (binit_one b) c (fun _ c' => (boot c' /\ disksize c' = disksize c /\
    memdisk c' = memdisk c) /\ linked (nxf c') (pvf c') HEAD (reverse (seqZ 0 (b + 1))) HEAD).
Proof.
  intros Hboot Hb Hlk. destruct HEAD_NBUF as [EH EN]. pose proof (bt_len _ Hboot) as Hs.
  unfold binit_one, bmod. wp_steps. fold (nxf c HEAD).
  assert (Hel : forall i, i ∈ reverse (seqZ 0 b) -> 0 <= i < b).
  { intros i. rewrite elem_of_reverse, elem_of_seqZ. lia. }
  assert (Hn : 0 <= nxf c HEAD <= NBUF).
  { pose proof (linked_next _ _ _ _ _ Hlk) as [Hin|Hin]%elem_of_app; [apply Hel in Hin; lia|].
    apply list_elem_of_singleton in Hin as ->. lia. }
  split.
  - split_and!; try done. repeat (apply boot_setbuf; [|lia|by intros x (?&?&?&?&?&?)]). done.
  - replace (reverse (seqZ 0 (b + 1))) with (b :: reverse (seqZ 0 b)).
    + eapply (push_front_spec c b); try done.
      * rewrite reverse_Permutation; apply NoDup_seqZ.
      * intros i Hi%Hel. lia.
      * intros Hi%Hel. lia.
      * intros _ i Hi. unfold fset. read_links. done.
    + rewrite (seqZ_app 0 b 1), reverse_app by lia. done.
Qed.

Lemma binit_spec c :
  boot c -> 0 <= disksize c ->
  wp binit c (fun _ c' => brep c' (a_boot (disksize c) (memdisk c)) /\
    lru c' (reverse (seqZ 0 NBUF))).
Proof.
  intros Hboot Hds. destruct HEAD_NBUF as [EH EN]. unfold binit, bmod. wp_steps.
  eapply (wp_forM _ _ _ (fun j c' => (boot c' /\ disksize c' = disksize c /\
    memdisk c' = memdisk c) /\ linked (nxf c') (pvf c') HEAD (reverse (seqZ 0 j)) HEAD)).
  - pose proof (bt_len _ Hboot). split.
    + split_and!; try done. repeat (apply boot_setbuf; [|lia|by intros x (?&?&?&?&?&?)]). done.
    + change (reverse (seqZ 0 0)) with (@nil Z). cbn. read_links. rewrite Z.eqb_refl. done.
  - intros j c1 Hj [(Hb1 & E1 & E2) Hlk]. rewrite <- E1, <- E2.
    apply binit_one_spec; [done|lia|done].
  - intros c' [(Hb1 & E1 & E2) Hlk]. rewrite EN in Hlk. cbn [Z.to_nat Z.of_nat Z.add] in Hlk.
    assert (Hlru : lru c' (reverse (seqZ 0 NBUF))).
    { split; [rewrite reverse_Permutation; apply NoDup_seqZ| |by rewrite EN].
      intros i. rewrite elem_of_reverse, elem_of_seqZ. lia. }
    split; [|done]. destruct Hb1 as [B1 B2 B3 B4].
    assert (Hz : forall i, 0 <= i < NBUF -> dev (buf_at c' i) = 0).
    { intros i Hi. destruct (B2 i ltac:(lia)) as (_ & -> & _). done. }
    split; try done.
    + by exists (reverse (seqZ 0 NBUF)).
    + intros i Hi. eapply same_buf_ok; [apply B2; lia|]. split; [done|]. by right.
    + intros i j Hi Hj Hd. rewrite Hz in Hd by done. done.
    + split; cbn; try done; rewrite <- E1, <- E2; done.
    + intros b. by rewrite E2.
Qed.

(** The representation does not distinguish equivalent stores. *)
Lemma brep_proper c : Proper ((≡@{astore}) ==> impl) (brep c).
Proof.
  intros A B (E1 & E2 & E3 & E4 & E5 & E6) [H1 H2 H3 H4 H5 H6 H7 H8 H9 H10].
  split; rewrite <- ?E1, <- ?E4, <- ?E5, <- ?E6; try done.
  - intros i Hi. eapply buf_ok_frame, H3; try done; intros; by rewrite ?E4, ?E5.
  - destruct H7 as [W1 W2 W3 W4 W5 W6].
    split; rewrite <- ?E1, <- ?E4, <- ?E5; try done; intros b; rewrite <- ?E2, <- ?E3; auto.
    intros Hb Hn. apply W3; [done|]. unfold held in *. by rewrite E5.
  - intros b. by rewrite <- E3.
Qed.

(** The cache implements the abstract store. *)
#[export] Instance bio_laws : BufCacheLaws bcache brep.
Proof.
  split.
  - intros c A Hrep. apply (br_wf _ _ Hrep).
  - apply brep_proper.
  - intros c A h b Hrep Hh. by apply (brep_handle c A h b).
  - intros c A h b Hrep Hh. by apply (brep_handle c A h b).
  - intros c A b Hrep Hb Hnh Hroom. destruct (br_lru _ _ Hrep) as [order Ho].
    eapply wp_mono; [by apply (bio_bread_spec c A b order)|]. intros h c' [(H1 & H2 & _) _]. done.
  - apply bio_law_bset.
  - apply bio_law_bpin.
  - apply bio_law_bwrite.
  - intros c A h b Hrep Hh Hb. eapply wp_mono; [by apply (bio_law_brelse c A h b)|].
    by intros [] c' [? _].
Qed.

(** ** Properties *)

(** C36: a block that is read, modified, written and released is on disk with
    its new contents, no other block of the disk changes, the disk sees exactly
    one write, and the next [bread] of the block returns the new contents.  No
    step panics or sleeps when the block is not held and a buffer is free. *)
Theorem bio_write_then_read (c : bcache) (A : astore) (b : Z) (d : bytes) :
  brep c A -> 0 <= b < asize A -> ~ held A b -> wf_block d ->
  Z.of_nat (size (aheld A)) + Z.of_nat (size (adirty A)) < NBUF ->
  wp (h <- bio_bread ROOTDEV b ;; bset h d ;;; bio_bwrite h ;;; bio_brelse h) c (fun _ c' =>
    memdisk c' b = d /\ (forall x, x <> b -> memdisk c' x = memdisk c x) /\
    dtrace c' = dtrace c ++ [(b, d)] /\
    wp (bio_bread ROOTDEV b) c' (fun h c'' => data (buf_at c'' h) = d)).
Proof.
  intros Hrep Hb Hnh Hd Hroom. change bio_bread with (@bread bcache bio_cache).
  change bio_bwrite with (@bwrite bcache bio_cache).
  change bio_brelse with (@brelse bcache bio_cache).
  wp_step. eapply wp_mono; [by apply (law_bread (rep := brep) c A b); [..|right]|].
  intros h c1 [Hfresh Hrep1]. pose proof (lookup_insert_eq (aheld A) h b) as Hh.
  wp_step. eapply wp_mono; [by eapply (law_bset (rep := brep) c1 _ h b)|]. intros [] c2 Hrep2.
  wp_step. eapply wp_mono; [by eapply (law_bwrite (rep := brep) c2 _ h b)|]. intros [] c3 Hrep3.
  eapply wp_mono; [eapply (law_brelse (rep := brep) c3 _ h b); [done..|]; right; cbn;
    by rewrite !fupd_eq|].
  intros [] c4 Hrep4. set (A4 := a_relse _ h) in Hrep4.
  assert (Hh4 : ~ held A4 b).
  { unfold A4. rewrite (held_relse _ _ b); [tauto|apply (br_wf _ _ Hrep3)|done]. }
  split_and!.
  - rewrite (br_disk _ _ Hrep4). cbn. by rewrite !fupd_eq.
  - intros x Hx. rewrite (br_disk _ _ Hrep4), (br_disk _ _ Hrep). cbn. by rewrite fupd_ne.
  - rewrite (br_trace _ _ Hrep4), (br_trace _ _ Hrep). cbn. by rewrite fupd_eq.
  - eapply wp_mono; [apply (law_bread (rep := brep) c4 A4 b); [done..|]|].
    + right. unfold A4. cbn. rewrite delete_insert_id by done.
      pose proof (subseteq_size (adirty A ∖ {[b]}) (adirty A) ltac:(set_solver)). lia.
    + intros h' c5 [_ Hrep5].
      destruct (brep_handle _ _ h' b Hrep5) as (_ & _ & _ & _ & _ & -> & _);
        [apply lookup_insert_eq|]. cbn. by rewrite fupd_eq.
Qed.

(** C37: the cache is least recently used.  To read a block that is not
    cached, [bread] takes the last buffer of the list that is neither
    referenced nor pinned, and [brelse] moves that buffer to the front of the
    list and keeps the order of the others. *)
Theorem bio_lru (c : bcache) (A : astore) (b i : Z) (l1 l2 : list Z) :
  brep c A -> 0 <= b < asize A -> uncached c b ->
  lru c (l1 ++ i :: l2) -> unused c i -> (forall j, j ∈ l2 -> ~ unused c j) ->
  Z.of_nat (size (aheld A)) + Z.of_nat (size (adirty A)) < NBUF ->
  wp (h <- bio_bread ROOTDEV b ;; bio_brelse h ;;; ret h) c (fun h c' =>
    h = i /\ lru c' (i :: l1 ++ l2)).
Proof.
  intros Hrep Hb Hunc Hlru Hi Hl2 Hroom.
  assert (Hnh : ~ held A b).
  { intros [h Hh]. destruct (brep_handle _ _ _ _ Hrep Hh) as (Hr & Hd & Hbn & _).
    by apply (Hunc h Hr). }
  wp_step. eapply wp_mono; [by apply (bio_bread_spec c A b (l1 ++ i :: l2)); [..|right|]|].
  intros h c1 [(Hfresh & Hrep1 & Hlru1) Hu].
  destruct (Hu Hunc) as (Huh & k1 & k2 & E & Hk2).
  assert (h = i) as ->.
  { apply app_eq_inv in E as [(k & -> & E)|(k & -> & E)]; destruct k as [|a k];
      simplify_eq/=; try done; exfalso; [apply (Hk2 i) | apply (Hl2 h)]; set_solver. }
  wp_step. eapply wp_mono; [apply (bio_law_brelse c1 _ i b Hrep1)|].
  - apply lookup_insert_eq.
  - cbn. destruct (decide (b ∈ adirty A)) as [?|Hnd]; [by left|]. right.
    by apply (aw_clean _ (br_wf _ _ Hrep)).
  - intros [] c2 [_ Hlru2]. wp_steps. auto.
Qed.

(** The cache after boot on a disk of [n] blocks with contents [d]. *)
Definition boot_cache (n : Z) (d : Z -> bytes) : bcache :=
  mkBcache (replicate 31 buf0) 7 n d [].
Definition booted (n : Z) (d : Z -> bytes) : bcache :=
  match binit (boot_cache n d) with Ok (_, c) => c | _ => boot_cache n d end.

Lemma booted_rep n d :
  0 <= n -> (forall b, 0 <= b < n -> wf_block (d b)) ->
  brep (booted n d) (a_boot n d) /\ lru (booted n d) (reverse (seqZ 0 NBUF)).
Proof.
  intros Hn Hd. assert (Hb : boot (boot_cache n d)).
  { split; [done| |done|exact Hd]. intros j Hj. unfold buf_at. cbn.
    change (same_payload (rd (replicate 31 buf0) j) buf0).
    rewrite rd_replicate; [done|]. destruct HEAD_NBUF. lia. }
  pose proof (binit_spec (boot_cache n d) Hb Hn) as H.
  destruct (proj1 (wp_ok binit (boot_cache n d) _) H) as (a & c & E & H'). unfold booted.
  rewrite E. exact H'.
Qed.

(** A machine with a small disk, for the witnesses. *)
Definition demo_cache : bcache := booted 8 (fun _ => zeros BSIZE).

Lemma demo_cache_rep :
  brep demo_cache (a_boot 8 (fun _ => zeros BSIZE)) /\ lru demo_cache (reverse (seqZ 0 NBUF)).
Proof. apply booted_rep; [lia|]. intros. apply wf_block_zeros. Qed.

Lemma demo_cache_dev j : dev (buf_at demo_cache j) = 0.
Proof.
  assert (H : Forall (fun x => dev x = 0) (bufs demo_cache))
    by (vm_compute; repeat constructor).
  exact (rd_Forall (fun x => dev x = 0) _ j H eq_refl).
Qed.

Lemma bio_write_then_read_witness :
  wp (h <- bio_bread ROOTDEV 3 ;; bset h (replicate 512 9) ;;; bio_bwrite h ;;; bio_brelse h)
     demo_cache (fun _ c' =>
    memdisk c' 3 = replicate 512 9 /\
    (forall x, x <> 3 -> memdisk c' x = memdisk demo_cache x) /\
    dtrace c' = dtrace demo_cache ++ [(3, replicate 512 9)] /\
    wp (bio_bread ROOTDEV 3) c' (fun h c'' => data (buf_at c'' h) = replicate 512 9)).
Proof.
  apply (bio_write_then_read demo_cache (a_boot 8 (fun _ => zeros BSIZE)) 3).
  - apply demo_cache_rep.
  - cbn. lia.
  - intros [h Hh]. cbn in Hh. by rewrite lookup_empty in Hh.
  - split; [done|]. apply Forall_replicate. lia.
  - done.
Defined.

Lemma bio_lru_witness :
  wp (h <- bio_bread ROOTDEV 2 ;; bio_brelse h ;;; ret h) demo_cache (fun h c' =>
    h = 0 /\ lru c' (0 :: reverse (seqZ 1 29) ++ [])).
Proof.
  apply (bio_lru demo_cache (a_boot 8 (fun _ => zeros BSIZE)) 2 0 (reverse (seqZ 1 29)) []).
  - apply demo_cache_rep.
  - cbn. lia.
  - intros j _ [Hd _]. rewrite demo_cache_dev in Hd. discriminate Hd.
  - apply demo_cache_rep.
  - split; vm_compute; reflexivity.
  - intros j Hj. by apply not_elem_of_nil in Hj.
  - done.
Defined.
