(* ===== verification/Log.v ===== *)
(** * The redo log (src/xv6/log.c)

    Written against the buffer-cache interface of [Store.v].  The file gives
    the code of log.c and [readsb] of fs.c, the exact sequence of disk writes
    of [commit] and [recover_from_log], and crash safety: whatever prefix of
    the writes of a commit reaches the disk, and however often recovery itself
    is interrupted, recovery leaves the whole transaction or none of it. *)

From S2P Require Import Prelude Bytes Store.

(** [struct superblock], and its layout at the start of block 1. *)
Record superblock := mkSb {
  sb_size : Z; sb_nblocks : Z; sb_ninodes : Z; sb_nlog : Z;
  sb_logstart : Z; sb_inodestart : Z; sb_bmapstart : Z
}.
Definition sb_decode (d : bytes) : superblock :=
  mkSb (get32 d 0) (get32 d 4) (get32 d 8) (get32 d 12) (get32 d 16) (get32 d 20) (get32 d 24).

(** [struct log]; [lh_n] and [lh_block] are the fields of [log.lh]. *)
Record log_t := mkLog {
  l_start : Z; l_size : Z; l_outstanding : Z; l_committing : Z; l_dev : Z;
  lh_n : Z; lh_block : list Z
}.
Definition log0 : log_t := mkLog 0 0 0 0 0 0 (replicate (Z.to_nat LOGSIZE) 0).

Definition set_lh (n : Z) (bs : list Z) (l : log_t) : log_t :=
  mkLog (l_start l) (l_size l) (l_outstanding l) (l_committing l) (l_dev l) n bs.
Definition set_ops (k : Z) (l : log_t) : log_t :=
  mkLog (l_start l) (l_size l) k (l_committing l) (l_dev l) (lh_n l) (lh_block l).
Definition set_committing (c : Z) (l : log_t) : log_t :=
  mkLog (l_start l) (l_size l) (l_outstanding l) c (l_dev l) (lh_n l) (lh_block l).

(** The system below the file system: the log and the buffer cache. *)
Record lsys (S : Type) := mkLsys { ls_log : log_t; ls_bc : S }.
Arguments mkLsys {S} _ _.
Arguments ls_log {S} _.
Arguments ls_bc {S} _.

(** [sizeof(struct logheader)] *)
Definition SIZEOF_LOGHEADER : Z := 4 + 4 * LOGSIZE.

(** One pass of the loop of [begin_op]: the operation is admitted, or it
    sleeps on [&log]. *)
Definition log_admit (l : log_t) : res log_t :=
  if negb (l_committing l =? 0) then Sleep "log"
  else if LOGSIZE <? lh_n l + (l_outstanding l + 1) * MAXOPBLOCKS then Sleep "log"
  else Ok (set_ops (l_outstanding l + 1) l).

(** The index of [bno] among the first [n] logged blocks, or [n]. *)
Fixpoint log_index (n : nat) (i : Z) (block : list Z) (bno : Z) : Z :=
  match n with
  | O => i
  | Datatypes.S n => if rd block i =? bno then i else log_index n (i + 1) block bno
  end.

(** The guards of [log_write] and its update of the in-memory header. *)
Definition log_add (l : log_t) (bno : Z) : res log_t :=
  if (LOGSIZE <=? lh_n l) || (l_size l - 1 <=? lh_n l) then Panic "too big a transaction"
  else if l_outstanding l <? 1 then Panic "log_write outside of trans"
  else
    let i := log_index (Z.to_nat (lh_n l)) 0 (lh_block l) bno in
    Ok (set_lh (if i =? lh_n l then lh_n l + 1 else lh_n l) (upd (lh_block l) i bno) l).

Section log.
Context {S : Type} `{BufCache S}.
Abbreviation sys := (lsys S).

Definition bc {A} (m : ST S A) : ST sys A :=
  zoom ls_bc (fun c s => mkLsys (ls_log s) c) m.
Definition logget : ST sys log_t := gets ls_log.
Definition logset (f : log_t -> log_t) : ST sys unit :=
  modify (fun s => mkLsys (f (ls_log s)) (ls_bc s)).

(** An assignment to a field of the structure in [b->data]. *)
Definition bpoke (h : Z) (f : bytes -> bytes) : ST S unit :=
  d <- gets (bdata h) ;; bset h (f d).

(** fs.c: [memmove(sb, bp->data, sizeof( *sb))]. *)
Definition readsb (dev : Z) : ST S superblock :=
  bp <- bread dev 1 ;;
  d <- gets (bdata bp) ;;
  brelse bp ;;;
  ret (sb_decode d).

Definition install_one (dev start : Z) (block : list Z) (tail : Z) : ST S unit :=
  lbuf <- bread dev (start + tail + 1) ;;
  dbuf <- bread dev (rd block tail) ;;
  d <- gets (bdata lbuf) ;;
  bset dbuf d ;;;
  bwrite dbuf ;;;
  brelse lbuf ;;;
  brelse dbuf.

Definition install_trans : ST sys unit :=
  l <- logget ;;
  bc (forM (Z.to_nat (lh_n l)) 0 (install_one (l_dev l) (l_start l) (lh_block l))).

Definition read_head : ST sys unit :=
  l <- logget ;;
  buf <- bc (bread (l_dev l) (l_start l)) ;;
  d <- gets (fun s => bdata buf (ls_bc s)) ;;
  logset (fun l => set_lh (s32 (get32 d 0)) (lh_block l) l) ;;;
  forM (Z.to_nat (s32 (get32 d 0))) 0 (fun i =>
    logset (fun l => set_lh (lh_n l) (upd (lh_block l) i (s32 (get32 d (4 + 4 * i)))) l)) ;;;
  bc (brelse buf).

Definition write_head : ST sys unit :=
  l <- logget ;;
  bc (buf <- bread (l_dev l) (l_start l) ;;
      bpoke buf (fun d => put32 d 0 (lh_n l)) ;;;
      forM (Z.to_nat (lh_n l)) 0 (fun i =>
        bpoke buf (fun d => put32 d (4 + 4 * i) (rd (lh_block l) i))) ;;;
      bwrite buf ;;;
      brelse buf).

Definition recover_from_log : ST sys unit :=
  read_head ;;;
  install_trans ;;;
  logset (fun l => set_lh 0 (lh_block l) l) ;;;
  write_head.

Definition initlog (dev : Z) : ST sys unit :=
  panic_if (BSIZE <=? SIZEOF_LOGHEADER) "initlog: too big logheader" ;;;
  sb <- bc (readsb dev) ;;
  logset (fun l => mkLog (sb_logstart sb) (sb_nlog sb) (l_outstanding l) (l_committing l) dev
                     (lh_n l) (lh_block l)) ;;;
  recover_from_log.

Definition begin_op : ST sys unit :=
  l <- logget ;;
  match log_admit l with
  | Ok l' => logset (fun _ => l')
  | _ => sleep_on "log"
  end.

Definition write_log_one (dev start : Z) (block : list Z) (tail : Z) : ST S unit :=
  to <- bread dev (start + tail + 1) ;;
  from <- bread dev (rd block tail) ;;
  d <- gets (bdata from) ;;
  bset to d ;;;
  bwrite to ;;;
  brelse from ;;;
  brelse to.

Definition write_log : ST sys unit :=
  l <- logget ;;
  bc (forM (Z.to_nat (lh_n l)) 0 (write_log_one (l_dev l) (l_start l) (lh_block l))).

Definition commit : ST sys unit :=
  l <- logget ;;
  when (0 <? lh_n l)
    (write_log ;;;
     write_head ;;;
     install_trans ;;;
     logset (fun l => set_lh 0 (lh_block l) l) ;;;
     write_head).

Definition end_op : ST sys unit :=
  l <- logget ;;
  logset (set_ops (l_outstanding l - 1)) ;;;
  panic_if (negb (l_committing l =? 0)) "log.committing" ;;;
  (if l_outstanding l - 1 =? 0 then
     logset (set_committing 1) ;;;
     commit ;;;
     logset (set_committing 0)
   else ret tt).

Definition log_write (b : Z) : ST sys unit :=
  l <- logget ;;
  bno <- gets (fun s => bblock b (ls_bc s)) ;;
  match log_add l bno with
  | Ok l' => logset (fun _ => l') ;;; bc (bpin b)
  | Panic msg => panic msg
  | _ => nofuel
  end.
End log.

(** ** Sequences of block writes *)

(** Read, overwrite, write and release one block. *)
Definition a_put (A : astore) (b : Z) (d : bytes) : astore :=
  mkAstore (asize A) (fupd (av A) b d) (fupd (ad A) b d) (adirty A ∖ {[b]}) (aheld A)
    (atrace A ++ [(b, d)]).

Definition writes := list (Z * bytes).

(** The disk after some writes. *)
Definition apply_writes (W : writes) (f : Z -> bytes) : Z -> bytes :=
  fold_left (fun f w => fupd f w.1 w.2) W f.
Definition a_puts (A : astore) (W : writes) : astore :=
  fold_left (fun A w => a_put A w.1 w.2) W A.

Lemma apply_app W1 W2 f : apply_writes (W1 ++ W2) f = apply_writes W2 (apply_writes W1 f).
Proof. apply fold_left_app. Qed.

Lemma a_puts_app A W1 W2 : a_puts A (W1 ++ W2) = a_puts (a_puts A W1) W2.
Proof. apply fold_left_app. Qed.

(** A block that is not written. *)
Lemma apply_notin W f b : b ∉ W.*1 -> apply_writes W f b = f b.
Proof.
  revert f. induction W as [|[x d] W IH]; intros f Hb; [done|]. cbn in *.
  apply not_elem_of_cons in Hb as [Hne Hb]. rewrite IH by done. by apply fupd_ne.
Qed.

(** A block that is written once. *)
Lemma apply_in W f b d : NoDup W.*1 -> (b, d) ∈ W -> apply_writes W f b = d.
Proof.
  revert f. induction W as [|[x e] W IH]; intros f Hnd Hin; [by apply not_elem_of_nil in Hin|].
  cbn in *. apply NoDup_cons in Hnd as [Hx Hnd].
  apply elem_of_cons in Hin as [[= <- <-]|Hin]; [|by apply IH].
  rewrite apply_notin by done. apply fupd_eq.
Qed.

(** The effect of the writes on a block depends on its contents before at most. *)
Lemma apply_ext W f g b : f b = g b -> apply_writes W f b = apply_writes W g b.
Proof.
  revert f g. induction W as [|[x d] W IH]; intros f g E; [done|]. cbn. apply IH.
  unfold fupd. by case_test.
Qed.

Lemma a_puts_av A W : av (a_puts A W) = apply_writes W (av A).
Proof. revert A. induction W as [|[b d] W IH]; intros A; [done|]. apply (IH (a_put A b d)). Qed.
Lemma a_puts_ad A W : ad (a_puts A W) = apply_writes W (ad A).
Proof. revert A. induction W as [|[b d] W IH]; intros A; [done|]. apply (IH (a_put A b d)). Qed.
Lemma a_puts_held A W : aheld (a_puts A W) = aheld A.
Proof. revert A. induction W as [|[b d] W IH]; intros A; [done|]. apply (IH (a_put A b d)). Qed.
Lemma a_puts_size A W : asize (a_puts A W) = asize A.
Proof. revert A. induction W as [|[b d] W IH]; intros A; [done|]. apply (IH (a_put A b d)). Qed.
Lemma a_puts_trace A W : atrace (a_puts A W) = atrace A ++ W.
Proof.
  revert A. induction W as [|[b d] W IH]; intros A; [symmetry; apply app_nil_r|].
  etrans; [apply (IH (a_put A b d))|]. cbn. by rewrite <- app_assoc.
Qed.
Lemma a_puts_dirty A W x : x ∈ adirty (a_puts A W) <-> x ∈ adirty A /\ x ∉ W.*1.
Proof.
  revert A. induction W as [|[b d] W IH]; intros A; [cbn; rewrite elem_of_nil; tauto|].
  etrans; [apply (IH (a_put A b d))|]. cbn.
  rewrite elem_of_cons, elem_of_difference, elem_of_singleton. tauto.
Qed.
Arguments a_puts : simpl never.
Arguments apply_writes : simpl never.
Create Rewrite HintDb astore.
#[export] Hint Rewrite a_puts_av a_puts_ad a_puts_held a_puts_size a_puts_trace : astore.

Lemma a_puts_dirty_size A W : (size (adirty (a_puts A W)) <= size (adirty A))%nat.
Proof. apply subseteq_size. intros x. rewrite a_puts_dirty. tauto. Qed.

(** ** The routines of log.c on the abstract store *)

Section log_specs.
Context {S : Type} `{Laws : BufCacheLaws S rep}.
Implicit Types (A : astore).

Lemma not_held_empty A b : aheld A = ∅ -> ~ held A b.
Proof. intros E [h Hh]. rewrite E in Hh. by rewrite lookup_empty in Hh. Qed.

Lemma held_one A h x y : aheld A = ∅ -> x <> y -> ~ held (a_hold A h x) y.
Proof.
  intros E Hne [k Hk]. cbn in Hk. rewrite E in Hk.
  apply lookup_insert_Some in Hk as [[_ ->]|[_ Hk]]; [done|]. by rewrite lookup_empty in Hk.
Qed.

(** Enough buffers to hold one block and read block [y] as well. *)
Definition room2 (A : astore) (y : Z) : Prop :=
  Z.of_nat (size (adirty A)) < NBUF /\ (y ∈ adirty A \/ 1 + Z.of_nat (size (adirty A)) < NBUF).

Lemma room2_first A x y : aheld A = ∅ -> room2 A y -> room A x.
Proof. intros E [Hd _]. right. rewrite E, map_size_empty. lia. Qed.

Lemma room2_second A h x y : aheld A = ∅ -> room2 A y -> room (a_hold A h x) y.
Proof.
  intros E [_ [Hin|Hlt]]; [by left|]. right. cbn.
  rewrite E, insert_empty, map_size_singleton. lia.
Qed.

(** A block that is neither held nor written is released as it was read. *)
Lemma clean_or_dirty A x : astore_wf A -> aheld A = ∅ -> x ∈ adirty A \/ av A x = ad A x.
Proof.
  intros Hwf E. destruct (decide (x ∈ adirty A)) as [|Hx]; [by left|]. right.
  apply (aw_clean _ Hwf); [done|]. by apply not_held_empty.
Qed.

(** Releasing both buffers of a copy leaves the store with one block written. *)
Lemma copy_put A h1 h2 x1 x2 y d :
  aheld A !! h1 = None -> aheld A !! h2 = None -> h1 <> h2 ->
  a_relse (a_relse (a_write (a_set (a_hold (a_hold A h1 x1) h2 x2) y d) y) h2) h1 = a_put A y d /\
  a_relse (a_relse (a_write (a_set (a_hold (a_hold A h1 x1) h2 x2) y d) y) h1) h2 = a_put A y d.
Proof.
  intros H1 H2 Hne. unfold a_relse, a_write, a_set, a_hold, a_put. cbn. rewrite !fupd_eq.
  assert (E : delete h1 (delete h2 (<[h2 := x2]> (<[h1 := x1]> (aheld A)))) = aheld A).
  { rewrite delete_insert_id, delete_insert_id; [done|done|]. by rewrite lookup_insert_ne. }
  split; f_equal; [done|]. by rewrite delete_delete.
Qed.

Lemma install_one_spec s A start block tail (x := start + tail + 1) (y := rd block tail) :
  rep s A -> aheld A = ∅ -> 0 <= x < asize A -> 0 <= y < asize A -> x <> y -> room2 A y ->
  wp (install_one ROOTDEV start block tail) s (fun _ s' => rep s' (a_put A y (av A x))).
Proof.
  intros Hrep E Hx Hy Hne Hroom. pose proof (law_wf _ _ Hrep) as Hwf. unfold install_one.
  fold x y. wp_step. eapply wp_mono; [apply (law_bread (rep := rep) s A x); try done;
    [by apply not_held_empty | by apply (room2_first _ _ y)]|].
  intros hx s1 [F1 R1]. cbv beta.
  wp_step. eapply wp_mono; [apply (law_bread (rep := rep) s1 _ y R1); try done;
    [by apply held_one | by apply room2_second]|].
  intros hy s2 [F2 R2]. cbn in F2. apply lookup_insert_None in F2 as [F2 Hh].
  assert (Lx : aheld (a_hold (a_hold A hx x) hy y) !! hx = Some x).
  { cbn. rewrite lookup_insert_ne by done. apply lookup_insert_eq. }
  assert (Ly : aheld (a_hold (a_hold A hx x) hy y) !! hy = Some y) by apply lookup_insert_eq.
  wp_steps. rewrite (law_bdata (rep := rep) s2 _ hx x R2 Lx). cbn.
  eapply wp_mono; [apply (law_bset (rep := rep) s2 _ hy y _ R2 Ly), (aw_view _ Hwf); done|]. intros [] s3 R3.
  wp_step. eapply wp_mono; [apply (law_bwrite (rep := rep) s3 _ hy y R3 Ly)|]. intros [] s4 R4.
  wp_step. eapply wp_mono; [apply (law_brelse (rep := rep) s4 _ hx x R4 Lx)|].
  { cbn. rewrite !fupd_ne by done. destruct (clean_or_dirty A x Hwf E); [left|by right].
    set_solver. }
  intros [] s5 R5. eapply wp_mono; [apply (law_brelse (rep := rep) s5 _ hy y R5)|].
  { cbn. rewrite lookup_delete_ne by done. apply lookup_insert_eq. }
  { right. cbn. by rewrite !fupd_eq. }
  intros [] s6 R6. rewrite (proj2 (copy_put _ _ _ _ _ _ _ F1 F2 Hh)) in R6. done.
Qed.

Lemma write_log_one_spec s A start block tail (y := start + tail + 1) (x := rd block tail) :
  rep s A -> aheld A = ∅ -> 0 <= x < asize A -> 0 <= y < asize A -> x <> y -> room2 A x ->
  wp (write_log_one ROOTDEV start block tail) s (fun _ s' => rep s' (a_put A y (av A x))).
Proof.
  intros Hrep E Hx Hy Hne Hroom. pose proof (law_wf _ _ Hrep) as Hwf. unfold write_log_one.
  fold x y. wp_step. eapply wp_mono; [apply (law_bread (rep := rep) s A y); try done;
    [by apply not_held_empty | by apply (room2_first _ _ x)]|].
  intros hy s1 [F1 R1]. cbv beta.
  wp_step. eapply wp_mono; [apply (law_bread (rep := rep) s1 _ x R1); try done;
    [by apply held_one | by apply room2_second]|].
  intros hx s2 [F2 R2]. cbn in F2. apply lookup_insert_None in F2 as [F2 Hh].
  assert (Ly : aheld (a_hold (a_hold A hy y) hx x) !! hy = Some y).
  { cbn. rewrite lookup_insert_ne by done. apply lookup_insert_eq. }
  assert (Lx : aheld (a_hold (a_hold A hy y) hx x) !! hx = Some x) by apply lookup_insert_eq.
  wp_steps. rewrite (law_bdata (rep := rep) s2 _ hx x R2 Lx). cbn.
  eapply wp_mono; [apply (law_bset (rep := rep) s2 _ hy y _ R2 Ly), (aw_view _ Hwf); done|]. intros [] s3 R3.
  wp_step. eapply wp_mono; [apply (law_bwrite (rep := rep) s3 _ hy y R3 Ly)|]. intros [] s4 R4.
  wp_step. eapply wp_mono; [apply (law_brelse (rep := rep) s4 _ hx x R4 Lx)|].
  { cbn. rewrite !fupd_ne by done. destruct (clean_or_dirty A x Hwf E); [left|by right].
    set_solver. }
  intros [] s5 R5. eapply wp_mono; [apply (law_brelse (rep := rep) s5 _ hy y R5)|].
  { cbn. rewrite lookup_delete_ne by done. rewrite lookup_insert_ne by done.
    apply lookup_insert_eq. }
  { right. cbn. by rewrite !fupd_eq. }
  intros [] s6 R6. rewrite (proj1 (copy_put _ _ _ _ _ _ _ F1 F2 Hh)) in R6. done.
Qed.
End log_specs.

(** The writes of [write_log]: block [b] goes to the next slot. *)
Fixpoint log_writes (v : Z -> bytes) (slot : Z) (bs : list Z) : writes :=
  match bs with
  | [] => []
  | b :: bs => (slot, v b) :: log_writes v (slot + 1) bs
  end.

(** The writes of [install_trans]: the next slot goes to block [b]. *)
Fixpoint install_writes (v : Z -> bytes) (slot : Z) (bs : list Z) : writes :=
  match bs with
  | [] => []
  | b :: bs => (b, v slot) :: install_writes v (slot + 1) bs
  end.

(** A block of the disk outside the log, which is at [lo <= b < hi]. *)
Definition home (lo hi n b : Z) : Prop := 0 <= b < n /\ (b < lo \/ hi <= b).

Lemma install_writes_ext v v' slot bs :
  (forall x, slot <= x < slot + lenZ bs -> v x = v' x) ->
  install_writes v slot bs = install_writes v' slot bs.
Proof.
  revert slot. induction bs as [|b bs IH]; intros slot Hv; [done|]. cbn.
  pose proof (lenZ_nonneg bs). unfold lenZ in *. cbn in Hv.
  rewrite Hv by lia. f_equal. apply IH. intros x Hx. apply Hv. lia.
Qed.

Lemma log_writes_ext v v' slot bs :
  (forall x, x ∈ bs -> v x = v' x) -> log_writes v slot bs = log_writes v' slot bs.
Proof.
  revert slot. induction bs as [|b bs IH]; intros slot Hv; [done|]. cbn.
  rewrite Hv by set_solver. f_equal. apply IH. set_solver.
Qed.

Lemma install_writes_fst v slot bs : (install_writes v slot bs).*1 = bs.
Proof. revert slot. induction bs as [|b bs IH]; intros; [done|]. cbn. by rewrite IH. Qed.

Lemma log_writes_fst v slot bs : (log_writes v slot bs).*1 = seqZ slot (lenZ bs).
Proof.
  revert slot. induction bs as [|b bs IH]; intros slot; [done|]. cbn. rewrite IH.
  replace (lenZ (b :: bs)) with (Z.succ (lenZ bs)) by (unfold lenZ; cbn; lia).
  pose proof (lenZ_nonneg bs). rewrite (seqZ_cons slot (Z.succ _)) by lia.
  f_equal. f_equal; lia.
Qed.

(** A loop over the logged blocks, whose body writes one block. *)
Definition slots_ok (lo hi start i : Z) (A : astore) (block bs : list Z) : Prop :=
  lo <= start + i + 1 /\ start + i + 1 + lenZ bs <= hi /\ 0 <= lo /\ hi <= asize A /\
  (forall j, 0 <= j < lenZ bs -> rd block (i + j) = rd bs j) /\
  (forall b, b ∈ bs -> home lo hi (asize A) b) /\ NoDup bs /\
  (forall b, b ∈ bs -> room2 A b).

Lemma slots_ok_cons lo hi start i A block b bs y d :
  slots_ok lo hi start i A block (b :: bs) -> y = b \/ lo <= y < hi ->
  rd block i = b /\ lo <= start + i + 1 < hi /\ home lo hi (asize A) b /\ (b ∉ bs) /\ room2 A b /\
  slots_ok lo hi start (i + 1) (a_put A y d) block bs.
Proof.
  intros (H1 & H2 & H3 & H4 & H5 & H6 & H7 & H8) Hy.
  apply NoDup_cons in H7 as [Hb H7]. pose proof (lenZ_nonneg bs). unfold lenZ in *. cbn in H2.
  assert (E : rd block i = b).
  { specialize (H5 0 ltac:(cbn; lia)). rewrite Z.add_0_r in H5. done. }
  split_and!; try done; try lia; try apply H6; try apply H8; try apply list_elem_of_here.
  unfold slots_ok. split_and!; try done; try (unfold lenZ; lia).
  - intros j Hj. specialize (H5 (j + 1) ltac:(cbn; unfold lenZ in Hj; lia)).
    replace (i + 1 + j) with (i + (j + 1)) by lia. rewrite H5. unfold rd.
    replace (Z.to_nat (j + 1)) with (S (Z.to_nat j)) by lia. done.
  - intros x Hx. apply H6. by apply list_elem_of_further.
  - intros x Hx. assert (Hx' : x ∈ b :: bs) by by apply list_elem_of_further.
    destruct (H6 x Hx') as [Hxr Hxh]. destruct (H8 x Hx') as [Hs Hin].
    assert (x <> y) by (intros ->; destruct Hy; [by subst|lia]).
    pose proof (subseteq_size (adirty A ∖ {[y]}) (adirty A) ltac:(set_solver)).
    split; cbn; [lia|]. destruct Hin as [Hin|Hlt]; [left; set_solver|right; lia].
Qed.

Section log_loops.
Context {S : Type} `{Laws : BufCacheLaws S rep}.
Implicit Types (A : astore).

Lemma install_loop lo hi start block bs i s A :
  rep s A -> aheld A = ∅ -> slots_ok lo hi start i A block bs ->
  wp (forM (length bs) i (install_one ROOTDEV start block)) s (fun _ s' =>
    rep s' (a_puts A (install_writes (av A) (start + i + 1) bs))).
Proof.
  revert i s A. induction bs as [|b bs IH]; intros i s A R E Hok; [by apply wp_ret|].
  destruct (slots_ok_cons _ _ _ _ _ _ _ _ b (av A (start + i + 1)) Hok (or_introl eq_refl))
    as (Eb & Hsl & [Hb1 Hb2] & Hnin & Hroom & Hok').
  destruct Hok as (_ & Hl & H3 & H4 & _). cbn.
  wp_step. eapply wp_mono; [apply (install_one_spec (rep := rep) s A start block i R E);
    rewrite ?Eb; try done; lia|].
  intros [] s1 R1. rewrite Eb in R1. eapply wp_mono; [by apply (IH (i + 1) s1 _ R1)|].
  intros [] s2 R2. replace (start + (i + 1) + 1) with (start + i + 1 + 1) in R2 by lia.
  erewrite install_writes_ext; [exact R2|]. intros x Hx. cbn. rewrite fupd_ne; [done|].
  unfold lenZ in *. cbn in Hl. lia.
Qed.

Lemma write_log_loop lo hi start block bs i s A :
  rep s A -> aheld A = ∅ -> slots_ok lo hi start i A block bs ->
  wp (forM (length bs) i (write_log_one ROOTDEV start block)) s (fun _ s' =>
    rep s' (a_puts A (log_writes (av A) (start + i + 1) bs))).
Proof.
  revert i s A. induction bs as [|b bs IH]; intros i s A R E Hok; [by apply wp_ret|].
  assert (Hsl : lo <= start + i + 1 < hi).
  { destruct Hok as (? & ? & _). unfold lenZ in *. cbn in *. lia. }
  destruct (slots_ok_cons _ _ _ _ _ _ _ _ (start + i + 1) (av A b) Hok (or_intror Hsl))
    as (Eb & _ & [Hb1 Hb2] & Hnin & Hroom & Hok').
  pose proof Hok as (_ & Hl & H3 & H4 & _ & H6 & _). cbn.
  wp_step. eapply wp_mono; [apply (write_log_one_spec (rep := rep) s A start block i R E);
    rewrite ?Eb; try done; lia|].
  intros [] s1 R1. rewrite Eb in R1. eapply wp_mono; [by apply (IH (i + 1) s1 _ R1)|].
  intros [] s2 R2. replace (start + (i + 1) + 1) with (start + i + 1 + 1) in R2 by lia.
  erewrite log_writes_ext; [exact R2|]. intros x Hx. cbn. rewrite fupd_ne; [done|].
  destruct (H6 x ltac:(by apply list_elem_of_further)). lia.
Qed.
End log_loops.

(** ** The header block *)

Fixpoint put_words (d : bytes) (off : Z) (ws : list Z) : bytes :=
  match ws with
  | [] => d
  | w :: ws => put_words (put32 d off w) (off + 4) ws
  end.

(** The header that lists the blocks [bs]; the rest of the block is kept. *)
Definition head_enc (bs : list Z) (d : bytes) : bytes := put_words (put32 d 0 (lenZ bs)) 4 bs.

Definition head_n (d : bytes) : Z := s32 (get32 d 0).
Definition head_blocks (d : bytes) : list Z :=
  (fun i => s32 (get32 d (4 + 4 * i))) <$> seqZ 0 (head_n d).

Lemma wf_block_put32 d off v :
  wf_block d -> 0 <= off -> off + 4 <= BSIZE -> wf_block (put32 d off v).
Proof. intros. apply wf_block_blit; auto with xv6. Qed.
#[export] Hint Resolve wf_block_put32 : xv6.

Lemma put_words_wf d off ws :
  wf_block d -> 0 <= off -> off + 4 * lenZ ws <= BSIZE -> wf_block (put_words d off ws).
Proof.
  revert d off. induction ws as [|w ws IH]; intros d off Hd Ho Hl; [done|]. cbn.
  pose proof (lenZ_nonneg ws). unfold lenZ in *. cbn in Hl.
  apply IH; [|lia|lia]. apply wf_block_put32; [done|lia|lia].
Qed.

Lemma get32_put_words_lt d off ws o :
  lenZ d = BSIZE -> 0 <= o -> o + 4 <= off -> off + 4 * lenZ ws <= BSIZE ->
  get32 (put_words d off ws) o = get32 d o.
Proof.
  revert d off. induction ws as [|w ws IH]; intros d off Hd Ho Hlt Hl; [done|]. cbn.
  pose proof (lenZ_nonneg ws). unfold lenZ in Hl, H. cbn in Hl.
  rewrite IH; try lia; [|rewrite lenZ_put32; lia|unfold lenZ; lia].
  apply get32_put32_ne; lia.
Qed.

Lemma get32_put_words d off ws j :
  lenZ d = BSIZE -> 0 <= off -> off + 4 * lenZ ws <= BSIZE -> 0 <= j < lenZ ws ->
  get32 (put_words d off ws) (off + 4 * j) = u32 (rd ws j).
Proof.
  revert d off j. induction ws as [|w ws IH]; intros d off j Hd Ho Hl Hj; [unfold lenZ in Hj; cbn in Hj; lia|].
  cbn. assert (E : lenZ (w :: ws) = lenZ ws + 1) by (unfold lenZ; cbn; lia).
  rewrite E in *. pose proof (lenZ_nonneg ws). destruct (Z.eq_dec j 0) as [->|Hne].
  - rewrite Z.add_0_r, get32_put_words_lt; try lia; [|rewrite lenZ_put32; lia].
    rewrite get32_put32 by lia. done.
  - replace (off + 4 * j) with (off + 4 + 4 * (j - 1)) by lia.
    rewrite IH; try lia; [|rewrite lenZ_put32; lia]. f_equal. unfold rd.
    replace (Z.to_nat j) with (Datatypes.S (Z.to_nat (j - 1))) by lia. done.
Qed.

Lemma s32_u32 z : -2147483648 <= z < 2147483648 -> s32 (u32 z) = z.
Proof. intros. unfold s32, u32. zlia. Qed.

Lemma head_enc_wf bs d : wf_block d -> lenZ bs <= LOGSIZE -> wf_block (head_enc bs d).
Proof.
  intros Hd Hl. unfold LOGSIZE, MAXOPBLOCKS, head_enc in *. change BSIZE with 512 in *.
  apply put_words_wf; [|lia|unfold BSIZE; lia]. apply wf_block_put32; [done|lia|unfold BSIZE; lia].
Qed.

(** What [write_head] encodes is what [read_head] decodes. *)
Lemma head_dec_enc bs d :
  lenZ d = BSIZE -> lenZ bs <= LOGSIZE -> Forall (fun b => 0 <= b < 2147483648) bs ->
  head_n (head_enc bs d) = lenZ bs /\ head_blocks (head_enc bs d) = bs.
Proof.
  intros Hd Hl Hbs. assert (En : head_n (head_enc bs d) = lenZ bs).
  { unfold LOGSIZE, MAXOPBLOCKS, head_n, head_enc, BSIZE in *. pose proof (lenZ_nonneg bs).
    rewrite get32_put_words_lt; try (unfold BSIZE; lia); [|rewrite lenZ_put32; unfold BSIZE; lia].
    rewrite get32_put32, s32_u32 by lia. done. }
  split; [done|]. unfold head_blocks. rewrite En. pose proof (lenZ_nonneg bs).
  apply arr_eq; unfold lenZ at 1; rewrite length_fmap, length_seqZ; [lia|].
  intros i Hi. assert (E : seqZ 0 (lenZ bs) !! Z.to_nat i = Some i) by (apply lookup_seqZ; lia).
  unfold rd at 1. rewrite list_lookup_total_alt, list_lookup_fmap, E. cbn.
  unfold LOGSIZE, MAXOPBLOCKS, head_enc, BSIZE in *.
  rewrite get32_put_words; try (unfold BSIZE; lia); [|rewrite lenZ_put32; unfold BSIZE; lia].
  assert (Hr : 0 <= rd bs i < 2147483648).
  { apply (rd_Forall (fun b => 0 <= b < 2147483648)); [done|]. cbn. lia. }
  rewrite s32_u32 by lia. done.
Qed.

Lemma head_n_clear d : lenZ d = BSIZE -> head_n (put32 d 0 0) = 0.
Proof. intros. unfold head_n, BSIZE in *. rewrite get32_put32 by lia. done. Qed.

Section head_specs.
Context {S : Type} `{Laws : BufCacheLaws S rep}.
Implicit Types (A : astore).

Lemma bpoke_spec s A h b d f :
  rep s (a_set A b d) -> aheld A !! h = Some b -> wf_block (f d) ->
  wp (bpoke h f) s (fun _ s' => rep s' (a_set A b (f d))).
Proof.
  intros R Hh Hf. unfold bpoke. wp_steps. rewrite (law_bdata (rep := rep) s _ h b R Hh). cbn.
  rewrite fupd_eq. eapply wp_mono; [by apply (law_bset (rep := rep) s _ h b (f d) R Hh)|].
  intros [] s' R'. eapply law_proper; [|exact R']. split_and!; try done. intros x. cbn.
  unfold fupd. by case_test.
Qed.

Lemma poke_loop A h b block bs i s d :
  rep s (a_set A b d) -> aheld A !! h = Some b -> wf_block d -> 0 <= i ->
  4 + 4 * i + 4 * lenZ bs <= BSIZE ->
  (forall j, 0 <= j < lenZ bs -> rd block (i + j) = rd bs j) ->
  wp (forM (length bs) i (fun i => bpoke h (fun d => put32 d (4 + 4 * i) (rd block i)))) s
     (fun _ s' => rep s' (a_set A b (put_words d (4 + 4 * i) bs))).
Proof.
  revert i s d. induction bs as [|w bs IH]; intros i s d R Hh Hd Hi Hl Hb; [by apply wp_ret|].
  assert (E : lenZ (w :: bs) = lenZ bs + 1) by (unfold lenZ; cbn; lia). rewrite E in *.
  pose proof (lenZ_nonneg bs). cbn.
  assert (Hd' : wf_block (put32 d (4 + 4 * i) w)) by (apply wf_block_put32; [done|lia|lia]).
  assert (Ew : rd block i = w).
  { specialize (Hb 0 ltac:(lia)). by rewrite Z.add_0_r in Hb. }
  wp_step. eapply wp_mono; [apply (bpoke_spec s A h b d _ R Hh); by rewrite Ew|].
  intros [] s1 R1. cbn in R1. rewrite Ew in R1.
  eapply wp_mono; [apply (IH (i + 1) s1 _ R1 Hh Hd'); [lia|lia|]|].
  - intros j Hj. specialize (Hb (j + 1) ltac:(lia)).
    replace (i + 1 + j) with (i + (j + 1)) by lia. rewrite Hb. unfold rd.
    replace (Z.to_nat (j + 1)) with (Datatypes.S (Z.to_nat j)) by lia. done.
  - intros [] s2 R2. by replace (4 + 4 * i + 4) with (4 + 4 * (i + 1)) by lia.
Qed.

Lemma single_put A h b d :
  aheld A !! h = None -> a_relse (a_write (a_set (a_hold A h b) b d) b) h = a_put A b d.
Proof.
  intros Hh. unfold a_relse, a_write, a_set, a_hold, a_put. cbn. rewrite fupd_eq.
  by rewrite delete_insert_id.
Qed.

Lemma relse_hold A h b : aheld A !! h = None -> a_relse (a_hold A h b) h = A.
Proof.
  intros Hh. unfold a_relse, a_hold. cbn. rewrite delete_insert_id by done. by destruct A.
Qed.

(** The in-memory header lists the blocks [bs]. *)
Definition lists (l : log_t) (bs : list Z) : Prop :=
  lh_n l = lenZ bs /\ (forall j, 0 <= j < lenZ bs -> rd (lh_block l) j = rd bs j) /\
  lenZ bs <= LOGSIZE.

Lemma write_head_spec (s : lsys S) A bs (st := l_start (ls_log s)) :
  rep (ls_bc s) A -> aheld A = ∅ -> l_dev (ls_log s) = ROOTDEV -> 0 <= st < asize A ->
  Z.of_nat (size (adirty A)) < NBUF -> lists (ls_log s) bs ->
  wp write_head s (fun _ s' => ls_log s' = ls_log s /\
    rep (ls_bc s') (a_put A st (head_enc bs (av A st)))).
Proof.
  intros R E Hdev Hst Hroom (Hn & Hblk & Hl). pose proof (law_wf _ _ R) as Hwf.
  assert (Hd : wf_block (av A st)) by (by apply (aw_view _ Hwf)).
  unfold write_head. wp_step. unfold logget. wp_step. rewrite Hdev, Hn. fold st.
  apply wp_zoom. cbn. wp_step.
  eapply wp_mono; [apply (law_bread (rep := rep) (ls_bc s) A st R Hst)|].
  { by apply not_held_empty. }
  { right. rewrite E, map_size_empty. lia. }
  intros h s1 [F R1]. assert (Lh : aheld (a_hold A h st) !! h = Some st) by apply lookup_insert_eq.
  assert (R1' : rep s1 (a_set (a_hold A h st) st (av A st))).
  { eapply law_proper; [|exact R1]. split_and!; try done. intros x. cbn. unfold fupd.
    case_test; [by subst|done]. }
  assert (Hlog : LOGSIZE = 30 /\ BSIZE = 512) by done. destruct Hlog as [EL EB].
  assert (Hd0 : wf_block (put32 (av A st) 0 (lenZ bs))) by (apply wf_block_put32; [done|lia|lia]).
  wp_step. eapply wp_mono; [by apply (bpoke_spec s1 _ h st _ _ R1' Lh)|]. intros [] s2 R2.
  wp_step. replace (Z.to_nat (lenZ bs)) with (length bs) by (unfold lenZ; lia).
  eapply wp_mono; [apply (poke_loop _ h st (lh_block (ls_log s)) bs 0 s2 _ R2 Lh Hd0);
    [lia|lia|apply Hblk]|].
  intros [] s3 R3. wp_step.
  eapply wp_mono; [apply (law_bwrite (rep := rep) s3 _ h st R3); apply lookup_insert_eq|].
  intros [] s4 R4. eapply wp_mono; [apply (law_brelse (rep := rep) s4 _ h st R4)|].
  { apply lookup_insert_eq. }
  { right. cbn. by rewrite !fupd_eq. }
  intros [] s5 R5. rewrite single_put in R5 by done. done.
Qed.

Lemma read_head_spec (s : lsys S) A (st := l_start (ls_log s)) (d := av A st) :
  rep (ls_bc s) A -> aheld A = ∅ -> l_dev (ls_log s) = ROOTDEV -> 0 <= st < asize A ->
  Z.of_nat (size (adirty A)) < NBUF -> lenZ (lh_block (ls_log s)) = LOGSIZE ->
  0 <= head_n d <= LOGSIZE ->
  wp read_head s (fun _ s' => rep (ls_bc s') A /\ lists (ls_log s') (head_blocks d) /\
    exists blk, ls_log s' = set_lh (head_n d) blk (ls_log s) /\ lenZ blk = LOGSIZE).
Proof.
  intros R E Hdev Hst Hroom Hlen Hn. unfold read_head. wp_step. unfold logget. wp_step.
  rewrite Hdev. fold st. wp_step. apply wp_zoom. cbn.
  eapply wp_mono; [apply (law_bread (rep := rep) (ls_bc s) A st R Hst)|].
  { by apply not_held_empty. }
  { right. rewrite E, map_size_empty. lia. }
  intros h s1 [F R1]. assert (Lh : aheld (a_hold A h st) !! h = Some st) by apply lookup_insert_eq.
  wp_steps. cbn. rewrite (law_bdata (rep := rep) s1 _ h st R1 Lh). cbn. fold d.
  unfold logset at 1. wp_steps. cbn. fold (head_n d).
  eapply (wp_forM _ _ _ (fun i s' => ls_bc s' = s1 /\ exists blk, lenZ blk = LOGSIZE /\
    ls_log s' = set_lh (head_n d) blk (ls_log s) /\
    forall j, 0 <= j < i -> rd blk j = s32 (get32 d (4 + 4 * j)))).
  - split; [done|]. exists (lh_block (ls_log s)). split_and!; try done. intros; lia.
  - intros i s2 Hi (E2 & blk & Hb & El & Hj). unfold logset. wp_steps. cbn. split; [done|].
    exists (upd blk i (s32 (get32 d (4 + 4 * i)))). rewrite El. cbn. split_and!; [|done|].
    + by rewrite upd_lenZ.
    + intros j Hj'. rewrite rd_upd by lia. case_test; [by subst|]. apply Hj. lia.
  - intros s2 (E2 & blk & Hb & El & Hj). apply wp_zoom. rewrite E2.
    eapply wp_mono; [apply (law_brelse (rep := rep) s1 _ h st R1 Lh)|].
    { by apply (clean_or_dirty A); [apply (law_wf _ _ R)|]. }
    intros [] s3 R3. rewrite relse_hold in R3 by done. cbn. split_and!; [done| |eauto].
    rewrite El. unfold lists. cbn.
    assert (En : lenZ (head_blocks d) = head_n d).
    { unfold head_blocks, lenZ. rewrite length_fmap, length_seqZ. lia. }
    rewrite En. split_and!; [done| |lia]. intros j Hjn. rewrite Hj by lia.
    assert (Es : seqZ 0 (head_n d) !! Z.to_nat j = Some j) by (apply lookup_seqZ; lia).
    unfold rd, head_blocks. rewrite list_lookup_total_alt, list_lookup_fmap, Es. done.
Qed.
End head_specs.

(** ** [commit] and [recover_from_log] as sequences of block writes *)

Definition commit_writes (st : Z) (bs : list Z) (v : Z -> bytes) : writes :=
  log_writes v (st + 1) bs ++ (st, head_enc bs (v st)) ::
  ((fun b => (b, v b)) <$> bs) ++ [(st, put32 (head_enc bs (v st)) 0 0)].

Definition recover_writes (st : Z) (v : Z -> bytes) : writes :=
  install_writes v (st + 1) (head_blocks (v st)) ++ [(st, put32 (v st) 0 0)].

(** The log is on disk 1, at blocks [l_start] to [l_start + l_size - 1]. *)
Record geom (l : log_t) (n : Z) : Prop := {
  g_dev : l_dev l = ROOTDEV;
  g_start : 0 <= l_start l;
  g_size : 1 <= l_size l;
  g_end : l_start l + l_size l <= n;
  g_disk : n < 2147483648;
  g_block : lenZ (lh_block l) = LOGSIZE;
}.

(** Blocks that a transaction may list. *)
Definition logged (l : log_t) (n : Z) (bs : list Z) : Prop :=
  NoDup bs /\ lenZ bs < l_size l /\ lenZ bs <= LOGSIZE /\
  forall b, b ∈ bs -> home (l_start l) (l_start l + l_size l) n b.

(** Installing the slots that [log_writes] filled writes each block's own contents. *)
Lemma install_of_log v v' slot bs :
  (forall x d, (x, d) ∈ log_writes v slot bs -> v' x = d) ->
  install_writes v' slot bs = (fun b => (b, v b)) <$> bs.
Proof.
  revert slot. induction bs as [|b bs IH]; intros slot Hv; [done|]. cbn.
  rewrite (Hv slot (v b)) by set_solver. f_equal. apply IH. set_solver.
Qed.

Lemma slots_not_head v st bs : st ∉ (log_writes v (st + 1) bs).*1.
Proof. rewrite log_writes_fst, elem_of_seqZ. lia. Qed.

Lemma logged_not_head l n bs : logged l n bs -> 1 <= l_size l -> l_start l ∉ bs.
Proof. intros (_ & _ & _ & Hh) Hs Hin. destruct (Hh _ Hin). lia. Qed.

Lemma slots_ok_intro l n A bs :
  geom l n -> asize A = n -> logged l n bs -> lists l bs -> (forall b, b ∈ bs -> room2 A b) ->
  slots_ok (l_start l) (l_start l + l_size l) (l_start l) 0 A (lh_block l) bs.
Proof.
  intros [G1 G2 G3 G4 G5 G6] En (L1 & L2 & L3 & L4) (H1 & H2 & H3) Hr.
  unfold slots_ok. rewrite En. split_and!; try done; lia.
Qed.

(** The store after [write_log] and after the header is written. *)
Lemma logged_store A bs l (st := l_start l)
    (L := log_writes (av A) (st + 1) bs) (LH := L ++ [(st, head_enc bs (av A st))]) :
  aheld A = ∅ -> geom l (asize A) -> logged l (asize A) bs ->
  (forall b, b ∈ bs -> b ∈ adirty A) -> Z.of_nat (size (adirty A)) < NBUF ->
  av (a_puts A L) st = av A st /\ aheld (a_puts A L) = ∅ /\
  Z.of_nat (size (adirty (a_puts A L))) < NBUF /\ asize (a_puts A L) = asize A /\
  aheld (a_puts A LH) = ∅ /\ Z.of_nat (size (adirty (a_puts A LH))) < NBUF /\
  asize (a_puts A LH) = asize A /\ (forall b, b ∈ bs -> b ∈ adirty (a_puts A LH)) /\
  install_writes (av (a_puts A LH)) (st + 1) bs = (fun b => (b, av A b)) <$> bs.
Proof.
  intros E G (L1 & L2 & _ & L4) Hd Hroom.
  assert (Hsz : forall W, Z.of_nat (size (adirty (a_puts A W))) < NBUF).
  { intros W. pose proof (a_puts_dirty_size A W). lia. }
  pose proof (g_size _ _ G). fold st in L4. rewrite !a_puts_held, !a_puts_size, !a_puts_av.
  split_and!; auto.
  - apply apply_notin, slots_not_head.
  - intros b Hb. destruct (L4 b Hb) as [Hb1 Hb2]. rewrite a_puts_dirty. split; [auto|].
    unfold LH, L. rewrite fmap_app, log_writes_fst, not_elem_of_app, elem_of_seqZ. cbn.
    rewrite list_elem_of_singleton. lia.
  - apply install_of_log. intros x d Hx. unfold LH. rewrite apply_app.
    assert (Hxs : x ∈ L.*1) by (apply list_elem_of_fmap; by exists (x, d)).
    rewrite apply_notin; [apply apply_in; [|done]|].
    + unfold L. rewrite log_writes_fst. apply NoDup_seqZ.
    + cbn. rewrite list_elem_of_singleton. intros ->. by apply slots_not_head in Hxs.
Qed.

(** The header block before the transaction is erased. *)
Lemma commit_head v v' st bs :
  st ∉ bs ->
  apply_writes ((log_writes v (st + 1) bs ++ [(st, head_enc bs (v st))]) ++
                ((fun b => (b, v b)) <$> bs)) v' st = head_enc bs (v st).
Proof.
  intros Hst. rewrite !apply_app. rewrite apply_notin.
  - apply fupd_eq.
  - rewrite <- list_fmap_compose. cbn. by rewrite list_fmap_id.
Qed.

Section commit_specs.
Context {S : Type} `{Laws : BufCacheLaws S rep}.
Implicit Types (A : astore).

Lemma install_trans_spec (s : lsys S) A bs (st := l_start (ls_log s)) :
  rep (ls_bc s) A -> aheld A = ∅ -> geom (ls_log s) (asize A) -> logged (ls_log s) (asize A) bs ->
  lists (ls_log s) bs -> (forall b, b ∈ bs -> room2 A b) ->
  wp install_trans s (fun _ s' => ls_log s' = ls_log s /\
    rep (ls_bc s') (a_puts A (install_writes (av A) (st + 1) bs))).
Proof.
  intros R E G L Hl Hr. unfold install_trans, logget. wp_steps. rewrite (g_dev _ _ G).
  apply wp_zoom. rewrite (proj1 Hl).
  replace (Z.to_nat (lenZ bs)) with (length bs) by (unfold lenZ; lia).
  eapply wp_mono; [by eapply (install_loop (rep := rep)); [..|eapply slots_ok_intro]|].
  intros [] s' R'. split; [done|]. by rewrite Z.add_0_r in R'.
Qed.

Lemma write_log_spec (s : lsys S) A bs (st := l_start (ls_log s)) :
  rep (ls_bc s) A -> aheld A = ∅ -> geom (ls_log s) (asize A) -> logged (ls_log s) (asize A) bs ->
  lists (ls_log s) bs -> (forall b, b ∈ bs -> room2 A b) ->
  wp write_log s (fun _ s' => ls_log s' = ls_log s /\
    rep (ls_bc s') (a_puts A (log_writes (av A) (st + 1) bs))).
Proof.
  intros R E G L Hl Hr. unfold write_log, logget. wp_steps. rewrite (g_dev _ _ G).
  apply wp_zoom. rewrite (proj1 Hl).
  replace (Z.to_nat (lenZ bs)) with (length bs) by (unfold lenZ; lia).
  eapply wp_mono; [by eapply (write_log_loop (rep := rep)); [..|eapply slots_ok_intro]|].
  intros [] s' R'. split; [done|]. by rewrite Z.add_0_r in R'.
Qed.

(** Clear the in-memory header and write it: the end of a commit and of a recovery. *)
Lemma clear_head_spec (s : lsys S) A (st := l_start (ls_log s)) :
  rep (ls_bc s) A -> aheld A = ∅ -> geom (ls_log s) (asize A) ->
  Z.of_nat (size (adirty A)) < NBUF ->
  wp (logset (fun l => set_lh 0 (lh_block l) l) ;;; write_head) s (fun _ s' =>
    ls_log s' = set_lh 0 (lh_block (ls_log s)) (ls_log s) /\
    rep (ls_bc s') (a_puts A [(st, put32 (av A st) 0 0)])).
Proof.
  intros R E G Hroom. unfold logset. wp_steps.
  eapply wp_mono; [apply (write_head_spec (rep := rep) _ A []); cbn; try done|].
  - apply (g_dev _ _ G).
  - destruct G. lia.
  - unfold lists. cbn. split_and!; try done. unfold lenZ. cbn. lia.
  - intros [] s' [El R']. cbn in *. done.
Qed.

Lemma commit_spec (s : lsys S) A bs (st := l_start (ls_log s)) :
  rep (ls_bc s) A -> aheld A = ∅ -> geom (ls_log s) (asize A) -> logged (ls_log s) (asize A) bs ->
  lists (ls_log s) bs -> (forall b, b ∈ bs -> b ∈ adirty A) ->
  Z.of_nat (size (adirty A)) < NBUF -> bs <> [] ->
  wp commit s (fun _ s' => ls_log s' = set_lh 0 (lh_block (ls_log s)) (ls_log s) /\
    rep (ls_bc s') (a_puts A (commit_writes st bs (av A)))).
Proof.
  intros R E G L Hl Hd Hroom Hne. unfold commit, logget. wp_step. wp_step.
  rewrite (proj1 Hl). replace (0 <? lenZ bs) with true
    by (symmetry; apply Z.ltb_lt; destruct bs; [done|unfold lenZ; cbn; lia]). cbn [when].
  wp_step. eapply wp_mono; [by apply (write_log_spec s A bs); [..|intros; split; auto]|].
  intros [] s1 [El1 R1]. wp_step.
  destruct (logged_store A bs (ls_log s) E G L Hd Hroom)
    as (Hst & H1 & S1 & Z1 & H2 & S2 & Z2 & D2 & EI).
  change (l_start (ls_log s)) with st in Hst, H1, S1, Z1, H2, S2, Z2, D2, EI, R1.
  eapply wp_mono; [apply (write_head_spec (rep := rep) s1 _ bs R1); rewrite ?El1; try done|].
  { apply (g_dev _ _ G). }
  { rewrite Z1. destruct G. lia. }
  rewrite El1. fold st. rewrite Hst. intros [] s2 [El2 R2]. wp_step.
  change (a_put (a_puts A ?L) ?b ?d) with (a_puts (a_puts A L) [(b, d)]) in R2.
  rewrite <- a_puts_app in R2.
  eapply wp_mono; [apply (install_trans_spec s2 _ bs R2 H2)|].
  1-4: rewrite ?El2, ?El1, ?Z2; try done. { intros b Hb. split; auto. }
  rewrite El2. fold st. rewrite EI, <- a_puts_app. intros [] s3 [El3 R3].
  eapply wp_mono; [apply (clear_head_spec s3 _ R3); rewrite ?El3, ?El2, ?El1|].
  - by rewrite a_puts_held.
  - by rewrite a_puts_size.
  - eapply Z.le_lt_trans; [apply Nat2Z.inj_le, a_puts_dirty_size|done].
  - rewrite El3. fold st. intros [] s4 [El4 R4]. split; [done|].
    rewrite <- a_puts_app in R4. rewrite a_puts_av, commit_head in R4.
    2: { by eapply logged_not_head; [|apply (g_size _ _ G)]. }
    unfold commit_writes. by rewrite <- !app_assoc in R4.
Qed.

Lemma recover_spec (s : lsys S) A (st := l_start (ls_log s)) :
  rep (ls_bc s) A -> aheld A = ∅ -> adirty A = ∅ -> geom (ls_log s) (asize A) ->
  0 <= head_n (av A st) -> logged (ls_log s) (asize A) (head_blocks (av A st)) ->
  wp recover_from_log s (fun _ s' => lh_n (ls_log s') = 0 /\
    geom (ls_log s') (asize A) /\ l_start (ls_log s') = st /\
    rep (ls_bc s') (a_puts A (recover_writes st (av A)))).
Proof.
  intros R E D G Hn L. assert (Hroom : Z.of_nat (size (adirty A)) < NBUF).
  { rewrite D, size_empty. done. }
  assert (En : lenZ (head_blocks (av A st)) = head_n (av A st)).
  { unfold head_blocks, lenZ. rewrite length_fmap, length_seqZ. lia. }
  pose proof G as [G1 G2 G3 G4 G5 G6]. unfold recover_from_log. wp_step.
  eapply wp_mono; [apply (read_head_spec (rep := rep) s A R E); try done; [lia|]|].
  { fold st. destruct L as (_ & _ & L3 & _). lia. }
  fold st. intros [] s1 (R1 & Hl1 & blk & El1 & Hblk). wp_step.
  assert (G' : geom (ls_log s1) (asize A)) by (rewrite El1; by split).
  eapply wp_mono; [apply (install_trans_spec s1 A (head_blocks (av A st)) R1 E G')|]; try done.
  { rewrite El1. done. }
  { intros b _. split; [done|]. right. rewrite D, size_empty. done. }
  rewrite El1. cbn [l_start set_lh]. fold st. intros [] s2 [El2 R2].
  eapply wp_mono; [apply (clear_head_spec s2 _ R2); rewrite ?a_puts_held, ?a_puts_size; try done|].
  - rewrite El2. by split.
  - eapply Z.le_lt_trans; [apply Nat2Z.inj_le, a_puts_dirty_size|done].
  - rewrite El2. cbn [l_start set_lh]. fold st. intros [] s3 [El3 R3].
    rewrite El3. split_and!; [done|by split|done|].
    unfold recover_writes. rewrite a_puts_app. rewrite a_puts_av, apply_notin in R3; [done|].
    rewrite install_writes_fst. by eapply logged_not_head.
Qed.
End commit_specs.

(** ** Crashes *)

(** [d] is a disk that a crash may leave: [old] or [new] is installed and the
    header is empty, or the header lists the blocks of a committed transaction
    whose new contents are in the log. *)
Definition crash_inv (l : log_t) (n : Z) (old new d : Z -> bytes) : Prop :=
  let st := l_start l in
  let is_home := home st (st + l_size l) n in
  (forall b, 0 <= b < n -> wf_block (d b)) /\
  ((head_n (d st) = 0 /\
    ((forall b, is_home b -> d b = old b) \/ (forall b, is_home b -> d b = new b)))
   \/ exists bs, head_n (d st) = lenZ bs /\ head_blocks (d st) = bs /\ logged l n bs /\
        (forall x e, (x, e) ∈ log_writes new (st + 1) bs -> d x = e) /\
        (forall b, is_home b -> b ∉ bs -> d b = new b)).

(** A prefix of [W1 ++ w :: W2] ends in [W1], or has all of it and [w]. *)
Lemma prefix_split {A} (P W1 W2 : list A) w :
  P `prefix_of` W1 ++ w :: W2 ->
  P `prefix_of` W1 \/ exists P', P = W1 ++ w :: P' /\ P' `prefix_of` W2.
Proof.
  intros [k E]. apply app_eq_inv in E as [(m & -> & E)|(m & -> & E)].
  - left. by exists m.
  - destruct m as [|a m]; cbn in E; simplify_eq.
    + left. rewrite app_nil_r. done.
    + right. exists m. split; [done|]. by exists k.
Qed.

Lemma prefix_fst (P W : writes) b : P `prefix_of` W -> b ∉ W.*1 -> b ∉ P.*1.
Proof. intros [k ->] Hb. rewrite fmap_app, not_elem_of_app in Hb. tauto. Qed.

Lemma apply_wf W f n :
  (forall b, 0 <= b < n -> wf_block (f b)) -> (forall b d, (b, d) ∈ W -> wf_block d) ->
  forall b, 0 <= b < n -> wf_block (apply_writes W f b).
Proof.
  revert f. induction W as [|[x d] W IH]; intros f Hf HW; [done|]. apply IH.
  - intros b Hb. cbn. unfold fupd. case_test; [|auto]. apply (HW x). apply list_elem_of_here.
  - intros b e Hb. apply (HW b). by apply list_elem_of_further.
Qed.

Lemma log_writes_elem v slot bs x d :
  (x, d) ∈ log_writes v slot bs -> exists b, b ∈ bs /\ d = v b.
Proof.
  revert slot. induction bs as [|b bs IH]; intros slot Hx; [by apply not_elem_of_nil in Hx|].
  cbn in Hx. apply elem_of_cons in Hx as [[= -> ->]|Hx].
  - exists b. split; [apply list_elem_of_here|done].
  - destruct (IH _ Hx) as (c & Hc & ->). exists c. split; [by apply list_elem_of_further|done].
Qed.

Lemma fst_pair (v : Z -> bytes) bs : ((fun b => (b, v b)) <$> bs).*1 = bs.
Proof. rewrite <- list_fmap_compose. cbn. apply list_fmap_id. Qed.

Section crash.
Variables (l : log_t) (n : Z).
#[local] Abbreviation st := (l_start l).
#[local] Abbreviation is_home := (home (l_start l) (l_start l + l_size l) n).
Hypothesis G : geom l n.

Lemma home_not_slot v bs b :
  logged l n bs -> is_home b -> (b ∉ (log_writes v (st + 1) bs).*1) /\ b <> st.
Proof.
  intros (_ & L2 & _ & _) [Hb1 Hb2]. rewrite log_writes_fst, elem_of_seqZ.
  pose proof (g_size _ _ G). lia.
Qed.

Section commit_crash.
Variables (bs : list Z) (d0 v : Z -> bytes).
Hypothesis L : logged l n bs.
Hypothesis Hold : forall b, is_home b -> b ∉ bs -> d0 b = v b.
Hypothesis Hclean : head_n (d0 st) = 0.
Hypothesis Hwf0 : forall b, 0 <= b < n -> wf_block (d0 b).
Hypothesis Hwfv : forall b, 0 <= b < n -> wf_block (v b).

Let LW := log_writes v (st + 1) bs.
Let HD := head_enc bs (v st).

Lemma st_range : 0 <= st < n.
Proof. destruct G. lia. Qed.

Lemma commit_writes_wf b d : (b, d) ∈ commit_writes st bs v -> wf_block d.
Proof.
  pose proof st_range as Hst. assert (HH : wf_block (head_enc bs (v st))).
  { apply head_enc_wf; [auto|]. apply L. }
  assert (Hb : forall b, b ∈ bs -> wf_block (v b)).
  { intros x Hx. apply Hwfv. by apply L. }
  unfold commit_writes. rewrite elem_of_app, elem_of_cons, elem_of_app, list_elem_of_singleton.
  intros [Hx|[[= -> ->]|[Hx|[= -> ->]]]]; try done.
  - apply log_writes_elem in Hx as (c & Hc & ->). auto.
  - apply list_elem_of_fmap in Hx as (c & [= -> ->] & Hc). auto.
  - apply wf_block_put32; [done|lia|unfold BSIZE; lia].
Qed.

(** The disk once the header is written and while the blocks are installed. *)
Lemma committed_crash P :
  P `prefix_of` ((fun b => (b, v b)) <$> bs) ->
  let d := apply_writes (LW ++ (st, HD) :: P) d0 in
  d st = HD /\ (forall x e, (x, e) ∈ LW -> d x = e) /\ (forall b, is_home b -> b ∉ bs -> d b = v b).
Proof using G L Hold.
  intros HP. assert (Hnot : forall b, b ∉ bs -> b ∉ P.*1).
  { intros b Hb. eapply prefix_fst; [exact HP|]. by rewrite fst_pair. }
  assert (Hst : st ∉ bs) by (eapply logged_not_head; [exact L|apply (g_size _ _ G)]).
  cbv zeta. rewrite apply_app. change (apply_writes (?w :: P)) with
    (fun f => apply_writes P (fupd f w.1 w.2)). cbv beta. cbn [fst snd]. split_and!.
  - rewrite apply_notin by auto. apply fupd_eq.
  - intros x e Hx. assert (Hx' : x ∈ LW.*1) by (apply list_elem_of_fmap; by exists (x, e)).
    assert (x <> st) by (intros ->; by apply slots_not_head in Hx').
    rewrite apply_notin, fupd_ne; [|done|].
    + apply apply_in; [|done]. unfold LW. rewrite log_writes_fst. apply NoDup_seqZ.
    + apply Hnot. intros Hb. destruct (home_not_slot v bs x L) as [Hns _]; [|done].
      by apply L.
  - intros b Hb Hnb. destruct (home_not_slot v bs b L Hb) as [H1 H2].
    rewrite apply_notin, fupd_ne, apply_notin; auto.
Qed.

Lemma commit_done b : is_home b -> apply_writes (commit_writes st bs v) d0 b = v b.
Proof using G L Hold.
  intros Hb. destruct (home_not_slot v bs b L Hb) as [H1 H2]. unfold commit_writes.
  rewrite app_comm_cons, app_assoc, apply_app, (apply_notin [_]) by (cbn; by rewrite list_elem_of_singleton).
  destruct (decide (b ∈ bs)) as [Hin|Hnin].
  - rewrite cons_middle, !apply_app. apply apply_in.
    + rewrite fst_pair. apply L.
    + apply list_elem_of_fmap. by exists b.
  - by apply (committed_crash _ (reflexivity _)).
Qed.

Lemma commit_done_head : head_n (apply_writes (commit_writes st bs v) d0 st) = 0.
Proof.
  unfold commit_writes. rewrite app_comm_cons, app_assoc, apply_app.
  replace (apply_writes [(st, put32 (head_enc bs (v st)) 0 0)] _ st)
    with (put32 (head_enc bs (v st)) 0 0) by (symmetry; apply fupd_eq).
  apply head_n_clear. apply (head_enc_wf bs (v st)); [apply Hwfv, st_range|apply L].
Qed.

Lemma commit_crash_inv P :
  P `prefix_of` commit_writes st bs v -> crash_inv l n d0 v (apply_writes P d0).
Proof.
  intros HP. split.
  { apply apply_wf; [done|]. intros b d Hb. apply (commit_writes_wf b).
    destruct HP as [k ->]. apply elem_of_app. by left. }
  unfold commit_writes in HP. apply prefix_split in HP as [HP|(P' & -> & HP)].
  - left. split.
    + rewrite apply_notin; [done|]. eapply prefix_fst; [exact HP|apply slots_not_head].
    + left. intros b Hb. apply apply_notin. eapply prefix_fst; [exact HP|].
      by apply home_not_slot.
  - apply prefix_split in HP as [HP|(P'' & -> & HP)].
    + right. exists bs. destruct (committed_crash P' HP) as (E1 & E2 & E3).
      change (log_writes v (st + 1) bs) with LW. change (head_enc bs (v st)) with HD.
      rewrite E1. unfold HD. destruct (head_dec_enc bs (v st)) as [-> ->]; try done.
      * apply Hwfv, st_range.
      * apply L.
      * apply Forall_forall. intros b Hb. destruct (proj2 (proj2 (proj2 L)) b Hb).
        destruct G. lia.
    + apply prefix_nil_inv in HP as ->. left. split; [apply commit_done_head|].
      right. apply commit_done.
Qed.
End commit_crash.
End crash.

Lemma install_writes_elem v slot bs x d :
  (x, d) ∈ install_writes v slot bs -> exists y, slot <= y < slot + lenZ bs /\ d = v y.
Proof.
  revert slot. induction bs as [|b bs IH]; intros slot Hx; [by apply not_elem_of_nil in Hx|].
  assert (E : lenZ (b :: bs) = lenZ bs + 1) by (unfold lenZ; cbn; lia).
  pose proof (lenZ_nonneg bs). cbn in Hx. apply elem_of_cons in Hx as [[= -> ->]|Hx].
  - exists slot. split; [lia|done].
  - destruct (IH _ Hx) as (y & Hy & ->). exists y. split; [lia|done].
Qed.

Section recover_crash.
Variables (l : log_t) (n : Z) (old new : Z -> bytes).
#[local] Abbreviation st := (l_start l).
#[local] Abbreviation is_home := (home (l_start l) (l_start l + l_size l) n).
Hypothesis G : geom l n.

Lemma head_empty d : head_n d = 0 -> head_blocks d = [].
Proof. intros E. unfold head_blocks. by rewrite E. Qed.

Lemma recover_pre d :
  crash_inv l n old new d -> 0 <= head_n (d st) /\ logged l n (head_blocks (d st)).
Proof.
  intros [_ [[E _]|(bs & E1 & E2 & L & _)]].
  - rewrite head_empty by done. rewrite E. destruct G. split; [lia|].
    split_and!; [apply NoDup_nil_2|unfold lenZ; cbn; lia|done|]. intros b Hb. by apply not_elem_of_nil in Hb.
  - rewrite E1, E2. split; [apply lenZ_nonneg|done].
Qed.

Lemma recover_writes_wf d b e :
  crash_inv l n old new d -> (b, e) ∈ recover_writes st d -> wf_block e.
Proof.
  intros Hinv. destruct (recover_pre d Hinv) as [_ L]. destruct Hinv as [Hwf _].
  destruct G. unfold recover_writes.
  rewrite elem_of_app, list_elem_of_singleton. intros [Hx|[= -> ->]].
  - apply install_writes_elem in Hx as (y & Hy & ->). destruct L as (_ & L2 & _).
    apply Hwf. lia.
  - apply wf_block_put32; [apply Hwf|..]; unfold BSIZE; lia.
Qed.

(** The disk after a complete recovery. *)
Lemma recover_done d :
  crash_inv l n old new d -> let d' := apply_writes (recover_writes st d) d in
  head_n (d' st) = 0 /\
  ((forall b, is_home b -> d' b = old b) \/ (forall b, is_home b -> d' b = new b)).
Proof.
  intros Hinv. cbv zeta. pose proof (recover_pre d Hinv) as [_ L].
  pose proof (g_size _ _ G) as Gs. unfold recover_writes. rewrite apply_app. split.
  - replace (apply_writes [(st, put32 (d st) 0 0)] _ st) with (put32 (d st) 0 0)
      by (symmetry; apply fupd_eq).
    apply head_n_clear. destruct Hinv as [Hwf _]. apply Hwf. destruct G. lia.
  - assert (Hne : forall b, is_home b -> b ∉ [(st, put32 (d st) 0 0)].*1).
    { intros b [_ Hb]. cbn. rewrite list_elem_of_singleton. lia. }
    destruct Hinv as [Hwf [[E [Ho|Hn]]|(bs & E1 & E2 & L' & Hs & Hn)]].
    + left. intros b Hb. rewrite apply_notin by auto. rewrite head_empty by done. by apply Ho.
    + right. intros b Hb. rewrite apply_notin by auto. rewrite head_empty by done. by apply Hn.
    + right. intros b Hb. rewrite apply_notin by auto. rewrite E2.
      rewrite (install_of_log new d (st + 1) bs Hs). destruct (decide (b ∈ bs)) as [Hin|Hnin].
      * apply apply_in; [rewrite fst_pair; apply L'|]. apply list_elem_of_fmap. by exists b.
      * rewrite apply_notin; [by apply Hn|]. by rewrite fst_pair.
Qed.

Lemma recover_crash_inv P d :
  crash_inv l n old new d -> P `prefix_of` recover_writes st d ->
  crash_inv l n old new (apply_writes P d).
Proof.
  intros Hinv HP. pose proof (recover_pre d Hinv) as [_ L]. split.
  { apply apply_wf; [apply Hinv|]. intros b e Hb. apply (recover_writes_wf d b e Hinv).
    destruct HP as [k ->]. apply elem_of_app. by left. }
  unfold recover_writes in HP. apply prefix_split in HP as [HP|(P' & -> & HP)].
  2: { apply prefix_nil_inv in HP as ->. left. by apply recover_done. }
  assert (Hnot : forall b, b ∉ head_blocks (d st) -> apply_writes P d b = d b).
  { intros b Hb. apply apply_notin. eapply prefix_fst; [exact HP|]. by rewrite install_writes_fst. }
  assert (Hst : apply_writes P d st = d st).
  { apply Hnot. eapply logged_not_head; [exact L|apply (g_size _ _ G)]. }
  rewrite Hst. destruct Hinv as [Hwf [[E Hcase]|(bs & E1 & E2 & L' & Hs & Hn)]].
  - left. split; [done|]. rewrite head_empty in Hnot by done.
    destruct Hcase as [Ho|Ho]; [left|right]; intros b Hb; rewrite Hnot by apply not_elem_of_nil;
      by apply Ho.
  - right. exists bs. rewrite E2 in Hnot. split_and!; try done.
    + intros x e Hx. rewrite Hnot; [by apply Hs|]. intros Hin.
      destruct (home_not_slot l n G new bs x L') as [Hns _]; [by apply L'|].
      apply Hns, list_elem_of_fmap. by exists (x, e).
    + intros b Hb Hnb. rewrite Hnot by done. by apply Hn.
Qed.
End recover_crash.
