(* ===== verification/Txn.v ===== *)
(** * The transaction interface

    What the log and the buffer cache together promise to the file system
    (fs.c): the abstract state [fstore], the operations the file system calls
    as a class, and their laws.  The instance at the end of the file discharges
    the laws for log.c over any buffer cache. *)

From S2P Require Import Prelude Bytes Store Log.

(** [f_view b] is the contents of block [b]; [f_log] are the blocks of the
    running transaction; [f_taint] are the held blocks that were modified and
    not yet passed to [log_write]; [f_ops] counts the operations between
    [begin_op] and [end_op].  The log is at [f_lo <= b < f_hi]. *)
Record fstore := mkFstore {
  f_size : Z;
  f_lo : Z;
  f_hi : Z;
  f_view : Z -> bytes;
  f_log : gset Z;
  f_held : gmap Z Z;
  f_taint : gset Z;
  f_ops : Z;
}.

#[export] Instance fstore_equiv : Equiv fstore := fun F G =>
  f_size F = f_size G /\ f_lo F = f_lo G /\ f_hi F = f_hi G /\
  (forall b, f_view F b = f_view G b) /\ f_log F = f_log G /\ f_held F = f_held G /\
  f_taint F = f_taint G /\ f_ops F = f_ops G.
#[export] Instance fstore_equivalence : Equivalence (≡@{fstore}).
Proof.
  split.
  - intros F. by unfold equiv, fstore_equiv.
  - intros F G (H1 & H2 & H3 & H4 & H5 & H6 & H7 & H8). by split_and!.
  - intros F G K (H1 & H2 & H3 & H4 & H5 & H6 & H7 & H8) (K1 & K2 & K3 & K4 & K5 & K6 & K7 & K8).
    split_and!; intros; etrans; eauto.
Qed.

Definition f_home (F : fstore) (b : Z) : Prop := home (f_lo F) (f_hi F) (f_size F) b.
Definition f_is_held (F : fstore) (b : Z) : Prop := exists h, f_held F !! h = Some b.

(** The blocks a transaction may have: what [log_write] accepts. *)
Definition f_max (F : fstore) : Z := Z.min LOGSIZE (f_hi F - f_lo F - 1).

Definition f_room (F : fstore) (b : Z) : Prop :=
  b ∈ f_log F \/ Z.of_nat (size (f_held F)) + Z.of_nat (size (f_log F)) < NBUF.

Definition f_hold (F : fstore) (h b : Z) : fstore :=
  mkFstore (f_size F) (f_lo F) (f_hi F) (f_view F) (f_log F) (<[h := b]> (f_held F))
    (f_taint F) (f_ops F).
Definition f_set (F : fstore) (b : Z) (d : bytes) : fstore :=
  mkFstore (f_size F) (f_lo F) (f_hi F) (fupd (f_view F) b d) (f_log F) (f_held F)
    (f_taint F ∪ {[b]}) (f_ops F).
Definition f_logw (F : fstore) (b : Z) : fstore :=
  mkFstore (f_size F) (f_lo F) (f_hi F) (f_view F) (f_log F ∪ {[b]}) (f_held F)
    (f_taint F ∖ {[b]}) (f_ops F).
Definition f_relse (F : fstore) (h : Z) : fstore :=
  mkFstore (f_size F) (f_lo F) (f_hi F) (f_view F) (f_log F) (delete h (f_held F))
    (f_taint F) (f_ops F).
Definition f_setops (F : fstore) (k : Z) : fstore :=
  mkFstore (f_size F) (f_lo F) (f_hi F) (f_view F) (f_log F) (f_held F) (f_taint F) k.
(** The transaction is committed; [v] differs from the view in the log only. *)
Definition f_commit (F : fstore) (v : Z -> bytes) : fstore :=
  mkFstore (f_size F) (f_lo F) (f_hi F) v ∅ (f_held F) (f_taint F) 0.

Record fstore_wf (F : fstore) : Prop := {
  fw_view : forall b, 0 <= b < f_size F -> wf_block (f_view F b);
  fw_held : forall h b, f_held F !! h = Some b -> f_home F b;
  fw_inj : forall h1 h2 b, f_held F !! h1 = Some b -> f_held F !! h2 = Some b -> h1 = h2;
}.

Class TxnStore (S : Type) := {
  tbread : Z -> Z -> ST S Z;
  tdata : Z -> S -> bytes;
  tset : Z -> bytes -> ST S unit;
  tlog_write : Z -> ST S unit;
  tbrelse : Z -> ST S unit;
  tbegin_op : ST S unit;
  tend_op : ST S unit;
}.

Class TxnLaws (S : Type) `{TxnStore S} (rep : S -> fstore -> Prop) := {
  tlaw_wf s F : rep s F -> fstore_wf F;
  tlaw_proper s :: Proper ((≡@{fstore}) ==> impl) (rep s);
  tlaw_data s F h b : rep s F -> f_held F !! h = Some b -> tdata h s = f_view F b;
  tlaw_bread s F b :
    rep s F -> f_home F b -> ~ f_is_held F b -> f_room F b ->
    wp (tbread ROOTDEV b) s (fun h s' => f_held F !! h = None /\ rep s' (f_hold F h b));
  tlaw_set s F h b d :
    rep s F -> f_held F !! h = Some b -> wf_block d ->
    wp (tset h d) s (fun _ s' => rep s' (f_set F b d));
  tlaw_log_write s F h b :
    rep s F -> f_held F !! h = Some b -> Z.of_nat (size (f_log F)) < f_max F -> 1 <= f_ops F ->
    wp (tlog_write h) s (fun _ s' => rep s' (f_logw F b));
  tlaw_brelse s F h b :
    rep s F -> f_held F !! h = Some b -> b ∉ f_taint F ->
    wp (tbrelse h) s (fun _ s' => rep s' (f_relse F h));
  tlaw_begin s F :
    rep s F -> Z.of_nat (size (f_log F)) + (f_ops F + 1) * MAXOPBLOCKS <= LOGSIZE ->
    wp tbegin_op s (fun _ s' => rep s' (f_setops F (f_ops F + 1)));
  tlaw_end_last s F :
    rep s F -> f_held F = ∅ -> f_taint F = ∅ -> f_ops F = 1 ->
    Z.of_nat (size (f_log F)) < NBUF ->
    wp tend_op s (fun _ s' => exists v,
      (forall b, f_home F b -> v b = f_view F b) /\ rep s' (f_commit F v));
  tlaw_end_other s F :
    rep s F -> 1 < f_ops F ->
    wp tend_op s (fun _ s' => rep s' (f_setops F (f_ops F - 1)));
}.

(** ** log.c implements the interface *)

#[export] Instance log_txn (S : Type) `{BufCache S} : TxnStore (lsys S) := {
  tbread dev b := bc (bread dev b);
  tdata h s := bdata h (ls_bc s);
  tset h d := bc (bset h d);
  tlog_write := log_write;
  tbrelse h := bc (brelse h);
  tbegin_op := begin_op;
  tend_op := end_op;
}.

Section log_txn_laws.
Context {S : Type} `{Laws : BufCacheLaws S rep}.

Record trep (s : lsys S) (F : fstore) (A : astore) (bs : list Z) : Prop := {
  tr_rep : rep (ls_bc s) A;
  tr_geom : geom (ls_log s) (asize A);
  tr_logged : logged (ls_log s) (asize A) bs;
  tr_lists : lists (ls_log s) bs;
  tr_dirty : adirty A = list_to_set bs;
  tr_committing : l_committing (ls_log s) = 0;
  tr_head : head_n (ad A (l_start (ls_log s))) = 0;
  tr_size : f_size F = asize A;
  tr_lo : f_lo F = l_start (ls_log s);
  tr_hi : f_hi F = l_start (ls_log s) + l_size (ls_log s);
  tr_view : forall b, f_view F b = av A b;
  tr_log : f_log F = adirty A;
  tr_held : f_held F = aheld A;
  tr_home : forall h b, aheld A !! h = Some b -> f_home F b;
  tr_taint : forall b, b ∉ f_taint F -> b ∈ adirty A \/ av A b = ad A b;
  tr_ops : f_ops F = l_outstanding (ls_log s);
}.

Definition log_rep (s : lsys S) (F : fstore) : Prop := exists A bs, trep s F A bs.

Lemma trep_size s F A bs : trep s F A bs -> Z.of_nat (size (adirty A)) = lenZ bs.
Proof. intros R. rewrite (tr_dirty _ _ _ _ R), size_list_to_set; [done|]. apply (tr_logged _ _ _ _ R). Qed.

(** ** [log_write] *)

Lemma log_index_spec n i block b :
  let k := log_index n i block b in
  i <= k <= i + Z.of_nat n /\ (k < i + Z.of_nat n -> rd block k = b) /\
  (forall j, i <= j < k -> rd block j <> b).
Proof.
  revert i. induction n as [|n IH]; intros i; cbn [log_index]; [split_and!; intros; lia|].
  case_test; [subst; split_and!; intros; try lia; done|].
  destruct (IH (i + 1)) as (H1 & H2 & H3). split_and!; [lia|lia| |].
  - intros Hk. apply H2. lia.
  - intros j Hj. destruct (Z.eq_dec j i) as [->|]; [done|]. apply H3. lia.
Qed.

(** The blocks listed after [log_write] of block [b]. *)
Definition absorb (bs : list Z) (b : Z) : list Z :=
  if decide (b ∈ bs) then bs else bs ++ [b].

Lemma lists_elem l bs j : lists l bs -> 0 <= j < lenZ bs -> rd (lh_block l) j ∈ bs.
Proof.
  intros (_ & Hb & _) Hj. rewrite Hb by done.
  eapply list_elem_of_lookup_2. by apply rd_lookup_Some.
Qed.

Lemma log_add_spec l bs b :
  lists l bs -> lenZ (lh_block l) = LOGSIZE -> lenZ bs < LOGSIZE -> lenZ bs < l_size l - 1 ->
  1 <= l_outstanding l ->
  exists blk, log_add l b = Ok (set_lh (lenZ (absorb bs b)) blk l) /\ lenZ blk = LOGSIZE /\
    lists (set_lh (lenZ (absorb bs b)) blk l) (absorb bs b).
Proof.
  intros Hl Hlen Hn1 Hn2 Ho. pose proof Hl as (Hn & Hb & _). unfold log_add. rewrite Hn.
  pose proof (lenZ_nonneg bs) as Hnn.
  rewrite (proj2 (Z.leb_gt _ _)), (proj2 (Z.leb_gt _ _)), (proj2 (Z.ltb_ge _ _)) by lia. cbn.
  destruct (log_index_spec (Z.to_nat (lenZ bs)) 0 (lh_block l) b) as (H1 & H2 & H3).
  set (k := log_index _ _ _ _) in *. rewrite Z2Nat.id in H1, H2 by lia.
  assert (Hin : b ∈ bs <-> k < lenZ bs).
  { split; [|intros Hk; rewrite <- (H2 ltac:(lia)); by apply (lists_elem l bs k Hl); lia].
    intros (j & Hj)%list_elem_of_lookup. destruct (Z.lt_ge_cases k (lenZ bs)); [done|].
    exfalso. pose proof (lookup_lt_Some _ _ _ Hj). apply (H3 (Z.of_nat j)); [unfold lenZ in *; lia|].
    rewrite Hb by (unfold lenZ in *; lia). unfold rd. rewrite Nat2Z.id.
    by apply list_lookup_total_correct. }
  exists (upd (lh_block l) k b). unfold absorb, lists, set_lh. destruct (decide (b ∈ bs)) as [Hbin|Hbnin].
  - apply Hin in Hbin. rewrite (proj2 (Z.eqb_neq _ _)) by lia. split_and!; cbn; try done; try lia.
    + by rewrite upd_lenZ.
    + intros j Hj. rewrite rd_upd by lia. case_test; [subst j|by apply Hb].
      rewrite <- Hb by lia. symmetry. apply H2. lia.
  - assert (~ k < lenZ bs) by (intros Hk; by apply Hbnin, Hin).
    assert (Ek : k = lenZ bs) by lia. rewrite Ek. rewrite Z.eqb_refl, lenZ_app.
    split_and!; cbn; try done; try (unfold lenZ in *; cbn; lia).
    + by rewrite upd_lenZ.
    + intros j Hj. rewrite rd_upd by lia. case_test.
      * subst j. rewrite rd_app_r, Z.sub_diag by lia. done.
      * rewrite rd_app_l by (change (lenZ [b]) with 1 in Hj; lia). apply Hb.
        change (lenZ [b]) with 1 in Hj. lia.
Qed.

Lemma log_rep_wf s F : log_rep s F -> fstore_wf F.
Proof.
  intros (A & bs & R). destruct (law_wf _ _ (tr_rep _ _ _ _ R)) as [W1 W2 W3 W4 W5 W6].
  destruct R. split.
  - intros b Hb. rewrite tr_view0. apply W1. congruence.
  - intros h b. rewrite tr_held0. apply tr_home0.
  - intros h1 h2 b. rewrite tr_held0. apply W6.
Qed.

Lemma log_rep_proper s : Proper ((≡@{fstore}) ==> impl) (log_rep s).
Proof.
  intros F G (E1 & E2 & E3 & E4 & E5 & E6 & E7 & E8) (A & bs & R). exists A, bs. destruct R.
  split; try done; try congruence.
  - intros h b Hh. specialize (tr_home0 h b Hh). unfold f_home in *. by rewrite <- E1, <- E2, <- E3.
  - intros b. rewrite <- E7. apply tr_taint0.
Qed.

Lemma log_law_bread s F b :
  log_rep s F -> f_home F b -> ~ f_is_held F b -> f_room F b ->
  wp (bc (bread ROOTDEV b)) s (fun h s' => f_held F !! h = None /\ log_rep s' (f_hold F h b)).
Proof.
  intros (A & bs & R) Hb Hnh Hroom. apply wp_zoom.
  eapply wp_mono; [apply (law_bread (rep := rep) _ A b); [apply (tr_rep _ _ _ _ R)|..]|].
  - rewrite <- (tr_size _ _ _ _ R). apply Hb.
  - intros [h Hh]. apply Hnh. exists h. by rewrite (tr_held _ _ _ _ R).
  - unfold f_room in Hroom. by rewrite (tr_held _ _ _ _ R), (tr_log _ _ _ _ R) in Hroom.
  - intros h c [Hf Rc]. rewrite (tr_held _ _ _ _ R). split; [done|].
    exists (a_hold A h b), bs. destruct R. split; cbn; try done; [by rewrite tr_held0|].
    intros h' x [[_ <-]|[_ Hx]]%lookup_insert_Some; [done|]. by apply (tr_home0 h').
Qed.

Lemma log_law_set s F h b d :
  log_rep s F -> f_held F !! h = Some b -> wf_block d ->
  wp (bc (bset h d)) s (fun _ s' => log_rep s' (f_set F b d)).
Proof.
  intros (A & bs & R) Hh Hd. rewrite (tr_held _ _ _ _ R) in Hh. apply wp_zoom.
  eapply wp_mono; [by apply (law_bset (rep := rep) _ A h b d); [apply (tr_rep _ _ _ _ R)|..]|].
  intros [] c Rc. exists (a_set A b d), bs. destruct R. split; cbn; try done.
  - intros x. unfold fupd. by case_test.
  - intros x. rewrite not_elem_of_union, not_elem_of_singleton. intros [Hx Hne].
    rewrite fupd_ne by done. auto.
Qed.

Lemma log_law_brelse s F h b :
  log_rep s F -> f_held F !! h = Some b -> b ∉ f_taint F ->
  wp (bc (brelse h)) s (fun _ s' => log_rep s' (f_relse F h)).
Proof.
  intros (A & bs & R) Hh Hb. rewrite (tr_held _ _ _ _ R) in Hh. apply wp_zoom.
  eapply wp_mono; [apply (law_brelse (rep := rep) _ A h b); [apply (tr_rep _ _ _ _ R)|done|]|].
  { by apply (tr_taint _ _ _ _ R). }
  intros [] c Rc. exists (a_relse A h), bs. destruct R. split; cbn; try done; [by rewrite tr_held0|].
  intros h' x [_ Hx]%lookup_delete_Some. by apply (tr_home0 h').
Qed.

Lemma absorb_nodup bs b : NoDup bs -> NoDup (absorb bs b).
Proof.
  intros Hnd. unfold absorb. case_decide; [done|]. apply NoDup_app.
  split_and!; [done| |apply NoDup_singleton]. intros x Hx ->%list_elem_of_singleton. done.
Qed.
Lemma absorb_elem bs b x : x ∈ absorb bs b <-> x ∈ bs \/ x = b.
Proof.
  unfold absorb. case_decide as E; [|rewrite elem_of_app, list_elem_of_singleton; done].
  split; [by left|]. by intros [?| ->].
Qed.
Lemma absorb_len bs b : lenZ (absorb bs b) <= lenZ bs + 1.
Proof. unfold absorb. case_decide; [lia|]. rewrite lenZ_app. done. Qed.

Lemma log_law_log_write s F h b :
  log_rep s F -> f_held F !! h = Some b -> Z.of_nat (size (f_log F)) < f_max F -> 1 <= f_ops F ->
  wp (log_write h) s (fun _ s' => log_rep s' (f_logw F b)).
Proof.
  intros (A & bs & R) Hh Hmax Hops. rewrite (tr_held _ _ _ _ R) in Hh.
  pose proof (trep_size _ _ _ _ R) as Hsz. unfold f_max in Hmax.
  rewrite (tr_log _ _ _ _ R), (tr_lo _ _ _ _ R), (tr_hi _ _ _ _ R) in Hmax.
  rewrite (tr_ops _ _ _ _ R) in Hops. pose proof (tr_geom _ _ _ _ R) as G.
  destruct (log_add_spec (ls_log s) bs b (tr_lists _ _ _ _ R) (g_block _ _ G) ltac:(lia)
    ltac:(lia) Hops) as (blk & Eadd & Hblk & Hlists).
  unfold log_write, logget. wp_steps. rewrite (law_bblock _ _ _ _ (tr_rep _ _ _ _ R) Hh), Eadd.
  unfold logset. wp_steps. apply wp_zoom. cbn.
  eapply wp_mono; [by apply (law_bpin (rep := rep) _ A h b); [apply (tr_rep _ _ _ _ R)|]|].
  intros [] c Rc. exists (a_pin A b), (absorb bs b).
  pose proof (tr_home _ _ _ _ R h b Hh) as Hb. pose proof (absorb_len bs b) as Hal.
  destruct R. destruct tr_logged0 as (L1 & L2 & L3 & L4). split; cbn; try done.
  - by destruct tr_geom0; split.
  - split_and!; [by apply absorb_nodup|cbn; lia|cbn; lia|]. cbn. intros x Hx%absorb_elem.
    destruct Hx as [Hx| ->]; [by apply L4|]. unfold f_home in Hb.
    by rewrite tr_lo0, tr_hi0, tr_size0 in Hb.
  - rewrite tr_dirty0. apply set_eq. intros x.
    rewrite elem_of_union, !elem_of_list_to_set, elem_of_singleton, absorb_elem. done.
  - by rewrite tr_log0.
  - intros x. rewrite not_elem_of_difference, elem_of_singleton, elem_of_union, elem_of_singleton.
    intros [Hx| ->]; [|by left; right]. destruct (tr_taint0 x Hx); [by left; left|by right].
Qed.

Lemma log_law_begin s F :
  log_rep s F -> Z.of_nat (size (f_log F)) + (f_ops F + 1) * MAXOPBLOCKS <= LOGSIZE ->
  wp begin_op s (fun _ s' => log_rep s' (f_setops F (f_ops F + 1))).
Proof.
  intros (A & bs & R) Hroom. pose proof (trep_size _ _ _ _ R) as Hsz.
  rewrite (tr_log _ _ _ _ R), Hsz, (tr_ops _ _ _ _ R) in Hroom.
  unfold begin_op, logget, log_admit. wp_steps. rewrite (tr_committing _ _ _ _ R). cbn.
  rewrite (proj1 (tr_lists _ _ _ _ R)), (proj2 (Z.ltb_ge _ _)) by lia. unfold logset. wp_steps.
  exists A, bs. destruct R. split; cbn; try done; [by destruct tr_geom0; split|congruence].
Qed.

Lemma log_law_end_other s F :
  log_rep s F -> 1 < f_ops F ->
  wp end_op s (fun _ s' => log_rep s' (f_setops F (f_ops F - 1))).
Proof.
  intros (A & bs & R) Hops. rewrite (tr_ops _ _ _ _ R) in Hops.
  unfold end_op, logget, logset. wp_steps; [by rewrite (tr_committing _ _ _ _ R)|].
  rewrite (proj2 (Z.eqb_neq _ _)) by lia. wp_steps.
  exists A, bs. destruct R. split; cbn; try done; [by destruct tr_geom0; split|congruence].
Qed.

(** The disk writes of the last [end_op]. *)
Definition end_writes (st : Z) (bs : list Z) (v : Z -> bytes) : writes :=
  match bs with [] => [] | _ => commit_writes st bs v end.

Lemma commit_store A l bs :
  astore_wf A -> geom l (asize A) -> logged l (asize A) bs ->
  adirty A = list_to_set bs -> (forall b, b ∈ adirty A \/ av A b = ad A b) ->
  head_n (ad A (l_start l)) = 0 ->
  let A' := a_puts A (end_writes (l_start l) bs (av A)) in
  adirty A' = ∅ /\ (forall b, av A' b = ad A' b) /\ head_n (ad A' (l_start l)) = 0 /\
  (forall b, home (l_start l) (l_start l + l_size l) (asize A) b -> av A' b = av A b).
Proof.
  intros Hwf G L D Hc Hhd. cbv zeta. rewrite a_puts_av, a_puts_ad.
  assert (Hold : forall b, b ∉ bs -> av A b = ad A b).
  { intros b Hb. destruct (Hc b) as [Hin|]; [|done]. rewrite D, elem_of_list_to_set in Hin. done. }
  destruct (decide (bs = [])) as [->|Hne].
  { split_and!; try done. intros b. apply Hold, not_elem_of_nil. }
  assert (E : end_writes (l_start l) bs (av A) = commit_writes (l_start l) bs (av A)) by by destruct bs.
  rewrite E. split_and!.
  - apply leibniz_equiv, elem_of_equiv_empty. intros x. rewrite a_puts_dirty, D.
    rewrite elem_of_list_to_set. intros [Hx Hn]. apply Hn. unfold commit_writes.
    rewrite fmap_app, fmap_cons, fmap_app, fst_pair. set_solver.
  - intros b. destruct (decide (b ∈ bs)) as [Hin|Hnin]; [|by apply apply_ext; auto].
    pose proof (proj2 (proj2 (proj2 L)) b Hin) as Hh.
    rewrite (commit_done l _ G bs (av A)), (commit_done l _ G bs (ad A)); try done.
    intros x _ Hx. symmetry. auto.
  - eapply commit_done_head; [exact G|exact L|]. apply (aw_view _ Hwf).
  - intros b Hb. by apply (commit_done l _ G bs).
Qed.

Lemma end_op_writes s F A bs :
  trep s F A bs -> f_held F = ∅ -> f_ops F = 1 -> Z.of_nat (size (f_log F)) < NBUF ->
  wp end_op s (fun _ s' =>
    ls_log s' = set_committing 0 (set_lh 0 (lh_block (ls_log s)) (set_ops 0 (ls_log s))) /\
    rep (ls_bc s') (a_puts A (end_writes (l_start (ls_log s)) bs (av A)))).
Proof.
  intros R Hh Hops Hroom.
  rewrite (tr_held _ _ _ _ R) in Hh. rewrite (tr_ops _ _ _ _ R) in Hops.
  rewrite (tr_log _ _ _ _ R) in Hroom. pose proof (tr_geom _ _ _ _ R) as G.
  unfold end_op, logget, logset. wp_steps; [by rewrite (tr_committing _ _ _ _ R)|].
  rewrite Hops. change (1 - 1 =? 0) with true. change (1 - 1) with 0. cbv iota. wp_steps. cbn.
  destruct (decide (bs = [])) as [->|Hne].
  - unfold commit, logget. wp_step. wp_step. cbn. pose proof (proj1 (tr_lists _ _ _ _ R)) as En.
    rewrite En. change (0 <? lenZ (@nil Z)) with false. cbn [when]. wp_steps. cbn.
    split; [|apply (tr_rep _ _ _ _ R)]. unfold set_committing, set_lh, set_ops. cbn. by rewrite En.
  - assert (E : end_writes (l_start (ls_log s)) bs (av A) =
      commit_writes (l_start (ls_log s)) bs (av A)) by by destruct bs.
    rewrite E. eapply wp_mono; [apply (commit_spec (rep := rep) _ A bs); cbn; try done; try apply R|].
    + by destruct G; split.
    + intros b Hb. rewrite (tr_dirty _ _ _ _ R). by apply elem_of_list_to_set.
    + cbn. intros [] s1 [El1 R1]. wp_steps. split; [|done]. by rewrite El1.
Qed.

Lemma trep_commit s s' F A bs (A' := a_puts A (end_writes (l_start (ls_log s)) bs (av A))) :
  trep s F A bs -> f_held F = ∅ -> f_taint F = ∅ ->
  ls_log s' = set_committing 0 (set_lh 0 (lh_block (ls_log s)) (set_ops 0 (ls_log s))) ->
  rep (ls_bc s') A' ->
  (forall b, f_home F b -> av A' b = f_view F b) /\ trep s' (f_commit F (av A')) A' [].
Proof.
  intros R Hh Ht El R'. rewrite (tr_held _ _ _ _ R) in Hh.
  assert (Hc : forall b, b ∈ adirty A \/ av A b = ad A b).
  { intros b. apply (tr_taint _ _ _ _ R). rewrite Ht. apply not_elem_of_empty. }
  destruct (commit_store A (ls_log s) bs (law_wf _ _ (tr_rep _ _ _ _ R)) (tr_geom _ _ _ _ R)
    (tr_logged _ _ _ _ R) (tr_dirty _ _ _ _ R) Hc (tr_head _ _ _ _ R)) as (C1 & C2 & C3 & C4).
  fold A' in C1, C2, C3, C4.
  assert (Z' : asize A' = asize A) by (by unfold A'; rewrite a_puts_size).
  assert (H' : aheld A' = ∅) by (by unfold A'; rewrite a_puts_held).
  split.
  { intros b Hb. rewrite (tr_view _ _ _ _ R). apply C4. unfold f_home in Hb.
    by rewrite (tr_lo _ _ _ _ R), (tr_hi _ _ _ _ R), (tr_size _ _ _ _ R) in Hb. }
  destruct R. split; rewrite ?El; cbn; rewrite ?Z', ?H'; try done; try congruence.
  - by destruct tr_geom0; split.
  - destruct tr_geom0. split_and!; cbn; [apply NoDup_nil_2|unfold lenZ; cbn; lia|done|].
    intros b Hb. by apply not_elem_of_nil in Hb.
  - split_and!; cbn; [done| |done]. unfold lenZ. cbn. lia.
  - auto.
Qed.

Lemma log_law_end_last s F :
  log_rep s F -> f_held F = ∅ -> f_taint F = ∅ -> f_ops F = 1 ->
  Z.of_nat (size (f_log F)) < NBUF ->
  wp end_op s (fun _ s' => exists v,
    (forall b, f_home F b -> v b = f_view F b) /\ log_rep s' (f_commit F v)).
Proof.
  intros (A & bs & R) Hh Ht Hops Hroom. eapply wp_mono; [by eapply end_op_writes|].
  intros [] s' [El R']. destruct (trep_commit s s' F A bs R Hh Ht El R') as [Hv Hr].
  eexists. split; [exact Hv|]. by exists (a_puts A (end_writes (l_start (ls_log s)) bs (av A))), [].
Qed.

#[export] Instance log_txn_laws : TxnLaws (lsys S) log_rep.
Proof.
  split.
  - apply log_rep_wf.
  - apply log_rep_proper.
  - intros s F h b (A & bs & R) Hh. rewrite (tr_held _ _ _ _ R) in Hh. cbn.
    rewrite (law_bdata _ _ _ _ (tr_rep _ _ _ _ R) Hh). symmetry. apply (tr_view _ _ _ _ R).
  - apply log_law_bread.
  - apply log_law_set.
  - apply log_law_log_write.
  - apply log_law_brelse.
  - apply log_law_begin.
  - apply log_law_end_last.
  - apply log_law_end_other.
Qed.
End log_txn_laws.
