(* ===== verification/Storage.v ===== *)
(** * Crash safety and log space of the storage stack

    The log (Log.v) over the buffer cache and the memory disk (Bio.v).  A crash
    leaves on disk a prefix of the block writes the disk had completed; the
    machine then boots with an empty cache and runs [recover_from_log], which
    may itself be interrupted. *)

From S2P Require Import Prelude Bytes Sleeplock Store Bio Log Txn.

Abbreviation kernel := (lsys bcache).

(** The block writes the disk has completed, and the disk. *)
Definition disk_trace (s : kernel) : writes := dtrace (ls_bc s).
Definition disk_of (s : kernel) (b : Z) : bytes := memdisk (ls_bc s) b.

(** [s0] is the kernel after boot on a disk with contents [d], with the log
    where [l] has it. *)
Definition boots (l : log_t) (n : Z) (d : Z -> bytes) (s0 : kernel) : Prop :=
  brep (ls_bc s0) (a_boot n d) /\ geom (ls_log s0) n /\
  l_start (ls_log s0) = l_start l /\ l_size (ls_log s0) = l_size l.

(** A boot on [d] whose recovery crashes and leaves [d']. *)
Definition crash_step (l : log_t) (n : Z) (d d' : Z -> bytes) : Prop :=
  exists s0 s1 P, boots l n d s0 /\ recover_from_log s0 = Ok (tt, s1) /\
    P `prefix_of` disk_trace s1 /\ d' = apply_writes P d.

Lemma crash_inv_same l l' n old new d :
  l_start l' = l_start l -> l_size l' = l_size l ->
  crash_inv l n old new d -> crash_inv l' n old new d.
Proof. intros E1 E2. unfold crash_inv, logged. by rewrite E1, E2. Qed.

Section crashes.
Variables (l : log_t) (n : Z) (old new : Z -> bytes).

Lemma boots_recover d s0 :
  boots l n d s0 -> crash_inv l n old new d ->
  wp recover_from_log s0 (fun _ s1 => disk_trace s1 = recover_writes (l_start l) d /\
    forall b, disk_of s1 b = apply_writes (recover_writes (l_start l) d) d b).
Proof.
  intros (R & G & E1 & E2) Hinv. apply (crash_inv_same _ (ls_log s0)) in Hinv; [|done..].
  destruct (recover_pre _ _ _ _ G d Hinv) as [Hn L].
  eapply wp_mono; [by apply (recover_spec (rep := brep) s0 (a_boot n d) R)|].
  intros [] s1 (_ & _ & _ & R1). cbn in R1. rewrite E1 in R1. split.
  - unfold disk_trace. by rewrite (br_trace _ _ R1), a_puts_trace.
  - intros b. unfold disk_of. by rewrite (br_disk _ _ R1), a_puts_ad.
Qed.

Hypothesis G : geom l n.

Lemma crash_step_inv d d' :
  crash_inv l n old new d -> crash_step l n d d' -> crash_inv l n old new d'.
Proof.
  intros Hinv (s0 & s1 & P & Hb & E & HP & ->). pose proof (boots_recover d s0 Hb Hinv) as H.
  unfold wp in H. rewrite E in H. destruct H as [Ht _]. rewrite Ht in HP.
  by apply recover_crash_inv.
Qed.

Lemma recovery_atomic d s0 :
  crash_inv l n old new d -> boots l n d s0 ->
  wp recover_from_log s0 (fun _ s1 => head_n (disk_of s1 (l_start l)) = 0 /\
    ((forall b, home (l_start l) (l_start l + l_size l) n b -> disk_of s1 b = old b) \/
     (forall b, home (l_start l) (l_start l + l_size l) n b -> disk_of s1 b = new b))).
Proof.
  intros Hinv Hb. eapply wp_mono; [by apply (boots_recover d)|]. intros [] s1 [_ Hd].
  destruct (recover_done l n old new G d Hinv) as [Hh Hc]. rewrite Hd. split; [done|].
  destruct Hc as [Hc|Hc]; [left|right]; intros b Hbh; rewrite Hd; by apply Hc.
Qed.
End crashes.

(** What a crash may leave of the writes of the last [end_op]. *)
Lemma end_prefix_inv (s : kernel) F A bs P :
  trep (rep := brep) s F A bs -> f_taint F = ∅ ->
  P `prefix_of` end_writes (l_start (ls_log s)) bs (av A) ->
  crash_inv (ls_log s) (f_size F) (disk_of s) (av A) (apply_writes P (disk_of s)).
Proof.
  intros R Ht HP. pose proof (tr_rep _ _ _ _ R) as Rb. pose proof (tr_geom _ _ _ _ R) as G.
  destruct (br_wf _ _ Rb) as [W1 W2 _ _ _ _]. rewrite (tr_size _ _ _ _ R).
  assert (Hd : forall b, disk_of s b = ad A b) by apply (br_disk _ _ Rb).
  assert (Hhd : head_n (disk_of s (l_start (ls_log s))) = 0).
  { rewrite Hd. apply (tr_head _ _ _ _ R). }
  destruct (decide (bs = [])) as [->|Hne].
  - apply prefix_nil_inv in HP as ->. split.
    + intros b Hb. change (wf_block (disk_of s b)). rewrite Hd. auto.
    + left. split; [done|]. by left.
  - replace (end_writes _ bs _) with (commit_writes (l_start (ls_log s)) bs (av A)) in HP
      by by destruct bs.
    apply (commit_crash_inv _ _ G bs); try done.
    + apply (tr_logged _ _ _ _ R).
    + intros b _ Hb. rewrite Hd. destruct (tr_taint _ _ _ _ R b) as [Hin|]; [|  |done].
      * rewrite Ht. apply not_elem_of_empty.
      * by rewrite (tr_dirty _ _ _ _ R), elem_of_list_to_set in Hin.
    + intros b Hb. rewrite Hd. auto.
Qed.

(** C1: transactions are atomic with respect to crashes.  The last [end_op] of
    a transaction returns, and then every block outside the log is on disk as
    the transaction left it.  If the machine crashes after any prefix of the
    disk writes of that [end_op], and again in any number of interrupted
    recoveries, then the next complete recovery returns with an empty log and
    leaves on disk either every block as it was before the commit or every
    block as the transaction left it. *)
Theorem end_op_crash_safe (s : kernel) (F : fstore) :
  log_rep (rep := brep) s F -> f_held F = ∅ -> f_taint F = ∅ -> f_ops F = 1 ->
  Z.of_nat (size (f_log F)) < NBUF ->
  wp end_op s (fun _ s' => exists W,
    disk_trace s' = disk_trace s ++ W /\
    (forall b, f_home F b -> disk_of s' b = f_view F b) /\
    forall P d s0, P `prefix_of` W ->
      star (crash_step (ls_log s) (f_size F)) (apply_writes P (disk_of s)) d ->
      boots (ls_log s) (f_size F) d s0 ->
      wp recover_from_log s0 (fun _ s1 => head_n (disk_of s1 (f_lo F)) = 0 /\
        ((forall b, f_home F b -> disk_of s1 b = disk_of s b) \/
         (forall b, f_home F b -> disk_of s1 b = f_view F b)))).
Proof.
  intros (A & bs & R) Hh Ht Hops Hroom. eapply wp_mono; [by eapply (end_op_writes (rep := brep))|].
  intros [] s' [El R']. destruct (trep_commit s s' F A bs R Hh Ht El R') as [Hv Rc].
  exists (end_writes (l_start (ls_log s)) bs (av A)). pose proof (tr_rep _ _ _ _ R) as Rb.
  split_and!.
  - unfold disk_trace. by rewrite (br_trace _ _ R'), (br_trace _ _ Rb), a_puts_trace.
  - intros b Hb. unfold disk_of. rewrite (br_disk _ _ R'), <- Hv by done.
    destruct (tr_taint _ _ _ _ Rc b) as [Hd|Hd]; cbn; [by rewrite Ht; apply not_elem_of_empty| |done].
    rewrite (tr_dirty _ _ _ _ Rc) in Hd. by apply not_elem_of_empty in Hd.
  - intros P d s0 HP Hst Hb. pose proof (end_prefix_inv s F A bs P R Ht HP) as Hinv.
    pose proof (tr_geom _ _ _ _ R) as G. rewrite <- (tr_size _ _ _ _ R) in G.
    pose proof (star_invariant _ _ (crash_step_inv _ _ _ _ G) _ _ Hst Hinv) as Hinv'.
    eapply wp_mono; [by apply (recovery_atomic _ _ _ _ G d s0 Hinv')|].
    intros [] s1 [Hhd Hc]. rewrite (tr_lo _ _ _ _ R). split; [done|]. unfold f_home.
    rewrite (tr_lo _ _ _ _ R), (tr_hi _ _ _ _ R).
    destruct Hc as [Hc|Hc]; [left|right]; intros b Hbh; rewrite Hc by done; [done|].
    symmetry. apply (tr_view _ _ _ _ R).
Qed.

(** The kernel after boot, with [ops] operations begun, on a disk with an empty
    log. *)
Definition boot_log (lo size ops : Z) : log_t := mkLog lo size ops 0 1 0 (replicate 30 0).

Lemma boot_log_rep c n d lo size ops :
  brep c (a_boot n d) -> n < 2147483648 ->
  0 <= lo -> 1 <= size -> lo + size <= n -> head_n (d lo) = 0 ->
  log_rep (rep := brep) (mkLsys (boot_log lo size ops) c) (mkFstore n lo (lo + size) d ∅ ∅ ∅ ops).
Proof.
  intros Hc Hn Hlo Hsz Hfit Hh. exists (a_boot n d), []. split; cbn [ls_bc ls_log]; try done.
  - split_and!; cbn; [apply NoDup_nil_2|unfold lenZ; cbn; lia|done|].
    intros b Hb. by apply not_elem_of_nil in Hb.
  - split_and!; try done. intros j Hj. unfold lenZ in Hj. cbn in Hj. lia.
  - intros b _. by right.
Qed.

Lemma boot_kernel_rep n d lo size ops :
  0 <= n < 2147483648 -> (forall b, 0 <= b < n -> wf_block (d b)) ->
  0 <= lo -> 1 <= size -> lo + size <= n -> head_n (d lo) = 0 ->
  log_rep (rep := brep) (mkLsys (boot_log lo size ops) (booted n d))
    (mkFstore n lo (lo + size) d ∅ ∅ ∅ ops).
Proof.
  intros. apply boot_log_rep; try lia. apply booted_rep; [lia|assumption].
Qed.

(** A small disk with the log at blocks 2 to 5, and a transaction that has
    written block 7. *)
Definition demo_k0 : kernel :=
  mkLsys (boot_log 2 4 0) demo_cache.
Definition demo_prog : ST kernel unit :=
  begin_op ;;;
  h <- bc (bread ROOTDEV 7) ;;
  bc (bset h (replicate 512 5)) ;;;
  log_write h ;;;
  bc (brelse h).
Definition demo_kernel : kernel :=
  match demo_prog demo_k0 with Ok (_, s) => s | _ => demo_k0 end.
Definition demo_F : fstore :=
  mkFstore 8 2 6 (fupd (fun _ => zeros BSIZE) 7 (replicate 512 5)) {[7]} ∅ ∅ 1.

Lemma demo_k0_rep : log_rep (rep := brep) demo_k0 (mkFstore 8 2 6 (fun _ => zeros BSIZE) ∅ ∅ ∅ 0).
Proof.
  apply (boot_log_rep demo_cache 8 (fun _ => zeros BSIZE) 2 4 0); try lia; [apply demo_cache_rep|].
  vm_compute. reflexivity.
Qed.

Lemma demo_kernel_rep : log_rep (rep := brep) demo_kernel demo_F.
Proof.
  assert (H : wp demo_prog demo_k0 (fun _ s => log_rep (rep := brep) s demo_F)).
  { unfold demo_prog. wp_step.
    eapply wp_mono; [apply (log_law_begin (rep := brep) _ _ demo_k0_rep)|].
    - done.
    - intros [] s1 R1. wp_step.
      eapply wp_mono; [apply (log_law_bread (rep := brep) _ _ 7 R1)|].
      + split; cbn; lia.
      + intros [h Hh]. cbn in Hh. by rewrite lookup_empty in Hh.
      + right. done.
      + intros h s2 [_ R2]. wp_step.
        eapply wp_mono; [apply (log_law_set (rep := brep) _ _ h 7 _ R2)|].
        { apply lookup_insert_eq. }
        { split; [done|]. apply Forall_replicate. lia. }
        intros [] s3 R3. wp_step.
        eapply wp_mono; [apply (log_law_log_write (rep := brep) _ _ h 7 R3)|].
        { apply lookup_insert_eq. }
        { done. }
        { done. }
        intros [] s4 R4.
        eapply wp_mono; [apply (log_law_brelse (rep := brep) _ _ h 7 R4)|].
        { apply lookup_insert_eq. }
        { cbn. rewrite not_elem_of_difference, elem_of_singleton. by right. }
        intros [] s5 R5. eapply log_rep_proper; [|exact R5]. split_and!; cbn; try done.
        by rewrite delete_insert_id. }
  destruct (proj1 (wp_ok demo_prog demo_k0 _) H) as (a & s & E & H'). unfold demo_kernel.
  rewrite E. exact H'.
Qed.

Lemma end_op_crash_safe_witness :
  wp end_op demo_kernel (fun _ s' => exists W,
    disk_trace s' = disk_trace demo_kernel ++ W /\
    (forall b, f_home demo_F b -> disk_of s' b = f_view demo_F b) /\
    forall P d s0, P `prefix_of` W ->
      star (crash_step (ls_log demo_kernel) 8) (apply_writes P (disk_of demo_kernel)) d ->
      boots (ls_log demo_kernel) 8 d s0 ->
      wp recover_from_log s0 (fun _ s1 => head_n (disk_of s1 2) = 0 /\
        ((forall b, f_home demo_F b -> disk_of s1 b = disk_of demo_kernel b) \/
         (forall b, f_home demo_F b -> disk_of s1 b = f_view demo_F b)))).
Proof. exact (end_op_crash_safe demo_kernel demo_F demo_kernel_rep eq_refl eq_refl eq_refl eq_refl). Defined.

(** ** Log space with concurrent operations

    File system calls that run at the same time share one transaction.  Between
    its [begin_op] and [end_op] an operation calls [log_write] on a set of
    blocks; [K] bounds the blocks of one operation. *)

Record opsys := mkOpsys { os_log : log_t; os_ops : list (gset Z) }.

Inductive op_event := EBegin | EWrite (i : nat) (b : Z) | EEnd (i : nat).

(** One event; [None] if it is not enabled or if the code sleeps or panics. *)
Definition os_exec (K : nat) (s : opsys) (e : op_event) : option opsys :=
  let l := os_log s in
  match e with
  | EBegin =>
      match log_admit l with
      | Ok l' => Some (mkOpsys l' (os_ops s ++ [∅]))
      | _ => None
      end
  | EWrite i b =>
      X ← os_ops s !! i;
      if decide (size (X ∪ {[b]}) <= K)%nat then
        match log_add l b with
        | Ok l' => Some (mkOpsys l' (<[i := X ∪ {[b]}]> (os_ops s)))
        | _ => None
        end
      else None
  | EEnd i =>
      X ← os_ops s !! i;
      let l1 := set_ops (l_outstanding l - 1) l in
      Some (mkOpsys (if l_outstanding l - 1 =? 0 then set_lh 0 (lh_block l) l1 else l1)
              (delete i (os_ops s)))
  end.

Definition os_step (K : nat) (s s' : opsys) : Prop := exists e, os_exec K s e = Some s'.

Definition os_init (l : log_t) : Prop :=
  lh_n l = 0 /\ l_outstanding l = 0 /\ l_committing l = 0 /\ lenZ (lh_block l) = LOGSIZE /\
  LOGSIZE <= l_size l.

(** What the operations may still log. *)
Definition quota_left (K : nat) (ops : list (gset Z)) : nat :=
  sum_list_with (fun X => K - size X)%nat ops.

Arguments quota_left : simpl never.

Record os_inv (K : nat) (s : opsys) (bs : list Z) : Prop := {
  oi_lists : lists (os_log s) bs;
  oi_nodup : NoDup bs;
  oi_block : lenZ (lh_block (os_log s)) = LOGSIZE;
  oi_size : LOGSIZE <= l_size (os_log s);
  oi_out : l_outstanding (os_log s) = lenZ (os_ops s);
  oi_comm : l_committing (os_log s) = 0;
  oi_sub : forall X b, X ∈ os_ops s -> b ∈ X -> b ∈ bs;
  oi_quota : forall X, X ∈ os_ops s -> (size X <= K)%nat;
  oi_space : os_ops s <> [] ->
    lenZ bs + Z.of_nat (quota_left K (os_ops s)) <= LOGSIZE - MAXOPBLOCKS + Z.of_nat K;
}.

Lemma quota_left_le K ops : (quota_left K ops <= K * length ops)%nat.
Proof. unfold quota_left. induction ops as [|X ops IH]; cbn; lia. Qed.

Lemma quota_left_split K o1 X o2 :
  quota_left K (o1 ++ X :: o2) = (quota_left K (o1 ++ o2) + (K - size X))%nat.
Proof. unfold quota_left. rewrite !sum_list_with_app. cbn. lia. Qed.

(** The element of the list that an event of operation [i] acts on. *)
Lemma lookup_split {A} (l : list A) i x :
  l !! i = Some x -> exists l1 l2, l = l1 ++ x :: l2 /\ delete i l = l1 ++ l2 /\
    forall y, <[i := y]> l = l1 ++ y :: l2.
Proof.
  intros Hi. exists (take i l), (drop (S i) l). pose proof (lookup_lt_Some _ _ _ Hi).
  split_and!; [symmetry; by apply take_drop_middle|apply delete_take_drop|].
  intros y. by apply insert_take_drop.
Qed.

Lemma absorb_sub bs b x : x ∈ bs -> x ∈ absorb bs b.
Proof. intros. apply absorb_elem. by left. Qed.

Lemma os_begin_inv K s bs l' :
  (K <= 10)%nat -> os_inv K s bs -> log_admit (os_log s) = Ok l' ->
  os_inv K (mkOpsys l' (os_ops s ++ [∅])) bs.
Proof.
  intros HK [H1 H2 H3 H4 H5 H6 H7 H8 H9] E. unfold log_admit in E. rewrite H6 in E. cbn in E.
  destruct (LOGSIZE <? _) eqn:Hlt; [done|]. apply Z.ltb_ge in Hlt. injection E as <-.
  destruct H1 as (N1 & N2 & N3). rewrite N1, H5 in Hlt.
  split; cbn; try done.
  - rewrite H5, lenZ_app. done.
  - intros X b [HX|HX]%elem_of_app Hb; [by apply (H7 X)|].
    apply list_elem_of_singleton in HX as ->. set_solver.
  - intros X [HX|HX]%elem_of_app; [auto|]. apply list_elem_of_singleton in HX as ->.
    rewrite size_empty. lia.
  - intros _. unfold quota_left. rewrite sum_list_with_app. cbn. rewrite size_empty.
    pose proof (quota_left_le K (os_ops s)). unfold quota_left in *.
    unfold LOGSIZE, MAXOPBLOCKS, lenZ in *. nia.
Qed.

Lemma os_write_inv K s bs l' b o1 X o2 :
  os_inv K s bs -> os_ops s = o1 ++ X :: o2 -> (size (X ∪ {[b]}) <= K)%nat ->
  log_add (os_log s) b = Ok l' ->
  os_inv K (mkOpsys l' (o1 ++ (X ∪ {[b]}) :: o2)) (absorb bs b).
Proof.
  intros [H1 H2 H3 H4 H5 H6 H7 H8 H9] Eo Hsz E. pose proof H1 as (N1 & _ & _).
  assert (Hg : lenZ bs < LOGSIZE /\ lenZ bs < l_size (os_log s) - 1 /\
    1 <= l_outstanding (os_log s)).
  { unfold log_add in E. rewrite N1 in E. destruct (_ || _) eqn:Eg; [done|].
    destruct (_ <? 1) eqn:Eo1; [done|]. bool_to_prop. lia. }
  destruct (log_add_spec (os_log s) bs b H1 H3) as (blk & E' & Hblk & Hl); try lia.
  rewrite E' in E. injection E as <-. rewrite Eo in *.
  assert (HX : X ∈ o1 ++ X :: o2) by set_solver.
  split; cbn; try done.
  - by apply absorb_nodup.
  - rewrite H5. unfold lenZ. rewrite !length_app. done.
  - intros Y c [HY|[->|HY]%elem_of_cons]%elem_of_app Hc;
      [apply absorb_sub, (H7 Y); set_solver| |apply absorb_sub, (H7 Y); set_solver].
    apply absorb_elem. apply elem_of_union in Hc as [Hc| ->%elem_of_singleton]; [left|by right].
    by apply (H7 X).
  - intros Y [HY|[->|HY]%elem_of_cons]%elem_of_app; [apply H8; set_solver|done|apply H8; set_solver].
  - intros _. specialize (H9 ltac:(by destruct o1)). rewrite quota_left_split in H9 |- *.
    specialize (H8 X HX). destruct (decide (b ∈ X)) as [Hb|Hb].
    + replace (X ∪ {[b]}) with X by set_solver. unfold absorb.
      rewrite decide_True by (by apply (H7 X)). done.
    + pose proof (absorb_len bs b). rewrite size_union in Hsz |- * by set_solver.
      rewrite size_singleton in Hsz |- *. lia.
Qed.

Lemma os_end_inv K s bs o1 X o2 (l := os_log s) (l1 := set_ops (l_outstanding l - 1) l) :
  os_inv K s bs -> os_ops s = o1 ++ X :: o2 ->
  exists bs', os_inv K (mkOpsys (if l_outstanding l - 1 =? 0 then set_lh 0 (lh_block l) l1 else l1)
                     (o1 ++ o2)) bs'.
Proof.
  intros [H1 H2 H3 H4 H5 H6 H7 H8 H9] Eo. rewrite Eo in *. fold l in H1, H3, H4, H5, H6.
  assert (El : l_outstanding l - 1 = lenZ (o1 ++ o2)).
  { rewrite H5. unfold lenZ. rewrite !length_app. cbn. lia. }
  case_test.
  - assert (o1 ++ o2 = []) as ->.
    { rewrite E in El. destruct (o1 ++ o2); [done|]. unfold lenZ in El. cbn in El. lia. }
    exists []. split; cbn; try done.
    + split_and!; try done. intros j Hj. unfold lenZ in Hj. cbn in Hj. lia.
    + apply NoDup_nil_2.
    + intros Y b HY. by apply not_elem_of_nil in HY.
    + intros Y HY. by apply not_elem_of_nil in HY.
  - exists bs. split; cbn; try done.
    + intros Y b HY. apply H7. set_solver.
    + intros Y HY. apply H8. set_solver.
    + intros _. specialize (H9 ltac:(by destruct o1)). rewrite quota_left_split in H9. lia.
Qed.

Lemma os_step_inv K s s' :
  (K <= 10)%nat -> (exists bs, os_inv K s bs) -> os_step K s s' -> exists bs, os_inv K s' bs.
Proof.
  intros HK [bs Hinv] [[|i b|i] E]; cbn in E.
  - destruct (log_admit (os_log s)) as [l'| | |] eqn:Ea; simplify_eq.
    exists bs. by apply os_begin_inv.
  - destruct (os_ops s !! i) as [X|] eqn:Ei; [|done]. cbn in E. case_decide as Hsz; [|done].
    destruct (log_add (os_log s) b) as [l'| | |] eqn:Ea; simplify_eq.
    destruct (lookup_split _ _ _ Ei) as (o1 & o2 & Eo & _ & ->). exists (absorb bs b).
    by eapply os_write_inv.
  - destruct (os_ops s !! i) as [X|] eqn:Ei; [|done]. cbn in E. injection E as <-.
    destruct (lookup_split _ _ _ Ei) as (o1 & o2 & Eo & -> & _). by eapply os_end_inv.
Qed.

Lemma os_reach_inv K l s :
  (K <= 10)%nat -> os_init l -> star (os_step K) (mkOpsys l []) s -> exists bs, os_inv K s bs.
Proof.
  intros HK (I1 & I2 & I3 & I4 & I5) Hst.
  apply (star_invariant (os_step K) (fun s => exists bs, os_inv K s bs)
    (fun a b => os_step_inv K a b HK) _ _ Hst).
  exists []. split; cbn; try done.
  - split_and!; try done. intros j Hj. unfold lenZ in Hj. cbn in Hj. lia.
  - apply NoDup_nil_2.
  - intros X b HX. by apply not_elem_of_nil in HX.
  - intros X HX. by apply not_elem_of_nil in HX.
Qed.

(** C35: the log never overflows.  If no operation logs more than 8 blocks then,
    in every interleaving of the operations, [log_write] accepts a block of any
    running operation that stays within its bound: it does not panic, and the
    block is in the transaction afterwards. *)
Theorem log_write_never_full (l : log_t) (s : opsys) (X : gset Z) (b : Z) :
  os_init l -> star (os_step 8) (mkOpsys l []) s ->
  X ∈ os_ops s -> (size (X ∪ {[b]}) <= 8)%nat ->
  exists l', log_add (os_log s) b = Ok l' /\
    exists j, 0 <= j < lh_n l' /\ rd (lh_block l') j = b.
Proof.
  intros Hi Hst HX Hsz.
  destruct (os_reach_inv 8 l s ltac:(lia) Hi Hst) as [bs [H1 H2 H3 H4 H5 H6 H7 H8 H9]].
  apply list_elem_of_split in HX as (o1 & o2 & Eo). rewrite Eo in *.
  specialize (H9 ltac:(by destruct o1)). unfold LOGSIZE, MAXOPBLOCKS in *.
  destruct (log_add_spec (os_log s) bs b H1 H3) as (blk & E & Hblk & (N1 & N2 & N3)).
  1-2: unfold LOGSIZE, MAXOPBLOCKS; lia.
  { rewrite H5. unfold lenZ. rewrite length_app. cbn. lia. }
  eexists. split; [exact E|]. assert (Hb : b ∈ absorb bs b) by (apply absorb_elem; by right).
  apply list_elem_of_lookup in Hb as [k Hk]. pose proof (lookup_lt_Some _ _ _ Hk).
  exists (Z.of_nat k). rewrite N1. unfold lenZ in *. split; [lia|]. rewrite N2 by lia.
  unfold rd. rewrite Nat2Z.id. by apply list_lookup_total_correct.
Qed.

(** Run a list of events. *)
Fixpoint os_run (K : nat) (s : opsys) (es : list op_event) : option opsys :=
  match es with
  | [] => Some s
  | e :: es => s' ← os_exec K s e; os_run K s' es
  end.

Lemma os_run_star K s es s' : os_run K s es = Some s' -> star (os_step K) s s'.
Proof.
  revert s. induction es as [|e es IH]; intros s E; cbn in E; [injection E as <-; apply star_refl|].
  destruct (os_exec K s e) as [s1|] eqn:E1; [|done]. eapply star_step; [by exists e|by apply IH].
Qed.

(** The log as mkfs.c lays it out: [nlog = LOGSIZE]. *)
Definition mkfs_log : log_t := mkLog 2 LOGSIZE 0 0 1 0 (replicate (Z.to_nat LOGSIZE) 0).

Definition writes_of (i : nat) (from : Z) (n : Z) : list op_event := EWrite i <$> seqZ from n.

Definition demo_ops : opsys :=
  default (mkOpsys mkfs_log [])
    (os_run 8 (mkOpsys mkfs_log []) ([EBegin; EBegin; EBegin] ++ writes_of 0 100 8 ++
       writes_of 1 110 8 ++ writes_of 2 120 7)).

Lemma log_write_never_full_witness :
  exists l', log_add (os_log demo_ops) 127 = Ok l' /\
    exists j, 0 <= j < lh_n l' /\ rd (lh_block l') j = 127.
Proof.
  apply (log_write_never_full mkfs_log demo_ops (list_to_set (seqZ 120 7)) 127).
  - by vm_compute.
  - apply (os_run_star 8 _ ([EBegin; EBegin; EBegin] ++ writes_of 0 100 8 ++
       writes_of 1 110 8 ++ writes_of 2 120 7)). vm_compute. reflexivity.
  - eapply (list_elem_of_lookup_2 _ 2). vm_compute. reflexivity.
  - vm_compute. lia.
Defined.

Definition full_events : list op_event :=
  [EBegin; EBegin; EBegin] ++ writes_of 0 100 10 ++ writes_of 1 110 10 ++ writes_of 2 120 9.
Definition full_ops : opsys :=
  default (mkOpsys mkfs_log []) (os_run 10 (mkOpsys mkfs_log []) full_events).

(** C40: the bound above is not [MAXOPBLOCKS].  On the log that mkfs.c makes,
    three concurrent operations that log ten, ten and nine blocks each are all
    admitted by [begin_op], and the tenth block of the third one makes
    [log_write] panic although no operation logged more than [MAXOPBLOCKS]
    blocks: [log_write] accepts one block less than [begin_op] reserves. *)
Theorem log_write_panics_within_reservation :
  exists s, star (os_step (Z.to_nat MAXOPBLOCKS)) (mkOpsys mkfs_log []) s /\
    os_init mkfs_log /\ length (os_ops s) = 3%nat /\
    (forall X, X ∈ os_ops s -> (size X <= Z.to_nat MAXOPBLOCKS)%nat) /\
    (exists X, X ∈ os_ops s /\ (size (X ∪ {[129%Z]}) <= Z.to_nat MAXOPBLOCKS)%nat) /\
    log_add (os_log s) 129 = Panic "too big a transaction".
Proof.
  assert (Hst : star (os_step 10) (mkOpsys mkfs_log []) full_ops).
  { apply (os_run_star 10 _ full_events). vm_compute. reflexivity. }
  assert (Hi : os_init mkfs_log) by by vm_compute.
  destruct (os_reach_inv 10 _ _ ltac:(lia) Hi Hst) as [bs Hinv].
  exists full_ops. split_and!; [exact Hst|exact Hi|vm_compute; reflexivity|..].
  - exact (oi_quota _ _ _ Hinv).
  - exists (list_to_set (seqZ 120 9)). split; [|vm_compute; lia].
    eapply (list_elem_of_lookup_2 _ 2). vm_compute. reflexivity.
  - vm_compute. reflexivity.
Qed.
