(* ===== verification/Fs.v ===== *)
(** * The file system (src/xv6/fs.c): definitions

    Every function of fs.c, written against the transaction interface of
    [Txn.v].  A [struct inode *] is the index of an inode cache entry, a null
    pointer is [None].  A [char *] buffer is a list of bytes: [readi] returns
    what it stores through [dst], [writei] takes what it reads through [src].
    A path is the list of its characters; reading past its end gives the NUL.
    The spin lock [icache.lock] makes the operations on the cache atomic and is
    not represented.  Properties are in [FsBlock.v], [FsFile.v], [FsDir.v] and
    [FsInode.v]. *)

From S2P Require Import Prelude Bytes Cstring Sleeplock Store Log Txn.

(** fs.h, stat.h, param.h *)
Definition ROOTINO : Z := 1.
Definition NDIRECT : Z := 12.
Definition NINDIRECT : Z := BSIZE / 4.
Definition MAXFILE : Z := NDIRECT + NINDIRECT.
Definition SIZEOF_DINODE : Z := 64.
Definition IPB : Z := BSIZE / SIZEOF_DINODE.
Definition BPB : Z := BSIZE * 8.
Definition DIRSIZ : Z := 14.
Definition SIZEOF_DIRENT : Z := 16.
Definition T_DIR : Z := 1.
Definition T_FILE : Z := 2.
Definition T_DEV : Z := 3.
Definition NINODE : Z := 50.
Definition NDEV : Z := 10.

Definition IBLOCK (i : Z) (sb : superblock) : Z := i / IPB + sb_inodestart sb.
Definition BBLOCK (b : Z) (sb : superblock) : Z := b / BPB + sb_bmapstart sb.

(** [struct dinode], and its layout in the 64 bytes at offset [o]. *)
Record dinode := mkDinode {
  di_type : Z; di_major : Z; di_minor : Z; di_nlink : Z; di_size : Z; di_addrs : list Z
}.
Definition dinode_get (d : bytes) (o : Z) : dinode :=
  mkDinode (s16 (get16 d o)) (s16 (get16 d (o + 2))) (s16 (get16 d (o + 4)))
    (s16 (get16 d (o + 6))) (get32 d (o + 8))
    ((fun k => get32 d (o + 12 + 4 * k)) <$> seqZ 0 (NDIRECT + 1)).
Definition dinode_put (d : bytes) (o : Z) (x : dinode) : bytes :=
  let d := put16 d o (di_type x) in
  let d := put16 d (o + 2) (di_major x) in
  let d := put16 d (o + 4) (di_minor x) in
  let d := put16 d (o + 6) (di_nlink x) in
  let d := put32 d (o + 8) (di_size x) in
  put_words d (o + 12) (di_addrs x).

(** [struct inode]: a cache entry. *)
Record inode := mkInode {
  i_dev : Z; i_inum : Z; i_ref : Z; i_lock : sleeplock; i_valid : bool;
  i_din : dinode
}.
Definition inode0 : inode :=
  mkInode 0 0 0 initsleeplock false (mkDinode 0 0 0 0 0 (replicate 13 0)).
#[export] Instance inode_inhabited : Inhabited inode := populate inode0.

Definition set_i_ref (r : Z) (x : inode) : inode :=
  mkInode (i_dev x) (i_inum x) r (i_lock x) (i_valid x) (i_din x).
Definition set_i_lock (l : sleeplock) (x : inode) : inode :=
  mkInode (i_dev x) (i_inum x) (i_ref x) l (i_valid x) (i_din x).
Definition set_i_valid (v : bool) (x : inode) : inode :=
  mkInode (i_dev x) (i_inum x) (i_ref x) (i_lock x) v (i_din x).
Definition set_i_din (d : dinode) (x : inode) : inode :=
  mkInode (i_dev x) (i_inum x) (i_ref x) (i_lock x) (i_valid x) d.
Definition set_addr (k a : Z) (d : dinode) : dinode :=
  mkDinode (di_type d) (di_major d) (di_minor d) (di_nlink d) (di_size d) (upd (di_addrs d) k a).
Definition set_size (n : Z) (d : dinode) : dinode :=
  mkDinode (di_type d) (di_major d) (di_minor d) (di_nlink d) n (di_addrs d).
Definition set_type (t : Z) (d : dinode) : dinode :=
  mkDinode t (di_major d) (di_minor d) (di_nlink d) (di_size d) (di_addrs d).
Definition set_nlink (n : Z) (d : dinode) : dinode :=
  mkDinode (di_type d) (di_major d) (di_minor d) n (di_size d) (di_addrs d).

(** [struct stat] *)
Record stat_t := mkStat { st_type : Z; st_dev : Z; st_ino : Z; st_nlink : Z; st_size : Z }.

(** The state of fs.c: the superblock, the inode cache and the block store;
    [fs_pid] and [fs_cwd] are [myproc()->pid] and [myproc()->cwd]. *)
Record fs_t (S : Type) := mkFs {
  fs_sb : superblock; fs_icache : list inode; fs_pid : Z; fs_cwd : Z; fs_store : S
}.
Arguments mkFs {S} _ _ _ _ _.
Arguments fs_sb {S} _.
Arguments fs_icache {S} _.
Arguments fs_pid {S} _.
Arguments fs_cwd {S} _.
Arguments fs_store {S} _.

Section fs.
Context {S : Type} `{TxnStore S}.

(** [devsw]: the read and write functions of a major device number. *)
Context (dev_read : Z -> option (Z -> Z -> ST (fs_t S) (Z * bytes)))
        (dev_write : Z -> option (Z -> bytes -> ST (fs_t S) Z)).

Abbreviation fs := (fs_t S).

Definition st {A} (m : ST S A) : ST fs A :=
  zoom fs_store (fun t s => mkFs (fs_sb s) (fs_icache s) (fs_pid s) (fs_cwd s) t) m.
Definition inode_at (s : fs) (ip : Z) : inode := rd (fs_icache s) ip.
Definition iget_at (ip : Z) : ST fs inode := gets (fun s => inode_at s ip).
Definition imod (ip : Z) (f : inode -> inode) : ST fs unit :=
  modify (fun s => mkFs (fs_sb s) (upd (fs_icache s) ip (f (inode_at s ip))) (fs_pid s)
                     (fs_cwd s) (fs_store s)).
Definition dmod (ip : Z) (f : dinode -> dinode) : ST fs unit :=
  imod ip (fun x => set_i_din (f (i_din x)) x).
Definition get_sb : ST fs superblock := gets fs_sb.

(** Access to [bp->data]. *)
Definition bp_data (bp : Z) : ST fs bytes := gets (fun s => tdata bp (fs_store s)).
Definition bp_set (bp : Z) (d : bytes) : ST fs unit := st (tset bp d).
Definition bread_ (dev b : Z) : ST fs Z := st (tbread dev b).
Definition brelse_ (bp : Z) : ST fs unit := st (tbrelse bp).
Definition log_write_ (bp : Z) : ST fs unit := st (tlog_write bp).

Definition readsb_ (dev : Z) : ST fs unit :=
  bp <- bread_ dev 1 ;;
  d <- bp_data bp ;;
  modify (fun s => mkFs (sb_decode d) (fs_icache s) (fs_pid s) (fs_cwd s) (fs_store s)) ;;;
  brelse_ bp.

(** ** Blocks *)

Definition bzero (dev bno : Z) : ST fs unit :=
  bp <- bread_ dev bno ;;
  d <- bp_data bp ;;
  bp_set bp (blit d 0 (zeros BSIZE)) ;;;
  log_write_ bp ;;;
  brelse_ bp.

(** [m = 1 << (bi % 8)] *)
Definition bitmask (bi : Z) : Z := Z.shiftl 1 (bi mod 8).

(** The inner loop of [balloc] at block [b] of the outer one; [bp] is held. *)
Definition balloc_bit (dev b bp bi : Z) : ST fs (option Z) :=
  d <- bp_data bp ;;
  if Z.land (rd d (bi / 8)) (bitmask bi) =? 0 then
    bp_set bp (upd d (bi / 8) (Z.lor (rd d (bi / 8)) (bitmask bi))) ;;;
    log_write_ bp ;;;
    brelse_ bp ;;;
    bzero dev (b + bi) ;;;
    ret (Some (b + bi))
  else ret None.

Definition balloc_block (dev b : Z) : ST fs (option Z) :=
  sb <- get_sb ;;
  bp <- bread_ dev (BBLOCK b sb) ;;
  r <- forR (Z.to_nat (Z.min BPB (sb_size sb - b))) 0 (balloc_bit dev b bp) ;;
  match r with
  | Some a => ret (Some a)
  | None => brelse_ bp ;;; ret None
  end.

(** [for(b = 0; b < sb.size; b += BPB)]: the [k]-th pass has [b = k * BPB]. *)
Definition balloc (dev : Z) : ST fs Z :=
  sb <- get_sb ;;
  r <- forR (Z.to_nat ((sb_size sb + BPB - 1) / BPB)) 0 (fun k => balloc_block dev (k * BPB)) ;;
  match r with
  | Some a => ret a
  | None => panic "balloc: out of blocks"
  end.

Definition bfree (dev b : Z) : ST fs unit :=
  sb <- get_sb ;;
  bp <- bread_ dev (BBLOCK b sb) ;;
  let bi := b mod BPB in
  d <- bp_data bp ;;
  panic_if (Z.land (rd d (bi / 8)) (bitmask bi) =? 0) "freeing free block" ;;;
  bp_set bp (upd d (bi / 8) (Z.land (rd d (bi / 8)) (Z.lnot (bitmask bi)))) ;;;
  log_write_ bp ;;;
  brelse_ bp.

(** ** Inodes *)

(** The message [iinit] prints is left out. *)
Definition iinit (dev : Z) : ST fs unit :=
  forM (Z.to_nat NINODE) 0 (fun i => imod i (set_i_lock initsleeplock)) ;;;
  readsb_ dev.

(** [acquiresleep(&ip->lock)] and [releasesleep(&ip->lock)]. *)
Definition inode_acquire (ip : Z) : ST fs unit :=
  s <- get ;;
  match acquiresleep (fs_pid s) (i_lock (inode_at s ip)) with
  | Ok lk => imod ip (set_i_lock lk)
  | _ => sleep_on "inode"
  end.
Definition inode_release (ip : Z) : ST fs unit :=
  imod ip (fun x => set_i_lock (releasesleep (i_lock x)) x).

(** The loop of [iget]: the entry of the inode, or the first empty one. *)
Fixpoint iget_scan (l : list inode) (i dev inum : Z) (empty : option Z) : Z + option Z :=
  match l with
  | [] => inr empty
  | x :: l =>
      if (0 <? i_ref x) && (i_dev x =? dev) && (i_inum x =? inum) then inl i
      else iget_scan l (i + 1) dev inum
             (match empty with
              | None => if i_ref x =? 0 then Some i else None
              | Some e => Some e
              end)
  end.

Definition iget (dev inum : Z) : ST fs Z :=
  s <- get ;;
  match iget_scan (fs_icache s) 0 dev inum None with
  | inl ip => imod ip (fun x => set_i_ref (i_ref x + 1) x) ;;; ret ip
  | inr None => panic "iget: no inodes"
  | inr (Some ip) =>
      imod ip (fun x => mkInode dev inum 1 (i_lock x) false (i_din x)) ;;; ret ip
  end.

Definition ialloc_one (dev type inum : Z) : ST fs (option Z) :=
  sb <- get_sb ;;
  bp <- bread_ dev (IBLOCK inum sb) ;;
  d <- bp_data bp ;;
  let o := inum mod IPB * SIZEOF_DINODE in
  if s16 (get16 d o) =? 0 then
    bp_set bp (put16 (blit d o (zeros SIZEOF_DINODE)) o type) ;;;
    log_write_ bp ;;;
    brelse_ bp ;;;
    ip <- iget dev inum ;;
    ret (Some ip)
  else brelse_ bp ;;; ret None.

Definition ialloc (dev type : Z) : ST fs Z :=
  sb <- get_sb ;;
  r <- forR (Z.to_nat (sb_ninodes sb - 1)) 1 (ialloc_one dev type) ;;
  match r with
  | Some ip => ret ip
  | None => panic "ialloc: no inodes"
  end.

Definition iupdate (ip : Z) : ST fs unit :=
  sb <- get_sb ;;
  x <- iget_at ip ;;
  bp <- bread_ (i_dev x) (IBLOCK (i_inum x) sb) ;;
  d <- bp_data bp ;;
  bp_set bp (dinode_put d (i_inum x mod IPB * SIZEOF_DINODE) (i_din x)) ;;;
  log_write_ bp ;;;
  brelse_ bp.

Definition idup (ip : Z) : ST fs Z :=
  imod ip (fun x => set_i_ref (i_ref x + 1) x) ;;; ret ip.

Definition ilock (ip : Z) : ST fs unit :=
  x <- iget_at ip ;;
  panic_if (i_ref x <? 1) "ilock" ;;;
  inode_acquire ip ;;;
  x <- iget_at ip ;;
  when (negb (i_valid x))
    (sb <- get_sb ;;
     bp <- bread_ (i_dev x) (IBLOCK (i_inum x) sb) ;;
     d <- bp_data bp ;;
     let din := dinode_get d (i_inum x mod IPB * SIZEOF_DINODE) in
     imod ip (set_i_din din) ;;;
     brelse_ bp ;;;
     imod ip (set_i_valid true) ;;;
     panic_if (di_type din =? 0) "ilock: no type").

Definition iunlock (ip : Z) : ST fs unit :=
  s <- get ;;
  let x := inode_at s ip in
  panic_if (negb (holdingsleep (fs_pid s) (i_lock x)) || (i_ref x <? 1)) "iunlock" ;;;
  inode_release ip.

(** ** Inode contents *)

Definition bmap (ip bn : Z) : ST fs Z :=
  x <- iget_at ip ;;
  if bn <? NDIRECT then
    let addr := rd (di_addrs (i_din x)) bn in
    if addr =? 0 then
      addr <- balloc (i_dev x) ;;
      dmod ip (set_addr bn addr) ;;;
      ret addr
    else ret addr
  else
    let bn := u32 (bn - NDIRECT) in
    if bn <? NINDIRECT then
      let addr := rd (di_addrs (i_din x)) NDIRECT in
      addr <- (if addr =? 0 then
                 addr <- balloc (i_dev x) ;;
                 dmod ip (set_addr NDIRECT addr) ;;;
                 ret addr
               else ret addr) ;;
      bp <- bread_ (i_dev x) addr ;;
      d <- bp_data bp ;;
      let addr := get32 d (4 * bn) in
      addr <- (if addr =? 0 then
                 addr <- balloc (i_dev x) ;;
                 d <- bp_data bp ;;
                 bp_set bp (put32 d (4 * bn) addr) ;;;
                 log_write_ bp ;;;
                 ret addr
               else ret addr) ;;
      brelse_ bp ;;;
      ret addr
    else panic "bmap: out of range".

Definition itrunc_direct (ip i : Z) : ST fs unit :=
  x <- iget_at ip ;;
  let a := rd (di_addrs (i_din x)) i in
  when (negb (a =? 0))
    (bfree (i_dev x) a ;;;
     dmod ip (set_addr i 0)).

Definition itrunc_indirect (dev bp j : Z) : ST fs unit :=
  d <- bp_data bp ;;
  when (negb (get32 d (4 * j) =? 0)) (bfree dev (get32 d (4 * j))).

Definition itrunc (ip : Z) : ST fs unit :=
  forM (Z.to_nat NDIRECT) 0 (itrunc_direct ip) ;;;
  x <- iget_at ip ;;
  let a := rd (di_addrs (i_din x)) NDIRECT in
  when (negb (a =? 0))
    (bp <- bread_ (i_dev x) a ;;
     forM (Z.to_nat NINDIRECT) 0 (itrunc_indirect (i_dev x) bp) ;;;
     brelse_ bp ;;;
     bfree (i_dev x) a ;;;
     dmod ip (set_addr NDIRECT 0)) ;;;
  dmod ip (set_size 0) ;;;
  iupdate ip.

Definition iput (ip : Z) : ST fs unit :=
  inode_acquire ip ;;;
  x <- iget_at ip ;;
  when (i_valid x && (di_nlink (i_din x) =? 0))
    (when (i_ref x =? 1)
       (itrunc ip ;;;
        dmod ip (set_type 0) ;;;
        iupdate ip ;;;
        imod ip (set_i_valid false))) ;;;
  inode_release ip ;;;
  imod ip (fun x => set_i_ref (i_ref x - 1) x).

Definition iunlockput (ip : Z) : ST fs unit := iunlock ip ;;; iput ip.

Definition stati (ip : Z) : ST fs stat_t :=
  x <- iget_at ip ;;
  let d := i_din x in
  ret (mkStat (di_type d) (i_dev x) (i_inum x) (di_nlink d) (di_size d)).

(** The loop of [readi]: [tot] bytes, [acc], are copied; each pass copies at
    least one byte, so that [n] passes are enough. *)
Fixpoint readi_loop (fuel : nat) (ip tot off n : Z) (acc : bytes) : ST fs bytes :=
  if tot <? n then
    match fuel with
    | O => nofuel
    | Datatypes.S fuel =>
        x <- iget_at ip ;;
        b <- bmap ip (off / BSIZE) ;;
        bp <- bread_ (i_dev x) b ;;
        let m := Z.min (n - tot) (BSIZE - off mod BSIZE) in
        d <- bp_data bp ;;
        brelse_ bp ;;;
        readi_loop fuel ip (tot + m) (off + m) n (acc ++ slice d (off mod BSIZE) m)
    end
  else ret acc.

Definition readi (ip off n : Z) : ST fs (Z * bytes) :=
  x <- iget_at ip ;;
  let din := i_din x in
  if di_type din =? T_DEV then
    if (di_major din <? 0) || (NDEV <=? di_major din) then ret (-1, []) else
    match dev_read (di_major din) with
    | None => ret (-1, [])
    | Some read => read ip n
    end
  else if (di_size din <? off) || (u32 (off + n) <? off) then ret (-1, [])
  else
    let n := if di_size din <? u32 (off + n) then di_size din - off else n in
    data <- readi_loop (Z.to_nat n) ip 0 off n [] ;;
    ret (n, data).

Fixpoint writei_loop (fuel : nat) (ip tot off n : Z) (src : bytes) : ST fs Z :=
  if tot <? n then
    match fuel with
    | O => nofuel
    | Datatypes.S fuel =>
        x <- iget_at ip ;;
        b <- bmap ip (off / BSIZE) ;;
        bp <- bread_ (i_dev x) b ;;
        let m := Z.min (n - tot) (BSIZE - off mod BSIZE) in
        d <- bp_data bp ;;
        bp_set bp (blit d (off mod BSIZE) (slice src tot m)) ;;;
        log_write_ bp ;;;
        brelse_ bp ;;;
        writei_loop fuel ip (tot + m) (off + m) n src
    end
  else ret off.

(** [n] is the length of [src]. *)
Definition writei (ip : Z) (src : bytes) (off : Z) : ST fs Z :=
  let n := lenZ src in
  x <- iget_at ip ;;
  let din := i_din x in
  if di_type din =? T_DEV then
    if (di_major din <? 0) || (NDEV <=? di_major din) then ret (-1) else
    match dev_write (di_major din) with
    | None => ret (-1)
    | Some write => write ip src
    end
  else if (di_size din <? off) || (u32 (off + n) <? off) then ret (-1)
  else if MAXFILE * BSIZE <? u32 (off + n) then ret (-1)
  else
    off <- writei_loop (Z.to_nat n) ip 0 off n src ;;
    x <- iget_at ip ;;
    when ((0 <? n) && (di_size (i_din x) <? off))
      (dmod ip (set_size off) ;;;
       iupdate ip) ;;;
    ret n.

(** ** Directories *)

(** [namecmp(s, t)] on two strings. *)
Definition namecmp (s t : bytes) : Z := strncmp (chr s) (chr t) DIRSIZ.

(** [struct dirent]: [inum] at offset 0 and [name] at offset 2. *)
Definition de_inum (de : bytes) : Z := get16 de 0.
Definition de_name (de : bytes) : bytes := slice de 2 DIRSIZ.

(** Look for [name]; the entry's inode number and offset. *)
Fixpoint dirlookup_loop (fuel : nat) (dp : Z) (name : bytes) (off : Z)
    : ST fs (option (Z * Z)) :=
  x <- iget_at dp ;;
  if off <? di_size (i_din x) then
    match fuel with
    | O => nofuel
    | Datatypes.S fuel =>
        r <- readi dp off SIZEOF_DIRENT ;;
        panic_if (negb (fst r =? SIZEOF_DIRENT)) "dirlookup read" ;;;
        if de_inum (snd r) =? 0 then dirlookup_loop fuel dp name (off + SIZEOF_DIRENT)
        else if namecmp name (de_name (snd r)) =? 0 then ret (Some (de_inum (snd r), off))
        else dirlookup_loop fuel dp name (off + SIZEOF_DIRENT)
    end
  else ret None.

(** The result is the inode and the offset stored through [poff]. *)
Definition dirlookup (dp : Z) (name : bytes) : ST fs (option (Z * Z)) :=
  x <- iget_at dp ;;
  panic_if (negb (di_type (i_din x) =? T_DIR)) "dirlookup not DIR" ;;;
  r <- dirlookup_loop (Z.to_nat (di_size (i_din x) / SIZEOF_DIRENT + 1)) dp name 0 ;;
  match r with
  | None => ret None
  | Some (inum, off) =>
      x <- iget_at dp ;;
      ip <- iget (i_dev x) inum ;;
      ret (Some (ip, off))
  end.

(** The offset of the first empty entry, or the end of the directory. *)
Fixpoint dirlink_loop (fuel : nat) (dp off : Z) : ST fs Z :=
  x <- iget_at dp ;;
  if off <? di_size (i_din x) then
    match fuel with
    | O => nofuel
    | Datatypes.S fuel =>
        r <- readi dp off SIZEOF_DIRENT ;;
        panic_if (negb (fst r =? SIZEOF_DIRENT)) "dirlink read" ;;;
        if de_inum (snd r) =? 0 then ret off
        else dirlink_loop fuel dp (off + SIZEOF_DIRENT)
    end
  else ret off.

(** [strncpy] from one array into another; see [strncpy_arr_correct]. *)
Definition strncpy_arr (src : bytes) (n : Z) : bytes :=
  let c := cstrn (chr src) 0 (Z.to_nat n) in c ++ zeros (n - lenZ c).

Definition mk_dirent (name : bytes) (inum : Z) : bytes :=
  le16 inum ++ strncpy_arr name DIRSIZ.

Definition dirlink (dp : Z) (name : bytes) (inum : Z) : ST fs Z :=
  r <- dirlookup dp name ;;
  match r with
  | Some (ip, _) => iput ip ;;; ret (-1)
  | None =>
      x <- iget_at dp ;;
      off <- dirlink_loop (Z.to_nat (di_size (i_din x) / SIZEOF_DIRENT + 1)) dp 0 ;;
      w <- writei dp (mk_dirent name inum) off ;;
      panic_if (negb (w =? SIZEOF_DIRENT)) "dirlink" ;;;
      ret 0
  end.
End fs.

(** ** Paths *)

(** [while( *path == '/') path++] *)
Fixpoint skip_slashes (path : bytes) : bytes :=
  match path with
  | c :: path' => if c =? 47 then skip_slashes path' else path
  | [] => []
  end.

(** [while( *path != '/' && *path != 0) path++]: the characters passed over and
    the rest. *)
Fixpoint take_elem (path : bytes) : bytes * bytes :=
  match path with
  | c :: path' =>
      if (c =? 47) || (c =? 0) then ([], path)
      else let '(e, r) := take_elem path' in (c :: e, r)
  | [] => ([], [])
  end.

(** The result is the rest of the path and the buffer [name] points to. *)
Definition skipelem (path name : bytes) : option (bytes * bytes) :=
  let path := skip_slashes path in
  if chr path 0 =? 0 then None
  else
    let '(s, path) := take_elem path in
    let len := lenZ s in
    let name := if DIRSIZ <=? len then blit name 0 (slice s 0 DIRSIZ)
                else upd (blit name 0 s) len 0 in
    Some (skip_slashes path, name).

Section names.
Context {S : Type} `{TxnStore S}.
Context (dev_read : Z -> option (Z -> Z -> ST (fs_t S) (Z * bytes)))
        (dev_write : Z -> option (Z -> bytes -> ST (fs_t S) Z)).
Abbreviation fs := (fs_t S).

(** The loop of [namex]; each pass removes at least one character of the path.
    The result is the inode and the contents of [name]. *)
Fixpoint namex_loop (fuel : nat) (ip : Z) (path : bytes) (nameiparent : bool) (name : bytes)
    : ST fs (option Z * bytes) :=
  match skipelem path name with
  | None =>
      if nameiparent then iput ip ;;; ret (None, name)
      else ret (Some ip, name)
  | Some (path, name) =>
      match fuel with
      | O => nofuel
      | Datatypes.S fuel =>
          ilock ip ;;;
          x <- iget_at ip ;;
          if negb (di_type (i_din x) =? T_DIR) then iunlockput ip ;;; ret (None, name)
          else if nameiparent && (chr path 0 =? 0) then iunlock ip ;;; ret (Some ip, name)
          else
            r <- dirlookup dev_read ip name ;;
            match r with
            | None => iunlockput ip ;;; ret (None, name)
            | Some (next, _) =>
                iunlockput ip ;;;
                namex_loop fuel next path nameiparent name
            end
      end
  end.

Definition namex (path : bytes) (nameiparent : bool) (name : bytes) : ST fs (option Z * bytes) :=
  ip <- (if chr path 0 =? 47 then iget ROOTDEV ROOTINO
         else cwd <- gets fs_cwd ;; idup cwd) ;;
  namex_loop (length path) ip path nameiparent name.

(** The contents of the uninitialised buffer [name] do not matter: [skipelem]
    writes it before it is read. *)
Definition namei (path : bytes) : ST fs (option Z) :=
  r <- namex path false (zeros DIRSIZ) ;;
  ret (fst r).

Definition nameiparent (path name : bytes) : ST fs (option Z * bytes) := namex path true name.
End names.

(** A write that starts past the end, whose end overflows or is past the
    largest file size returns -1 and changes nothing. *)
Theorem writei_rejects {S} `{TxnStore S} (dev_write : Z -> option (Z -> bytes -> ST (fs_t S) Z)) (s : fs_t S) ip src off :
  let din := i_din (inode_at s ip) in
  di_type din <> T_DEV -> 0 <= off < UINT_LIM -> lenZ src < UINT_LIM ->
  di_size din < off \/ MAXFILE * BSIZE < off + lenZ src ->
  writei dev_write ip src off s = Ok (-1, s).
Proof.
  intros din Hty Ho Hl Hbad. pose proof (lenZ_nonneg src). change (MAXFILE * BSIZE) with 71680 in *. unfold UINT_LIM in Ho, Hl.
  unfold writei, iget_at, bind, gets. fold din. cbv beta iota zeta.
  rewrite (proj2 (Z.eqb_neq _ _) Hty). destruct (Z.ltb_spec (di_size din) off); [done|]. cbn [orb].
  destruct (Z.ltb_spec (u32 (off + lenZ src)) off); [done|].
  assert (E : u32 (off + lenZ src) = off + lenZ src).
  { unfold u32 in *. zlia. }
  change (MAXFILE * BSIZE) with 71680. rewrite E, (proj2 (Z.ltb_lt _ _)) by lia. done.
Qed.
