(* ===== verification/File.v ===== *)
(** * Files (src/xv6/file.c, pipealloc of src/xv6/pipe.c): definitions

    The file table on top of the inodes of [Fs.v] and the pipes of [Pipe.v].  A
    [struct file *] is the index of an entry, a null pointer is [None]; a
    [struct pipe *] is the address of the page that holds it.  [ftable.lock] makes
    the operations on the table atomic and is not represented.  Properties are in
    [FileSpec.v]. *)

From S2P Require Import Prelude Bytes Cstring Pipe Store Log Txn Fs.

Definition NFILE : Z := 100.
Inductive ftype := FD_NONE | FD_PIPE | FD_INODE.
#[export] Instance ftype_eq_dec : EqDecision ftype.
Proof. solve_decision. Defined.

(** [struct file] *)
Record file := mkFile {
  fl_type : ftype; fl_ref : Z; fl_readable : bool; fl_writable : bool;
  fl_pipe : Z; fl_ip : Z; fl_off : Z
}.
Definition file0 : file := mkFile FD_NONE 0 false false 0 0 0.
#[export] Instance file_inhabited : Inhabited file := populate file0.
Definition set_ref (r : Z) (f : file) : file :=
  mkFile (fl_type f) r (fl_readable f) (fl_writable f) (fl_pipe f) (fl_ip f) (fl_off f).
Definition set_ftype (t : ftype) (f : file) : file :=
  mkFile t (fl_ref f) (fl_readable f) (fl_writable f) (fl_pipe f) (fl_ip f) (fl_off f).
Definition set_off (o : Z) (f : file) : file :=
  mkFile (fl_type f) (fl_ref f) (fl_readable f) (fl_writable f) (fl_pipe f) (fl_ip f) o.
Definition set_pipe_end (w : bool) (p : Z) (f : file) : file :=
  mkFile FD_PIPE (fl_ref f) (negb w) w p (fl_ip f) (fl_off f).

(** The state: [ftable.file], the pipes by their address, the free pages, whether
    the current process is killed, and the file system. *)
Record ksys (S : Type) := mkK {
  k_file : list file; k_pipe : gmap Z pipe_t; k_free : list Z; k_killed : bool; k_fs : fs_t S
}.
Arguments mkK {S} _ _ _ _ _.
Arguments k_file {S} _.
Arguments k_pipe {S} _.
Arguments k_free {S} _.
Arguments k_killed {S} _.
Arguments k_fs {S} _.

Section file.
Context {S : Type} `{TxnStore S}.
Context (dev_read : Z -> option (Z -> Z -> ST (fs_t S) (Z * bytes)))
        (dev_write : Z -> option (Z -> bytes -> ST (fs_t S) Z)).
(** What is in a free page. *)
Context (junk : Z -> bytes).
Abbreviation sys := (ksys S).

Definition infs {A} (m : ST (fs_t S) A) : ST sys A :=
  zoom k_fs (fun t s => mkK (k_file s) (k_pipe s) (k_free s) (k_killed s) t) m.
Definition begin_op : ST sys unit := infs (st tbegin_op).
Definition end_op : ST sys unit := infs (st tend_op).

Definition file_at (s : sys) (f : Z) : file := rd (k_file s) f.
Definition fget (f : Z) : ST sys file := gets (fun s => file_at s f).
Definition fmod (f : Z) (g : file -> file) : ST sys unit :=
  modify (fun s => mkK (upd (k_file s) f (g (file_at s f))) (k_pipe s) (k_free s) (k_killed s) (k_fs s)).
Definition set_pipe (a : Z) (p : option pipe_t) : ST sys unit :=
  modify (fun s => mkK (k_file s) (partial_alter (fun _ => p) a (k_pipe s)) (k_free s) (k_killed s) (k_fs s)).

(** [kalloc] and [kfree], as the pages of the free list. *)
Definition page_alloc : ST sys (option Z) :=
  s <- get ;;
  match k_free s with
  | [] => ret None
  | a :: l => put (mkK (k_file s) (k_pipe s) l (k_killed s) (k_fs s)) ;;; ret (Some a)
  end.
Definition page_free (a : Z) : ST sys unit :=
  modify (fun s => mkK (k_file s) (k_pipe s) (a :: k_free s) (k_killed s) (k_fs s)).

Fixpoint find_free_file (l : list file) (i : Z) : option Z :=
  match l with
  | [] => None
  | f :: l => if fl_ref f =? 0 then Some i else find_free_file l (i + 1)
  end.
Definition filealloc : ST sys (option Z) :=
  s <- get ;;
  match find_free_file (k_file s) 0 with
  | None => ret None
  | Some f => fmod f (set_ref 1) ;;; ret (Some f)
  end.

Definition filedup (f : Z) : ST sys Z :=
  x <- fget f ;;
  panic_if (fl_ref x <? 1) "filedup" ;;;
  fmod f (set_ref (fl_ref x + 1)) ;;;
  ret f.

(** [pipeclose] on the pipe at [a]. *)
Definition pipeclose_at (a : Z) (writable : bool) : ST sys unit :=
  s <- get ;;
  match k_pipe s !! a with
  | None => panic "pipeclose: bad pointer"
  | Some p =>
      let '(p', _, free) := pipeclose p writable in
      if free then set_pipe a None ;;; page_free a else set_pipe a (Some p')
  end.

Definition fileclose (f : Z) : ST sys unit :=
  ff <- fget f ;;
  panic_if (fl_ref ff <? 1) "fileclose" ;;;
  fmod f (set_ref (fl_ref ff - 1)) ;;;
  if 0 <? fl_ref ff - 1 then ret tt else
  fmod f (set_ref 0) ;;;
  fmod f (set_ftype FD_NONE) ;;;
  match fl_type ff with
  | FD_PIPE => pipeclose_at (fl_pipe ff) (fl_writable ff)
  | FD_INODE =>
      begin_op ;;;
      infs (iput (fl_ip ff)) ;;;
      end_op
  | FD_NONE => ret tt
  end.

(** [filestat]: the [struct stat] it stores, [None] for -1. *)
Definition filestat (f : Z) : ST sys (option stat_t) :=
  x <- fget f ;;
  match fl_type x with
  | FD_INODE =>
      infs (ilock (fl_ip x)) ;;;
      st <- infs (stati (fl_ip x)) ;;
      infs (iunlock (fl_ip x)) ;;;
      ret (Some st)
  | _ => ret None
  end.

(** A call that would sleep on the pipe does not return in a sequential run. *)
Definition piperead_at (a n : Z) : ST sys (Z * bytes) :=
  s <- get ;;
  match k_pipe s !! a with
  | None => panic "piperead: bad pointer"
  | Some p =>
      match piperead (k_killed s) p n with
      | (p', RDone r bs, _) => set_pipe a (Some p') ;;; ret (r, bs)
      | (_, RSleep, _) => sleep_on "pipe"
      end
  end.
Definition pipewrite_at (a : Z) (addr : bytes) : ST sys Z :=
  s <- get ;;
  match k_pipe s !! a with
  | None => panic "pipewrite: bad pointer"
  | Some p =>
      match pipewrite (k_killed s) p addr with
      | (p', WDone r, _) => set_pipe a (Some p') ;;; ret r
      | (_, WSleep _, _) => sleep_on "pipe"
      end
  end.

(** [fileread]: its result and the bytes it stores at [addr]. *)
Definition fileread (f n : Z) : ST sys (Z * bytes) :=
  x <- fget f ;;
  if negb (fl_readable x) then ret (-1, []) else
  match fl_type x with
  | FD_PIPE => piperead_at (fl_pipe x) n
  | FD_INODE =>
      infs (ilock (fl_ip x)) ;;;
      y <- fget f ;;
      r <- infs (readi dev_read (fl_ip x) (fl_off y) n) ;;
      when (0 <? r.1) (fmod f (set_off (u32 (fl_off y + r.1)))) ;;;
      infs (iunlock (fl_ip x)) ;;;
      ret r
  | FD_NONE => panic "fileread"
  end.

(** The largest write of one transaction. *)
Definition FILEWRITE_MAX : Z := (MAXOPBLOCKS - 1 - 1 - 2) / 2 * 512.

(** One turn of the loop of [filewrite]: the result of [writei]. *)
Definition filewrite_chunk (f ip : Z) (src : bytes) : ST sys Z :=
  begin_op ;;;
  infs (ilock ip) ;;;
  y <- fget f ;;
  r <- infs (writei dev_write ip src (fl_off y)) ;;
  when (0 <? r) (fmod f (set_off (u32 (fl_off y + r)))) ;;;
  infs (iunlock ip) ;;;
  end_op ;;;
  ret r.

(** The loop; each turn that goes on writes at least one byte, so that
    [lenZ addr] turns are enough.  The result is [i]. *)
Fixpoint filewrite_loop (fuel : nat) (f ip i : Z) (addr : bytes) : ST sys Z :=
  if i <? lenZ addr then
    match fuel with
    | O => nofuel
    | Datatypes.S fuel =>
        let n1 := if FILEWRITE_MAX <? lenZ addr - i then FILEWRITE_MAX else lenZ addr - i in
        r <- filewrite_chunk f ip (slice addr i n1) ;;
        if r <? 0 then ret i else
        panic_if (negb (r =? n1)) "short filewrite" ;;;
        filewrite_loop fuel f ip (i + r) addr
    end
  else ret i.

(** [filewrite]; [n] is the length of [addr]. *)
Definition filewrite (f : Z) (addr : bytes) : ST sys Z :=
  x <- fget f ;;
  if negb (fl_writable x) then ret (-1) else
  match fl_type x with
  | FD_PIPE => pipewrite_at (fl_pipe x) addr
  | FD_INODE =>
      i <- filewrite_loop (Z.to_nat (lenZ addr)) f (fl_ip x) 0 addr ;;
      ret (if i =? lenZ addr then lenZ addr else -1)
  | FD_NONE => panic "filewrite"
  end.

(** [pipealloc]: the two files, [None] for -1. *)
Definition pipealloc : ST sys (option (Z * Z)) :=
  f0 <- filealloc ;;
  match f0 with
  | None => ret None
  | Some f0 =>
      f1 <- filealloc ;;
      match f1 with
      | None => fileclose f0 ;;; ret None
      | Some f1 =>
          p <- page_alloc ;;
          match p with
          | None => fileclose f0 ;;; fileclose f1 ;;; ret None
          | Some p =>
              set_pipe p (Some (pipe_init (junk p))) ;;;
              fmod f0 (set_pipe_end false p) ;;;
              fmod f1 (set_pipe_end true p) ;;;
              ret (Some (f0, f1))
          end
      end
  end.
End file.
