(* ===== verification/FileSpec.v ===== *)
(** * The file table: reference counts and pipes

    [kinv R k]: entry [f] of the table has [R f] references, and the pipes of the
    kernel are exactly the ones that open entries use.  Every function of file.c
    keeps it, with the references it adds and drops, whatever the file system does. *)

From S2P Require Import Prelude Bytes Cstring Pipe Store Log Txn Fs File.

Definition fslot (f : Z) : Prop := 0 <= f < NFILE.
(** One reference more or less to [f]. *)
Definition radd (R : Z -> Z) (f d : Z) : Z -> Z := fun g => if g =? f then R g + d else R g.

Definition end_open (w : bool) (p : pipe_t) : bool := if w then writeopen p else readopen p.

Section inv.
Context {S : Type}.
Abbreviation sys := (ksys S).

(** Entry [f] is the end [w] of the pipe at [a]. *)
Definition pipe_end (R : Z -> Z) (k : sys) (f : Z) (w : bool) (a : Z) : Prop :=
  fslot f /\ 0 < R f /\ fl_type (file_at k f) = FD_PIPE /\ fl_writable (file_at k f) = w /\
  fl_pipe (file_at k f) = a.

Record kinv (R : Z -> Z) (k : sys) : Prop := {
  k_len : lenZ (k_file k) = NFILE;
  k_ref : forall f, fslot f -> fl_ref (file_at k f) = R f /\ 0 <= R f;
  k_none : forall f, fslot f -> R f = 0 -> fl_type (file_at k f) = FD_NONE;
  k_live : forall f w a, pipe_end R k f w a -> exists p, k_pipe k !! a = Some p /\ end_open w p = true;
  k_one : forall f g w a, pipe_end R k f w a -> pipe_end R k g w a -> f = g;
  k_ends : forall a p, k_pipe k !! a = Some p ->
    (exists w, end_open w p = true) /\ forall w, end_open w p = true -> exists f, pipe_end R k f w a;
  k_pages : forall a, a ∈ k_free k -> k_pipe k !! a = None;
  k_nodup : NoDup (k_free k)
}.

(** The file layer sees only these parts of the state. *)
Lemma kinv_parts R k k' :
  kinv R k -> k_file k' = k_file k -> k_pipe k' = k_pipe k -> k_free k' = k_free k -> kinv R k'.
Proof.
  intros [] Hf Hp Hr.
  assert (forall f, file_at k' f = file_at k f) as Hat by (intros; unfold file_at; by rewrite Hf).
  assert (forall f w a, pipe_end R k' f w a <-> pipe_end R k f w a) as Hend
    by (intros; unfold pipe_end; by rewrite Hat).
  constructor; rewrite ?Hf, ?Hr; auto.
  - intros f Hs. rewrite Hat. by apply k_ref0.
  - intros f Hs. rewrite Hat. by apply k_none0.
  - intros f w a. rewrite Hend, Hp. apply k_live0.
  - intros f g w a. rewrite !Hend. eauto.
  - intros a p. rewrite Hp. intros Ha. destruct (k_ends0 a p Ha) as [? Hw]. split; [done|].
    intros w Ho. destruct (Hw w Ho) as [f Hf']. exists f. by rewrite Hend.
  - intros a. rewrite Hp. auto.
Qed.

(** A file that is not a pipe, or an entry that does not become one, changes nothing
    for the pipes. *)
Definition same_pipes (R R' : Z -> Z) (k k' : sys) : Prop :=
  forall f w a, pipe_end R' k' f w a <-> pipe_end R k f w a.

Lemma kinv_same_pipes R R' k k' :
  kinv R k -> same_pipes R R' k k' -> lenZ (k_file k') = NFILE ->
  (forall f, fslot f -> fl_ref (file_at k' f) = R' f /\ 0 <= R' f) ->
  (forall f, fslot f -> R' f = 0 -> fl_type (file_at k' f) = FD_NONE) ->
  k_pipe k' = k_pipe k -> k_free k' = k_free k -> kinv R' k'.
Proof.
  intros [] Hend Hl Hr Hn Hp Hf. constructor; rewrite ?Hf; auto.
  - intros f w a. rewrite (Hend f w a), Hp. apply k_live0.
  - intros f g w a. rewrite (Hend f w a), (Hend g w a). eauto.
  - intros a p. rewrite Hp. intros Ha. destruct (k_ends0 a p Ha) as [? Hw]. split; [done|].
    intros w Ho. destruct (Hw w Ho) as [f Hf']. exists f. by apply Hend.
  - intros a. rewrite Hp. auto.
Qed.
End inv.

Section ops.
Context {S : Type} `{TxnStore S}.
Abbreviation sys := (ksys S).

Lemma wlp_infs {A} R (m : ST (fs_t S) A) (k : sys) (Q : A -> sys -> Prop) :
  kinv R k -> (forall a k', kinv R k' -> k_file k' = k_file k -> k_pipe k' = k_pipe k ->
    k_free k' = k_free k -> Q a k') -> wlp (infs m) k Q.
Proof.
  intros Hk HQ. apply wlp_zoom. unfold wlp. destruct (m (k_fs k)) as [[a t]| | |]; auto.
  apply HQ; try done. by eapply kinv_parts.
Qed.

Lemma file_at_upd (k : sys) f x g free killed (fs : fs_t S) :
  lenZ (k_file k) = NFILE -> fslot f -> fslot g ->
  file_at (mkK (upd (k_file k) f x) (k_pipe k) free killed fs) g = if g =? f then x else file_at k g.
Proof.
  intros Hl Hf Hg. unfold file_at, fslot in *. cbn. rewrite rd_upd by lia. by rewrite Z.eqb_sym.
Qed.

Lemma file_at_set l f x pm free killed (fs : fs_t S) :
  lenZ l = NFILE -> fslot f -> file_at (mkK (upd l f x) pm free killed fs) f = x.
Proof. intros Hl Hf. unfold file_at. cbn. apply rd_upd_eq. rewrite Hl. exact Hf. Qed.

(** The entries other than [f] are what they were. *)
Definition others_same (k k' : sys) (f : Z) : Prop :=
  forall g, fslot g -> g <> f -> file_at k' g = file_at k g.

Lemma others_same_trans (k k1 k2 : sys) f g :
  others_same k k1 f -> others_same k1 k2 g ->
  forall h, fslot h -> h <> f -> h <> g -> file_at k2 h = file_at k h.
Proof. intros H1 H2 h Hh Hf Hg. rewrite H2, H1; done. Qed.

(** An entry changes, but not its type, its end of a pipe or whether it is open. *)
Lemma kinv_fmod R R' (k : sys) f x :
  kinv R k -> fslot f -> (forall g, g <> f -> R' g = R g) -> fl_ref x = R' f -> 0 <= R' f ->
  (R' f = 0 -> fl_type x = FD_NONE) ->
  (forall w a, 0 < R' f /\ fl_type x = FD_PIPE /\ fl_writable x = w /\ fl_pipe x = a <->
    pipe_end R k f w a) ->
  kinv R' (mkK (upd (k_file k) f x) (k_pipe k) (k_free k) (k_killed k) (k_fs k)).
Proof.
  intros Hk Hf HR Hr H0 Hn Hend. pose proof (k_len _ _ Hk) as Hl.
  assert (forall g, fslot g -> g <> f ->
    file_at (mkK (upd (k_file k) f x) (k_pipe k) (k_free k) (k_killed k) (k_fs k)) g = file_at k g) as Hne.
  { intros g Hg Hgf. rewrite file_at_upd by done. by rewrite (proj2 (Z.eqb_neq g f) Hgf). }
  assert (file_at (mkK (upd (k_file k) f x) (k_pipe k) (k_free k) (k_killed k) (k_fs k)) f = x) as Heq.
  { rewrite file_at_upd by done. by rewrite Z.eqb_refl. }
  apply (kinv_same_pipes R R' k); try done.
  - intros g w a. destruct (decide (g = f)) as [->|Hgf].
    + rewrite <- Hend. unfold pipe_end. rewrite Heq. naive_solver.
    + unfold pipe_end. rewrite HR by done. split; intros (Hg & HH); (split; [done|]);
        [rewrite Hne in HH by done | rewrite Hne by done]; exact HH.
  - cbn. by rewrite upd_lenZ.
  - intros g Hg. destruct (decide (g = f)) as [->|Hgf]; [by rewrite Heq|].
    rewrite Hne, HR by done. by apply (k_ref _ _ Hk).
  - intros g Hg. destruct (decide (g = f)) as [->|Hgf]; [by rewrite Heq|].
    rewrite Hne, HR by done. by apply (k_none _ _ Hk).
Qed.

Lemma find_free_file_spec l i f :
  find_free_file l i = Some f -> i <= f < i + lenZ l /\ fl_ref (rd l (f - i)) = 0.
Proof.
  revert i. induction l as [|x l IH]; intros i; simpl; [done|].
  case_test; intros Hf; simplify_eq.
  - unfold lenZ. simpl. split; [lia|]. by rewrite Z.sub_diag.
  - destruct (IH _ Hf) as [Hr Hz]. unfold lenZ in *. simpl. split; [lia|].
    rewrite <- Hz. unfold rd. by replace (Z.to_nat (f - i)) with (Datatypes.S (Z.to_nat (f - (i + 1)))) by lia.
Qed.

Lemma filealloc_inv R (k : sys) : kinv R k ->
  wlp filealloc k (fun r k' =>
    match r with
    | None => k' = k
    | Some f => fslot f /\ R f = 0 /\ kinv (radd R f 1) k' /\ fl_type (file_at k' f) = FD_NONE /\
        others_same k k' f
    end).
Proof.
  intros Hk. unfold filealloc, fmod. do 2 wlp_step. destruct (find_free_file _ _) as [f|] eqn:Ef; [|by wlp_step].
  apply find_free_file_spec in Ef as [Hf Hz]. rewrite Z.sub_0_r in Hz. rewrite (k_len _ _ Hk) in Hf.
  assert (fslot f) as Hs by (unfold fslot; lia). do 3 wlp_step.
  destruct (k_ref _ _ Hk f Hs) as [Hr H0]. unfold file_at in Hr. rewrite Hz in Hr.
  pose proof (k_none _ _ Hk f Hs (eq_sym Hr)) as Hn. split_and!; [done.. | | |].
  - apply (kinv_fmod R); try done; unfold radd; rewrite ?Z.eqb_refl; cbn; try lia.
    + intros g Hg. by rewrite (proj2 (Z.eqb_neq g f) Hg).
    + intros w a. unfold pipe_end. rewrite Hn. naive_solver lia.
  - rewrite file_at_upd by (done || apply Hk). by rewrite Z.eqb_refl.
  - intros g Hg Hne. rewrite file_at_upd by (done || apply Hk). by rewrite (proj2 (Z.eqb_neq g f) Hne).
Qed.

Lemma kinv_ref R (k : sys) f d :
  kinv R k -> fslot f -> 0 < R f -> 0 < R f + d ->
  kinv (radd R f d) (mkK (upd (k_file k) f (set_ref (R f + d) (file_at k f))) (k_pipe k) (k_free k)
    (k_killed k) (k_fs k)).
Proof.
  intros Hk Hs H0 H1. apply (kinv_fmod R); try done; unfold radd; rewrite ?Z.eqb_refl; cbn; try lia.
  - intros g Hg. by rewrite (proj2 (Z.eqb_neq g f) Hg).
  - intros w a. unfold pipe_end. naive_solver lia.
Qed.

Lemma filedup_inv R (k : sys) f : kinv R k -> fslot f ->
  wlp (filedup f) k (fun r k' => r = f /\ kinv (radd R f 1) k' /\
    forall g, fslot g -> fl_type (file_at k' g) = fl_type (file_at k g)).
Proof.
  intros Hk Hs. destruct (k_ref _ _ Hk f Hs) as [Hr H0]. unfold filedup, fmod. wlp_step. apply wlp_gets.
  rewrite Hr. do 2 wlp_step. bool_to_prop. do 3 wlp_step. split_and!; [done | apply kinv_ref; done || lia|].
  intros g Hg. rewrite file_at_upd by (done || apply Hk). by case_test; subst.
Qed.

(** The last reference to an entry that is not a pipe goes. *)
Lemma kinv_free R (k : sys) f x :
  kinv R k -> fslot f -> R f = 1 -> fl_type (file_at k f) <> FD_PIPE ->
  fl_ref x = 0 -> fl_type x = FD_NONE ->
  kinv (radd R f (-1)) (mkK (upd (k_file k) f x) (k_pipe k) (k_free k) (k_killed k) (k_fs k)).
Proof.
  intros Hk Hs H1 Ht Hr Hn. apply (kinv_fmod R); try done; unfold radd; rewrite ?Z.eqb_refl; try lia.
  - intros g Hg. by rewrite (proj2 (Z.eqb_neq g f) Hg).
  - intros w a. unfold pipe_end. naive_solver lia.
Qed.

(** The last reference to one end of a pipe goes, [free] says whether the other
    end is closed. *)
Lemma kinv_close_pipe R (k : sys) f x w a p p' free c :
  kinv R k -> pipe_end R k f w a -> R f = 1 -> fl_ref x = 0 -> fl_type x = FD_NONE ->
  k_pipe k !! a = Some p -> pipeclose p w = (p', c, free) ->
  kinv (radd R f (-1))
    (mkK (upd (k_file k) f x) (partial_alter (fun _ => if free then None else Some p') a (k_pipe k))
       (if free then a :: k_free k else k_free k) (k_killed k) (k_fs k)).
Proof.
  intros Hk Hend H1 Hr Hn Hp Hc. pose proof Hend as (Hs & _).
  assert (end_open w p' = false /\ end_open (negb w) p' = end_open (negb w) p /\
    free = negb (end_open (negb w) p)) as (Hw1 & Hw2 & Hfr).
  { unfold pipeclose in Hc. destruct w; simplify_eq; cbn; by rewrite ?andb_true_r. }
  set (k' := mkK _ _ _ _ _).
  assert (forall g, fslot g -> file_at k' g = if g =? f then x else file_at k g) as Hat.
  { intros g Hg. unfold k', file_at. cbn. rewrite rd_upd; [by rewrite Z.eqb_sym | | apply Hg].
    rewrite (k_len _ _ Hk). exact Hs. }
  assert (forall g v b, pipe_end (radd R f (-1)) k' g v b <-> pipe_end R k g v b /\ g <> f) as HE.
  { intros g v b. unfold pipe_end, radd. destruct (decide (g = f)) as [->|Hne].
    - rewrite Z.eqb_refl. naive_solver lia.
    - rewrite (proj2 (Z.eqb_neq g f) Hne).
      split; [intros (Hg & HH); rewrite Hat, (proj2 (Z.eqb_neq g f) Hne) in HH by done; naive_solver|].
      intros [(Hg & HH) _]. split; [done|]. rewrite Hat, (proj2 (Z.eqb_neq g f) Hne) by done. exact HH. }
  assert (forall g v, pipe_end R k g v a -> g <> f -> v = negb w) as Hother.
  { intros g v Hg Hne. destruct (decide (v = w)) as [->|]; [|by destruct v, w].
    by destruct (Hne (k_one _ _ Hk _ _ _ _ Hg Hend)). }
  destruct Hk. constructor.
  - unfold k'. cbn. by rewrite upd_lenZ.
  - intros g Hg. rewrite Hat by done. unfold radd. case_test; [subst; lia | auto].
  - intros g Hg. rewrite Hat by done. unfold radd. case_test; auto.
  - intros g v b [Hg Hne]%HE. unfold k'. cbn. destruct (decide (b = a)) as [->|Hba].
    + assert (v = negb w) as -> by eauto. destruct (k_live0 _ _ _ Hg) as (q & Hq & Ho).
      assert (q = p) as -> by congruence.
      rewrite lookup_partial_alter_eq, Hfr, Ho. exists p'. by rewrite Hw2, Ho.
    + rewrite lookup_partial_alter_ne by done. by apply (k_live0 g).
  - intros g h v b [Hg _]%HE [Hh _]%HE. eauto.
  - intros b q. unfold k'. cbn. destruct (decide (b = a)) as [->|Hba].
    + rewrite lookup_partial_alter_eq. destruct free; [done|]. intros ?; simplify_eq.
      destruct (end_open (negb w) p) eqn:Eo; [|done]. split; [by exists (negb w); rewrite Hw2|].
      intros v Hv. assert (v = negb w) as -> by (destruct v, w; cbn in *; congruence).
      destruct (k_ends0 a p Hp) as [_ Hex]. destruct (Hex (negb w) Eo) as [g Hg]. exists g. apply HE.
      split; [done|]. intros ->. destruct Hg as (_ & _ & _ & Hg & _), Hend as (_ & _ & _ & Hw & _).
      rewrite Hw in Hg. by destruct w.
    + rewrite lookup_partial_alter_ne by done. intros Hq. destruct (k_ends0 b q Hq) as [? Hex].
      split; [done|]. intros v Hv. destruct (Hex v Hv) as [g Hg]. exists g. apply HE. split; [done|].
      intros ->. destruct Hg as (_ & _ & _ & _ & Hg), Hend as (_ & _ & _ & _ & Hw). congruence.
  - intros b. unfold k'. cbn. destruct (decide (b = a)) as [->|Hba].
    + rewrite lookup_partial_alter_eq. destruct free; [done|]. intros Hin. apply k_pages0 in Hin. congruence.
    + rewrite lookup_partial_alter_ne by done. destruct free; [|auto]. intros [?|?]%elem_of_cons; [done | auto].
  - unfold k'. cbn. destruct free; [|done]. constructor; [|done]. intros Hin. apply k_pages0 in Hin. congruence.
Qed.

Lemma upd_upd {A} `{Inhabited A} (l : list A) i x y : upd (upd l i x) i y = upd l i y.
Proof. apply list_insert_insert_eq. Qed.

Lemma fileclose_inv R (k : sys) f : kinv R k -> fslot f ->
  wlp (fileclose f) k (fun _ k' => kinv (radd R f (-1)) k' /\ others_same k k' f /\
    (1 < R f -> fl_type (file_at k' f) = fl_type (file_at k f))).
Proof.
  intros Hk Hs. destruct (k_ref _ _ Hk f Hs) as [Hr H0]. unfold fileclose. wlp_step. apply wlp_gets.
  rewrite Hr. do 2 wlp_step. bool_to_prop. unfold fmod at 1. do 2 wlp_step.
  assert (forall x free killed (fs : fs_t S) pm, others_same k (mkK (upd (k_file k) f x) pm free killed fs) f) as Hsame.
  { intros x free killed fs pm g Hg Hne. unfold file_at. cbn. apply rd_upd_ne; unfold fslot in *; lia. }
  case_test.
  - wlp_step. split_and!; [apply (kinv_ref _ _ _ (-1)); done || lia | done|]. intros _.
    rewrite file_at_upd by (done || apply Hk). by rewrite Z.eqb_refl.
  - assert (R f = 1) as HR1 by lia. unfold fmod. do 4 wlp_step. cbn [k_file k_pipe k_free k_killed k_fs].
    rewrite !file_at_set, !upd_upd by (rewrite ?upd_lenZ; done || apply Hk).
    match goal with |- context [upd (k_file k) f ?y] => set (x := y) end.
    assert (fl_ref x = 0 /\ fl_type x = FD_NONE) as [Hx1 Hx2] by done. clearbody x.
    destruct (fl_type (file_at k f)) eqn:Ety.
    + wlp_step. split_and!; [by apply kinv_free; try rewrite Ety | done | lia].
    + unfold pipeclose_at. do 2 wlp_step. cbn [k_pipe].
      destruct (k_pipe k !! fl_pipe (file_at k f)) as [p|] eqn:Ep; [|by wlp_step].
      destruct (pipeclose p _) as [[p' c] free] eqn:Ec.
      assert (pipe_end R k f (fl_writable (file_at k f)) (fl_pipe (file_at k f))) as Hend
        by (split_and!; try done; apply Hs || lia).
      pose proof (kinv_close_pipe R k f x _ _ p p' free c Hk Hend HR1 Hx1 Hx2 Ep Ec) as Hnew.
      unfold set_pipe, page_free. destruct free; repeat wlp_step; (split_and!; [exact Hnew | apply Hsame | lia]).
    + assert (kinv (radd R f (-1)) (mkK (upd (k_file k) f x) (k_pipe k) (k_free k) (k_killed k) (k_fs k))) as Hnew
        by (apply kinv_free; try done; by rewrite Ety).
      wlp_step. apply (wlp_infs _ _ _ _ Hnew). intros _ k1 Hk1 E1 _ _. wlp_step.
      apply (wlp_infs _ _ _ _ Hk1). intros _ k2 Hk2 E2 _ _.
      apply (wlp_infs _ _ _ _ Hk2). intros _ k3 Hk3 E3 _ _. split_and!; [done| |lia].
      intros g Hg Hne. unfold file_at. rewrite E3, E2, E1. by apply (Hsame x (k_free k) false (k_fs k) ∅).
Qed.

(** [kalloc]: a page that no pipe uses. *)
Lemma page_alloc_inv R (k : sys) : kinv R k ->
  wlp page_alloc k (fun r k' => kinv R k' /\ k_file k' = k_file k /\
    match r with
    | None => True
    | Some a => k_pipe k' !! a = None /\ a ∉ k_free k'
    end).
Proof.
  intros Hk. unfold page_alloc. do 2 wlp_step. destruct (k_free k) as [|a l] eqn:Ef; [by wlp_step|].
  wlp_step. apply wlp_modify with (f := fun _ => _). wlp_step. cbn.
  pose proof (k_nodup _ _ Hk) as Hnd. rewrite Ef in Hnd. apply NoDup_cons in Hnd as [Ha Hnd].
  split_and!; try done; [|apply (k_pages _ _ Hk); rewrite Ef; by constructor].
  destruct Hk. constructor; try done. cbn. intros b Hb. apply k_pages0. rewrite Ef. by constructor.
Qed.

(** A new pipe with its two ends. *)
Lemma kinv_new_pipe R (k : sys) f0 f1 a p :
  kinv R k -> fslot f0 -> fslot f1 -> f0 <> f1 -> R f0 = 1 -> R f1 = 1 ->
  fl_type (file_at k f0) = FD_NONE -> fl_type (file_at k f1) = FD_NONE ->
  k_pipe k !! a = None -> a ∉ k_free k -> readopen p = true -> writeopen p = true ->
  kinv R (mkK (upd (upd (k_file k) f0 (set_pipe_end false a (file_at k f0))) f1
                 (set_pipe_end true a (file_at k f1)))
            (partial_alter (fun _ => Some p) a (k_pipe k)) (k_free k) (k_killed k) (k_fs k)).
Proof.
  intros Hk Hs0 Hs1 Hne H0 H1 Ht0 Ht1 Ha Hfr Hro Hwo. set (k' := mkK _ _ _ _ _).
  assert (forall g, fslot g -> file_at k' g = if g =? f1 then set_pipe_end true a (file_at k f1)
    else if g =? f0 then set_pipe_end false a (file_at k f0) else file_at k g) as Hat.
  { intros g Hg. unfold k', file_at. cbn. pose proof (k_len _ _ Hk). unfold fslot in *.
    rewrite !rd_upd by (rewrite ?upd_lenZ; lia). by rewrite !(Z.eqb_sym g). }
  assert (forall g w b, pipe_end R k' g w b <->
    pipe_end R k g w b \/ b = a /\ g = if w then f1 else f0) as HE.
  { intros g w b. unfold pipe_end. destruct (decide (g = f1)) as [->|N1]; [|destruct (decide (g = f0)) as [->|N0]].
    - rewrite Hat, Z.eqb_refl by done. cbn. rewrite Ht1. destruct w; naive_solver lia.
    - rewrite Hat, (proj2 (Z.eqb_neq f0 f1) Hne), Z.eqb_refl by done. cbn. rewrite Ht0.
      destruct w; naive_solver lia.
    - split.
      + intros (Hg & HH). rewrite Hat, (proj2 (Z.eqb_neq g f1) N1), (proj2 (Z.eqb_neq g f0) N0) in HH by done.
        by left.
      + intros [(Hg & HH)|[_ ?]]; [|by destruct w]. split; [done|].
        by rewrite Hat, (proj2 (Z.eqb_neq g f1) N1), (proj2 (Z.eqb_neq g f0) N0) by done. }
  assert (forall g w, ~ pipe_end R k g w a) as Hno.
  { intros g w Hg. destruct (k_live _ _ Hk _ _ _ Hg) as (q & Hq & _). congruence. }
  destruct Hk. constructor; try done.
  - unfold k'. cbn. by rewrite !upd_lenZ.
  - intros g Hg. rewrite Hat by done. repeat case_test; subst; cbn; auto.
  - intros g Hg Hz. rewrite Hat by done. repeat case_test; subst; auto; lia.
  - intros g w b [Hg|[-> ->]]%HE; unfold k'; cbn.
    + rewrite lookup_partial_alter_ne by (intros ->; by apply (Hno g w)). by apply (k_live0 g).
    + rewrite lookup_partial_alter_eq. exists p. by destruct w.
  - intros g h w b [Hg|[-> ->]]%HE [Hh|[E ->]]%HE; eauto; subst; by destruct (Hno _ _ Hg) || destruct (Hno _ _ Hh).
  - intros b q. unfold k'. cbn. destruct (decide (b = a)) as [->|Hba].
    + rewrite lookup_partial_alter_eq. intros ?; simplify_eq. split; [by exists true|].
      intros w _. exists (if w then f1 else f0). apply HE. by right.
    + rewrite lookup_partial_alter_ne by done. intros Hq. destruct (k_ends0 b q Hq) as [? Hex].
      split; [done|]. intros w Hw. destruct (Hex w Hw) as [g Hg]. exists g. apply HE. by left.
  - intros b. unfold k'. cbn. intros Hb. rewrite lookup_partial_alter_ne by congruence. auto.
Qed.

Lemma kinv_ext R R' (k : sys) : (forall f, R f = R' f) -> kinv R k -> kinv R' k.
Proof.
  intros HR Hk. apply (kinv_same_pipes R R' k); try done; try apply Hk.
  - intros f w a. unfold pipe_end. by rewrite HR.
  - intros f Hf. rewrite <- HR. by apply Hk.
  - intros f Hf. rewrite <- HR. by apply Hk.
Qed.

Lemma pipealloc_inv junk R (k : sys) : kinv R k ->
  wlp (pipealloc junk) k (fun r k' =>
    match r with
    | None => kinv R k' /\ forall g, fslot g -> 0 < R g -> file_at k' g = file_at k g
    | Some (f0, f1) => fslot f0 /\ fslot f1 /\ f0 <> f1 /\ R f0 = 0 /\ R f1 = 0 /\
        kinv (radd (radd R f0 1) f1 1) k' /\
        fl_type (file_at k' f0) = FD_PIPE /\ fl_type (file_at k' f1) = FD_PIPE /\
        forall g, fslot g -> 0 < R g -> file_at k' g = file_at k g
    end).
Proof.
  intros Hk. unfold pipealloc. wlp_step. eapply wlp_mono; [by apply filealloc_inv|].
  intros [f0|] k0; [|intros ->; by wlp_step]. intros (Hs0 & HR0 & Hk0 & Ht0 & Ho0). wlp_step.
  eapply wlp_mono; [by apply filealloc_inv|]. intros [f1|] k1.
  - intros (Hs1 & HR1 & Hk1 & Ht1 & Ho1).
    assert (f0 <> f1) as Hne by (intros <-; unfold radd in HR1; rewrite Z.eqb_refl in HR1; lia).
    assert (R f1 = 0) as HR1' by (unfold radd in HR1; destruct (Z.eqb_spec f1 f0); [by subst | done]).
    wlp_step. eapply wlp_mono; [by apply page_alloc_inv|]. intros [a|] k2 (Hk2 & Ef & Hpa).
    + destruct Hpa as [Ha Hfr].
      assert (file_at k2 f0 = file_at k0 f0) as E0
        by (unfold file_at; rewrite Ef; apply (Ho1 f0); done).
      assert (file_at k2 f1 = file_at k1 f1) as E1 by (unfold file_at; by rewrite Ef).
      pose proof (kinv_new_pipe _ k2 f0 f1 a (pipe_init (junk a)) Hk2 Hs0 Hs1 Hne) as Hnew.
      rewrite E0, E1 in Hnew. unfold set_pipe, fmod. repeat wlp_step. cbn [k_file k_pipe k_free k_killed k_fs].
      match goal with |- context [file_at (mkK (upd (k_file k2) f0 ?x) ?pm ?fr ?kl ?fs) f1] =>
        assert (file_at (mkK (upd (k_file k2) f0 x) pm fr kl fs) f1 = file_at k1 f1) as E2
          by (rewrite <- E1; apply rd_upd_ne; unfold fslot in *; lia) end.
      rewrite E2. clear E2. match goal with |- context [file_at (mkK (k_file k2) ?pm ?fr ?kl ?fs) f0] =>
        change (file_at (mkK (k_file k2) pm fr kl fs) f0) with (file_at k2 f0) end. rewrite E0.
      split_and!; try done.
      * apply Hnew; try done; unfold radd; repeat case_test; lia.
      * unfold file_at. cbn. rewrite rd_upd_ne, rd_upd_eq by (unfold fslot in *; rewrite ?(k_len _ _ Hk2); lia). done.
      * unfold file_at. cbn. rewrite rd_upd_eq by (rewrite upd_lenZ, (k_len _ _ Hk2); exact Hs1). done.
      * intros g Hg HRg. unfold file_at at 1. cbn.
        rewrite !rd_upd_ne, Ef by (unfold fslot in *; first [lia | intros <-; lia]).
        rewrite <- Ho0, <- Ho1 by (done || intros ->; lia). done.
    + wlp_step. eapply wlp_mono; [by apply fileclose_inv|]. intros _ k3 (Hk3 & Ho3 & _). wlp_step.
      eapply wlp_mono; [by apply fileclose_inv|]. intros _ k4 (Hk4 & Ho4 & _). wlp_step. split.
      * eapply kinv_ext, Hk4. intros g. unfold radd. repeat case_test; lia.
      * intros g Hg HRg. assert (g <> f0 /\ g <> f1) as [N0 N1] by (split; intros ->; lia).
        rewrite Ho4, Ho3 by done. transitivity (file_at k1 g); [unfold file_at; by rewrite Ef|].
        by rewrite Ho1, Ho0.
  - intros ->. wlp_step. eapply wlp_mono; [by apply fileclose_inv|]. intros _ k3 (Hk3 & Ho3 & _). wlp_step.
    split.
    + eapply kinv_ext, Hk3. intros g. unfold radd. repeat case_test; lia.
    + intros g Hg HRg. assert (g <> f0) by (intros ->; lia). by rewrite Ho3, Ho0.
Qed.

(** ** Reading and writing *)

Definition types_same (k k' : sys) : Prop :=
  forall g, fslot g -> fl_type (file_at k' g) = fl_type (file_at k g).
Lemma types_file (k k' : sys) : k_file k' = k_file k -> types_same k k'.
Proof. intros E g Hg. unfold file_at. by rewrite E. Qed.
Lemma types_trans (k k1 k2 : sys) : types_same k k1 -> types_same k1 k2 -> types_same k k2.
Proof. intros H1 H2 g Hg. rewrite H2, H1; done. Qed.

(** A pipe keeps its ends when bytes go in or out. *)
Lemma kinv_pipe_data R (k : sys) a p p' :
  kinv R k -> k_pipe k !! a = Some p -> readopen p' = readopen p -> writeopen p' = writeopen p ->
  kinv R (mkK (k_file k) (partial_alter (fun _ => Some p') a (k_pipe k)) (k_free k) (k_killed k) (k_fs k)).
Proof.
  intros Hk Hp Hr Hw. assert (forall w, end_open w p' = end_open w p) as He by (by intros []).
  destruct Hk. constructor; try done; cbn.
  - intros f w b Hf. destruct (k_live0 f w b Hf) as (q & Hq & Ho). destruct (decide (b = a)) as [->|Hne].
    + rewrite lookup_partial_alter_eq. exists p'. split; [done|]. rewrite He. congruence.
    + rewrite lookup_partial_alter_ne by done. by exists q.
  - intros b q. destruct (decide (b = a)) as [->|Hne].
    + rewrite lookup_partial_alter_eq. intros ?; simplify_eq. destruct (k_ends0 a p Hp) as [[w Hex] Hall].
      split; [exists w; by rewrite He|]. intros v. rewrite He. apply Hall.
    + rewrite lookup_partial_alter_ne by done. apply k_ends0.
  - intros b Hb. destruct (decide (b = a)) as [->|Hne]; [apply k_pages0 in Hb; congruence|].
    rewrite lookup_partial_alter_ne by done. auto.
Qed.

Lemma piperead_copy_open p n : let p' := (piperead_copy p n).1 in
  readopen p' = readopen p /\ writeopen p' = writeopen p.
Proof.
  revert p. induction n as [|n IH]; intros p; simpl; [done|]. case_test; [done|].
  unfold pipe_get. specialize (IH (mkPipe (data p) (u32 (nread p + 1)) (nwrite p) (readopen p) (writeopen p))).
  by destruct (piperead_copy _ n).
Qed.
Lemma pipewrite_loop_open kl n p rest : let p' := (pipewrite_loop kl n p rest).1.1 in
  readopen p' = readopen p /\ writeopen p' = writeopen p.
Proof.
  revert p. induction rest as [|b rest IH]; intros p; simpl; [done|]. repeat case_test; try done.
  apply (IH (pipe_put p b)).
Qed.

Lemma piperead_at_inv R (k : sys) a n : kinv R k ->
  wlp (piperead_at a n) k (fun _ k' => kinv R k' /\ types_same k k').
Proof.
  intros Hk. unfold piperead_at. do 2 wlp_step. destruct (k_pipe k !! a) as [p|] eqn:Ep; [|by wlp_step].
  unfold piperead. destruct (_ && _); [destruct (k_killed k); [|done]|].
  - unfold set_pipe. repeat wlp_step. split; [by eapply kinv_pipe_data | by apply types_file].
  - pose proof (piperead_copy_open p (Z.to_nat n)) as [Hr Hw]. destruct (piperead_copy p _) as [p' bs].
    unfold set_pipe. repeat wlp_step. split; [by eapply kinv_pipe_data | by apply types_file].
Qed.
Lemma pipewrite_at_inv R (k : sys) a d : kinv R k ->
  wlp (pipewrite_at a d) k (fun _ k' => kinv R k' /\ types_same k k').
Proof.
  intros Hk. unfold pipewrite_at. do 2 wlp_step. destruct (k_pipe k !! a) as [p|] eqn:Ep; [|by wlp_step].
  pose proof (pipewrite_loop_open (k_killed k) (lenZ d) p d) as [Hr Hw]. unfold pipewrite.
  destruct (pipewrite_loop _ _ _ _) as [[p' [r|rest]] c]; [|done].
  unfold set_pipe. repeat wlp_step. split; [by eapply kinv_pipe_data | by apply types_file].
Qed.

(** The offset of an entry. *)
Lemma kinv_off R (k : sys) f o : kinv R k -> fslot f ->
  kinv R (mkK (upd (k_file k) f (set_off o (file_at k f))) (k_pipe k) (k_free k) (k_killed k) (k_fs k)).
Proof.
  intros Hk Hs. destruct (k_ref _ _ Hk f Hs). apply (kinv_fmod R R); try done; try (by apply Hk).
  intros w a. unfold pipe_end. cbn. naive_solver.
Qed.
Lemma types_off (k : sys) f o : lenZ (k_file k) = NFILE -> fslot f ->
  types_same k (mkK (upd (k_file k) f (set_off o (file_at k f))) (k_pipe k) (k_free k) (k_killed k) (k_fs k)).
Proof. intros Hl Hs g Hg. rewrite file_at_upd by done. by case_test; subst. Qed.

Lemma filestat_inv R (k : sys) f : kinv R k ->
  wlp (filestat f) k (fun _ k' => kinv R k' /\ types_same k k').
Proof.
  intros Hk. unfold filestat. wlp_step. apply wlp_gets. destruct (fl_type _); try by wlp_step.
  wlp_step. apply (wlp_infs _ _ _ _ Hk). intros _ k1 Hk1 E1 _ _. wlp_step.
  apply (wlp_infs _ _ _ _ Hk1). intros x k2 Hk2 E2 _ _. wlp_step.
  apply (wlp_infs _ _ _ _ Hk2). intros _ k3 Hk3 E3 _ _. wlp_step. split; [done|].
  apply types_file. congruence.
Qed.

Lemma fileread_inv dev_read R (k : sys) f n : kinv R k -> fslot f ->
  wlp (fileread dev_read f n) k (fun _ k' => kinv R k' /\ types_same k k').
Proof.
  intros Hk Hs. unfold fileread. wlp_step. apply wlp_gets. case_test; [by wlp_step|].
  destruct (fl_type _); [by wlp_step | by apply piperead_at_inv|].
  wlp_step. apply (wlp_infs _ _ _ _ Hk). intros _ k1 Hk1 E1 _ _. wlp_step. apply wlp_gets. wlp_step.
  apply (wlp_infs _ _ _ _ Hk1). intros [r bs] k2 Hk2 E2 _ _.
  wlp_step. apply wlp_when; intros _.
  - apply wlp_modify. wlp_step. apply (wlp_infs R); [by apply kinv_off|]. intros _ k3 Hk3 E3 _ _. wlp_step.
    split; [done|]. apply (types_trans _ k2); [apply types_file; congruence|].
    eapply types_trans; [apply (types_off k2 f); [apply Hk2 | done]|]. apply types_file. exact E3.
  - wlp_step. apply (wlp_infs R); [done|]. intros _ k3 Hk3 E3 _ _. wlp_step.
    split; [done|]. apply types_file. congruence.
Qed.

Lemma filewrite_chunk_inv dev_write R (k : sys) f ip src : kinv R k -> fslot f ->
  wlp (filewrite_chunk dev_write f ip src) k (fun _ k' => kinv R k' /\ types_same k k').
Proof.
  intros Hk Hs. unfold filewrite_chunk. wlp_step. apply (wlp_infs _ _ _ _ Hk). intros _ k0 Hk0 E0 _ _.
  wlp_step. apply (wlp_infs _ _ _ _ Hk0). intros _ k1 Hk1 E1 _ _. wlp_step. apply wlp_gets. wlp_step.
  apply (wlp_infs _ _ _ _ Hk1). intros r k2 Hk2 E2 _ _.
  wlp_step. apply wlp_when; intros _.
  - apply wlp_modify. wlp_step. apply (wlp_infs R); [by apply kinv_off|]. intros _ k3 Hk3 E3 _ _. wlp_step.
    apply (wlp_infs _ _ _ _ Hk3). intros _ k4 Hk4 E4 _ _. wlp_step.
    split; [done|]. apply (types_trans _ k2); [apply types_file; congruence|].
    eapply types_trans; [apply (types_off k2 f); [apply Hk2 | done]|]. apply types_file.
    etrans; [exact E4 | exact E3].
  - wlp_step. apply (wlp_infs R); [done|]. intros _ k3 Hk3 E3 _ _. wlp_step.
    apply (wlp_infs _ _ _ _ Hk3). intros _ k4 Hk4 E4 _ _. wlp_step.
    split; [done|]. apply types_file. congruence.
Qed.

Lemma filewrite_loop_inv dev_write R fuel : forall (k : sys) f ip i addr, kinv R k -> fslot f ->
  wlp (filewrite_loop dev_write fuel f ip i addr) k (fun _ k' => kinv R k' /\ types_same k k').
Proof.
  induction fuel as [|fuel IH]; intros k f ip i addr Hk Hs; cbn [filewrite_loop];
    (case_test; [|by wlp_step]); [done|]. wlp_step.
  eapply wlp_mono; [by apply filewrite_chunk_inv|]. intros r k1 [Hk1 Ht1]. case_test; [by wlp_step|].
  do 2 wlp_step. eapply wlp_mono; [by apply IH|]. intros r' k2 [Hk2 Ht2]. split; [done|].
  by eapply types_trans.
Qed.

Lemma filewrite_inv dev_write R (k : sys) f addr : kinv R k -> fslot f ->
  wlp (filewrite dev_write f addr) k (fun _ k' => kinv R k' /\ types_same k k').
Proof.
  intros Hk Hs. unfold filewrite. wlp_step. apply wlp_gets. case_test; [by wlp_step|].
  destruct (fl_type _); [by wlp_step | by apply pipewrite_at_inv|].
  wlp_step. eapply wlp_mono; [by apply filewrite_loop_inv|]. intros r k1 Hk1. by wlp_step.
Qed.
End ops.
