(* ===== verification/Sysfile.v ===== *)
(** * The file-system calls (src/xv6/sysfile.c): definitions

    Every function of sysfile.c for the current process: its open files
    [ofile], its memory ([Syscall.v]) and the files and inodes of the kernel
    ([File.v], [Fs.v]); its working directory is [fs_cwd].  [exec] is a
    parameter.  The results are those of the C functions. *)

From S2P Require Import Prelude Bytes Cstring Pipe Syscall Store Log Txn Fs File.

Definition O_RDONLY : Z := 0.
Definition O_WRONLY : Z := 1.
Definition O_RDWR : Z := 2.
Definition O_CREATE : Z := 512.
Definition MAXARG : Z := 32.
Definition NOFILE : Z := 16.

Record usys (S : Type) := mkU { x_ofile : list (option Z); x_user : user; x_k : ksys S }.
Arguments mkU {S} _ _ _.
Arguments x_ofile {S} _.
Arguments x_user {S} _.
Arguments x_k {S} _.

(** The bytes of a [struct stat], with the padding as it was. *)
Definition stat_bytes (old : bytes) (x : stat_t) : bytes :=
  let d := put16 old 0 (st_type x) in
  let d := put32 d 4 (st_dev x) in
  let d := put32 d 8 (st_ino x) in
  let d := put16 d 12 (st_nlink x) in
  put32 d 16 (st_size x).
Definition SIZEOF_STAT : Z := 20.

Section sysfile.
Context {S : Type} `{TxnStore S}.
Context (dev_read : Z -> option (Z -> Z -> ST (fs_t S) (Z * bytes)))
        (dev_write : Z -> option (Z -> bytes -> ST (fs_t S) Z))
        (junk : Z -> bytes).
(** [exec(path, argv)], with the strings of [argv]. *)
Context (exec : bytes -> list bytes -> ST (usys S) Z).
Abbreviation sys := (usys S).

Definition ink {A} (m : ST (ksys S) A) : ST sys A :=
  zoom x_k (fun k s => mkU (x_ofile s) (x_user s) k) m.
Definition infs_ {A} (m : ST (fs_t S) A) : ST sys A := ink (infs m).
Definition begin_op_ : ST sys unit := ink begin_op.
Definition end_op_ : ST sys unit := ink end_op.
Definition set_ofile (fd : Z) (f : option Z) : ST sys unit :=
  modify (fun s => mkU (upd (x_ofile s) fd f) (x_user s) (x_k s)).
Definition get_user : ST sys user := gets x_user.
Definition put_user (p : Z) (d : bytes) : ST sys unit :=
  modify (fun s => mkU (x_ofile s) (ustore (x_user s) p d) (x_k s)).
Definition itype (ip : Z) : ST sys Z := infs_ (x <- iget_at ip ;; ret (di_type (i_din x))).

(** The argument [n] as an [int] and as a string; [None] is -1. *)
Definition arg (n : Z) : ST sys (option Z) := u <- get_user ;; ret (argint u n).
Definition path_arg (n : Z) : ST sys (option bytes) :=
  u <- get_user ;;
  ret (match argstr u n with
       | Some (p, len) => Some (ubytes u p len)
       | None => None
       end).

(** [argfd]: the descriptor and the file. *)
Definition argfd (n : Z) : ST sys (option (Z * Z)) :=
  s <- get ;;
  ret (match argint (x_user s) n with
       | None => None
       | Some fd =>
           if (fd <? 0) || (NOFILE <=? fd) then None else
           match rd (x_ofile s) fd with
           | None => None
           | Some f => Some (fd, f)
           end
       end).

Fixpoint find_fd (l : list (option Z)) (fd : Z) : option Z :=
  match l with
  | [] => None
  | None :: _ => Some fd
  | Some _ :: l => find_fd l (fd + 1)
  end.
Definition fdalloc (f : Z) : ST sys (option Z) :=
  s <- get ;;
  match find_fd (x_ofile s) 0 with
  | None => ret None
  | Some fd => set_ofile fd (Some f) ;;; ret (Some fd)
  end.

Definition sys_dup : ST sys Z :=
  a <- argfd 0 ;;
  match a with
  | None => ret (-1)
  | Some (_, f) =>
      r <- fdalloc f ;;
      match r with
      | None => ret (-1)
      | Some fd => ink (filedup f) ;;; ret fd
      end
  end.

(** [argfd(0, 0, &f) < 0 || argint(2, &n) < 0 || argptr(1, &p, n) < 0]: the file,
    the pointer and the size. *)
Definition arg_buf : ST sys (option (Z * Z * Z)) :=
  a <- argfd 0 ;;
  u <- get_user ;;
  ret (match a, argint u 2 with
       | Some (_, f), Some n =>
           match argptr u 1 n with
           | Some p => Some (f, p, n)
           | None => None
           end
       | _, _ => None
       end).

Definition sys_read : ST sys Z :=
  a <- arg_buf ;;
  match a with
  | None => ret (-1)
  | Some (f, p, n) =>
      r <- ink (fileread dev_read f n) ;;
      put_user p r.2 ;;;
      ret r.1
  end.

Definition sys_write : ST sys Z :=
  a <- arg_buf ;;
  match a with
  | None => ret (-1)
  | Some (f, p, n) =>
      u <- get_user ;;
      ink (filewrite dev_write f (ubytes u p n))
  end.

Definition sys_close : ST sys Z :=
  a <- argfd 0 ;;
  match a with
  | None => ret (-1)
  | Some (fd, f) => set_ofile fd None ;;; ink (fileclose f) ;;; ret 0
  end.

Definition sys_fstat : ST sys Z :=
  a <- argfd 0 ;;
  u <- get_user ;;
  match a, argptr u 1 SIZEOF_STAT with
  | Some (_, f), Some p =>
      r <- ink (filestat f) ;;
      match r with
      | None => ret (-1)
      | Some x => put_user p (stat_bytes (ubytes u p SIZEOF_STAT) x) ;;; ret 0
      end
  | _, _ => ret (-1)
  end.

(** [ip->nlink] is a [short]. *)
Definition add_nlink (ip n : Z) : ST sys unit :=
  infs_ (dmod ip (fun d => set_nlink (s16 (di_nlink d + n)) d)).

(** The end of [sys_link] from the label [bad]. *)
Definition link_bad (ip : Z) : ST sys Z :=
  infs_ (ilock ip) ;;;
  add_nlink ip (-1) ;;;
  infs_ (iupdate ip) ;;;
  infs_ (iunlockput ip) ;;;
  end_op_ ;;;
  ret (-1).

Definition NAME0 : bytes := zeros DIRSIZ.

Definition sys_link : ST sys Z :=
  old <- path_arg 0 ;;
  new <- path_arg 1 ;;
  match old, new with
  | Some old, Some new =>
      begin_op_ ;;;
      r <- infs_ (namei dev_read old) ;;
      match r with
      | None => end_op_ ;;; ret (-1)
      | Some ip =>
          infs_ (ilock ip) ;;;
          t <- itype ip ;;
          if t =? T_DIR then infs_ (iunlockput ip) ;;; end_op_ ;;; ret (-1) else
          add_nlink ip 1 ;;;
          infs_ (iupdate ip) ;;;
          infs_ (iunlock ip) ;;;
          q <- infs_ (nameiparent dev_read new NAME0) ;;
          match q with
          | (None, _) => link_bad ip
          | (Some dp, name) =>
              infs_ (ilock dp) ;;;
              xd <- infs_ (iget_at dp) ;;
              xi <- infs_ (iget_at ip) ;;
              l <- (if negb (i_dev xd =? i_dev xi) then ret (-1)
                    else infs_ (dirlink dev_read dev_write dp name (i_inum xi))) ;;
              if l <? 0 then infs_ (iunlockput dp) ;;; link_bad ip else
              infs_ (iunlockput dp) ;;;
              infs_ (iput ip) ;;;
              end_op_ ;;;
              ret 0
          end
      end
  | _, _ => ret (-1)
  end.

(** The loop of [isdirempty] at offset [off]. *)
Fixpoint isdirempty_loop (fuel : nat) (dp off : Z) : ST sys Z :=
  x <- infs_ (iget_at dp) ;;
  if off <? di_size (i_din x) then
    match fuel with
    | O => nofuel
    | Datatypes.S fuel =>
        r <- infs_ (readi dev_read dp off SIZEOF_DIRENT) ;;
        panic_if (negb (r.1 =? SIZEOF_DIRENT)) "isdirempty: readi" ;;;
        if negb (de_inum r.2 =? 0) then ret 0
        else isdirempty_loop fuel dp (off + SIZEOF_DIRENT)
    end
  else ret 1.
Definition isdirempty (dp : Z) : ST sys Z :=
  x <- infs_ (iget_at dp) ;;
  isdirempty_loop (Z.to_nat (di_size (i_din x))) dp (2 * SIZEOF_DIRENT).

Definition DOT : bytes := [46].
Definition DOTDOT : bytes := [46; 46].

(** The end of [sys_unlink] from the label [bad]. *)
Definition unlink_bad (dp : Z) : ST sys Z :=
  infs_ (iunlockput dp) ;;; end_op_ ;;; ret (-1).

(** [sys_unlink] once the entry is found at [off] and [ip] is locked. *)
Definition unlink_entry (dp ip off : Z) : ST sys Z :=
  x <- infs_ (iget_at ip) ;;
  panic_if (di_nlink (i_din x) <? 1) "unlink: nlink < 1" ;;;
  e <- (if di_type (i_din x) =? T_DIR then isdirempty ip else ret 1) ;;
  if e =? 0 then infs_ (iunlockput ip) ;;; unlink_bad dp else
  w <- infs_ (writei dev_write dp (zeros SIZEOF_DIRENT) off) ;;
  panic_if (negb (w =? SIZEOF_DIRENT)) "unlink: writei" ;;;
  t <- itype ip ;;
  when (t =? T_DIR) (add_nlink dp (-1) ;;; infs_ (iupdate dp)) ;;;
  infs_ (iunlockput dp) ;;;
  add_nlink ip (-1) ;;;
  infs_ (iupdate ip) ;;;
  infs_ (iunlockput ip) ;;;
  end_op_ ;;;
  ret 0.

Definition sys_unlink : ST sys Z :=
  path <- path_arg 0 ;;
  match path with
  | None => ret (-1)
  | Some path =>
      begin_op_ ;;;
      q <- infs_ (nameiparent dev_read path NAME0) ;;
      match q with
      | (None, _) => end_op_ ;;; ret (-1)
      | (Some dp, name) =>
          infs_ (ilock dp) ;;;
          if (namecmp name DOT =? 0) || (namecmp name DOTDOT =? 0) then unlink_bad dp else
          r <- infs_ (dirlookup dev_read dp name) ;;
          match r with
          | None => unlink_bad dp
          | Some (ip, off) => infs_ (ilock ip) ;;; unlink_entry dp ip off
          end
      end
  end.

(** [create] when the name is not in the directory [dp]. *)
Definition create_new (dp : Z) (name : bytes) (type major minor : Z) : ST sys (option Z) :=
  xd <- infs_ (iget_at dp) ;;
  ip <- infs_ (ialloc (i_dev xd) type) ;;
  infs_ (ilock ip) ;;;
  infs_ (dmod ip (fun d => mkDinode (di_type d) (s16 major) (s16 minor) 1 (di_size d) (di_addrs d))) ;;;
  infs_ (iupdate ip) ;;;
  xi <- infs_ (iget_at ip) ;;
  when (type =? T_DIR)
    (add_nlink dp 1 ;;;
     infs_ (iupdate dp) ;;;
     r1 <- infs_ (dirlink dev_read dev_write ip DOT (i_inum xi)) ;;
     r2 <- (if r1 <? 0 then ret (-1)
            else infs_ (dirlink dev_read dev_write ip DOTDOT (i_inum xd))) ;;
     panic_if (r2 <? 0) "create dots") ;;;
  r <- infs_ (dirlink dev_read dev_write dp name (i_inum xi)) ;;
  panic_if (r <? 0) "create: dirlink" ;;;
  infs_ (iunlockput dp) ;;;
  ret (Some ip).

Definition create (path : bytes) (type major minor : Z) : ST sys (option Z) :=
  q <- infs_ (nameiparent dev_read path NAME0) ;;
  match q with
  | (None, _) => ret None
  | (Some dp, name) =>
      infs_ (ilock dp) ;;;
      r <- infs_ (dirlookup dev_read dp name) ;;
      match r with
      | Some (ip, _) =>
          infs_ (iunlockput dp) ;;;
          infs_ (ilock ip) ;;;
          t <- itype ip ;;
          if (type =? T_FILE) && (t =? T_FILE) then ret (Some ip)
          else infs_ (iunlockput ip) ;;; ret None
      | None => create_new dp name type major minor
      end
  end.

(** The first part of [sys_open]: the inode, locked, or -1 with the operation ended. *)
Definition open_inode (path : bytes) (omode : Z) : ST sys (option Z) :=
  if negb (Z.land omode O_CREATE =? 0) then
    r <- create path T_FILE 0 0 ;;
    match r with
    | None => end_op_ ;;; ret None
    | Some ip => ret (Some ip)
    end
  else
    r <- infs_ (namei dev_read path) ;;
    match r with
    | None => end_op_ ;;; ret None
    | Some ip =>
        infs_ (ilock ip) ;;;
        t <- itype ip ;;
        if (t =? T_DIR) && negb (omode =? O_RDONLY) then
          infs_ (iunlockput ip) ;;; end_op_ ;;; ret None
        else ret (Some ip)
    end.

Definition open_bad (f : option Z) (ip : Z) : ST sys Z :=
  match f with
  | Some f => ink (fileclose f)
  | None => ret tt
  end ;;;
  infs_ (iunlockput ip) ;;;
  end_op_ ;;;
  ret (-1).

Definition sys_open : ST sys Z :=
  path <- path_arg 0 ;;
  om <- arg 1 ;;
  match path, om with
  | Some path, Some omode =>
      begin_op_ ;;;
      r <- open_inode path omode ;;
      match r with
      | None => ret (-1)
      | Some ip =>
          f <- ink filealloc ;;
          match f with
          | None => open_bad None ip
          | Some f =>
              fd <- fdalloc f ;;
              match fd with
              | None => open_bad (Some f) ip
              | Some fd =>
                  infs_ (iunlock ip) ;;;
                  end_op_ ;;;
                  ink (fmod f (fun x => mkFile FD_INODE (fl_ref x) (Z.land omode O_WRONLY =? 0)
                         (negb (Z.land omode O_WRONLY =? 0) || negb (Z.land omode O_RDWR =? 0))
                         (fl_pipe x) ip 0)) ;;;
                  ret fd
              end
          end
      end
  | _, _ => ret (-1)
  end.

(** The end of [sys_mkdir] and [sys_mknod]. *)
Definition made (r : option Z) : ST sys Z :=
  match r with
  | None => end_op_ ;;; ret (-1)
  | Some ip => infs_ (iunlockput ip) ;;; end_op_ ;;; ret 0
  end.

Definition sys_mkdir : ST sys Z :=
  begin_op_ ;;;
  path <- path_arg 0 ;;
  r <- (match path with
        | None => ret None
        | Some path => create path T_DIR 0 0
        end) ;;
  made r.

Definition sys_mknod : ST sys Z :=
  begin_op_ ;;;
  path <- path_arg 0 ;;
  major <- arg 1 ;;
  minor <- arg 2 ;;
  r <- (match path, major, minor with
        | Some path, Some major, Some minor => create path T_DEV major minor
        | _, _, _ => ret None
        end) ;;
  made r.

Definition sys_chdir : ST sys Z :=
  begin_op_ ;;;
  path <- path_arg 0 ;;
  r <- (match path with
        | None => ret None
        | Some path => infs_ (namei dev_read path)
        end) ;;
  match r with
  | None => end_op_ ;;; ret (-1)
  | Some ip =>
      infs_ (ilock ip) ;;;
      t <- itype ip ;;
      if negb (t =? T_DIR) then infs_ (iunlockput ip) ;;; end_op_ ;;; ret (-1) else
      infs_ (iunlock ip) ;;;
      cwd <- infs_ (gets fs_cwd) ;;
      infs_ (iput cwd) ;;;
      end_op_ ;;;
      infs_ (modify (fun t => mkFs (fs_sb t) (fs_icache t) (fs_pid t) ip (fs_store t))) ;;;
      ret 0
  end.

(** The loop of [sys_exec] from entry [i]: the arguments, or [None] for -1. *)
Fixpoint exec_args (u : user) (uargv : Z) (n : nat) (i : Z) : option (list bytes) :=
  match n with
  | O => None
  | Datatypes.S n =>
      match fetchint u (u32 (uargv + 4 * i)) with
      | None => None
      | Some uarg =>
          if uarg =? 0 then Some [] else
          let len := fetchstr u (u32 uarg) in
          if len <? 0 then None else
          match exec_args u uargv n (i + 1) with
          | None => None
          | Some l => Some (ubytes u (u32 uarg) len :: l)
          end
      end
  end.
Definition sys_exec : ST sys Z :=
  path <- path_arg 0 ;;
  a <- arg 1 ;;
  u <- get_user ;;
  match path, a with
  | Some path, Some uargv =>
      match exec_args u (u32 uargv) (Z.to_nat MAXARG) 0 with
      | None => ret (-1)
      | Some argv => exec path argv
      end
  | _, _ => ret (-1)
  end.

Definition close_both (rf wf : Z) : ST sys Z :=
  ink (fileclose rf) ;;; ink (fileclose wf) ;;; ret (-1).
Definition sys_pipe : ST sys Z :=
  u <- get_user ;;
  match argptr u 0 8 with
  | None => ret (-1)
  | Some fd =>
      r <- ink (pipealloc junk) ;;
      match r with
      | None => ret (-1)
      | Some (rf, wf) =>
          fd0 <- fdalloc rf ;;
          match fd0 with
          | None => close_both rf wf
          | Some fd0 =>
              fd1 <- fdalloc wf ;;
              match fd1 with
              | None => set_ofile fd0 None ;;; close_both rf wf
              | Some fd1 =>
                  put_user fd (put32 (put32 (zeros 8) 0 fd0) 4 fd1) ;;;
                  ret 0
              end
          end
      end
  end.
End sysfile.
