(* ===== verification/SysfileSpec.v ===== *)
(** * File descriptors: every call keeps the count

    [fd_ok]: the reference count of an entry of the file table is the number of
    descriptors that point to it (those of the current process and, as [others],
    those of the rest), an entry in use is a pipe end or an inode, and the pipes
    are those of [FileSpec.v].  Every system call of sysfile.c keeps it, whatever
    the file system does. *)

From S2P Require Import Prelude Bytes Cstring Pipe Syscall Store Log Txn Fs File FileSpec Sysfile.

(** The number of descriptors that point to [f]. *)
Fixpoint nfd (l : list (option Z)) (f : Z) : Z :=
  match l with
  | [] => 0
  | o :: l => (if bool_decide (o = Some f) then 1 else 0) + nfd l f
  end.

Lemma nfd_nonneg l f : 0 <= nfd l f.
Proof. induction l as [|o l IH]; simpl; [done|]. case_test; lia. Qed.

Lemma nfd_upd l fd v f : 0 <= fd < lenZ l ->
  nfd (upd l fd v) f =
  nfd l f - (if bool_decide (rd l fd = Some f) then 1 else 0) + (if bool_decide (v = Some f) then 1 else 0).
Proof.
  intros Hfd. remember (Z.to_nat fd) as i eqn:Ei. unfold upd, rd. rewrite <- Ei.
  assert (i < length l)%nat as Hi by (unfold lenZ in Hfd; lia). clear Hfd Ei fd.
  revert i Hi. induction l as [|o l IH]; intros [|i] Hi; simpl in Hi; try lia.
  - change ((o :: l) !!! 0%nat) with o. change (<[0%nat := v]> (o :: l)) with (v :: l).
    cbn [nfd]. generalize (nfd l f). intros z. repeat case_test; lia.
  - change ((o :: l) !!! Datatypes.S i) with (l !!! i).
    change (<[Datatypes.S i := v]> (o :: l)) with (o :: <[i := v]> l). cbn [nfd]. rewrite IH by lia.
    generalize (nfd l f). intros z. repeat case_test; lia.
Qed.

Lemma find_fd_spec l i fd : find_fd l i = Some fd -> i <= fd < i + lenZ l /\ rd l (fd - i) = None.
Proof.
  revert i. induction l as [|[f|] l IH]; intros i; simpl; [done| |].
  - intros Hf. destruct (IH _ Hf) as [Hr Hz]. unfold lenZ in *. simpl. split; [lia|].
    rewrite <- Hz. unfold rd. by replace (Z.to_nat (fd - i)) with (S (Z.to_nat (fd - (i + 1)))) by lia.
  - intros ?; simplify_eq. unfold lenZ. simpl. split; [lia|]. by rewrite Z.sub_diag.
Qed.

Section calls.
Context {S : Type} `{TxnStore S}.
Abbreviation sys := (usys S).

Definition refs (others : Z -> Z) (s : sys) (f : Z) : Z := nfd (x_ofile s) f + others f.

Record fd_ok (others : Z -> Z) (s : sys) : Prop := {
  x_len : lenZ (x_ofile s) = NOFILE;
  x_in : forall fd f, 0 <= fd < NOFILE -> rd (x_ofile s) fd = Some f -> fslot f;
  x_refs : kinv (refs others s) (x_k s);
  x_typed : forall f, fslot f -> 0 < refs others s f -> fl_type (file_at (x_k s) f) <> FD_NONE
}.

(** ** Calls that do not touch the file table *)

Definition keeps (s s' : sys) : Prop :=
  x_ofile s' = x_ofile s /\ k_file (x_k s') = k_file (x_k s) /\ k_pipe (x_k s') = k_pipe (x_k s) /\
  k_free (x_k s') = k_free (x_k s).
Lemma keeps_refl s : keeps s s.
Proof. done. Qed.

Lemma keeps_ok others s s' : keeps s s' -> fd_ok others s -> fd_ok others s'.
Proof.
  intros (E1 & E2 & E3 & E4) []. constructor; rewrite ?E1; try done.
  - unfold refs. rewrite E1. by eapply kinv_parts.
  - intros f Hf. unfold refs, file_at. rewrite E1, E2. apply (x_typed0 f Hf).
Qed.

Lemma wlp_infs_keeps {A} s0 s (m : ST (fs_t S) A) (Q : A -> sys -> Prop) :
  keeps s0 s -> (forall a s', keeps s0 s' -> Q a s') -> wlp (infs_ m) s Q.
Proof.
  intros Hk HQ. apply wlp_zoom, wlp_zoom. unfold wlp.
  destruct (m (k_fs (x_k s))) as [[a t]| | |]; auto.
Qed.
Lemma wlp_user_keeps s0 s p d (Q : unit -> sys -> Prop) :
  keeps s0 s -> (forall s', keeps s0 s' -> Q tt s') -> wlp (put_user p d) s Q.
Proof. intros Hk HQ. apply wlp_modify, HQ. done. Qed.
End calls.

(** Symbolic execution that tracks [keeps]. *)
Ltac keep_step :=
  lazymatch goal with
  | Hk : keeps ?s0 ?s |- wlp (infs_ _) ?s _ =>
      apply (wlp_infs_keeps _ _ _ _ Hk); clear Hk; intros ? ? Hk
  | Hk : keeps ?s0 ?s |- wlp (begin_op_) ?s _ =>
      apply (wlp_infs_keeps _ _ _ _ Hk); clear Hk; intros ? ? Hk
  | Hk : keeps ?s0 ?s |- wlp (end_op_) ?s _ =>
      apply (wlp_infs_keeps _ _ _ _ Hk); clear Hk; intros ? ? Hk
  | Hk : keeps ?s0 ?s |- wlp (add_nlink _ _) ?s _ =>
      apply (wlp_infs_keeps _ _ _ _ Hk); clear Hk; intros ? ? Hk
  | Hk : keeps ?s0 ?s |- wlp (itype _) ?s _ =>
      apply (wlp_infs_keeps _ _ _ _ Hk); clear Hk; intros ? ? Hk
  | Hk : keeps ?s0 ?s |- wlp (put_user _ _) ?s _ =>
      apply (wlp_user_keeps _ _ _ _ _ Hk); clear Hk; intros ? Hk
  | |- wlp (arg _) _ _ => unfold arg
  | |- wlp (path_arg _) _ _ => unfold path_arg
  | |- wlp get_user _ _ => apply wlp_gets
  | |- wlp nofuel _ _ => done
  | |- wlp (match ?x with _ => _ end) _ _ => destruct x
  | |- wlp (let '(_, _) := ?x in _) _ _ => destruct x
  | _ => wlp_step
  end; cbv beta.
Ltac keep_steps := repeat keep_step; try done.

Section keeping.
Context {S : Type} `{TxnStore S}.
Context (dev_read : Z -> option (Z -> Z -> ST (fs_t S) (Z * bytes)))
        (dev_write : Z -> option (Z -> bytes -> ST (fs_t S) Z)).
Abbreviation sys := (usys S).

Lemma sys_link_keeps (s : sys) : wlp (sys_link dev_read dev_write) s (fun _ s' => keeps s s').
Proof. pose proof (keeps_refl s) as Hk. unfold sys_link, link_bad. keep_steps. Qed.

Lemma isdirempty_keeps (s0 s : sys) dp (Q : Z -> sys -> Prop) :
  keeps s0 s -> (forall r s', keeps s0 s' -> Q r s') -> wlp (isdirempty dev_read dp) s Q.
Proof.
  intros Hk HQ. unfold isdirempty. keep_step. keep_step. generalize (Z.to_nat (di_size (i_din a))) (2 * SIZEOF_DIRENT).
  intros n. revert s' Hk. induction n as [|n IH]; intros s' Hk off; cbn [isdirempty_loop]; keep_steps; auto.
Qed.

Lemma sys_unlink_keeps (s : sys) : wlp (sys_unlink dev_read dev_write) s (fun _ s' => keeps s s').
Proof.
  pose proof (keeps_refl s) as Hk. unfold sys_unlink, unlink_entry, unlink_bad. keep_steps.
  all: try (eapply isdirempty_keeps; [exact Hk|]; clear Hk; intros ? ? Hk). all: keep_steps.
Qed.

Lemma create_keeps (s0 s : sys) path type major minor (Q : option Z -> sys -> Prop) :
  keeps s0 s -> (forall r s', keeps s0 s' -> Q r s') ->
  wlp (create dev_read dev_write path type major minor) s Q.
Proof. intros Hk HQ. unfold create, create_new. keep_steps; auto. Qed.

Lemma sys_mkdir_keeps (s : sys) : wlp (sys_mkdir dev_read dev_write) s (fun _ s' => keeps s s').
Proof.
  pose proof (keeps_refl s) as Hk. unfold sys_mkdir, made. keep_steps.
  eapply create_keeps; [exact Hk|]. clear Hk. intros r s1 Hk. keep_steps.
Qed.
Lemma sys_mknod_keeps (s : sys) : wlp (sys_mknod dev_read dev_write) s (fun _ s' => keeps s s').
Proof.
  pose proof (keeps_refl s) as Hk. unfold sys_mknod, made. keep_steps.
  eapply create_keeps; [exact Hk|]. clear Hk. intros r s1 Hk. keep_steps.
Qed.
Lemma sys_chdir_keeps (s : sys) : wlp (sys_chdir dev_read) s (fun _ s' => keeps s s').
Proof. pose proof (keeps_refl s) as Hk. unfold sys_chdir. keep_steps. Qed.

Lemma open_inode_keeps (s0 s : sys) path omode (Q : option Z -> sys -> Prop) :
  keeps s0 s -> (forall r s', keeps s0 s' -> Q r s') ->
  wlp (open_inode dev_read dev_write path omode) s Q.
Proof.
  intros Hk HQ. unfold open_inode. destruct (negb _).
  - wlp_step. eapply create_keeps; [exact Hk|]. clear Hk. intros r s1 Hk. keep_steps; auto.
  - keep_steps; auto.
Qed.
End keeping.

(** ** Calls on descriptors *)

Section descriptors.
Context {S : Type} `{TxnStore S}.
Context (others : Z -> Z).
Hypothesis Hothers : forall f, 0 <= others f.
Abbreviation sys := (usys S).

(** A function of file.c that keeps the references and the types. *)
Lemma fd_ok_ink {A} (s : sys) (m : ST (ksys S) A) :
  fd_ok others s ->
  (forall R k, kinv R k -> k = x_k s -> wlp m k (fun _ k' => kinv R k' /\ types_same k k')) ->
  wlp (ink m) s (fun _ s' => fd_ok others s').
Proof.
  intros [] Hm. apply wlp_zoom. eapply wlp_mono; [by apply (Hm _ _ x_refs0)|].
  intros a k' [Hk Ht]. constructor; try done. intros f Hf Hr. cbn. rewrite Ht by done. by apply x_typed0.
Qed.

Lemma fd_ok_user (s : sys) p d : fd_ok others s -> fd_ok others (mkU (x_ofile s) (ustore (x_user s) p d) (x_k s)).
Proof. by apply keeps_ok. Qed.

(** What [argfd] accepts. *)
Lemma argfd_spec (s : sys) n : fd_ok others s ->
  wlp (argfd n) s (fun r s' => s' = s /\
    match r with
    | None => True
    | Some (fd, f) => 0 <= fd < NOFILE /\ rd (x_ofile s) fd = Some f /\ fslot f
    end).
Proof.
  intros Hok. unfold argfd. do 3 wlp_step. split; [done|]. destruct (argint _ _) as [fd|]; [|done].
  destruct (_ || _) eqn:Eo; [done|]. bool_to_prop. destruct (rd (x_ofile s) fd) as [f|] eqn:Ef; [|done].
  split_and!; [lia.. | done|]. by apply (x_in _ _ Hok fd).
Qed.

Lemma refs_nonneg (s : sys) f : 0 <= refs others s f.
Proof. unfold refs. pose proof (nfd_nonneg (x_ofile s) f). specialize (Hothers f). lia. Qed.

Lemma sys_close_ok (s : sys) : fd_ok others s -> wlp sys_close s (fun _ s' => fd_ok others s').
Proof.
  intros Hok. unfold sys_close. wlp_step. eapply wlp_mono; [by apply argfd_spec|].
  intros [[fd f]|] ? [-> Ha]; [|by wlp_step]. destruct Ha as (Hfd & Ef & Hf). pose proof Hok as [].
  wlp_step. apply wlp_modify. wlp_step. apply wlp_zoom. cbn.
  eapply wlp_mono; [by apply (fileclose_inv (refs others s))|]. intros _ k' (Hk' & Hsame & Htype). wlp_step.
  assert (forall g, refs others (mkU (upd (x_ofile s) fd None) (x_user s) k') g = radd (refs others s) f (-1) g) as HR.
  { intros g. unfold refs, radd. cbn. rewrite nfd_upd by (rewrite x_len0; done). rewrite Ef.
    destruct (Z.eqb_spec g f) as [->|Hne].
    - rewrite bool_decide_eq_true_2, bool_decide_eq_false_2 by done. lia.
    - rewrite !bool_decide_eq_false_2 by congruence. lia. }
  constructor; cbn.
  - by rewrite upd_lenZ.
  - intros fd' g Hfd'. rewrite rd_upd by lia. case_test; [done|]. by apply x_in0.
  - eapply kinv_ext, Hk'. intros g. symmetry. apply HR.
  - intros g Hg. rewrite HR. unfold radd. destruct (Z.eqb_spec g f) as [->|Hne]; intros Hr.
    + rewrite Htype by lia. apply x_typed0; [done | lia].
    + rewrite Hsame by done. by apply x_typed0.
Qed.

Lemma sys_fstat_ok (s : sys) : fd_ok others s -> wlp sys_fstat s (fun _ s' => fd_ok others s').
Proof.
  intros Hok. unfold sys_fstat. wlp_step. eapply wlp_mono; [by apply argfd_spec|].
  intros [[fd f]|] ? [-> Ha]; wlp_step; apply wlp_gets; [|by wlp_step].
  destruct (argptr _ _ _) as [p|]; [|by wlp_step]. wlp_step.
  eapply wlp_mono; [apply (fd_ok_ink s); [done|]; intros; by apply filestat_inv|].
  intros [x|] s1 Hs1; [|by wlp_step]. wlp_step. apply wlp_modify. wlp_step. by apply fd_ok_user.
Qed.

(** What [arg_buf] accepts. *)
Lemma arg_buf_spec (s : sys) : fd_ok others s ->
  wlp arg_buf s (fun r s' => s' = s /\ match r with None => True | Some (f, _, _) => fslot f end).
Proof.
  intros Hok. unfold arg_buf. wlp_step. eapply wlp_mono; [by apply argfd_spec|].
  intros [[fd f]|] ? [-> Ha]; wlp_step; apply wlp_gets; wlp_step; (split; [done|]).
  - destruct (argint _ _); [|done]. destruct (argptr _ _ _); [|done]. apply Ha.
  - done.
Qed.

Lemma sys_read_ok dev_read (s : sys) :
  fd_ok others s -> wlp (sys_read dev_read) s (fun _ s' => fd_ok others s').
Proof.
  intros Hok. unfold sys_read. wlp_step. eapply wlp_mono; [by apply arg_buf_spec|].
  intros [[[f p] n]|] ? [-> Hf]; [|by wlp_step]. wlp_step.
  eapply wlp_mono; [apply (fd_ok_ink s); [done|]; intros; by apply fileread_inv|].
  intros r s1 Hs1. wlp_step. apply wlp_modify. wlp_step. by apply fd_ok_user.
Qed.

Lemma sys_write_ok dev_write (s : sys) :
  fd_ok others s -> wlp (sys_write dev_write) s (fun _ s' => fd_ok others s').
Proof.
  intros Hok. unfold sys_write. wlp_step. eapply wlp_mono; [by apply arg_buf_spec|].
  intros [[[f p] n]|] ? [-> Hf]; [|by wlp_step]. wlp_step. apply wlp_gets.
  apply (fd_ok_ink s); [done|]. intros. by apply filewrite_inv.
Qed.

(** [fdalloc]: a free descriptor points to [f] now. *)
Lemma fdalloc_spec (s : sys) f : lenZ (x_ofile s) = NOFILE ->
  wlp (fdalloc f) s (fun r s' =>
    match r with
    | None => s' = s
    | Some fd => 0 <= fd < NOFILE /\ rd (x_ofile s) fd = None /\
        s' = mkU (upd (x_ofile s) fd (Some f)) (x_user s) (x_k s)
    end).
Proof.
  intros Hl. unfold fdalloc. do 2 wlp_step. destruct (find_fd _ _) as [fd|] eqn:Ef; [|by wlp_step].
  apply find_fd_spec in Ef as [Hr Hn]. rewrite Z.sub_0_r in Hn. wlp_step. apply wlp_modify. wlp_step.
  split_and!; [lia.. | done | done].
Qed.

Lemma refs_add (s : sys) fd f u (k : ksys S) :
  0 <= fd < lenZ (x_ofile s) -> rd (x_ofile s) fd = None ->
  forall g, radd (refs others s) f 1 g = refs others (mkU (upd (x_ofile s) fd (Some f)) u k) g.
Proof.
  intros Hfd Hn g. unfold refs, radd. cbn. rewrite nfd_upd, Hn by done.
  rewrite (bool_decide_eq_false_2 (None = Some g)) by done. destruct (Z.eqb_spec g f) as [->|Hne].
  - rewrite bool_decide_eq_true_2 by done. lia.
  - rewrite bool_decide_eq_false_2 by congruence. lia.
Qed.

Lemma in_add (s : sys) fd f : fd_ok others s -> 0 <= fd < NOFILE -> fslot f ->
  forall fd' g, 0 <= fd' < NOFILE -> rd (upd (x_ofile s) fd (Some f)) fd' = Some g -> fslot g.
Proof.
  intros [] Hfd Hf fd' g Hfd'. rewrite rd_upd by lia. case_test; [naive_solver | by apply x_in0].
Qed.

Lemma sys_dup_ok (s : sys) : fd_ok others s -> wlp sys_dup s (fun _ s' => fd_ok others s').
Proof.
  intros Hok. unfold sys_dup. wlp_step. eapply wlp_mono; [by apply argfd_spec|].
  intros [[fd0 f]|] ? [-> Ha]; [|by wlp_step]. destruct Ha as (Hfd0 & Ef & Hf). wlp_step.
  eapply wlp_mono; [apply fdalloc_spec, Hok|]. intros [fd|] s1; [|intros ->; by wlp_step].
  intros (Hfd & Hn & ->). wlp_step. apply wlp_zoom. cbn.
  eapply wlp_mono; [apply (filedup_inv (refs others s)); [apply Hok | done]|].
  intros _ k' (_ & Hk & Ht). wlp_step. pose proof Hok as [].
  assert (0 < refs others s f) as Hpos.
  { unfold refs. specialize (Hothers f). pose proof (nfd_nonneg (upd (x_ofile s) fd0 None) f) as Hu.
    rewrite nfd_upd, Ef, bool_decide_eq_true_2, bool_decide_eq_false_2 in Hu by (done || lia). lia. }
  pose proof (refs_add s fd f (x_user s) k' ltac:(lia) Hn) as HR.
  constructor; cbn; [by rewrite upd_lenZ | by apply in_add | by eapply kinv_ext|].
  intros g Hg Hr. rewrite Ht by done. apply x_typed0; [done|]. rewrite <- HR in Hr. unfold radd in Hr.
  destruct (Z.eqb_spec g f); [by subst | done].
Qed.

(** The entries in use are what they were, and so are the descriptors. *)
Definition used_same (s : sys) (k : ksys S) : Prop :=
  forall g, fslot g -> 0 < refs others s g -> file_at k g = file_at (x_k s) g.

Lemma fd_ok_back (s s' : sys) : fd_ok others s -> x_ofile s' = x_ofile s ->
  kinv (refs others s) (x_k s') -> used_same s (x_k s') -> fd_ok others s'.
Proof.
  intros [] Eo Hk Hu. assert (forall g, refs others s' g = refs others s g) as HR
    by (intros g; unfold refs; by rewrite Eo).
  constructor; rewrite ?Eo; try done.
  - eapply kinv_ext, Hk. intros. by rewrite HR.
  - intros g Hg. rewrite HR. intros Hr. rewrite Hu by done. auto.
Qed.

(** New descriptors [O] for entries that were free and have a type now. *)
Lemma fd_ok_new (s s' : sys) (new : Z -> Prop) : fd_ok others s ->
  lenZ (x_ofile s') = NOFILE ->
  (forall fd f, 0 <= fd < NOFILE -> rd (x_ofile s') fd = Some f -> fslot f) ->
  kinv (refs others s') (x_k s') ->
  (forall g, new g -> fl_type (file_at (x_k s') g) <> FD_NONE) ->
  (forall g, ~ new g -> refs others s' g = refs others s g) ->
  (forall g, fslot g -> 0 < refs others s g -> file_at (x_k s') g = file_at (x_k s) g) ->
  (forall g, Decision (new g)) ->
  fd_ok others s'.
Proof.
  intros [] Hl Hin Hk Hnew Hold Hu Hdec. constructor; try done. intros g Hg Hr.
  destruct (decide (new g)) as [|Hn]; [auto|]. rewrite Hold in Hr by done. rewrite Hu by done. auto.
Qed.

Lemma open_bad_ok (s s1 : sys) f ip : fd_ok others s -> x_ofile s1 = x_ofile s ->
  match f with
  | None => kinv (refs others s) (x_k s1)
  | Some f => fslot f /\ refs others s f = 0 /\ kinv (radd (refs others s) f 1) (x_k s1)
  end -> used_same s (x_k s1) ->
  wlp (open_bad f ip) s1 (fun _ s' => fd_ok others s').
Proof.
  intros Hok Eo Hf Hu. unfold open_bad.
  assert (forall s2 : sys, fd_ok others s2 ->
    wlp (infs_ (iunlockput ip) ;;; end_op_ ;;; ret (-1)) s2 (fun _ s' => fd_ok others s')) as Hend.
  { intros s2 Hs2. pose proof (keeps_refl s2) as Hk. keep_steps. by eapply keeps_ok. }
  destruct f as [f|]; wlp_step.
  - destruct Hf as (Hs & H0 & Hk). apply wlp_zoom. eapply wlp_mono; [by eapply fileclose_inv|].
    intros _ k' (Hk' & Hsame & _). apply Hend. apply (fd_ok_back s); [done | done| |].
    + eapply kinv_ext, Hk'. intros g. unfold radd. repeat case_test; lia.
    + intros g Hg Hr. cbn. rewrite Hsame by (done || intros ->; lia). by apply Hu.
  - wlp_step. apply Hend. by apply (fd_ok_back s).
Qed.

(** [sys_open] fills in the entry. *)
Lemma kinv_open R (k : ksys S) f x : kinv R k -> fslot f -> R f = 1 ->
  fl_type (file_at k f) = FD_NONE -> fl_ref x = fl_ref (file_at k f) -> fl_type x = FD_INODE ->
  kinv R (mkK (upd (k_file k) f x) (k_pipe k) (k_free k) (k_killed k) (k_fs k)).
Proof.
  intros Hk Hs H1 Ht Hr Hi. destruct (k_ref _ _ Hk f Hs) as [Hr' _].
  apply (kinv_fmod R R); try done; try lia; try congruence.
  intros w a. unfold pipe_end. rewrite Hi, Ht. naive_solver.
Qed.

Lemma sys_open_ok dev_read dev_write (s : sys) :
  fd_ok others s -> wlp (sys_open dev_read dev_write) s (fun _ s' => fd_ok others s').
Proof.
  intros Hok. pose proof (keeps_refl s) as Hk. unfold sys_open. repeat keep_step.
  2, 3: done.
  eapply open_inode_keeps; [exact Hk|]. clear Hk. intros r s1 Hk.
  pose proof (keeps_ok others _ _ Hk Hok) as Hok1. clear Hok Hk s a s'. rename s1 into s, Hok1 into Hok.
  destruct r as [ip|]; [|by wlp_step]. pose proof Hok as []. wlp_step. apply wlp_zoom.
  eapply wlp_mono; [by apply filealloc_inv|]. intros [f|] k1.
  2: { intros ->. by apply (open_bad_ok s). }
  intros (Hs & H0 & Hk1 & Ht1 & Ho1). wlp_step. eapply wlp_mono; [by apply fdalloc_spec|].
  assert (used_same s k1) as Hu1 by (intros g Hg Hr; apply Ho1; [done | intros ->; lia]).
  intros [fd|] s2; [|intros ->; by apply (open_bad_ok s)]. intros (Hfd & Hn & ->). cbn [x_ofile x_user x_k] in *.
  set (O := upd (x_ofile s) fd (Some f)).
  pose proof (keeps_refl (mkU O (x_user s) k1)) as Hk. do 4 keep_step.
  destruct Hk as (Eo & Ef & Ep & Er). cbn [x_ofile x_k] in *.
  assert (kinv (radd (refs others s) f 1) (x_k s'0)) as Hk2 by (by eapply kinv_parts).
  assert (forall g, file_at (x_k s'0) g = file_at k1 g) as Hat by (intros g; unfold file_at; by rewrite Ef).
  wlp_step. apply wlp_zoom, wlp_modify. wlp_step.
  pose proof (refs_add s fd f (x_user s) k1 ltac:(lia) Hn) as HR.
  assert (lenZ (k_file (x_k s'0)) = NFILE) as Hl2 by apply Hk2.
  apply (fd_ok_new s _ (fun g => g = f)); cbn [x_ofile x_k x_user]; rewrite ?Eo; try done; try (intros; apply _).
  - unfold O. by rewrite upd_lenZ.
  - by apply in_add.
  - apply (kinv_ext (radd (refs others s) f 1)); [intros g; rewrite HR; unfold refs; cbn; by rewrite ?Eo|].
    apply kinv_open; try done; [unfold radd; rewrite Z.eqb_refl; lia | by rewrite Hat].
  - intros g ->. rewrite file_at_set by done. done.
  - intros g Hg. unfold refs. cbn. rewrite ?Eo. specialize (HR g). unfold refs, radd in HR. cbn in HR.
    rewrite (proj2 (Z.eqb_neq g f) Hg) in HR. done.
  - intros g Hg Hr. rewrite file_at_upd by done. destruct (Z.eqb_spec g f) as [->|]; [lia|].
    rewrite Hat. by apply Hu1.
Qed.

Lemma close_both_ok (s s1 : sys) rf wf : fd_ok others s -> x_ofile s1 = x_ofile s ->
  fslot rf -> fslot wf -> refs others s rf = 0 -> refs others s wf = 0 ->
  kinv (radd (radd (refs others s) rf 1) wf 1) (x_k s1) -> used_same s (x_k s1) ->
  wlp (close_both rf wf) s1 (fun _ s' => fd_ok others s').
Proof.
  intros Hok Eo Hr Hw HR HW Hk Hu. unfold close_both. wlp_step. apply wlp_zoom.
  eapply wlp_mono; [by eapply fileclose_inv|]. intros _ k1 (Hk1 & Ho1 & _). wlp_step. apply wlp_zoom.
  eapply wlp_mono; [by eapply fileclose_inv|]. intros _ k2 (Hk2 & Ho2 & _). wlp_step.
  apply (fd_ok_back s); [done..| |].
  - eapply kinv_ext, Hk2. intros g. unfold radd. repeat case_test; lia.
  - intros g Hg Hpos. cbn in *. rewrite Ho2, Ho1 by (done || intros ->; lia). by apply Hu.
Qed.

Lemma sys_pipe_ok junk (s : sys) : fd_ok others s -> wlp (sys_pipe junk) s (fun _ s' => fd_ok others s').
Proof.
  intros Hok. pose proof Hok as []. unfold sys_pipe. wlp_step. apply wlp_gets.
  destruct (argptr _ _ _) as [p|]; [|by wlp_step]. wlp_step. apply wlp_zoom.
  eapply wlp_mono; [by apply pipealloc_inv|]. intros [[rf wf]|] k1.
  2: { intros [Hk1 Hu1]. wlp_step. by apply (fd_ok_back s). }
  intros (Hr & Hw & Hne & HR & HW & Hk1 & Tr & Tw & Hu1). wlp_step.
  eapply wlp_mono; [by apply fdalloc_spec|]. intros [fd0|] s1; [|intros ->; by eapply (close_both_ok s)].
  intros (Hfd0 & Hn0 & ->). cbn [x_ofile x_user x_k] in *. wlp_step.
  eapply wlp_mono; [apply fdalloc_spec; cbn; by rewrite upd_lenZ|]. intros [fd1|] s1.
  - intros (Hfd1 & Hn1 & ->). cbn [x_ofile x_user x_k] in *. wlp_step. apply wlp_modify. wlp_step.
    set (s1 := mkU (upd (x_ofile s) fd0 (Some rf)) (x_user s) k1) in *.
    pose proof (refs_add s fd0 rf (x_user s) k1 ltac:(lia) Hn0) as HR0.
    pose proof (refs_add s1 fd1 wf (x_user s) k1 ltac:(cbn; rewrite upd_lenZ; lia) Hn1) as HR1.
    assert (forall g, refs others (mkU (upd (x_ofile s1) fd1 (Some wf)) (x_user s) k1) g =
      radd (radd (refs others s) rf 1) wf 1 g) as HRR.
    { intros g. rewrite <- HR1. unfold radd at 1 2. change (refs others s1 g) with
        (refs others (mkU (upd (x_ofile s) fd0 (Some rf)) (x_user s) k1) g). by rewrite <- HR0. }
    apply (fd_ok_new s _ (fun g => g = rf \/ g = wf)); cbn [x_ofile x_k x_user]; try done; try (intros; apply _).
    + by rewrite !upd_lenZ.
    + intros fd' g Hfd'. cbn. rewrite rd_upd by (rewrite ?upd_lenZ; lia). case_test; [naive_solver|].
      by apply in_add.
    + apply (kinv_ext (radd (radd (refs others s) rf 1) wf 1)); [intros g; by rewrite <- HRR | done].
    + by intros g [->| ->]; rewrite ?Tr, ?Tw.
    + intros g Hg. etrans; [apply HRR|]. unfold radd. repeat case_test; naive_solver.
  - intros ->. wlp_step. apply wlp_modify. cbn [x_ofile x_user x_k].
    apply (close_both_ok s); try done. cbn. rewrite upd_upd, <- Hn0. apply upd_rd. lia.
Qed.
End descriptors.

(** ** Every call *)

Section all.
Context {S : Type} `{TxnStore S}.
Context (dev_read : Z -> option (Z -> Z -> ST (fs_t S) (Z * bytes)))
        (dev_write : Z -> option (Z -> bytes -> ST (fs_t S) Z))
        (junk : Z -> bytes).

(** The calls of sysfile.c other than [sys_exec]. *)
Definition file_calls : list (ST (usys S) Z) :=
  [sys_dup; sys_read dev_read; sys_write dev_write; sys_close; sys_fstat;
   sys_link dev_read dev_write; sys_unlink dev_read dev_write; sys_open dev_read dev_write;
   sys_mkdir dev_read dev_write; sys_mknod dev_read dev_write; sys_chdir dev_read; sys_pipe junk].

(** A step: a call returns, or the user program changes its memory. *)
Inductive call_step : usys S -> usys S -> Prop :=
| cs_call m s r s' : m ∈ file_calls -> m s = Ok (r, s') -> call_step s s'
| cs_user s u : call_step s (mkU (x_ofile s) u (x_k s)).

Lemma call_step_ok others s s' : (forall f, 0 <= others f) ->
  call_step s s' -> fd_ok others s -> fd_ok others s'.
Proof.
  intros Ho Hstep Hok. destruct Hstep as [m s r s' Hm Hr|s u]; [|by apply (keeps_ok others s)].
  assert (wlp m s (fun _ s' => fd_ok others s')) as Hw; [|exact (wlp_elim _ _ _ _ _ Hw Hr)].
  assert (forall m, wlp m s (fun (_ : Z) s' => keeps s s') -> wlp m s (fun _ s' => fd_ok others s')) as Hkeep.
  { intros m' Hm'. eapply wlp_mono; [exact Hm'|]. intros a s1 Hk. by apply (keeps_ok others s). }
  unfold file_calls in Hm. repeat (apply elem_of_cons in Hm as [->|Hm]).
  - by apply sys_dup_ok.
  - by apply sys_read_ok.
  - by apply sys_write_ok.
  - by apply sys_close_ok.
  - by apply sys_fstat_ok.
  - apply Hkeep, sys_link_keeps.
  - apply Hkeep, sys_unlink_keeps.
  - by apply sys_open_ok.
  - apply Hkeep, sys_mkdir_keeps.
  - apply Hkeep, sys_mknod_keeps.
  - apply Hkeep, sys_chdir_keeps.
  - by apply sys_pipe_ok.
  - by apply elem_of_nil in Hm.
Qed.

(** C10: After any sequence of system calls the reference count of every file is the
    number of descriptors that point to it; a descriptor points to an entry with a
    type, and if that is the end of a pipe, the pipe is still there with that end
    open: no descriptor is dangling and no page of a pipe is freed too early or
    leaks. *)
Theorem descriptors_counted others s s' :
  (forall f, 0 <= others f) -> fd_ok others s -> star call_step s s' ->
  fd_ok others s' /\
  forall fd f, 0 <= fd < NOFILE -> rd (x_ofile s') fd = Some f ->
    1 <= fl_ref (file_at (x_k s') f) /\ fl_type (file_at (x_k s') f) <> FD_NONE /\
    (fl_type (file_at (x_k s') f) = FD_PIPE -> exists p, k_pipe (x_k s') !! fl_pipe (file_at (x_k s') f) = Some p /\
       end_open (fl_writable (file_at (x_k s') f)) p = true).
Proof.
  intros Ho Hok Hs. assert (fd_ok others s') as Hok'.
  { revert Hok. apply (star_invariant call_step); [|done]. intros a b Ha Hab. by eapply call_step_ok. }
  split; [done|]. intros fd f Hfd Ef. pose proof Hok' as []. pose proof (x_in0 fd f Hfd Ef) as Hf.
  assert (0 < refs others s' f) as Hpos.
  { unfold refs. specialize (Ho f). pose proof (nfd_nonneg (upd (x_ofile s') fd None) f) as Hu.
    rewrite nfd_upd, Ef, bool_decide_eq_true_2, bool_decide_eq_false_2 in Hu by (done || lia). lia. }
  destruct (k_ref _ _ x_refs0 f Hf) as [Hr _]. split_and!; [lia | by apply x_typed0|].
  intros Ht. by apply (k_live _ _ x_refs0 f).
Qed.
End all.
