(* ===== verification/FsBlock.v ===== *)
(** * The block layer of the file system: [bzero], [balloc], [bfree]

    The specifications of the block functions of fs.c over the transaction
    interface: which block the allocator returns, and that it changes the free
    map at that block only. *)

From S2P Require Import Prelude Bytes Store Log Txn Fs.

(** Write one block of the transaction. *)
Definition f_put (F : fstore) (b : Z) (d : bytes) : fstore :=
  mkFstore (f_size F) (f_lo F) (f_hi F) (fupd (f_view F) b d) (f_log F ∪ {[b]}) (f_held F)
    (f_taint F) (f_ops F).

(** [k] more blocks may be logged, with [h] more buffers held at a time. *)
Record budget (F : fstore) (k h : Z) : Prop := {
  bg_ops : 1 <= f_ops F;
  bg_log : Z.of_nat (size (f_log F)) + k <= f_max F;
  bg_buf : Z.of_nat (size (f_log F)) + Z.of_nat (size (f_held F)) + k + h <= NBUF;
  bg_taint : f_taint F = ∅;
}.

Lemma log_add_size (X : gset Z) b : Z.of_nat (size (X ∪ {[b]})) <= Z.of_nat (size X) + 1.
Proof.
  destruct (decide (b ∈ X)).
  - replace (X ∪ {[b]}) with X by set_solver. lia.
  - rewrite size_union, size_singleton by set_solver. lia.
Qed.

Lemma budget_put F b d k h : budget F (k + 1) h -> budget (f_put F b d) k h.
Proof.
  intros [H1 H2 H3 H4]. pose proof (log_add_size (f_log F) b).
  split; cbn; try done; unfold f_max in *; cbn; lia.
Qed.

Lemma budget_hold F hd b k h :
  f_held F !! hd = None -> budget F k (h + 1) -> budget (f_hold F hd b) k h.
Proof.
  intros Hf [H1 H2 H3 H4]. split; cbn; try done.
  rewrite map_size_insert_None by done. lia.
Qed.

Lemma budget_mono F k h k' h' :
  budget F k h -> 0 <= k' <= k -> k' + h' <= k + h -> budget F k' h'.
Proof. intros [H1 H2 H3 H4] Hk Hh. split; try done; lia. Qed.

(** [h] more buffers may be held at a time: what a read needs. *)
Definition buffers (F : fstore) (h : Z) : Prop :=
  f_taint F = ∅ /\ Z.of_nat (size (f_log F)) + Z.of_nat (size (f_held F)) + h <= NBUF.

Lemma budget_buffers F k h : 0 <= k -> budget F k h -> buffers F h.
Proof. intros Hk []. split; [done|lia]. Qed.

(** A buffer that was held, modified and logged, after its release. *)
Lemma f_put_intro F h b d :
  f_held F !! h = None -> f_taint F = ∅ ->
  f_relse (f_logw (f_set (f_hold F h b) b d) b) h = f_put F b d.
Proof.
  intros Hh Ht. unfold f_relse, f_logw, f_set, f_hold, f_put. cbn.
  rewrite delete_insert_id by done. f_equal. rewrite Ht. set_solver.
Qed.

Lemma f_relse_hold F h b : f_held F !! h = None -> f_relse (f_hold F h b) h = F.
Proof.
  intros Hh. unfold f_relse, f_hold. cbn. rewrite delete_insert_id by done. by destruct F.
Qed.

Definition with_store {S} (t : S) (s : fs_t S) : fs_t S :=
  mkFs (fs_sb s) (fs_icache s) (fs_pid s) (fs_cwd s) t.

Section store_rules.
Context {S : Type} `{Laws : TxnLaws S rep}.
Implicit Types (F : fstore) (s : fs_t S).

Lemma wp_bread s F b (Q : Z -> fs_t S -> Prop) :
  rep (fs_store s) F -> f_home F b -> ~ f_is_held F b -> buffers F 1 ->
  (forall h t, f_held F !! h = None -> rep t (f_hold F h b) -> Q h (with_store t s)) ->
  wp (bread_ ROOTDEV b) s Q.
Proof.
  intros R Hb Hn Hbg HQ. unfold bread_, st. apply wp_zoom.
  eapply wp_mono; [apply (tlaw_bread (rep := rep) _ F b R Hb Hn)|].
  - right. destruct Hbg. lia.
  - intros h t [H1 H2]. by apply HQ.
Qed.

Lemma wp_data s F h b (Q : bytes -> fs_t S -> Prop) :
  rep (fs_store s) F -> f_held F !! h = Some b -> Q (f_view F b) s -> wp (bp_data h) s Q.
Proof.
  intros R Hh HQ. unfold bp_data. apply wp_gets.
  by rewrite (tlaw_data (rep := rep) _ F h b R Hh).
Qed.

Lemma wp_bp_set s F h b d (Q : unit -> fs_t S -> Prop) :
  rep (fs_store s) F -> f_held F !! h = Some b -> wf_block d ->
  (forall t, rep t (f_set F b d) -> Q tt (with_store t s)) -> wp (bp_set h d) s Q.
Proof.
  intros R Hh Hd HQ. unfold bp_set, st. apply wp_zoom.
  eapply wp_mono; [by apply (tlaw_set (rep := rep) _ F h b d)|]. intros [] t Rt. by apply HQ.
Qed.

Lemma wp_log_write s F h b (Q : unit -> fs_t S -> Prop) :
  rep (fs_store s) F -> f_held F !! h = Some b -> Z.of_nat (size (f_log F)) < f_max F ->
  1 <= f_ops F -> (forall t, rep t (f_logw F b) -> Q tt (with_store t s)) -> wp (log_write_ h) s Q.
Proof.
  intros R Hh Hl Ho HQ. unfold log_write_, st. apply wp_zoom.
  eapply wp_mono; [by apply (tlaw_log_write (rep := rep) _ F h b)|]. intros [] t Rt. by apply HQ.
Qed.

Lemma wp_brelse s F h b (Q : unit -> fs_t S -> Prop) :
  rep (fs_store s) F -> f_held F !! h = Some b -> b ∉ f_taint F ->
  (forall t, rep t (f_relse F h) -> Q tt (with_store t s)) -> wp (brelse_ h) s Q.
Proof.
  intros R Hh Ht HQ. unfold brelse_, st. apply wp_zoom.
  eapply wp_mono; [by apply (tlaw_brelse (rep := rep) _ F h b)|]. intros [] t Rt. by apply HQ.
Qed.

(** Modify the held block, log it and release it. *)
Lemma wp_put_relse s F h b d (Q : unit -> fs_t S -> Prop) :
  rep (fs_store s) (f_hold F h b) -> f_held F !! h = None -> wf_block d -> budget F 1 0 ->
  (forall t, rep t (f_put F b d) -> Q tt (with_store t s)) ->
  wp (bp_set h d ;;; log_write_ h ;;; brelse_ h) s Q.
Proof.
  intros R Hf Hd [B1 B2 B3 B4] HQ.
  assert (Hh : forall X, <[h := b]> X !! h = Some b) by (intros; apply lookup_insert_eq).
  wp_step. eapply wp_bp_set; [exact R|apply Hh|done|]. intros t1 R1. wp_step.
  eapply wp_log_write; [exact R1|apply Hh|unfold f_max in *; cbn; lia|done|]. intros t2 R2.
  eapply wp_brelse; [exact R2|apply Hh|cbn; set_solver|]. intros t3 R3.
  rewrite f_put_intro in R3 by done. by apply (HQ t3).
Qed.

Lemma wp_put_relse_then {A} s F h b d (K : ST (fs_t S) A) Q :
  rep (fs_store s) (f_hold F h b) -> f_held F !! h = None -> wf_block d -> budget F 1 0 ->
  (forall t, rep t (f_put F b d) -> wp K (with_store t s) Q) ->
  wp (bp_set h d ;;; log_write_ h ;;; brelse_ h ;;; K) s Q.
Proof.
  intros R Hf Hd Hb HK.
  assert (Hw : wp (bp_set h d ;;; log_write_ h ;;; brelse_ h) s (fun _ s' => wp K s' Q)).
  { eapply wp_put_relse; done. }
  unfold wp, bind in *. destruct (bp_set h d s) as [[[] s1]| | |]; [|done..].
  destruct (log_write_ h s1) as [[[] s2]| | |]; [|done..].
  by destruct (brelse_ h s2) as [[[] s3]| | |].
Qed.

(** The same with a result, where the release follows the branch that wrote. *)
Lemma wp_set_log_then {A} s F h b d (a : A) (Q : A -> fs_t S -> Prop) :
  rep (fs_store s) (f_hold F h b) -> f_held F !! h = None -> wf_block d -> budget F 1 0 ->
  (forall t, rep t (f_put F b d) -> Q a (with_store t s)) ->
  wp (bp_set h d ;;; log_write_ h ;;; ret a) s (fun a s' => wp (brelse_ h ;;; ret a) s' Q).
Proof.
  intros R Hf Hd Hb HQ.
  assert (Hw : wp (bp_set h d ;;; log_write_ h ;;; brelse_ h ;;; ret a) s Q).
  { eapply wp_put_relse_then; done. }
  unfold wp, bind in *. destruct (bp_set h d s) as [[[] s1]| | |]; [|done..].
  by destruct (log_write_ h s1) as [[[] s2]| | |].
Qed.

(** Read a block without modifying it. *)
Lemma wp_relse_clean s F h b (Q : unit -> fs_t S -> Prop) :
  rep (fs_store s) (f_hold F h b) -> f_held F !! h = None -> f_taint F = ∅ ->
  (forall t, rep t F -> Q tt (with_store t s)) -> wp (brelse_ h) s Q.
Proof.
  intros R Hf Ht HQ. eapply wp_brelse; [exact R|apply lookup_insert_eq|cbn; rewrite Ht; set_solver|].
  intros t Rt. rewrite f_relse_hold in Rt by done. by apply HQ.
Qed.

Lemma bzero_spec s F b (Q : unit -> fs_t S -> Prop) :
  rep (fs_store s) F -> f_home F b -> ~ f_is_held F b -> budget F 1 1 ->
  (forall t, rep t (f_put F b (zeros BSIZE)) -> Q tt (with_store t s)) ->
  wp (bzero ROOTDEV b) s Q.
Proof.
  intros R Hb Hn Hbg HQ. unfold bzero. wp_step.
  eapply wp_bread; [exact R|done|done|by apply (budget_buffers _ 1)|]. intros h t1 Hf R1.
  wp_step. eapply wp_data; [exact R1|apply lookup_insert_eq|]. cbn.
  rewrite blit_full.
  - eapply (wp_put_relse _ F h b); [exact R1|done|apply wf_block_zeros| |done].
    by apply (budget_mono _ 1 1); [done|lia|lia].
  - destruct (tlaw_wf (rep := rep) _ _ R) as [Hw _ _].
    destruct (Hw b) as [-> _]; [|done]. apply Hb.
Qed.
End store_rules.

(** ** The free map *)

(** Block [x] is marked in use in the free map that view [v] holds. *)
Definition bit_of (sb : superblock) (v : Z -> bytes) (x : Z) : bool :=
  Z.testbit (rd (v (BBLOCK x sb)) (x mod BPB / 8)) (x mod 8).

(** The layout mkfs.c writes: boot block, superblock, log, inodes, free map and
    data, which starts at block [ds]. *)
Record layout (sb : superblock) (F : fstore) (ds : Z) : Prop := {
  ly_lo : f_lo F = sb_logstart sb;
  ly_hi : f_hi F = sb_logstart sb + sb_nlog sb;
  ly_log : 2 <= sb_logstart sb /\ 0 <= sb_nlog sb;
  ly_inode : f_hi F <= sb_inodestart sb;
  ly_ninodes : 0 <= sb_ninodes sb;
  ly_bmap : sb_inodestart sb + (sb_ninodes sb + IPB - 1) / IPB <= sb_bmapstart sb;
  ly_data : sb_bmapstart sb + (sb_size sb + BPB - 1) / BPB <= ds;
  ly_size : ds <= sb_size sb <= f_size F;
  ly_int : sb_size sb < 2147483648;
}.

(** The layout does not depend on what a transaction changes. *)
Lemma layout_ext sb F F' ds :
  f_size F' = f_size F -> f_lo F' = f_lo F -> f_hi F' = f_hi F ->
  layout sb F ds -> layout sb F' ds.
Proof. intros E1 E2 E3 []. split; rewrite ?E1, ?E2, ?E3; done. Qed.

Lemma BPB_val : BPB = 4096.
Proof. done. Qed.

Lemma layout_bitmap sb F ds x :
  layout sb F ds -> 0 <= x < sb_size sb -> f_home F (BBLOCK x sb) /\ BBLOCK x sb < ds.
Proof.
  intros [] Hx. unfold f_home, home, BBLOCK. rewrite BPB_val in *.
  assert (IPB = 8) as EI by done. rewrite EI in *. split; [split|]; zlia.
Qed.

Lemma layout_home sb F ds x : layout sb F ds -> ds <= x < sb_size sb -> f_home F x.
Proof.
  intros [] Hx. unfold f_home, home. rewrite BPB_val in *.
  assert (IPB = 8) as EI by done. rewrite EI in *. split; [|right]; zlia.
Qed.

Lemma testbit_shiftl_1 k j : 0 <= k -> 0 <= j -> Z.testbit (Z.shiftl 1 k) j = (j =? k).
Proof.
  intros Hk Hj. rewrite Z.shiftl_spec by lia. destruct (Z.eqb_spec j k) as [->|Hne].
  - by rewrite Z.sub_diag.
  - destruct (Z.lt_ge_cases j k); [apply Z.testbit_neg_r; lia|].
    apply Z.bits_above_log2; [lia|]. change (Z.log2 1) with 0. lia.
Qed.

(** [data[bi/8] & (1 << bi%8)] tests a bit. *)
Lemma land_bit a k : 0 <= k -> (Z.land a (Z.shiftl 1 k) =? 0) = negb (Z.testbit a k).
Proof.
  intros Hk. destruct (Z.testbit a k) eqn:E; cbn.
  - apply Z.eqb_neq. intros H0. assert (Hb : Z.testbit (Z.land a (Z.shiftl 1 k)) k = true).
    { rewrite Z.land_spec, E, testbit_shiftl_1, Z.eqb_refl by lia. done. }
    rewrite H0, Z.testbit_0_l in Hb. done.
  - apply Z.eqb_eq, Z.bits_inj'. intros j Hj.
    rewrite Z.land_spec, Z.testbit_0_l, testbit_shiftl_1 by lia.
    destruct (Z.eqb_spec j k) as [->|Hne]; [by rewrite E|]. apply andb_false_r.
Qed.

Lemma byte_lor a k : 0 <= a < 256 -> 0 <= k < 8 -> 0 <= Z.lor a (Z.shiftl 1 k) < 256.
Proof.
  intros Ha Hk. assert (Hs : 0 <= Z.shiftl 1 k) by (apply Z.shiftl_nonneg; lia).
  split; [apply Z.lor_nonneg; lia|]. change 256 with (2 ^ 8).
  assert (E : Z.lor a (Z.shiftl 1 k) = Z.land (Z.lor a (Z.shiftl 1 k)) (Z.ones 8)).
  { apply Z.bits_inj'. intros j Hj. rewrite Z.land_spec, Z.lor_spec, testbit_shiftl_1 by lia.
    rewrite Z.testbit_ones_nonneg by lia. destruct (Z.ltb_spec j 8); [by rewrite andb_true_r|].
    rewrite (proj2 (Z.eqb_neq j k)) by lia. rewrite andb_false_r, orb_false_r.
    destruct (Z.eq_dec a 0) as [->|]; [apply Z.testbit_0_l|].
    apply Z.bits_above_log2; [lia|]. apply Z.log2_lt_pow2; [lia|].
    apply Z.lt_le_trans with (2 ^ 8); [lia|]. apply Z.pow_le_mono_r; lia. }
  rewrite E, Z.land_ones by lia. apply Z.mod_pos_bound. lia.
Qed.

Lemma byte_land a m : 0 <= a < 256 -> 0 <= Z.land a m < 256.
Proof.
  intros Ha. split; [apply Z.land_nonneg; lia|].
  destruct (Z.lt_ge_cases (Z.land a m) 256) as [|Hge]; [done|]. exfalso.
  assert (Hb : forall j, 8 <= j -> Z.testbit (Z.land a m) j = false).
  { intros j Hj. rewrite Z.land_spec. replace (Z.testbit a j) with false; [done|]. symmetry.
    destruct (Z.eq_dec a 0) as [->|]; [apply Z.testbit_0_l|]. apply Z.bits_above_log2; [lia|].
    apply Z.log2_lt_pow2; [lia|]. apply Z.lt_le_trans with (2 ^ 8); [lia|].
    apply Z.pow_le_mono_r; lia. }
  assert (Hl : 8 <= Z.log2 (Z.land a m)) by (apply Z.log2_le_pow2; lia).
  specialize (Hb _ Hl). by rewrite Z.bit_log2 in Hb by lia.
Qed.

(** Change the byte of the free map that has the bit of block [x]. *)
Lemma bit_of_byte sb v x w y :
  lenZ (v (BBLOCK x sb)) = BSIZE -> 0 <= x -> 0 <= y ->
  bit_of sb (fupd v (BBLOCK x sb) (upd (v (BBLOCK x sb)) (x mod BPB / 8) w)) y =
  if y / 8 =? x / 8 then Z.testbit w (y mod 8) else bit_of sb v y.
Proof.
  intros Hlen Hx Hy. unfold bit_of, fupd, BBLOCK in *. rewrite BPB_val in *.
  change BSIZE with 512 in Hlen.
  destruct (Z.eqb_spec (y / 4096 + sb_bmapstart sb) (x / 4096 + sb_bmapstart sb)) as [E|E].
  - rewrite rd_upd by zlia. replace (y / 4096) with (x / 4096) by lia.
    destruct (Z.eqb_spec (x mod 4096 / 8) (y mod 4096 / 8)), (Z.eqb_spec (y / 8) (x / 8));
      try done; exfalso; zlia.
  - rewrite (proj2 (Z.eqb_neq _ _)); [done|]. zlia.
Qed.

Lemma bit_set sb v x y :
  lenZ (v (BBLOCK x sb)) = BSIZE -> 0 <= x -> 0 <= y ->
  let bi := x mod BPB in let d := v (BBLOCK x sb) in
  bit_of sb (fupd v (BBLOCK x sb) (upd d (bi / 8) (Z.lor (rd d (bi / 8)) (bitmask bi)))) y =
  (y =? x) || bit_of sb v y.
Proof.
  intros Hlen Hx Hy. cbv zeta. rewrite bit_of_byte by done. unfold bitmask.
  replace (x mod BPB mod 8) with (x mod 8) by (rewrite BPB_val; zlia).
  assert (Hm : forall z, 0 <= z mod 8 < 8) by (intros; apply Z.mod_pos_bound; lia).
  destruct (Z.eqb_spec (y / 8) (x / 8)) as [E|E].
  - rewrite Z.lor_spec, testbit_shiftl_1 by (pose proof (Hm x); pose proof (Hm y); lia).
    unfold bit_of, BBLOCK. rewrite BPB_val in *.
    replace (y / 4096) with (x / 4096) by zlia.
    replace (y mod 4096 / 8) with (x mod 4096 / 8) by zlia. rewrite orb_comm. f_equal.
    destruct (Z.eqb_spec (y mod 8) (x mod 8)), (Z.eqb_spec y x); try done; exfalso; zlia.
  - rewrite (proj2 (Z.eqb_neq y x)); [done|]. intros ->. done.
Qed.

Lemma bit_clear sb v x y :
  lenZ (v (BBLOCK x sb)) = BSIZE -> 0 <= x -> 0 <= y ->
  let bi := x mod BPB in let d := v (BBLOCK x sb) in
  bit_of sb (fupd v (BBLOCK x sb) (upd d (bi / 8) (Z.land (rd d (bi / 8)) (Z.lnot (bitmask bi))))) y =
  negb (y =? x) && bit_of sb v y.
Proof.
  intros Hlen Hx Hy. cbv zeta. rewrite bit_of_byte by done. unfold bitmask.
  replace (x mod BPB mod 8) with (x mod 8) by (rewrite BPB_val; zlia).
  assert (Hm : forall z, 0 <= z mod 8 < 8) by (intros; apply Z.mod_pos_bound; lia).
  destruct (Z.eqb_spec (y / 8) (x / 8)) as [E|E].
  - rewrite Z.land_spec, Z.lnot_spec, testbit_shiftl_1 by (pose proof (Hm x); pose proof (Hm y); lia).
    unfold bit_of, BBLOCK. rewrite BPB_val in *.
    replace (y / 4096) with (x / 4096) by zlia.
    replace (y mod 4096 / 8) with (x mod 4096 / 8) by zlia. rewrite andb_comm. f_equal. f_equal.
    destruct (Z.eqb_spec (y mod 8) (x mod 8)), (Z.eqb_spec y x); try done; exfalso; zlia.
  - rewrite (proj2 (Z.eqb_neq y x)); [done|]. intros ->. done.
Qed.

(** The test of [balloc] and [bfree]. *)
Lemma bit_test sb v x :
  0 <= x ->
  (Z.land (rd (v (BBLOCK x sb)) (x mod BPB / 8)) (bitmask (x mod BPB)) =? 0) =
  negb (bit_of sb v x).
Proof.
  intros Hx. unfold bitmask, bit_of.
  replace (x mod BPB mod 8) with (x mod 8) by (rewrite BPB_val; zlia).
  apply land_bit. apply Z.mod_pos_bound. lia.
Qed.

Lemma wf_block_upd d k w : wf_block d -> 0 <= w < 256 -> wf_block (upd d k w).
Proof.
  intros [Hl Hb] Hw. split; [by rewrite upd_lenZ|]. unfold upd. by apply Forall_insert.
Qed.

(** [balloc] returned block [x]. *)
Definition f_alloc (sb : superblock) (F : fstore) (x : Z) : fstore :=
  let bi := x mod BPB in let d := f_view F (BBLOCK x sb) in
  f_put (f_put F (BBLOCK x sb) (upd d (bi / 8) (Z.lor (rd d (bi / 8)) (bitmask bi)))) x (zeros BSIZE).
Definition f_free (sb : superblock) (F : fstore) (x : Z) : fstore :=
  let bi := x mod BPB in let d := f_view F (BBLOCK x sb) in
  f_put F (BBLOCK x sb) (upd d (bi / 8) (Z.land (rd d (bi / 8)) (Z.lnot (bitmask bi)))).

Definition used (sb : superblock) (F : fstore) (x : Z) : Prop := bit_of sb (f_view F) x = true.

(** The free map marks the blocks before the data as used, and a free block is
    not held. *)
Record map_ok (sb : superblock) (F : fstore) (ds : Z) : Prop := {
  mo_layout : layout sb F ds;
  mo_meta : forall x, 0 <= x < ds -> used sb F x;
  mo_held : forall x, f_is_held F x -> ds <= x < sb_size sb /\ used sb F x;
}.

Section alloc.
Context {S : Type} `{Laws : TxnLaws S rep}.
Implicit Types (F : fstore) (s : fs_t S).

Lemma rep_block t F b : rep t F -> 0 <= b < f_size F -> wf_block (f_view F b).
Proof. intros R. apply (fw_view _ (tlaw_wf _ _ R)). Qed.

Lemma not_held_bitmap sb F ds x :
  map_ok sb F ds -> 0 <= x < sb_size sb -> ~ f_is_held F (BBLOCK x sb).
Proof.
  intros [Hly _ Hh] Hx Hheld. apply Hh in Hheld as [Hr _].
  destruct (layout_bitmap _ _ _ x Hly Hx). lia.
Qed.

Lemma free_is_data sb F ds x :
  map_ok sb F ds -> 0 <= x < sb_size sb -> ~ used sb F x -> ds <= x /\ ~ f_is_held F x.
Proof.
  intros [Hly Hm Hh] Hx Hu. split.
  - destruct (Z.lt_ge_cases x ds); [|done]. exfalso. apply Hu, Hm. lia.
  - intros Hheld. by apply Hh in Hheld as [_ ?].
Qed.

Variables (sb : superblock) (F : fstore) (ds x : Z) (s : fs_t S) (Q : Z -> fs_t S -> Prop).
Hypothesis Hsb : fs_sb s = sb.
Hypothesis Hmap : map_ok sb F ds.
Hypothesis Hbg : budget F 2 1.
Hypothesis Hx : 0 <= x < sb_size sb.
Hypothesis Hfree : ~ used sb F x.
Hypothesis Hlow : forall y, 0 <= y < x -> used sb F y.
Hypothesis HQ : forall t, rep t (f_alloc sb F x) -> Q x (with_store t s).

(** One bit: it is the bit of [x], or the block is in use. *)
Lemma balloc_bit_spec k bi h t :
  0 <= bi < BPB -> 0 <= k -> k * BPB + bi <= x -> f_held F !! h = None ->
  rep t (f_hold F h (BBLOCK (k * BPB) sb)) ->
  wp (balloc_bit ROOTDEV (k * BPB) h bi) (with_store t s) (fun r s' =>
    match r with
    | Some a => Q a s'
    | None => s' = with_store t s /\ k * BPB + bi + 1 <= x
    end).
Proof using Hbg HQ Hfree Hlow Hmap Hx Laws.
  intros Hbi Hk Hle Hf R. rewrite BPB_val in *. remember (k * 4096 + bi) as y eqn:Hyd.
  assert (Ey : BBLOCK (k * 4096) sb = BBLOCK y sb).
  { unfold BBLOCK. rewrite BPB_val. f_equal. zlia. }
  assert (Eb : bi = y mod BPB) by (rewrite BPB_val; zlia).
  assert (Hy : 0 <= y < sb_size sb) by lia.
  pose proof (mo_layout _ _ _ Hmap) as Hly. destruct (layout_bitmap _ _ _ y Hly Hy) as [Hbb _].
  assert (Hwf : wf_block (f_view F (BBLOCK y sb))).
  { apply (fw_view _ (tlaw_wf _ _ R)). apply Hbb. }
  unfold balloc_bit. wp_step. eapply wp_data; [exact R|apply lookup_insert_eq|]. cbn [f_view f_hold].
  rewrite Ey in *. rewrite <- Hyd, Eb, bit_test by lia.
  destruct (bit_of sb (f_view F) y) eqn:Ebit; cbn [negb].
  { apply wp_ret. split; [done|]. assert (y <> x) by (intros ->; by apply Hfree). lia. }
  assert (Exy : y = x).
  { destruct (Z.eq_dec y x); [done|]. exfalso. specialize (Hlow y ltac:(lia)).
    unfold used in Hlow. congruence. }
  destruct (free_is_data _ _ _ x Hmap Hx Hfree) as [Hds Hnh].
  assert (Hxh : f_home F x) by (by apply (layout_home sb F ds); [|lia]).
  eapply (wp_put_relse_then _ F h); [exact R|done| |by apply (budget_mono _ 2 1); [done|lia|lia]|].
  { apply wf_block_upd; [done|]. apply byte_lor; [|apply Z.mod_pos_bound; lia].
    apply rd_byte. apply Hwf. }
  intros t2 R2. wp_step. rewrite Exy in *.
  eapply (bzero_spec (rep := rep)); [exact R2|done|done|by apply budget_put|].
  intros t3 R3. apply wp_ret. by apply HQ.
Qed.

Lemma balloc_block_spec k t :
  0 <= k -> k * BPB <= x -> rep t F ->
  wp (balloc_block ROOTDEV (k * BPB)) (with_store t s) (fun r s' =>
    match r with
    | Some a => Q a s'
    | None => exists t', s' = with_store t' s /\ rep t' F /\ (k + 1) * BPB <= x
    end).
Proof using Hbg HQ Hfree Hlow Hmap Hsb Hx Laws.
  intros Hk Hle R. pose proof (mo_layout _ _ _ Hmap) as Hly.
  assert (Hkr : 0 <= k * BPB < sb_size sb) by (rewrite BPB_val in *; lia).
  destruct (layout_bitmap _ _ _ _ Hly Hkr) as [Hbb _].
  unfold balloc_block, get_sb. wp_step. wp_step. cbn [fs_sb with_store]. rewrite Hsb. wp_step.
  eapply wp_bread; [exact R|exact Hbb|by eapply not_held_bitmap|by apply (budget_buffers _ 2)|].
  intros h t1 Hf R1. change (with_store t1 (with_store t s)) with (with_store t1 s).
  wp_step. eapply (wp_forR _ _ _ (fun bi s' => s' = with_store t1 s /\ k * BPB + bi <= x)).
  - split; [done|lia].
  - intros bi s' Hbi [-> Hle'].
    eapply wp_mono; [apply (balloc_bit_spec k bi h t1); try done; rewrite BPB_val in *; lia|].
    intros [a|] s' Hr; [apply wp_ret; exact Hr|]. destruct Hr as [-> Hr]. split; [done|lia].
  - intros s' [-> Hle']. wp_step.
    eapply (wp_relse_clean (rep := rep)); [exact R1|done|apply (bg_taint _ _ _ Hbg)|].
    intros t2 R2. apply wp_ret. exists t2. split_and!; [done|done|].
    rewrite BPB_val in *. lia.
Qed.

Lemma balloc_spec_k : rep (fs_store s) F -> wp (balloc ROOTDEV) s Q.
Proof using Hbg HQ Hfree Hlow Hmap Hsb Hx Laws.
  intros R. unfold balloc, get_sb. wp_step. wp_step. rewrite Hsb. wp_step.
  eapply (wp_forR _ _ _ (fun k s' => exists t, s' = with_store t s /\ rep t F /\ k * BPB <= x)).
  - exists (fs_store s). split_and!; [by destruct s|done|lia].
  - intros k s' Hk (t & -> & Rt & Hle).
    eapply wp_mono; [apply (balloc_block_spec k t); try done; lia|].
    intros [a|] s' Hr; [apply wp_ret; exact Hr|]. exact Hr.
  - intros s' (t & _ & _ & Hle). exfalso. rewrite BPB_val in *. zlia.
Qed.
End alloc.

(** ** Effect on the free map and on the other blocks *)

Lemma view_put F b d y : f_view (f_put F b d) y = if y =? b then d else f_view F y.
Proof. done. Qed.

Lemma f_alloc_view sb F x y :
  f_view (f_alloc sb F x) y =
  if y =? x then zeros BSIZE
  else if y =? BBLOCK x sb then f_view (f_alloc sb F x) (BBLOCK x sb)
  else f_view F y.
Proof.
  unfold f_alloc. cbv zeta. rewrite !view_put. unfold f_put, fupd. cbn.
  destruct (Z.eqb_spec y x); [done|]. destruct (Z.eqb_spec y (BBLOCK x sb)) as [->|]; [|done].
  rewrite Z.eqb_refl. rewrite (proj2 (Z.eqb_neq _ _)) by done. done.
Qed.

Lemma f_alloc_other sb F x y :
  y <> x -> y <> BBLOCK x sb -> f_view (f_alloc sb F x) y = f_view F y.
Proof. intros H1 H2. rewrite f_alloc_view. test_solver. Qed.

Lemma f_alloc_zero sb F x : f_view (f_alloc sb F x) x = zeros BSIZE.
Proof. rewrite f_alloc_view, Z.eqb_refl. done. Qed.

Lemma f_free_other sb F x y : y <> BBLOCK x sb -> f_view (f_free sb F x) y = f_view F y.
Proof. intros Hne. unfold f_free. cbv zeta. rewrite view_put. test_solver. Qed.

Lemma ds_pos sb F ds : map_ok sb F ds -> 0 <= ds.
Proof.
  intros [[] _ _]. rewrite BPB_val in *. assert (IPB = 8) as E by done. rewrite E in *. zlia.
Qed.

Section effects.
Variables (sb : superblock) (F : fstore) (ds x : Z).
Hypothesis Hmap : map_ok sb F ds.
Hypothesis Hwf : fstore_wf F.
Hypothesis Hx : ds <= x < sb_size sb.

Lemma map_block y : 0 <= y < sb_size sb -> lenZ (f_view F (BBLOCK y sb)) = BSIZE /\ BBLOCK y sb < ds.
Proof using Hmap Hwf.
  intros Hy. destruct (layout_bitmap _ _ _ y (mo_layout _ _ _ Hmap) Hy) as [Hb Hd].
  split; [|done]. apply (fw_view _ Hwf). apply Hb.
Qed.

Lemma f_alloc_bit y :
  0 <= y < sb_size sb ->
  bit_of sb (f_view (f_alloc sb F x)) y = (y =? x) || bit_of sb (f_view F) y.
Proof using Hmap Hwf Hx.
  intros Hy. pose proof (ds_pos _ _ _ Hmap). rewrite <- (bit_set sb (f_view F) x y); [|apply map_block; lia|lia|lia].
  unfold bit_of at 1 2. f_equal. f_equal. unfold f_alloc. cbv zeta. rewrite view_put.
  rewrite (proj2 (Z.eqb_neq _ _)); [done|]. pose proof (proj2 (map_block y Hy)). lia.
Qed.

Lemma f_free_bit y :
  0 <= y < sb_size sb ->
  bit_of sb (f_view (f_free sb F x)) y = negb (y =? x) && bit_of sb (f_view F) y.
Proof using Hmap Hwf Hx.
  intros Hy. pose proof (ds_pos _ _ _ Hmap). rewrite <- (bit_clear sb (f_view F) x y); [done|apply map_block; lia|lia|lia].
Qed.

Lemma map_ok_alloc : map_ok sb (f_alloc sb F x) ds.
Proof using Hmap Hwf Hx.
  destruct Hmap as [Hly Hm Hh]. pose proof (ly_size _ _ _ Hly). split.
  - by apply (layout_ext sb F).
  - intros y Hy. unfold used. rewrite f_alloc_bit by lia. apply orb_true_iff. right. by apply Hm.
  - intros y Hy. apply Hh in Hy as [Hr Hu]. split; [done|]. unfold used.
    pose proof (ds_pos _ _ _ Hmap). rewrite f_alloc_bit by lia. apply orb_true_iff. by right.
Qed.

Lemma map_ok_free : ~ f_is_held F x -> map_ok sb (f_free sb F x) ds.
Proof using Hmap Hwf Hx.
  intros Hnh. destruct Hmap as [Hly Hm Hh]. pose proof (ly_size _ _ _ Hly). split.
  - by apply (layout_ext sb F).
  - intros y Hy. unfold used. rewrite f_free_bit by lia.
    rewrite (proj2 (Z.eqb_neq y x)) by lia. by apply Hm.
  - intros y Hy. pose proof Hy as [Hr Hu]%Hh. split; [done|]. unfold used.
    pose proof (ds_pos _ _ _ Hmap). rewrite f_free_bit by lia.
    rewrite (proj2 (Z.eqb_neq y x)); [done|]. intros ->. done.
Qed.
End effects.

Section bfree.
Context {S : Type} `{Laws : TxnLaws S rep}.

Lemma bfree_spec sb F ds x s (Q : unit -> fs_t S -> Prop) :
  rep (fs_store s) F -> fs_sb s = sb -> map_ok sb F ds -> 0 <= x < sb_size sb -> used sb F x ->
  budget F 1 1 -> (forall t, rep t (f_free sb F x) -> Q tt (with_store t s)) ->
  wp (bfree ROOTDEV x) s Q.
Proof.
  intros R Hsb Hmap Hx Hu Hbg HQ.
  destruct (layout_bitmap _ _ _ x (mo_layout _ _ _ Hmap) Hx) as [Hbb _].
  pose proof (rep_block (rep := rep) _ _ _ R (proj1 Hbb)) as Hwf.
  unfold bfree, get_sb. wp_step. wp_step. rewrite Hsb. wp_step.
  eapply wp_bread; [exact R|exact Hbb|by eapply not_held_bitmap|by apply (budget_buffers _ 1)|].
  intros h t1 Hf R1. wp_step. eapply wp_data; [exact R1|apply lookup_insert_eq|].
  cbn [f_view f_hold]. wp_step. wp_step.
  { rewrite bit_test by lia. unfold used in Hu. by rewrite Hu. }
  eapply (wp_put_relse _ F h); [exact R1|done| |by apply (budget_mono _ 1 1); [done|lia|lia]|].
  - apply wf_block_upd; [done|]. apply byte_land, rd_byte. apply Hwf.
  - intros t2 R2. by apply HQ.
Qed.

(** Freeing a free block stops the machine. *)
Lemma bfree_free_panics sb F ds x (s : fs_t S) :
  rep (fs_store s) F -> fs_sb s = sb -> map_ok sb F ds -> 0 <= x < sb_size sb -> ~ used sb F x ->
  budget F 0 1 -> bfree ROOTDEV x s = Panic "freeing free block".
Proof.
  intros R Hsb Hmap Hx Hu Hbg.
  destruct (layout_bitmap _ _ _ x (mo_layout _ _ _ Hmap) Hx) as [Hbb _].
  assert (Hr : wp (bread_ ROOTDEV (BBLOCK x sb)) s (fun h s' =>
    tdata h (fs_store s') = f_view F (BBLOCK x sb))).
  { eapply wp_bread; [exact R|exact Hbb|by eapply not_held_bitmap|by apply (budget_buffers _ 0)|].
    intros h t1 Hf R1. cbn. by rewrite (tlaw_data (rep := rep) _ _ h _ R1 (lookup_insert_eq _ _ _)). }
  unfold bfree, get_sb, bp_data, bind, gets. rewrite Hsb. unfold wp in Hr.
  destruct (bread_ ROOTDEV (BBLOCK x sb) s) as [[h s']| | |]; [|done..]. rewrite Hr.
  rewrite bit_test by lia. unfold used in Hu. apply not_true_is_false in Hu. by rewrite Hu.
Qed.
End bfree.

Section allocator.
Context {S : Type} `{Laws : TxnLaws S rep}.

(** C23: [balloc] returns the lowest free block: it is a data block, it is marked in
    the free map and it reads as zeros; no other mark and no other data block
    changes. *)
Theorem balloc_correct sb F ds x (s : fs_t S) :
  rep (fs_store s) F -> fs_sb s = sb -> map_ok sb F ds -> budget F 2 1 ->
  0 <= x < sb_size sb -> ~ used sb F x -> (forall y, 0 <= y < x -> used sb F y) ->
  wp (balloc ROOTDEV) s (fun a s' => a = x /\ ds <= x /\
    exists t F', s' = with_store t s /\ rep t F' /\ map_ok sb F' ds /\
      f_view F' x = zeros BSIZE /\
      (forall y, 0 <= y < sb_size sb -> used sb F' y <-> y = x \/ used sb F y) /\
      (forall y, y < sb_bmapstart sb \/ ds <= y -> y <> x -> f_view F' y = f_view F y)).
Proof.
  intros R Hsb Hmap Hbg Hx Hux Hlow. pose proof (tlaw_wf (rep := rep) _ _ R) as Hwf.
  pose proof (free_is_data _ _ _ _ Hmap Hx Hux) as [Hd _].
  eapply (balloc_spec_k sb F ds x); try done. intros t Rt. split_and!; [done|done|].
  exists t, (f_alloc sb F x). split_and!; try done; [apply map_ok_alloc; try done; lia|apply f_alloc_zero| |].
  - intros y Hy. unfold used. rewrite (f_alloc_bit sb F ds) by (try done; lia).
    by rewrite orb_true_iff, Z.eqb_eq.
  - intros y Hy Hne. apply f_alloc_other; [done|]. pose proof (proj2 (map_block sb F ds Hmap Hwf x Hx)).
    unfold BBLOCK in *. rewrite BPB_val in *. zlia.
Qed.

(** [bfree] clears the mark of the block and no other, and leaves every data
    block as it is. *)
Theorem bfree_correct sb F ds x (s : fs_t S) :
  rep (fs_store s) F -> fs_sb s = sb -> map_ok sb F ds -> budget F 1 1 ->
  ds <= x < sb_size sb -> used sb F x -> ~ f_is_held F x ->
  wp (bfree ROOTDEV x) s (fun _ s' =>
    exists t F', s' = with_store t s /\ rep t F' /\ map_ok sb F' ds /\
      (forall y, 0 <= y < sb_size sb -> used sb F' y <-> y <> x /\ used sb F y) /\
      (forall y, y < sb_bmapstart sb \/ ds <= y -> f_view F' y = f_view F y)).
Proof.
  intros R Hsb Hmap Hbg Hx Hux Hnh. pose proof (tlaw_wf (rep := rep) _ _ R) as Hwf.
  pose proof (ds_pos _ _ _ Hmap).
  eapply (bfree_spec sb F ds x); try done; [lia|]. intros t Rt.
  exists t, (f_free sb F x). split_and!; try done; [by apply map_ok_free| |].
  - intros y Hy. unfold used. rewrite (f_free_bit sb F ds) by (try done; lia).
    by rewrite andb_true_iff, negb_true_iff, Z.eqb_neq.
  - intros y Hy. apply f_free_other. pose proof (proj2 (map_block sb F ds Hmap Hwf x ltac:(lia))).
    unfold BBLOCK in *. rewrite BPB_val in *. zlia.
Qed.
End allocator.
