(* ===== verification/FsFile.v ===== *)
(** * Inode contents: [bmap], [readi], [writei]

    The blocks of a file as its inode lists them, and the specifications of the
    functions of fs.c that map, read and write them.  A write is described by
    what it does to the file and by what it leaves alone: every block in use
    that is not the file's own keeps its contents, so that no other file
    changes. *)

From S2P Require Import Prelude Bytes Store Log Txn Fs FsBlock.

(** ** The blocks of a file *)

Definition ind_addr (din : dinode) : Z := rd (di_addrs din) NDIRECT.

(** The address of block [bn] of the file, 0 if there is none. *)
Definition blk (v : Z -> bytes) (din : dinode) (bn : Z) : Z :=
  if bn <? NDIRECT then rd (di_addrs din) bn
  else if ind_addr din =? 0 then 0
  else get32 (v (ind_addr din)) (4 * (bn - NDIRECT)).

(** A data block in use. *)
Definition data_block (sb : superblock) (F : fstore) (ds y : Z) : Prop :=
  ds <= y < sb_size sb /\ used sb F y.

(** The file has exactly the first [nb] blocks, all different and in use. *)
Record file_ok (sb : superblock) (ds : Z) (F : fstore) (din : dinode) (nb : Z) : Prop := {
  fo_len : lenZ (di_addrs din) = NDIRECT + 1;
  fo_range : 0 <= nb <= MAXFILE;
  fo_blk : forall i, 0 <= i < nb -> data_block sb F ds (blk (f_view F) din i);
  fo_zero : forall i, nb <= i < MAXFILE -> blk (f_view F) din i = 0;
  fo_inj : forall i j, 0 <= i < nb -> 0 <= j < nb ->
    blk (f_view F) din i = blk (f_view F) din j -> i = j;
  fo_ind : ind_addr din = 0 \/ data_block sb F ds (ind_addr din) /\
    forall i, 0 <= i < nb -> blk (f_view F) din i <> ind_addr din;
}.

Lemma consts : NDIRECT = 12 /\ NINDIRECT = 128 /\ MAXFILE = 140 /\ BSIZE = 512.
Proof. done. Qed.
Ltac consts := let H := fresh in pose proof consts as H; destruct H as (? & ? & ? & ?).

(** The addresses depend on the inode and on its indirect block only. *)
Lemma blk_ext v v' din bn :
  (ind_addr din <> 0 -> v' (ind_addr din) = v (ind_addr din)) -> blk v' din bn = blk v din bn.
Proof. intros Hv. unfold blk. repeat case_test; try done. by rewrite Hv. Qed.

Lemma file_ok_keep sb ds F F' din nb :
  file_ok sb ds F din nb -> (forall y, data_block sb F ds y -> used sb F' y) ->
  (ind_addr din <> 0 -> f_view F' (ind_addr din) = f_view F (ind_addr din)) ->
  file_ok sb ds F' din nb.
Proof.
  intros [H1 H2 H3 H4 H5 H6] Hu Hv.
  assert (E : forall i, blk (f_view F') din i = blk (f_view F) din i).
  { intros i. by apply blk_ext. }
  split; try done.
  - intros i Hi. rewrite E. destruct (H3 i Hi) as [Hr Hu']. split; [done|]. apply Hu. by split.
  - intros i Hi. rewrite E. auto.
  - intros i j Hi Hj. rewrite !E. auto.
  - destruct H6 as [|[[Hr Hu'] Hne]]; [by left|right]. split; [split; [done|]; apply Hu; by split|].
    intros i Hi. rewrite E. auto.
Qed.

(** Byte [i] of a file with [nb] blocks; a file reads as zeros past them. *)
Definition fbyte (F : fstore) (din : dinode) (nb i : Z) : Z :=
  if i <? nb * BSIZE then rd (f_view F (blk (f_view F) din (i / BSIZE))) (i mod BSIZE) else 0.

(** The bytes [off .. off+n) of a file. *)
Definition fbytes (F : fstore) (din : dinode) (nb off n : Z) : bytes :=
  fbyte F din nb <$> seqZ off n.

(** The blocks a file owns: those of its contents and its indirect block. *)
Definition owned (F : fstore) (din : dinode) (nb y : Z) : Prop :=
  (ind_addr din <> 0 /\ y = ind_addr din) \/ exists i, 0 <= i < nb /\ y = blk (f_view F) din i.

(** A block of the free map. *)
Definition is_map (sb : superblock) (y : Z) : Prop := exists x, 0 <= x < sb_size sb /\ y = BBLOCK x sb.

(** The inode [din] of [F] became [din'] of [F'], which has at least the blocks
    of the former.  Of the blocks in use only the file's own changed; new
    blocks were free; no inode block changed.  The log has, besides what it
    had, only blocks of the free map, the indirect block and the blocks
    [lo <= i < hi] of the file. *)
Record edit (sb : superblock) (ds lo hi : Z) (F : fstore) (din : dinode) (nb : Z)
    (F' : fstore) (din' : dinode) (nb' : Z) : Prop := {
  ed_map : map_ok sb F' ds;
  ed_file : file_ok sb ds F' din' nb';
  ed_le : 0 <= nb <= nb';
  ed_blk : forall i, 0 <= i < nb -> blk (f_view F') din' i = blk (f_view F) din i;
  ed_keep : forall y, data_block sb F ds y -> ~ owned F din nb y -> f_view F' y = f_view F y;
  ed_used : forall y, data_block sb F ds y -> used sb F' y;
  ed_new : forall i, nb <= i < nb' -> ~ used sb F (blk (f_view F') din' i);
  ed_meta : forall y, y < sb_bmapstart sb -> f_view F' y = f_view F y;
  ed_din : exists addrs, din' = mkDinode (di_type din) (di_major din) (di_minor din)
                           (di_nlink din) (di_size din) addrs;
  ed_ind : ind_addr din' = ind_addr din \/ ind_addr din = 0 /\ ~ used sb F (ind_addr din');
  ed_held : f_held F' = f_held F;
  ed_ops : f_ops F' = f_ops F;
  ed_log : forall y, y ∈ f_log F' -> y ∈ f_log F \/ is_map sb y \/
    (ind_addr din' <> 0 /\ y = ind_addr din') \/
    exists i, lo <= i < hi /\ 0 <= i < nb' /\ y = blk (f_view F') din' i;
}.

Lemma edit_refl sb ds lo F din nb :
  map_ok sb F ds -> file_ok sb ds F din nb -> edit sb ds lo lo F din nb F din nb.
Proof.
  intros Hm Hf. split; try done; auto with lia.
  - destruct (fo_range _ _ _ _ _ Hf). lia.
  - by intros y [_ Hu].
  - destruct din. eexists. reflexivity.
Qed.

Lemma edit_weaken sb ds lo hi lo' hi' F din nb F' din' nb' :
  lo' <= lo -> hi <= hi' -> edit sb ds lo hi F din nb F' din' nb' ->
  edit sb ds lo' hi' F din nb F' din' nb'.
Proof.
  intros Hlo Hhi []. split; try done. intros y Hy.
  destruct (ed_log0 y Hy) as [|[|[|(i & Hi & Hi')]]]; auto. do 3 right. exists i. split; [lia|done].
Qed.

(** What the file did not own before, it does not own later unless it was free. *)
Lemma edit_owned sb ds lo hi F din nb F' din' nb' y :
  edit sb ds lo hi F din nb F' din' nb' -> data_block sb F ds y -> owned F' din' nb' y ->
  owned F din nb y.
Proof.
  intros E [Hr Hu] [[Hne ->]|[i [Hi ->]]].
  - left. destruct (ed_ind _ _ _ _ _ _ _ _ _ _ E) as [E'|[_ Hf]]; [|done].
    by rewrite E' in *.
  - right. exists i. destruct (Z.lt_ge_cases i nb).
    + split; [lia|]. by apply (ed_blk _ _ _ _ _ _ _ _ _ _ E); lia.
    + exfalso. apply (ed_new _ _ _ _ _ _ _ _ _ _ E i); [lia|done].
Qed.

Lemma edit_trans sb ds lo hi F0 d0 n0 F1 d1 n1 F2 d2 n2 :
  edit sb ds lo hi F0 d0 n0 F1 d1 n1 -> edit sb ds lo hi F1 d1 n1 F2 d2 n2 ->
  edit sb ds lo hi F0 d0 n0 F2 d2 n2.
Proof.
  intros E1 E2.
  assert (Hdb : forall y, data_block sb F0 ds y -> data_block sb F1 ds y).
  { intros y [Hr Hu]. split; [done|]. apply (ed_used _ _ _ _ _ _ _ _ _ _ E1). by split. }
  assert (Hnu : forall y, ds <= y < sb_size sb -> ~ used sb F1 y -> ~ used sb F0 y).
  { intros y Hr Hu H0. apply Hu, Hdb. by split. }
  pose proof (fun y => edit_owned _ _ _ _ _ _ _ _ _ _ y E1) as Hown.
  destruct E1 as [M1 O1 L1 B1 K1 U1 N1 T1 [a1 D1] I1 H1 P1 G1].
  destruct E2 as [M2 O2 L2 B2 K2 U2 N2 T2 [a2 D2] I2 H2 P2 G2].
  split; try done; try congruence; try lia.
  - intros i Hi. rewrite B2, B1 by lia. done.
  - intros y Hy Ho. rewrite K2, K1; try done; [by apply Hdb|]. intros Ho'. by apply Ho, Hown.
  - intros y Hy. by apply U2, Hdb.
  - intros i Hi. destruct (Z.lt_ge_cases i n1).
    + rewrite B2 by lia. apply N1. lia.
    + apply Hnu, N2; [|lia]. apply (fo_blk _ _ _ _ _ O2). lia.
  - intros y Hy. rewrite T2, T1; done.
  - exists a2. rewrite D2, D1. done.
  - destruct (fo_ind _ _ _ _ _ O2) as [E0|[[Hr _] _]].
    + left. destruct I1 as [|[]], I2 as [|[]]; congruence.
    + destruct I2 as [->|[E Hu]]; [done|]. destruct I1 as [<-|[E' Hu']]; right; auto.
  - intros y [Hy|[Hy|[[Hne Hy]|(i & Hi & Hi' & Hy)]]]%G2; auto.
    + apply G1 in Hy as [Hy|[Hy|[[Hne Hy]|(i & Hi & Hi' & Hy)]]]; auto.
      * right; right; left. destruct I2 as [->|[]]; [done|congruence].
      * do 3 right. exists i. rewrite B2 by lia. split_and!; [lia..|done].
    + do 3 right. exists i. split_and!; [lia..|done].
Qed.

(** Another file, whose blocks are its own, is unchanged. *)
Lemma edit_other sb ds lo hi F din nb F' din' nb' d2 n2 :
  edit sb ds lo hi F din nb F' din' nb' -> file_ok sb ds F d2 n2 ->
  (forall y, owned F d2 n2 y -> ~ owned F din nb y) ->
  file_ok sb ds F' d2 n2 /\ forall i, 0 <= i -> fbyte F' d2 n2 i = fbyte F d2 n2 i.
Proof.
  intros E Hf Hdis.
  assert (Hind : ind_addr d2 <> 0 -> f_view F' (ind_addr d2) = f_view F (ind_addr d2)).
  { intros Hne. apply (ed_keep _ _ _ _ _ _ _ _ _ _ E).
    - destruct (fo_ind _ _ _ _ _ Hf) as [|[? _]]; done.
    - apply Hdis. by left. }
  split.
  - apply (file_ok_keep sb ds F); try done. apply (ed_used _ _ _ _ _ _ _ _ _ _ E).
  - intros i Hi. unfold fbyte. rewrite (blk_ext (f_view F)) by done. case_test; [|done].
    rewrite (ed_keep _ _ _ _ _ _ _ _ _ _ E); [done| |].
    + apply (fo_blk _ _ _ _ _ Hf). change BSIZE with 512 in *. zlia.
    + apply Hdis. right. exists (i / BSIZE). split; [|done]. change BSIZE with 512 in *. zlia.
Qed.

(** ** Free blocks *)

(** At least [k] blocks are free. *)
Definition has_free (sb : superblock) (F : fstore) (k : Z) : Prop :=
  exists X : gset Z, k <= Z.of_nat (size X) /\
    forall x, x ∈ X -> 0 <= x < sb_size sb /\ ~ used sb F x.

(** The lowest free block. *)
Lemma first_free sb F k :
  has_free sb F k -> 1 <= k ->
  exists x, 0 <= x < sb_size sb /\ ~ used sb F x /\ forall y, 0 <= y < x -> used sb F y.
Proof.
  intros (X & HX & Hf) Hk. destruct (set_choose_or_empty X) as [[a Ha]|HX0].
  2: { apply size_empty_iff in HX0. lia. }
  destruct (Hf a Ha) as [Hr Hua]. clear X HX Hf Ha.
  remember (Z.to_nat a) as n eqn:En. revert a Hr Hua En.
  induction n as [n IH] using lt_wf_ind. intros a Ha Hua ->.
  assert (D : forall y, Decision (used sb F y)) by (intros; unfold used; apply _).
  destruct (decide (Forall (used sb F) (seqZ 0 a))) as [Hall|[y [Hy Hu]]%not_Forall_Exists%Exists_exists].
  - exists a. split_and!; try lia; [done|]. intros y Hy. rewrite Forall_forall in Hall.
    apply Hall, elem_of_seqZ. lia.
  - apply elem_of_seqZ in Hy. apply (IH (Z.to_nat y)) with y; try done; lia.
  - done.
Qed.

(** Marking a block as used takes at most one free block. *)
Lemma has_free_alloc sb F F' x k :
  has_free sb F k ->
  (forall y, 0 <= y < sb_size sb -> used sb F' y -> y = x \/ used sb F y) ->
  has_free sb F' (k - 1).
Proof.
  intros (X & HX & Hf) Hu. exists (X ∖ {[x]}). split.
  - pose proof (log_add_size (X ∖ {[x]}) x).
    assert (size X <= size (X ∖ {[x]} ∪ {[x]}))%nat; [|lia].
    apply subseteq_size. intros y Hy. destruct (decide (y = x)); set_solver.
  - intros y Hy. destruct (Hf y ltac:(set_solver)) as [Hr Hn]. split; [done|].
    intros Hy'. destruct (Hu _ Hr Hy'); [set_solver|done].
Qed.

Lemma has_free_ext sb F F' k :
  has_free sb F k -> (forall y, 0 <= y < sb_size sb -> used sb F' y -> used sb F y) ->
  has_free sb F' k.
Proof. intros (X & HX & Hf) Hu. exists X. split; [done|]. intros x [Hr Hn]%Hf. auto. Qed.

(** ** Inode addresses *)

Lemma ind_set_addr din k a :
  lenZ (di_addrs din) = NDIRECT + 1 -> 0 <= k <= NDIRECT ->
  ind_addr (set_addr k a din) = if k =? NDIRECT then a else ind_addr din.
Proof.
  intros Hl Hk. unfold ind_addr, set_addr. cbn [di_addrs].
  change NDIRECT with 12 in *. rewrite rd_upd by lia. done.
Qed.

Lemma blk_set_addr v din k a i :
  lenZ (di_addrs din) = NDIRECT + 1 -> 0 <= k < NDIRECT -> 0 <= i ->
  blk v (set_addr k a din) i = if i =? k then a else blk v din i.
Proof.
  intros Hl Hk Hi. unfold blk. rewrite ind_set_addr by lia.
  rewrite (proj2 (Z.eqb_neq k NDIRECT)) by lia. unfold set_addr. cbn [di_addrs].
  destruct (Z.ltb_spec i NDIRECT).
  - rewrite rd_upd by lia. rewrite Z.eqb_sym. done.
  - rewrite (proj2 (Z.eqb_neq i k)) by lia. done.
Qed.

(** ** Writing a data block *)

Section put_data.
Variables (sb : superblock) (ds : Z) (F : fstore) (b : Z) (d : bytes).
Hypothesis Hmap : map_ok sb F ds.
Hypothesis Hb : ds <= b < sb_size sb.

Lemma put_used y : 0 <= y < sb_size sb -> used sb (f_put F b d) y <-> used sb F y.
Proof.
  intros Hy. destruct (layout_bitmap sb F ds y (mo_layout _ _ _ Hmap) Hy).
  unfold used, bit_of. rewrite view_put, (proj2 (Z.eqb_neq _ _)) by lia. done.
Qed.

Lemma put_map : map_ok sb (f_put F b d) ds.
Proof.
  pose proof (ds_pos _ _ _ Hmap). destruct Hmap as [Hly Hm Hh]. pose proof (ly_size _ _ _ Hly). split.
  - by apply (layout_ext sb F).
  - intros y Hy. apply put_used; [lia|by apply Hm].
  - intros y Hy. apply Hh in Hy as [Hr Hu]. split; [done|]. apply put_used; [lia|done].
Qed.

Lemma put_data y : data_block sb F ds y -> data_block sb (f_put F b d) ds y.
Proof.
  pose proof (ds_pos _ _ _ Hmap). intros [Hr Hu]. split; [done|]. apply put_used; [lia|done].
Qed.

Lemma put_meta y : y < sb_bmapstart sb -> f_view (f_put F b d) y = f_view F y.
Proof.
  pose proof (ds_pos _ _ _ Hmap). destruct Hmap as [[] _ _]. rewrite BPB_val in *. intros Hy.
  rewrite view_put, (proj2 (Z.eqb_neq _ _)); [done|zlia].
Qed.
End put_data.

(** Block [i] of a file gets the contents [d]. *)
Lemma edit_put sb ds F din nb i d :
  map_ok sb F ds -> file_ok sb ds F din nb -> 0 <= i < nb ->
  edit sb ds i (i + 1) F din nb (f_put F (blk (f_view F) din i) d) din nb.
Proof.
  intros Hmap Hfile Hi. destruct (fo_blk _ _ _ _ _ Hfile i Hi) as [Hr Hu].
  assert (Hb : forall j, blk (f_view (f_put F (blk (f_view F) din i) d)) din j = blk (f_view F) din j).
  { intros j. apply blk_ext. intros Hne. rewrite view_put. case_test; [|done].
    destruct (fo_ind _ _ _ _ _ Hfile) as [|[_ Hn]]; [done|]. by destruct (Hn i Hi). }
  split; try done; try lia.
  - by apply put_map.
  - apply (file_ok_keep sb ds F); [done| |].
    + intros y Hy. by apply (put_data sb ds).
    + intros Hne. rewrite view_put. case_test; [|done].
      destruct (fo_ind _ _ _ _ _ Hfile) as [|[_ Hn]]; [done|]. by destruct (Hn i Hi).
  - intros y Hy Ho. rewrite view_put. case_test; [|done]. destruct Ho. right. by exists i.
  - intros y Hy. by apply (put_data sb ds).
  - intros y Hy. by apply (put_meta sb ds).
  - destruct din. by eexists.
  - intros y [Hy| ->%elem_of_singleton]%elem_of_union; [by left|]. do 3 right. exists i. rewrite Hb. auto with lia.
Qed.

Section one_block.
Variables (sb : superblock) (ds : Z) (F : fstore) (din : dinode) (nb x : Z).
Hypothesis Hwf : fstore_wf F.
Hypothesis Hmap : map_ok sb F ds.
Hypothesis Hfile : file_ok sb ds F din nb.
Hypothesis Hx : ds <= x < sb_size sb.
Hypothesis Hfree : ~ used sb F x.

Lemma alloc_used y : 0 <= y < sb_size sb -> used sb (f_alloc sb F x) y <-> y = x \/ used sb F y.
Proof using Hwf Hmap Hx.
  intros Hy. unfold used. rewrite (f_alloc_bit sb F ds) by done. rewrite orb_true_iff, Z.eqb_eq. done.
Qed.

Lemma alloc_keep y : data_block sb F ds y -> f_view (f_alloc sb F x) y = f_view F y.
Proof using Hmap Hwf Hx Hfree.
  intros [Hr Hu]. pose proof (ds_pos _ _ _ Hmap). apply f_alloc_other; [by intros ->|].
  pose proof (proj2 (map_block sb F ds Hmap Hwf x ltac:(lia))). lia.
Qed.

Lemma alloc_data y : data_block sb F ds y -> data_block sb (f_alloc sb F x) ds y.
Proof using Hwf Hmap Hx.
  intros [Hr Hu]. pose proof (ds_pos _ _ _ Hmap). split; [done|]. apply alloc_used; [lia|by right].
Qed.

Lemma alloc_self : data_block sb (f_alloc sb F x) ds x.
Proof using Hwf Hmap Hx.
  pose proof (ds_pos _ _ _ Hmap). split; [done|]. apply alloc_used; [lia|by left].
Qed.

Lemma alloc_blk i : blk (f_view (f_alloc sb F x)) din i = blk (f_view F) din i.
Proof using Hwf Hmap Hx Hfree Hfile.
  apply blk_ext. intros Hne. apply alloc_keep. by destruct (fo_ind _ _ _ _ _ Hfile) as [|[? _]].
Qed.

Lemma alloc_fresh i : 0 <= i < nb -> blk (f_view F) din i <> x.
Proof using Hfile Hfree.
  intros Hi E. apply Hfree. rewrite <- E. by apply (fo_blk _ _ _ _ _ Hfile).
Qed.

Lemma alloc_meta y : y < sb_bmapstart sb -> f_view (f_alloc sb F x) y = f_view F y.
Proof using Hmap Hx.
  intros Hy. pose proof (ds_pos _ _ _ Hmap). assert (sb_bmapstart sb <= BBLOCK x sb).
  { unfold BBLOCK. rewrite BPB_val. zlia. }
  destruct (layout_bitmap sb F ds x (mo_layout _ _ _ Hmap) ltac:(lia)).
  apply f_alloc_other; lia.
Qed.

Lemma alloc_log y :
  y ∈ f_log (f_alloc sb F x) -> y ∈ f_log F \/ is_map sb y \/ y = x.
Proof using Hmap Hx.
  unfold f_alloc. cbn. intros Hy. pose proof (ds_pos _ _ _ Hmap).
  rewrite !elem_of_union, !elem_of_singleton in Hy. destruct Hy as [[| ->]|]; auto.
  right; left. exists x. split; [lia|done].
Qed.

(** A direct block is added. *)
Lemma edit_direct :
  nb < NDIRECT ->
  edit sb ds nb (nb + 1) F din nb (f_alloc sb F x) (set_addr nb x din) (nb + 1).
Proof.
  intros Hnb. pose proof (ds_pos _ _ _ Hmap) as Hds0. destruct Hfile as [O1 O2 O3 O4 O5 O6]. consts.
  assert (Hb : forall i, 0 <= i -> blk (f_view (f_alloc sb F x)) (set_addr nb x din) i =
    if i =? nb then x else blk (f_view F) din i).
  { intros i Hi. rewrite blk_set_addr by lia. by rewrite alloc_blk. }
  assert (Hi : ind_addr (set_addr nb x din) = ind_addr din).
  { rewrite ind_set_addr by lia. test_solver. }
  split; try done; try lia.
  - by apply map_ok_alloc.
  - split; try lia.
    + cbn. by rewrite upd_lenZ.
    + intros i Hr. rewrite Hb by lia. case_test; [apply alloc_self|]. apply alloc_data, O3. lia.
    + intros i Hr. rewrite Hb by lia. test_solver. apply O4. lia.
    + intros i j Hr1 Hr2. rewrite !Hb by lia. repeat case_test; try lia; intros E'.
      * exfalso. symmetry in E'. revert E'. apply alloc_fresh. lia.
      * exfalso. revert E'. apply alloc_fresh. lia.
      * apply O5; [lia..|done].
    + rewrite Hi. destruct O6 as [|[Hd Hne]]; [by left|right]. split; [by apply alloc_data|].
      intros i Hr. rewrite Hb by lia. case_test; [|apply Hne; lia]. intros ->. apply Hfree, Hd.
  - intros i Hr. rewrite Hb by lia. test_solver.
  - intros y Hy _. by apply alloc_keep.
  - intros y Hy. by apply alloc_data.
  - intros i Hr. rewrite Hb by lia. test_solver.
  - intros y Hy. by apply alloc_meta.
  - by eexists.
  - intros y [|[|]]%alloc_log; auto. do 3 right. exists nb. split_and!; [lia..|].
    rewrite Hb by lia. test_solver.
Qed.

(** The indirect block is added, empty. *)
Lemma edit_ind_alloc :
  nb <= NDIRECT -> ind_addr din = 0 ->
  edit sb ds nb nb F din nb (f_alloc sb F x) (set_addr NDIRECT x din) nb.
Proof.
  intros Hnb H0. pose proof (ds_pos _ _ _ Hmap) as Hds0. destruct Hfile as [O1 O2 O3 O4 O5 O6]. consts.
  assert (Hi : ind_addr (set_addr NDIRECT x din) = x).
  { rewrite ind_set_addr by lia. test_solver. }
  assert (Hb : forall i, 0 <= i < MAXFILE ->
    blk (f_view (f_alloc sb F x)) (set_addr NDIRECT x din) i = blk (f_view F) din i).
  { intros i Hr. unfold blk. rewrite Hi, H0. cbn [set_addr di_addrs]. case_test.
    - by rewrite rd_upd_ne by lia.
    - case_test; [done|]. rewrite f_alloc_zero. unfold get32. rewrite !rd_zeros by lia. done. }
  split; try done; try lia.
  - by apply map_ok_alloc.
  - split; try lia.
    + cbn. by rewrite upd_lenZ.
    + intros i Hr. rewrite Hb by lia. by apply alloc_data, O3.
    + intros i Hr. rewrite Hb by lia. by apply O4.
    + intros i j Hr1 Hr2. rewrite !Hb by lia. by apply O5.
    + right. rewrite Hi. split; [apply alloc_self|]. intros i Hr. rewrite Hb by lia. by apply alloc_fresh.
  - intros i Hr. apply Hb. lia.
  - intros y Hy _. by apply alloc_keep.
  - intros y Hy. by apply alloc_data.
  - intros y Hy. by apply alloc_meta.
  - by eexists.
  - right. by rewrite Hi.
  - intros y [|[|]]%alloc_log; auto. do 2 right. left. rewrite Hi.
    destruct (layout_bitmap sb F ds x (mo_layout _ _ _ Hmap) ltac:(lia)) as [[]]. lia.
Qed.

(** Block [nb] is added through the indirect block. *)
Definition f_link : fstore :=
  f_put (f_alloc sb F x) (ind_addr din) (put32 (f_view F (ind_addr din)) (4 * (nb - NDIRECT)) x).

Lemma edit_indirect :
  NDIRECT <= nb < MAXFILE -> ind_addr din <> 0 ->
  edit sb ds nb (nb + 1) F din nb f_link din (nb + 1).
Proof.
  intros Hnb H0. pose proof (ds_pos _ _ _ Hmap) as Hds0. destruct Hfile as [O1 O2 O3 O4 O5 O6]. consts.
  destruct O6 as [|[Hd Hne]]; [done|].
  pose proof (ly_size _ _ _ (mo_layout _ _ _ Hmap)) as Hsz.
  pose proof (ly_int _ _ _ (mo_layout _ _ _ Hmap)) as Hint.
  assert (Hl : lenZ (f_view F (ind_addr din)) = BSIZE) by (apply (fw_view _ Hwf); destruct Hd; lia).
  assert (Hb : forall i, 0 <= i < MAXFILE ->
    blk (f_view f_link) din i = if i =? nb then x else blk (f_view F) din i).
  { intros i Hr. unfold blk. rewrite (proj2 (Z.eqb_neq _ _) H0). unfold f_link.
    rewrite view_put, Z.eqb_refl. case_test; [test_solver|]. destruct (Z.eqb_spec i nb) as [->|].
    - rewrite get32_put32 by lia. rewrite u32_small; [done|]. lia.
    - rewrite get32_put32_ne by lia. done. }
  assert (Ha : file_ok sb ds (f_alloc sb F x) din nb).
  { apply (file_ok_keep sb ds F); [done| |].
    - intros y Hy. by apply alloc_data.
    - intros _. by apply alloc_keep. }
  pose proof (map_ok_alloc sb F ds x Hmap Hwf Hx) as Hmap'.
  pose proof (alloc_data _ Hd) as [Hir Hiu].
  split; try done; try lia.
  - by apply put_map.
  - split; try lia.
    + intros i Hr. rewrite Hb by lia. apply put_data; [done|done|].
      case_test; [apply alloc_self|]. apply alloc_data, O3. lia.
    + intros i Hr. rewrite Hb by lia. test_solver. apply O4. lia.
    + intros i j Hr1 Hr2. rewrite !Hb by lia. repeat case_test; try lia; intros E'.
      * exfalso. symmetry in E'. revert E'. apply alloc_fresh. lia.
      * exfalso. revert E'. apply alloc_fresh. lia.
      * apply O5; [lia..|done].
    + right. split; [apply put_data; [done|done|by apply alloc_data]|].
      intros i Hr. rewrite Hb by lia. case_test; [|apply Hne; lia]. intros ->. apply Hfree, Hd.
  - intros i Hr. rewrite Hb by lia. test_solver.
  - intros y Hy Ho. unfold f_link. rewrite view_put. case_test; [destruct Ho; by left|]. by apply alloc_keep.
  - intros y Hy. apply (put_data sb ds); [done|done|by apply alloc_data].
  - intros i Hr. rewrite Hb by lia. test_solver.
  - intros y Hy. unfold f_link. rewrite (put_meta sb ds) by done. by apply alloc_meta.
  - destruct din. by eexists.
  - intros y [[|[|]]%alloc_log| ->%elem_of_singleton]%elem_of_union; auto 6.
    do 3 right. exists nb. rewrite Hb by lia. split_and!; [lia..|test_solver].
Qed.
End one_block.

(** ** [bmap] *)

(** The inode cache entry [ip] holds [din], and the store is [t]. *)
Definition with_file {S} (t : S) (ip : Z) (din : dinode) (s : fs_t S) : fs_t S :=
  mkFs (fs_sb s) (upd (fs_icache s) ip (set_i_din din (inode_at s ip))) (fs_pid s) (fs_cwd s) t.

(** Entry [ip] of the cache has the contents [din], on the root device. *)
Definition loaded {S} (s : fs_t S) (ip : Z) (din : dinode) : Prop :=
  0 <= ip < lenZ (fs_icache s) /\ i_dev (inode_at s ip) = ROOTDEV /\ i_din (inode_at s ip) = din.

Definition unheld (F : fstore) (din : dinode) (nb : Z) : Prop :=
  forall y, owned F din nb y -> ~ f_is_held F y.

Section with_file.
Context {S : Type}.
Implicit Types (s : fs_t S) (t : S).

Lemma with_file_same s t ip din : loaded s ip din -> with_file t ip din s = with_store t s.
Proof.
  intros (Hip & _ & <-). unfold with_file, with_store. f_equal. apply arr_eq.
  - apply upd_lenZ.
  - intros j Hj. rewrite upd_lenZ in Hj. rewrite rd_upd by lia. test_solver. subst j.
    unfold inode_at. by destruct (rd (fs_icache s) ip).
Qed.

Lemma with_file_at s t ip din :
  0 <= ip < lenZ (fs_icache s) -> inode_at (with_file t ip din s) ip = set_i_din din (inode_at s ip).
Proof. intros. unfold with_file, inode_at at 1. cbn. by rewrite rd_upd_eq. Qed.

Lemma loaded_with_file s t ip din din' : loaded s ip din -> loaded (with_file t ip din' s) ip din'.
Proof.
  intros (Hip & Hd & Hi). unfold loaded. rewrite with_file_at by done.
  cbn. by rewrite upd_lenZ.
Qed.

Lemma with_file_twice s t ip din t' din' :
  0 <= ip < lenZ (fs_icache s) -> with_file t' ip din' (with_file t ip din s) = with_file t' ip din' s.
Proof.
  intros Hip. unfold with_file at 1. rewrite with_file_at by done. unfold with_file. cbn. f_equal.
  unfold upd. by rewrite list_insert_insert_eq.
Qed.

Lemma dmod_with_file s t ip din f (Q : unit -> fs_t S -> Prop) :
  0 <= ip < lenZ (fs_icache s) -> Q tt (with_file t ip (f din) s) -> wp (dmod ip f) (with_file t ip din s) Q.
Proof.
  intros Hip HQ. unfold dmod, imod. apply wp_modify. rewrite with_file_at by done.
  rewrite <- (with_file_twice s t ip din) in HQ by done. unfold with_file at 1 in HQ.
  by rewrite with_file_at in HQ by done.
Qed.
End with_file.

Lemma edit_unheld sb ds lo hi F din nb F' din' nb' :
  map_ok sb F ds -> edit sb ds lo hi F din nb F' din' nb' -> unheld F din nb -> unheld F' din' nb'.
Proof.
  intros Hm E Hn y Hy [h Hh]. rewrite (ed_held _ _ _ _ _ _ _ _ _ _ E) in Hh.
  assert (Hdb : data_block sb F ds y) by (apply (mo_held _ _ _ Hm); by exists h).
  apply (Hn y); [|by exists h]. eapply edit_owned; done.
Qed.

Lemma edit_fbyte sb ds lo hi F din nb F' din' nb' :
  edit sb ds lo hi F din nb F' din' nb' ->
  (forall i, 0 <= i < nb -> f_view F' (blk (f_view F) din i) = f_view F (blk (f_view F) din i)) ->
  (forall i, nb <= i < nb' -> f_view F' (blk (f_view F') din' i) = zeros BSIZE) ->
  forall i, 0 <= i -> fbyte F' din' nb' i = fbyte F din nb i.
Proof.
  intros E Hold Hnew i Hi. pose proof (ed_le _ _ _ _ _ _ _ _ _ _ E). unfold fbyte.
  change BSIZE with 512 in *. repeat case_test; try lia; try done.
  - rewrite (ed_blk _ _ _ _ _ _ _ _ _ _ E), Hold by zlia. done.
  - rewrite Hnew by zlia. apply rd_zeros. zlia.
Qed.

Lemma ds_gt0 sb F ds : map_ok sb F ds -> 0 < ds.
Proof.
  intros Hmap. pose proof (ds_pos _ _ _ Hmap). destruct Hmap as [[] _ _].
  rewrite BPB_val in *. change IPB with 8 in *. zlia.
Qed.

(** The state after [bmap] added a block: see [edit]; the file reads as before. *)
Record grown (sb : superblock) (ds lo hi k : Z) (F : fstore) (din : dinode) (nb : Z)
    (F' : fstore) (din' : dinode) (nb' : Z) : Prop := {
  gw_edit : edit sb ds lo hi F din nb F' din' nb';
  gw_byte : forall i, 0 <= i -> fbyte F' din' nb' i = fbyte F din nb i;
  gw_budget : budget F' k 2;
}.

Lemma map_ok_hold sb F ds h b : map_ok sb F ds -> data_block sb F ds b -> map_ok sb (f_hold F h b) ds.
Proof.
  intros [Hl Hm Hh] Hb. split; [by apply (layout_ext sb F)|done|].
  intros y [h' Hy]. cbn in Hy. apply lookup_insert_Some in Hy as [[_ <-]|[_ Hy]]; [done|]. apply Hh. by exists h'.
Qed.

Section bmap.
Context {S : Type} `{Laws : TxnLaws S rep}.
Variables (sb : superblock) (ds : Z) (ip : Z).
Implicit Types (F : fstore) (s : fs_t S).

(** A block the file has. *)
Lemma bmap_read s F din nb bn (Q : Z -> fs_t S -> Prop) :
  rep (fs_store s) F -> fs_sb s = sb -> map_ok sb F ds -> loaded s ip din ->
  file_ok sb ds F din nb -> unheld F din nb -> 0 <= bn < nb -> buffers F 1 ->
  (forall t, rep t F -> Q (blk (f_view F) din bn) (with_store t s)) ->
  wp (bmap ip bn) s Q.
Proof.
  intros R Hsb Hmap (Hip & Hdev & Hdin) Hfile Hun Hbn Hbg HQ. consts.
  pose proof (fo_range _ _ _ _ _ Hfile) as Hnb.
  destruct (fo_blk _ _ _ _ _ Hfile bn Hbn) as [Hr Hu]. pose proof (ds_gt0 _ _ _ Hmap) as Hds.
  unfold bmap, iget_at. wp_step. wp_step. rewrite Hdin, Hdev. unfold blk in Hr, HQ.
  destruct (Z.ltb_spec bn NDIRECT).
  - rewrite (proj2 (Z.eqb_neq _ _)) by lia. wp_step. destruct s. by apply (HQ fs_store).
  - rewrite u32_small by lia. rewrite (proj2 (Z.ltb_lt _ _)) by lia.
    change (rd (di_addrs din) NDIRECT) with (ind_addr din).
    destruct (Z.eqb_spec (ind_addr din) 0) as [E0|E0]; [lia|]. wp_step. wp_step. wp_step.
    destruct (fo_ind _ _ _ _ _ Hfile) as [|[[Hir Hiu] _]]; [done|].
    eapply wp_bread; [exact R| |apply Hun; by left|done|].
    { eapply layout_home; [apply Hmap|done]. }
    intros h t1 Hh R1. wp_step. eapply wp_data; [exact R1|apply lookup_insert_eq|]. cbn [f_view f_hold].
    wp_step. rewrite (proj2 (Z.eqb_neq _ _)) by lia. wp_step. wp_step.
    eapply wp_relse_clean; [exact R1|done|apply Hbg|]. intros t2 R2. wp_step. by apply HQ.
Qed.

(** The lowest free block, allocated. *)
Lemma balloc_free s F k f (Q : Z -> fs_t S -> Prop) :
  rep (fs_store s) F -> fs_sb s = sb -> map_ok sb F ds -> budget F (k + 2) 1 -> 0 <= k ->
  has_free sb F f -> 1 <= f ->
  (forall x t, ds <= x < sb_size sb -> ~ used sb F x -> rep t (f_alloc sb F x) ->
     has_free sb (f_alloc sb F x) (f - 1) -> Q x (with_store t s)) ->
  wp (balloc ROOTDEV) s Q.
Proof.
  intros R Hsb Hmap Hbg Hk Hfr Hf HQ. destruct (first_free _ _ _ Hfr Hf) as (x & Hx & Hux & Hlow).
  pose proof (tlaw_wf (rep := rep) _ _ R) as Hwf.
  pose proof (free_is_data _ _ _ _ Hmap Hx Hux) as [Hd _].
  eapply (balloc_spec_k sb F ds x); try done; [eapply budget_mono; [done|lia..]|].
  intros t Rt. apply HQ; try done; [lia|]. eapply has_free_alloc; [done|].
  intros y Hy Hu. apply (alloc_used sb ds) in Hu; try done. lia.
Qed.

Lemma bmap_direct s F din nb k f (Q : Z -> fs_t S -> Prop) :
  rep (fs_store s) F -> fs_sb s = sb -> map_ok sb F ds -> loaded s ip din ->
  file_ok sb ds F din nb -> nb < NDIRECT -> budget F (k + 2) 2 -> 0 <= k ->
  has_free sb F f -> 1 <= f ->
  (forall x t F' din', grown sb ds nb (nb + 1) k F din nb F' din' (nb + 1) ->
     x = blk (f_view F') din' nb -> rep t F' -> has_free sb F' (f - 1) ->
     Q x (with_file t ip din' s)) ->
  wp (bmap ip nb) s Q.
Proof.
  intros R Hsb Hmap (Hip & Hdev & Hdin) Hfile Hnb Hbg Hk Hfr Hf HQ. consts.
  pose proof (fo_range _ _ _ _ _ Hfile) as Hr. pose proof (tlaw_wf (rep := rep) _ _ R) as Hwf.
  pose proof (fo_zero _ _ _ _ _ Hfile nb ltac:(lia)) as Hz. unfold blk in Hz.
  unfold bmap, iget_at. wp_step. wp_step. rewrite Hdin, Hdev.
  destruct (Z.ltb_spec nb NDIRECT); [|lia]. rewrite Hz. cbn [Z.eqb].
  wp_step. eapply balloc_free; try done; [eapply budget_mono; [exact Hbg|lia..]|].
  intros x t Hx Hux Rt Hfr'. unfold dmod, imod. wp_step. wp_step. wp_step.
  replace (mkFs _ _ _ _ _) with (with_file t ip (set_addr nb x din) s).
  2: { unfold with_file, inode_at in *. cbn in *. by rewrite Hdin. }
  pose proof (edit_direct sb ds F din nb x Hwf Hmap Hfile Hx Hux Hnb) as E.
  apply (HQ _ _ (f_alloc sb F x)); try done.
  - split; [done| |].
    + apply (edit_fbyte _ _ _ _ _ _ _ _ _ _ E).
      * intros i Hi. apply (alloc_keep sb ds); try done. by apply (fo_blk _ _ _ _ _ Hfile).
      * intros i Hi. replace i with nb by lia. rewrite blk_set_addr by (try apply Hfile; lia).
        rewrite Z.eqb_refl. apply f_alloc_zero.
    + unfold f_alloc. do 2 apply budget_put. replace (k + 1 + 1) with (k + 2) by lia. done.
  - rewrite blk_set_addr by (try apply Hfile; lia). by rewrite Z.eqb_refl.
Qed.

(** The indirect block, allocated if there is none. *)
Lemma bmap_ind s F din nb k f (Q : Z -> fs_t S -> Prop) :
  rep (fs_store s) F -> fs_sb s = sb -> map_ok sb F ds -> loaded s ip din ->
  file_ok sb ds F din nb -> NDIRECT <= nb -> budget F (k + 2) 2 -> 0 <= k ->
  has_free sb F f -> 1 <= f ->
  (forall t F' din', grown sb ds nb nb k F din nb F' din' nb -> ind_addr din' <> 0 ->
     rep t F' -> has_free sb F' (f - 1) -> Q (ind_addr din') (with_file t ip din' s)) ->
  wp (if ind_addr din =? 0 then
        addr <- balloc ROOTDEV ;; dmod ip (set_addr NDIRECT addr) ;;; ret addr
      else ret (ind_addr din)) s Q.
Proof.
  intros R Hsb Hmap Hld Hfile Hnb Hbg Hk Hfr Hf HQ. consts.
  pose proof (tlaw_wf (rep := rep) _ _ R) as Hwf. pose proof (ds_gt0 _ _ _ Hmap) as Hds.
  destruct (Z.eqb_spec (ind_addr din) 0) as [E0|E0].
  - assert (Hnb' : nb <= NDIRECT).
    { destruct (Z.le_gt_cases nb NDIRECT) as [|Hgt]; [done|]. exfalso.
      destruct (fo_blk _ _ _ _ _ Hfile NDIRECT ltac:(lia)) as [Hr _]. unfold blk in Hr.
      rewrite E0 in Hr. cbn in Hr. lia. }
    wp_step. eapply balloc_free; try done; [eapply budget_mono; [exact Hbg|lia..]|].
    intros x t Hx Hux Rt Hfr'. unfold dmod, imod. wp_step. wp_step. wp_step.
    destruct Hld as (Hip & Hdev & Hdin).
    replace (mkFs _ _ _ _ _) with (with_file t ip (set_addr NDIRECT x din) s).
    2: { unfold with_file, inode_at in *. cbn in *. by rewrite Hdin. }
    pose proof (edit_ind_alloc sb ds F din nb x Hwf Hmap Hfile Hx Hux Hnb' E0) as E.
    assert (Hi : ind_addr (set_addr NDIRECT x din) = x).
    { rewrite ind_set_addr by (try apply Hfile; lia). by rewrite Z.eqb_refl. }
    rewrite <- Hi at 1. eapply HQ; try done; [|lia]. split; [done| |].
    + apply (edit_fbyte _ _ _ _ _ _ _ _ _ _ E); [|lia].
      intros i Hi'. apply (alloc_keep sb ds); try done. by apply (fo_blk _ _ _ _ _ Hfile).
    + unfold f_alloc. do 2 apply budget_put. by replace (k + 1 + 1) with (k + 2) by lia.
  - wp_step. replace s with (with_file (fs_store s) ip din s).
    2: { rewrite with_file_same by done. by destruct s. }
    eapply HQ; try done.
    + split; [by apply edit_refl|done|eapply budget_mono; [done|lia..]].
    + destruct Hfr as (X & HX & Hall). exists X. split; [lia|done].
Qed.

(** A block added through the indirect block. *)
Lemma bmap_via_ind s F din nb k f (Q : Z -> fs_t S -> Prop) :
  rep (fs_store s) F -> fs_sb s = sb -> map_ok sb F ds -> ind_addr din <> 0 ->
  file_ok sb ds F din nb -> unheld F din nb -> NDIRECT <= nb < MAXFILE ->
  budget F (k + 3) 2 -> 0 <= k -> has_free sb F f -> 1 <= f ->
  (forall x t F', grown sb ds nb (nb + 1) k F din nb F' din (nb + 1) ->
     x = blk (f_view F') din nb -> rep t F' -> has_free sb F' (f - 1) -> Q x (with_store t s)) ->
  wp (bp <- bread_ ROOTDEV (ind_addr din) ;;
      d <- bp_data bp ;;
      addr <- (if get32 d (4 * (nb - NDIRECT)) =? 0 then
                 addr <- balloc ROOTDEV ;;
                 d <- bp_data bp ;;
                 bp_set bp (put32 d (4 * (nb - NDIRECT)) addr) ;;;
                 log_write_ bp ;;;
                 ret addr
               else ret (get32 d (4 * (nb - NDIRECT)))) ;;
      brelse_ bp ;;;
      ret addr) s Q.
Proof.
  intros R Hsb Hmap E0 Hfile Hun Hnb Hbg Hk Hfr Hf HQ. consts.
  pose proof (tlaw_wf (rep := rep) _ _ R) as Hwf. pose proof (ds_gt0 _ _ _ Hmap) as Hds.
  destruct (fo_ind _ _ _ _ _ Hfile) as [|[[Hir Hiu] Hine]]; [done|].
  pose proof (layout_home _ _ _ _ (mo_layout _ _ _ Hmap) Hir) as Hhome.
  assert (Hz : get32 (f_view F (ind_addr din)) (4 * (nb - NDIRECT)) = 0).
  { pose proof (fo_zero _ _ _ _ _ Hfile nb ltac:(lia)) as Hz. unfold blk in Hz.
    by rewrite (proj2 (Z.ltb_ge _ _)), (proj2 (Z.eqb_neq _ _) E0) in Hz by lia. }
  wp_step. eapply wp_bread; [exact R|done|apply Hun; by left| |].
  { apply (budget_buffers _ (k + 3)); [lia|]. eapply budget_mono; [done|lia..]. }
  intros h t1 Hh R1. wp_step. eapply wp_data; [exact R1|apply lookup_insert_eq|]. cbn [f_view f_hold].
  rewrite Hz. cbn [Z.eqb]. wp_step. wp_step.
  eapply (balloc_free _ (f_hold F h (ind_addr din)) (k + 1) f); try done.
  { by apply map_ok_hold. }
  { apply budget_hold; [done|]. eapply budget_mono; [done|lia..]. }
  { lia. }
  intros x t2 Hx Hux R2 Hfr2. change (f_alloc sb (f_hold F h (ind_addr din)) x)
    with (f_hold (f_alloc sb F x) h (ind_addr din)) in R2, Hfr2.
  wp_step. eapply wp_data; [exact R2|apply lookup_insert_eq|]. cbn [f_view f_hold].
  rewrite (alloc_keep sb ds) by (try done; by split).
  assert (Hbg' : budget (f_alloc sb F x) (k + 1) 2).
  { unfold f_alloc. do 2 apply budget_put. by replace (k + 1 + 1 + 1) with (k + 3) by lia. }
  pose proof (edit_indirect sb ds F din nb x Hwf Hmap Hfile Hx Hux Hnb E0) as E.
  pose proof (ly_int _ _ _ (mo_layout _ _ _ Hmap)). pose proof (ly_size _ _ _ (mo_layout _ _ _ Hmap)).
  assert (Hbx : blk (f_view (f_link sb F din nb x)) din nb = x).
  { unfold blk, f_link. rewrite view_put, Z.eqb_refl, (proj2 (Z.ltb_ge _ _)), (proj2 (Z.eqb_neq _ _) E0) by lia.
    rewrite get32_put32; [apply u32_small; lia|lia|]. rewrite (proj1 (fw_view _ Hwf (ind_addr din) ltac:(lia))). lia. }
  apply (wp_set_log_then _ (f_alloc sb F x) h (ind_addr din)); try done.
  { apply wf_block_put32; [apply Hwf; lia|lia..]. }
  { eapply budget_mono; [done|lia..]. }
  intros t3 R3. apply (HQ _ _ (f_link sb F din nb x)); try done.
  - split; [done| |].
    + apply (edit_fbyte _ _ _ _ _ _ _ _ _ _ E).
      * intros i Hi. unfold f_link. rewrite view_put, (proj2 (Z.eqb_neq _ _)) by (by apply Hine).
        apply (alloc_keep sb ds); try done. by apply (fo_blk _ _ _ _ _ Hfile).
      * intros i Hi. replace i with nb by lia. rewrite Hbx. unfold f_link. rewrite view_put.
        rewrite (proj2 (Z.eqb_neq _ _)) by (intros ->; by apply Hux). apply f_alloc_zero.
    + unfold f_link. apply budget_put. done.
  - eapply has_free_ext; [done|]. intros y Hy Hu.
    apply (put_used sb ds) in Hu; try done. by apply map_ok_alloc.
Qed.

(** [bmap] on the first block past the end. *)
Lemma bmap_append s F din nb k f (Q : Z -> fs_t S -> Prop) :
  rep (fs_store s) F -> fs_sb s = sb -> map_ok sb F ds -> loaded s ip din ->
  file_ok sb ds F din nb -> unheld F din nb -> nb < MAXFILE -> budget F (k + 5) 2 -> 0 <= k ->
  has_free sb F f -> 2 <= f ->
  (forall x t F' din', grown sb ds nb (nb + 1) k F din nb F' din' (nb + 1) ->
     x = blk (f_view F') din' nb -> rep t F' -> has_free sb F' (f - 2) ->
     Q x (with_file t ip din' s)) ->
  wp (bmap ip nb) s Q.
Proof.
  intros R Hsb Hmap Hld Hfile Hun Hnb Hbg Hk Hfr Hf HQ. consts.
  destruct (Z.lt_ge_cases nb NDIRECT) as [Hd|Hd].
  - eapply (bmap_direct s F din nb (k + 3) f); try done; try lia.
    { eapply budget_mono; [done|lia..]. }
    intros x t F' din' [E Hb Hg] Hx Rt Hfr'. apply (HQ x t F' din'); try done.
    + split; [done..|eapply budget_mono; [done|lia..]].
    + destruct Hfr' as (X & HX & Hall). exists X. split; [lia|done].
  - pose proof Hld as (Hip & Hdev & Hdin). pose proof (fo_range _ _ _ _ _ Hfile) as Hr.
    unfold bmap, iget_at. wp_step. wp_step. rewrite Hdin, Hdev.
    rewrite (proj2 (Z.ltb_ge _ _)) by lia. rewrite u32_small by lia.
    rewrite (proj2 (Z.ltb_lt _ _)) by lia. change (rd (di_addrs din) NDIRECT) with (ind_addr din).
    wp_step. eapply (bmap_ind s F din nb (k + 3) f); try done; try lia.
    { eapply budget_mono; [done|lia..]. }
    intros t1 F1 din1 [E1 Hb1 Hg1] Hi1 R1 Hfr1.
    eapply (bmap_via_ind _ F1 din1 nb k (f - 1)); try done; try lia; try apply E1.
    { by eapply edit_unheld. }
    intros x t2 F2 [E2 Hb2 Hg2] Hx R2 Hfr2.
    replace (with_store t2 (with_file t1 ip din1 s)) with (with_file t2 ip din1 s) by done.
    apply (HQ x t2 F2 din1); try done.
    + split; [|intros i Hi; rewrite Hb2, Hb1; done|done].
      eapply edit_trans; [|exact E2]. eapply edit_weaken; [| |exact E1]; lia.
    + destruct Hfr2 as (X & HX & Hall). exists X. split; [lia|done].
Qed.
End bmap.

(** ** [readi] *)

Lemma lenZ_fbytes F din nb off n : 0 <= n -> lenZ (fbytes F din nb off n) = n.
Proof. intros. unfold fbytes. by apply lenZ_tab. Qed.
Lemma rd_fbytes F din nb off n i :
  0 <= i < n -> rd (fbytes F din nb off n) i = fbyte F din nb (off + i).
Proof. intros. unfold fbytes. by apply rd_tab. Qed.

Lemma fbytes_app F din nb off m n :
  0 <= m -> 0 <= n -> fbytes F din nb off (m + n) = fbytes F din nb off m ++ fbytes F din nb (off + m) n.
Proof. intros. unfold fbytes. rewrite seqZ_app by done. apply fmap_app. Qed.

(** The part of the file that lies in one block. *)
Lemma fbytes_block F din nb off m :
  0 <= off -> 0 <= m -> off mod BSIZE + m <= BSIZE -> off + m <= nb * BSIZE ->
  lenZ (f_view F (blk (f_view F) din (off / BSIZE))) = BSIZE ->
  fbytes F din nb off m = slice (f_view F (blk (f_view F) din (off / BSIZE))) (off mod BSIZE) m.
Proof.
  intros Ho Hm Hfit Hnb Hl. change BSIZE with 512 in *.
  apply arr_eq; rewrite lenZ_fbytes by done; [rewrite lenZ_slice; zlia|].
  intros i Hi. rewrite rd_fbytes, rd_slice by zlia. unfold fbyte. change BSIZE with 512.
  rewrite (proj2 (Z.ltb_lt _ _)) by lia. f_equal; [|zlia]. do 2 f_equal. zlia.
Qed.

Section readi.
Context {S : Type} `{Laws : TxnLaws S rep}.
Variables (sb : superblock) (ds ip : Z) (F : fstore) (din : dinode) (nb : Z) (s : fs_t S).
Hypothesis Hsb : fs_sb s = sb.
Hypothesis Hmap : map_ok sb F ds.
Hypothesis Hld : loaded s ip din.
Hypothesis Hfile : file_ok sb ds F din nb.
Hypothesis Hun : unheld F din nb.
Hypothesis Hbuf : buffers F 1.

Lemma readi_loop_spec fuel tot off n acc t :
  rep t F -> 0 <= tot -> 0 <= off -> off + (n - tot) <= nb * BSIZE -> n - tot <= Z.of_nat fuel ->
  wp (readi_loop fuel ip tot off n acc) (with_store t s) (fun r s' =>
    r = acc ++ fbytes F din nb off (n - tot) /\ exists t', s' = with_store t' s /\ rep t' F).
Proof.
  revert tot off acc t. induction fuel as [|fuel IH]; intros tot off acc t R Ht Ho Hnb Hfuel; cbn [readi_loop].
  - rewrite (proj2 (Z.ltb_ge _ _)) by lia. wp_step. unfold fbytes. rewrite seqZ_nil by lia.
    rewrite app_nil_r. eauto.
  - destruct (Z.ltb_spec tot n).
    2: { wp_step. unfold fbytes. rewrite seqZ_nil by lia. rewrite app_nil_r. eauto. }
    set (m := Z.min (n - tot) (BSIZE - off mod BSIZE)).
    assert (Hbn : 0 <= off / BSIZE < nb) by (change BSIZE with 512 in *; zlia).
    assert (Hm : 0 < m /\ m <= n - tot /\ off mod BSIZE + m <= BSIZE) by (change BSIZE with 512 in *; zlia).
    destruct (fo_blk _ _ _ _ _ Hfile _ Hbn) as [Hr _]. pose proof (ds_gt0 _ _ _ Hmap).
    unfold iget_at. wp_step. wp_step. wp_step.
    eapply (bmap_read sb ds ip _ F din nb); try done. intros t1 R1. wp_step.
    destruct Hld as (Hip & Hdev & Hdin). change (inode_at (with_store t s) ip) with (inode_at s ip).
    rewrite Hdev. eapply wp_bread; [exact R1| | |done|].
    { by eapply layout_home; [apply Hmap|]. }
    { apply Hun. right. by exists (off / BSIZE). }
    intros h t2 Hh R2. cbv zeta. fold m. wp_step. eapply wp_data; [exact R2|apply lookup_insert_eq|].
    wp_step. eapply wp_relse_clean; [exact R2|done|apply Hbuf|]. intros t3 R3. cbn [f_view f_hold].
    eapply wp_mono; [apply (IH (tot + m) (off + m) _ t3); try done; lia|].
    intros r s' [-> Hs']. split; [|done]. rewrite <- (app_assoc acc). f_equal.
    rewrite <- (fbytes_block F din nb); [|lia..|].
    + rewrite <- fbytes_app by lia. f_equal. lia.
    + apply (fw_view _ (tlaw_wf (rep := rep) _ _ R)). pose proof (ly_size _ _ _ (mo_layout _ _ _ Hmap)). lia.
Qed.
End readi.

(** ** [writei] *)

(** One block of a file replaced. *)
Lemma fbyte_put sb ds F din nb bn d i :
  file_ok sb ds F din nb -> 0 <= bn < nb -> 0 <= i ->
  fbyte (f_put F (blk (f_view F) din bn) d) din nb i =
  if i / BSIZE =? bn then rd d (i mod BSIZE) else fbyte F din nb i.
Proof.
  intros Hf Hbn Hi. unfold fbyte. change BSIZE with 512.
  rewrite (blk_ext (f_view F) (f_view (f_put F (blk (f_view F) din bn) d))).
  2: { intros Hne. rewrite view_put. case_test; [|done].
       destruct (fo_ind _ _ _ _ _ Hf) as [|[_ Hn]]; [done|]. by destruct (Hn bn Hbn). }
  rewrite view_put. repeat case_test; try done; try zlia; subst; try done.
  destruct (E1). apply (fo_inj _ _ _ _ _ Hf); [zlia|done|done].
Qed.

(** The bytes [off .. off+n) of the file became [g], the others kept their
    value. *)
Definition wrote (off n : Z) (g : Z -> Z) (F : fstore) (din : dinode) (nb : Z)
    (F' : fstore) (din' : dinode) (nb' : Z) : Prop :=
  forall i, 0 <= i -> fbyte F' din' nb' i =
    if (off <=? i) && (i <? off + n) then g i else fbyte F din nb i.

(** The number of blocks that the bytes before [n] take. *)
Definition blocks (n : Z) : Z := (n + BSIZE - 1) / BSIZE.

(** The number of blocks that [r] bytes at [off] lie in. *)
Definition span (off r : Z) : Z := if 0 <? r then blocks (off + r) - off / BSIZE else 0.

Section writei.
Context {S : Type} `{Laws : TxnLaws S rep}.
Variables (sb : superblock) (ds ip : Z).
Implicit Types (F : fstore) (s : fs_t S).

(** [bmap] on a block of the file or on the first one past its end. *)
Lemma bmap_any s F din nb bn k f (Q : Z -> fs_t S -> Prop) :
  rep (fs_store s) F -> fs_sb s = sb -> map_ok sb F ds -> loaded s ip din ->
  file_ok sb ds F din nb -> unheld F din nb -> 0 <= bn <= nb -> bn < MAXFILE ->
  budget F (k + 5) 2 -> 0 <= k -> has_free sb F f -> 2 <= f ->
  (forall t F' din', let nb' := Z.max nb (bn + 1) in
     grown sb ds bn (bn + 1) k F din nb F' din' nb' -> (bn < nb -> din' = din) ->
     rep t F' -> has_free sb F' (f - 2) -> Q (blk (f_view F') din' bn) (with_file t ip din' s)) ->
  wp (bmap ip bn) s Q.
Proof.
  intros R Hsb Hmap Hld Hfile Hun Hbn Hmax Hbg Hk Hfr Hf HQ. cbv zeta in HQ.
  destruct (Z.eq_dec bn nb) as [->|Hne].
  - eapply (bmap_append sb ds ip s F din nb k f); try done; try lia.
    intros x t F' din' Hg -> Rt Hfr'. apply HQ; try done; [by rewrite Z.max_r by lia|lia].
  - eapply (bmap_read sb ds ip s F din nb); try done; try lia.
    { apply (budget_buffers _ (k + 5)); [lia|]. eapply budget_mono; [done|lia..]. }
    intros t Rt. rewrite <- (with_file_same s t ip din) by done. apply HQ; try done.
    + rewrite Z.max_l by lia. split; [|done|eapply budget_mono; [done|lia..]].
      eapply edit_weaken; [| |by apply edit_refl]; [apply Z.le_refl|lia].
    + destruct Hfr as (X & HX & Hall). exists X. split; [lia|done].
Qed.

(** One pass of the loop: [m] bytes go to one block. *)
Lemma writei_pass {A} s F din nb off w k f (K : ST (fs_t S) A) (Q : A -> fs_t S -> Prop) :
  rep (fs_store s) F -> fs_sb s = sb -> map_ok sb F ds -> loaded s ip din ->
  file_ok sb ds F din nb -> unheld F din nb -> 0 <= off <= nb * BSIZE ->
  0 < lenZ w -> off mod BSIZE + lenZ w <= BSIZE -> bytes_ok w -> off + lenZ w <= MAXFILE * BSIZE ->
  budget F (k + 6) 2 -> 0 <= k -> has_free sb F f -> 2 <= f ->
  (forall t F' din', let nb' := Z.max nb (blocks (off + lenZ w)) in
     edit sb ds (off / BSIZE) (blocks (off + lenZ w)) F din nb F' din' nb' ->
     wrote off (lenZ w) (fun i => rd w (i - off)) F din nb F' din' nb' ->
     (blocks (off + lenZ w) <= nb -> din' = din) -> budget F' k 2 -> rep t F' -> has_free sb F' (f - 2) -> wp K (with_file t ip din' s) Q) ->
  wp (b <- bmap ip (off / BSIZE) ;;
      bp <- bread_ ROOTDEV b ;;
      d <- bp_data bp ;;
      bp_set bp (blit d (off mod BSIZE) w) ;;;
      log_write_ bp ;;;
      brelse_ bp ;;;
      K) s Q.
Proof.
  intros R Hsb Hmap Hld Hfile Hun Hoff Hw Hfit Hok Hmax Hbg Hk Hfr Hf HK. cbv zeta in HK.
  assert (Hbn : 0 <= off / BSIZE <= nb /\ off / BSIZE < MAXFILE /\ off / BSIZE + 1 = blocks (off + lenZ w)).
  { unfold blocks. change BSIZE with 512 in *. zlia. }
  destruct Hbn as (Hbn & Hbn' & Hbl). set (bn := off / BSIZE) in *.
  wp_step. eapply (bmap_any s F din nb bn (k + 1) f); try done; try lia.
  { by replace (k + 1 + 5) with (k + 6) by lia. }
  intros t1 F1 din1 nb1 [E1 Hb1 Hg1] Hsame R1 Hfr1.
  assert (Hbn1 : 0 <= bn < nb1) by lia.
  assert (Enb : Z.max nb (blocks (off + lenZ w)) = nb1) by (unfold nb1; lia).
  rewrite Enb in HK. clearbody nb1. rewrite Hbl in *.
  pose proof (ed_file _ _ _ _ _ _ _ _ _ _ E1) as Hf1. pose proof (ed_map _ _ _ _ _ _ _ _ _ _ E1) as Hm1.
  destruct (fo_blk _ _ _ _ _ Hf1 bn Hbn1) as [Hr Hu]. pose proof (ds_gt0 _ _ _ Hmap).
  pose proof (ly_size _ _ _ (mo_layout _ _ _ Hm1)).
  assert (Hwf : wf_block (f_view F1 (blk (f_view F1) din1 bn))) by (apply (tlaw_wf (rep := rep) _ _ R1); lia).
  wp_step. eapply wp_bread; [exact R1| | | |].
  { by eapply layout_home; [apply Hm1|]. }
  { eapply edit_unheld; [exact Hmap|exact E1|done|]. right. by exists bn. }
  { apply (budget_buffers _ (k + 1)); [lia|]. eapply budget_mono; [done|lia..]. }
  intros h t2 Hh R2. wp_step. eapply wp_data; [exact R2|apply lookup_insert_eq|]. cbn [f_view f_hold].
  assert (Hmod : 0 <= off mod BSIZE) by (change BSIZE with 512; zlia).
  eapply (wp_put_relse_then _ F1); [exact R2|done|by apply wf_block_blit| |].
  { eapply budget_mono; [done|lia..]. }
  intros t3 R3.
  eapply (HK t3 (f_put F1 _ _) din1); [| |intros; apply Hsame; lia| |exact R3|].
  - rewrite <- Hbl in *. eapply edit_trans; [exact E1|]. by apply edit_put.
  - intros i Hi. rewrite <- Hb1 by done. unfold bn in *. rewrite (fbyte_put sb ds) by done.
    destruct Hwf as [Hl _]. change BSIZE with 512 in *. repeat case_test; bool_to_prop; try done; try zlia.
    + rewrite rd_blit_in by zlia. f_equal. zlia.
    + rewrite rd_blit_out by zlia. unfold fbyte. change BSIZE with 512. rewrite (proj2 (Z.ltb_lt _ _)) by zlia.
      by rewrite E.
    + rewrite rd_blit_out by zlia. unfold fbyte. change BSIZE with 512. rewrite (proj2 (Z.ltb_lt _ _)) by zlia.
      by rewrite E.
  - by apply budget_put.
  - eapply has_free_ext; [done|]. intros y Hy. by apply (put_used sb ds).
Qed.

Lemma writei_loop_spec fuel s F din nb tot off n src k f (Q : Z -> fs_t S -> Prop) :
  rep (fs_store s) F -> fs_sb s = sb -> map_ok sb F ds -> loaded s ip din ->
  file_ok sb ds F din nb -> unheld F din nb -> 0 <= off <= nb * BSIZE ->
  0 <= tot <= n -> n = lenZ src -> bytes_ok src -> off + (n - tot) <= MAXFILE * BSIZE ->
  n - tot <= Z.of_nat fuel ->
  budget F (k + 6 * span off (n - tot)) 2 -> 0 <= k -> has_free sb F f -> 2 * span off (n - tot) <= f ->
  (forall t F' din', let hi := blocks (off + (n - tot)) in let nb' := Z.max nb hi in
     edit sb ds (off / BSIZE) hi F din nb F' din' nb' ->
     wrote off (n - tot) (fun i => rd src (i - (off - tot))) F din nb F' din' nb' ->
     (hi <= nb -> din' = din) -> budget F' k 2 -> rep t F' -> Q (off + (n - tot)) (with_file t ip din' s)) ->
  wp (writei_loop fuel ip tot off n src) s Q.
Proof.
  revert s F din nb tot off f. induction fuel as [|fuel IH];
    intros s F din nb tot off f R Hsb Hmap Hld Hfile Hun Hoff Htot Hn Hok Hmax Hfuel Hbg Hk Hfr Hf HQ.
  all: assert (Hend : n <= tot -> Q off s).
  1, 3: intros Hge; replace off with (off + (n - tot)) by lia;
    replace s with (with_file (fs_store s) ip din s) by (rewrite with_file_same by done; by destruct s);
    replace (n - tot) with 0 in * by lia;
    assert (Hbl : off / BSIZE <= blocks (off + 0) <= nb) by (unfold blocks; change BSIZE with 512 in *; zlia);
    apply (HQ (fs_store s) F din); rewrite ?Z.max_l by lia;
    [eapply edit_weaken; [apply Z.le_refl|apply Hbl|by apply edit_refl]|
     intros i Hi; test_solver|done|eapply budget_mono; [done|cbn; lia..]|done].
  - cbn [writei_loop]. rewrite (proj2 (Z.ltb_ge _ _)) by lia. wp_step. apply Hend. lia.
  - cbn [writei_loop]. destruct (Z.ltb_spec tot n); [|wp_step; by apply Hend]. clear Hend.
    set (m := Z.min (n - tot) (BSIZE - off mod BSIZE)).
    assert (Hm : 0 < m /\ m <= n - tot /\ off mod BSIZE + m <= BSIZE) by (change BSIZE with 512 in *; zlia).
    assert (Hlen : lenZ (slice src tot m) = m) by (apply lenZ_slice; lia).
    assert (Hsp : 1 <= span off (n - tot) /\
      0 <= span (off + m) (n - (tot + m)) <= span off (n - tot) - 1).
    { unfold span, blocks. change BSIZE with 512 in *. repeat case_test; zlia. }
    assert (Hbl : off / BSIZE <= (off + m) / BSIZE /\ blocks (off + m) <= blocks (off + (n - tot)) /\
      off + m <= blocks (off + m) * BSIZE) by (unfold blocks; change BSIZE with 512 in *; zlia).
    unfold iget_at. wp_step. wp_step. destruct (Hld) as (_ & -> & _). cbv zeta. fold m.
    eapply (writei_pass s F din nb off (slice src tot m) (k + 6 * (span off (n - tot) - 1)) f);
      rewrite ?Hlen; try done; try lia.
    + by apply bytes_ok_slice.
    + by replace (k + 6 * (span off (n - tot) - 1) + 6) with (k + 6 * span off (n - tot)) by lia.
    + cbv zeta. intros t1 F1 din1. set (nb1 := Z.max nb (blocks (off + m))).
      intros E1 W1 S1 B1 R1 Hfr1.
      eapply (IH _ F1 din1 nb1 (tot + m) (off + m) (f - 2)); try done; try lia; try apply E1.
      * by eapply loaded_with_file.
      * by eapply edit_unheld.
      * unfold nb1. change BSIZE with 512 in *. lia.
      * eapply budget_mono; [done|lia..].
      * cbv zeta in *. intros t2 F2 din2. rewrite with_file_twice by apply Hld.
        replace (off + m + (n - (tot + m))) with (off + (n - tot)) by lia.
        replace (Z.max nb1 (blocks (off + (n - tot)))) with (Z.max nb (blocks (off + (n - tot))))
          by (unfold nb1; lia).
        intros E2 W2 S2 B2 R2. apply (HQ t2 F2 din2); try done;
          [| |intros; rewrite S2, S1; [done|unfold nb1; lia..]].
        -- eapply edit_trans; (eapply edit_weaken; [| |eassumption]); lia.
        -- intros i Hi. rewrite W2, W1 by done. repeat case_test; bool_to_prop; try lia; try done.
           ++ f_equal. lia.
           ++ rewrite rd_slice by lia. f_equal. lia.
Qed.
End writei.
