(* ===== verification/FsIo.v ===== *)
(** * On-disk inodes, [iupdate], and the correctness of [readi] and [writei]

    The codec of [struct dinode], the specification of [iupdate], and the
    theorems about a whole read or write of a file: what the call returns, what
    the file holds afterwards, and that neither another file nor another inode
    changes. *)

From S2P Require Import Prelude Bytes Store Log Txn Fs FsBlock FsFile.

(** ** The codec of an inode *)

Record dinode_ok (x : dinode) : Prop := {
  do_type : -32768 <= di_type x < 32768;
  do_major : -32768 <= di_major x < 32768;
  do_minor : -32768 <= di_minor x < 32768;
  do_nlink : -32768 <= di_nlink x < 32768;
  do_size : 0 <= di_size x < 4294967296;
  do_addrs : lenZ (di_addrs x) = NDIRECT + 1;
  do_words : Forall (fun a => 0 <= a < 4294967296) (di_addrs x);
}.

Lemma s16_u16 z : -32768 <= z < 32768 -> s16 (u16 z) = z.
Proof. intros. unfold s16, u16. zlia. Qed.

Lemma rd_put_words_out d off ws i :
  0 <= off -> off + 4 * lenZ ws <= lenZ d -> 0 <= i -> i < off \/ off + 4 * lenZ ws <= i ->
  rd (put_words d off ws) i = rd d i.
Proof.
  revert d off. induction ws as [|w ws IH]; intros d off Ho Hl Hi Hout; [done|]. cbn [put_words].
  assert (E : lenZ (w :: ws) = lenZ ws + 1) by (unfold lenZ; cbn; lia).
  pose proof (lenZ_nonneg ws). rewrite IH; rewrite ?lenZ_put32; try lia.
  unfold put32. rewrite rd_blit_out by (rewrite ?lenZ_le32; lia). done.
Qed.

Lemma dinode_put_wf d o x :
  wf_block d -> 0 <= o -> o + SIZEOF_DINODE <= BSIZE -> lenZ (di_addrs x) = NDIRECT + 1 ->
  wf_block (dinode_put d o x).
Proof.
  intros Hd Ho Hfit Hl. unfold dinode_put. change SIZEOF_DINODE with 64 in *. change NDIRECT with 12 in *.
  apply put_words_wf; [|lia|rewrite Hl; lia]. apply wf_block_put32; [|lia|lia].
  unfold put16. repeat apply wf_block_blit; auto with xv6; rewrite ?lenZ_le16; lia.
Qed.

(** Blocks keep their length; [lenB] proves it of a chain of writes. *)
Lemma len_put16 d o v : lenZ d = 512 -> 0 <= o -> o + 2 <= 512 -> lenZ (put16 d o v) = 512.
Proof. intros. rewrite lenZ_put16; lia. Qed.
Lemma len_put32 d o v : lenZ d = 512 -> 0 <= o -> o + 4 <= 512 -> lenZ (put32 d o v) = 512.
Proof. intros. rewrite lenZ_put32; lia. Qed.
Ltac lenB := repeat first [apply len_put16 | apply len_put32]; lia.

Lemma rd_put16_out d o v i :
  lenZ d = 512 -> 0 <= o -> o + 2 <= 512 -> 0 <= i -> i < o \/ o + 2 <= i -> rd (put16 d o v) i = rd d i.
Proof. intros. unfold put16. apply rd_blit_out; rewrite ?lenZ_le16; lia. Qed.
Lemma rd_put32_out d o v i :
  lenZ d = 512 -> 0 <= o -> o + 4 <= 512 -> 0 <= i -> i < o \/ o + 4 <= i -> rd (put32 d o v) i = rd d i.
Proof. intros. unfold put32. apply rd_blit_out; rewrite ?lenZ_le32; lia. Qed.

(** Only the 64 bytes of the inode change. *)
Lemma rd_dinode_put_out d o x i :
  lenZ d = BSIZE -> 0 <= o -> o + SIZEOF_DINODE <= BSIZE -> lenZ (di_addrs x) = NDIRECT + 1 ->
  0 <= i -> i < o \/ o + SIZEOF_DINODE <= i -> rd (dinode_put d o x) i = rd d i.
Proof.
  intros Hd Ho Hfit Hl Hi Hout. unfold dinode_put. cbv zeta.
  change SIZEOF_DINODE with 64 in *. change NDIRECT with 12 in *. change BSIZE with 512 in *.
  rewrite rd_put_words_out; [|lia| |lia|lia].
  - rewrite rd_put32_out by first [lia|lenB]. by rewrite !rd_put16_out by first [lia|lenB].
  - rewrite Hl. etrans; [|apply Z.eq_le_incl; symmetry; lenB]. lia.
Qed.

(** The fields read back. *)
Lemma get16_ext d d' o :
  rd d o = rd d' o -> rd d (o + 1) = rd d' (o + 1) -> get16 d o = get16 d' o.
Proof. unfold get16. by intros -> ->. Qed.
Lemma get32_ext d d' o :
  (forall i, o <= i < o + 4 -> rd d i = rd d' i) -> get32 d o = get32 d' o.
Proof. intros H. unfold get32. by rewrite !H by lia. Qed.

Lemma dinode_get_ext d d' o :
  (forall i, o <= i < o + SIZEOF_DINODE -> rd d i = rd d' i) -> dinode_get d o = dinode_get d' o.
Proof.
  intros H. change SIZEOF_DINODE with 64 in H. unfold dinode_get.
  f_equal; try (f_equal; apply get16_ext; apply H; lia).
  - apply get32_ext. intros i Hi. apply H. lia.
  - apply list_fmap_ext. intros k j Hj. apply lookup_seqZ in Hj as [-> Hj]. change NDIRECT with 12 in Hj.
    apply get32_ext. intros i Hi. apply H. lia.
Qed.

Lemma get16_put16_ne d o v i :
  lenZ d = 512 -> 0 <= o -> o + 2 <= 512 -> 0 <= i -> i + 2 <= o \/ o + 2 <= i ->
  get16 (put16 d o v) i = get16 d i.
Proof. intros. apply get16_ext; apply rd_put16_out; lia. Qed.
Lemma get16_put32_ne d o v i :
  lenZ d = 512 -> 0 <= o -> o + 4 <= 512 -> 0 <= i -> i + 2 <= o \/ o + 4 <= i ->
  get16 (put32 d o v) i = get16 d i.
Proof. intros. apply get16_ext; apply rd_put32_out; lia. Qed.

Lemma dinode_get_put d o x :
  lenZ d = BSIZE -> 0 <= o -> o + SIZEOF_DINODE <= BSIZE -> dinode_ok x ->
  dinode_get (dinode_put d o x) o = x.
Proof.
  intros Hd Ho Hfit [H1 H2 H3 H4 H5 H6 H7].
  change SIZEOF_DINODE with 64 in *. change NDIRECT with 12 in *. change BSIZE with 512 in *.
  unfold dinode_get, dinode_put. cbv zeta. destruct x as [ty ma mi nl sz ad].
  cbn [di_type di_major di_minor di_nlink di_size di_addrs] in *.
  set (d0 := put16 d o ty). set (d1 := put16 d0 (o + 2) ma). set (d2 := put16 d1 (o + 4) mi).
  set (d3 := put16 d2 (o + 6) nl). set (d4 := put32 d3 (o + 8) sz).
  assert (L0 : lenZ d0 = 512) by (unfold d0; lenB). assert (L1 : lenZ d1 = 512) by (unfold d1; lenB).
  assert (L2 : lenZ d2 = 512) by (unfold d2; lenB). assert (L3 : lenZ d3 = 512) by (unfold d3; lenB).
  assert (L4 : lenZ d4 = 512) by (unfold d4; lenB).
  assert (Hw : forall i, 0 <= i < o + 12 -> rd (put_words d4 (o + 12) ad) i = rd d4 i).
  { intros i Hi. apply rd_put_words_out; lia. }
  assert (Hh : forall i, 0 <= i -> i + 2 <= o + 8 -> get16 (put_words d4 (o + 12) ad) i = get16 d3 i).
  { intros i Hi Hi'. etrans; [apply get16_ext; apply Hw; lia|]. unfold d4. apply get16_put32_ne; lia. }
  f_equal.
  - rewrite Hh by lia. unfold d3. rewrite get16_put16_ne by lia. unfold d2.
    rewrite get16_put16_ne by lia. unfold d1. rewrite get16_put16_ne by lia. unfold d0.
    rewrite get16_put16 by lia. by apply s16_u16.
  - rewrite Hh by lia. unfold d3. rewrite get16_put16_ne by lia. unfold d2.
    rewrite get16_put16_ne by lia. unfold d1.
    rewrite get16_put16 by lia. by apply s16_u16.
  - rewrite Hh by lia. unfold d3. rewrite get16_put16_ne by lia. unfold d2.
    rewrite get16_put16 by lia. by apply s16_u16.
  - rewrite Hh by lia. unfold d3. rewrite get16_put16 by lia. by apply s16_u16.
  - etrans; [apply get32_ext; intros i Hi; apply Hw; lia|]. unfold d4. rewrite get32_put32 by lia.
    by apply u32_small.
  - change (NDIRECT + 1) with 13. apply arr_eq; rewrite lenZ_tab by lia; [done|]. intros i Hi. rewrite rd_tab by done.
    rewrite get32_put_words by (change BSIZE with 512; lia). apply u32_small.
    apply (rd_Forall (fun a => 0 <= a < 4294967296)); [done|]. cbn. lia.
Qed.

(** The inode [inum] on the disk. *)
Definition dinode_at (sb : superblock) (F : fstore) (inum : Z) : dinode :=
  dinode_get (f_view F (IBLOCK inum sb)) (inum mod IPB * SIZEOF_DINODE).

(** The store after [iupdate] of inode [inum]. *)
Definition f_iput (sb : superblock) (F : fstore) (inum : Z) (x : dinode) : fstore :=
  f_put F (IBLOCK inum sb)
    (dinode_put (f_view F (IBLOCK inum sb)) (inum mod IPB * SIZEOF_DINODE) x).

Lemma inode_slot i : 0 <= i mod IPB * SIZEOF_DINODE /\ i mod IPB * SIZEOF_DINODE + SIZEOF_DINODE <= BSIZE.
Proof. change IPB with 8. change SIZEOF_DINODE with 64. change BSIZE with 512. zlia. Qed.

Section iput_effect.
Variables (sb : superblock) (ds : Z) (F : fstore) (inum : Z) (x : dinode).
Hypothesis Hmap : map_ok sb F ds.
Hypothesis Hwf : fstore_wf F.
Hypothesis Hi : 0 <= inum < sb_ninodes sb.

Lemma iblock_range : f_home F (IBLOCK inum sb) /\ IBLOCK inum sb < sb_bmapstart sb /\ IBLOCK inum sb < ds.
Proof.
  pose proof (ds_pos _ _ _ Hmap). destruct Hmap as [[] _ _]. unfold f_home, home, IBLOCK.
  rewrite BPB_val in *. change IPB with 8 in *. split; [split|]; zlia.
Qed.

Lemma iblock_unheld : ~ f_is_held F (IBLOCK inum sb).
Proof. intros [Hr _]%(mo_held _ _ _ Hmap). pose proof iblock_range. lia. Qed.

Lemma iput_view y : y <> IBLOCK inum sb -> f_view (f_iput sb F inum x) y = f_view F y.
Proof. intros Hy. unfold f_iput. by rewrite view_put, (proj2 (Z.eqb_neq _ _)). Qed.

Lemma iput_used y : 0 <= y < sb_size sb -> used sb (f_iput sb F inum x) y <-> used sb F y.
Proof.
  intros Hy. unfold used, bit_of. rewrite iput_view; [done|].
  destruct iblock_range as (_ & Hlt & _). unfold BBLOCK. rewrite BPB_val. zlia.
Qed.

Lemma iput_map : map_ok sb (f_iput sb F inum x) ds.
Proof.
  pose proof (ds_pos _ _ _ Hmap). destruct Hmap as [Hly Hm Hh]. pose proof (ly_size _ _ _ Hly). split.
  - by apply (layout_ext sb F).
  - intros y Hy. apply iput_used; [lia|by apply Hm].
  - intros y Hy. apply Hh in Hy as [Hr Hu]. split; [done|]. apply iput_used; [lia|done].
Qed.

Lemma iput_file d2 n2 :
  file_ok sb ds F d2 n2 -> file_ok sb ds (f_iput sb F inum x) d2 n2 /\
  forall i, 0 <= i -> fbyte (f_iput sb F inum x) d2 n2 i = fbyte F d2 n2 i.
Proof.
  intros Hf. destruct iblock_range as (_ & _ & Hlt). pose proof (ds_pos _ _ _ Hmap).
  assert (Hind : ind_addr d2 <> 0 -> f_view (f_iput sb F inum x) (ind_addr d2) = f_view F (ind_addr d2)).
  { intros Hne. apply iput_view. destruct (fo_ind _ _ _ _ _ Hf) as [|[[? _] _]]; [done|lia]. }
  split.
  - apply (file_ok_keep sb ds F); try done. intros y [Hr Hu]. apply iput_used; [lia|done].
  - intros i Hi'. unfold fbyte. rewrite (blk_ext (f_view F)) by done. case_test; [|done].
    rewrite iput_view; [done|]. change BSIZE with 512 in *.
    destruct (fo_blk _ _ _ _ _ Hf (i / 512) ltac:(zlia)). lia.
Qed.

(** The inode reads back, the others are unchanged. *)
Lemma iput_same : dinode_ok x -> dinode_at sb (f_iput sb F inum x) inum = x.
Proof.
  intros Hx. unfold dinode_at, f_iput. rewrite view_put, Z.eqb_refl.
  pose proof (inode_slot inum). apply dinode_get_put; try done; try lia.
  apply (fw_view _ Hwf), iblock_range.
Qed.

Lemma iput_other j :
  lenZ (di_addrs x) = NDIRECT + 1 -> 0 <= j -> j <> inum ->
  dinode_at sb (f_iput sb F inum x) j = dinode_at sb F j.
Proof.
  intros Hl Hj Hne. unfold dinode_at, f_iput. rewrite view_put. case_test; [|done]. rewrite E.
  apply dinode_get_ext. intros i Hi'. pose proof (inode_slot inum). pose proof (inode_slot j).
  apply rd_dinode_put_out; try done; try lia; [apply (fw_view _ Hwf), iblock_range|].
  unfold IBLOCK in E. change IPB with 8 in *. change SIZEOF_DINODE with 64 in *. zlia.
Qed.
End iput_effect.

(** ** Files *)

(** Inode [inum] is [din], in memory and on the disk, with the blocks that its
    size needs. *)
Record valid_file (sb : superblock) (ds : Z) (F : fstore) (inum : Z) (din : dinode) : Prop := {
  vf_map : map_ok sb F ds;
  vf_inum : 0 <= inum < sb_ninodes sb;
  vf_din : dinode_ok din;
  vf_disk : dinode_at sb F inum = din;
  vf_file : file_ok sb ds F din (blocks (di_size din));
}.

(** The contents of the file. *)
Definition contents (F : fstore) (din : dinode) : bytes :=
  fbytes F din (blocks (di_size din)) 0 (di_size din).

Lemma lenZ_contents F din : 0 <= di_size din -> lenZ (contents F din) = di_size din.
Proof. apply lenZ_fbytes. Qed.
Lemma rd_contents F din i :
  0 <= i < di_size din -> rd (contents F din) i = fbyte F din (blocks (di_size din)) i.
Proof. apply (rd_fbytes F din (blocks (di_size din)) 0). Qed.

Lemma contents_ext F F' din :
  (forall i, 0 <= i -> fbyte F' din (blocks (di_size din)) i = fbyte F din (blocks (di_size din)) i) ->
  contents F' din = contents F din.
Proof.
  intros H. apply list_fmap_ext. intros k i [-> Hi]%lookup_seqZ. apply H. lia.
Qed.

Lemma slice_contents F din off n :
  0 <= di_size din -> 0 <= off <= di_size din -> 0 <= n ->
  slice (contents F din) off n = fbytes F din (blocks (di_size din)) off (Z.min n (di_size din - off)).
Proof.
  intros Hs Ho Hn. set (m := Z.min n (di_size din - off)).
  assert (Hm : 0 <= m <= di_size din - off) by lia.
  assert (E : slice (contents F din) off n = slice (contents F din) off m).
  { unfold slice. destruct (Z.le_gt_cases n (di_size din - off)); [by replace m with n by lia|].
    rewrite !take_ge; [done| |]; rewrite length_drop; pose proof (lenZ_contents F din Hs) as Hl;
      unfold lenZ in Hl; lia. }
  rewrite E. apply arr_eq; rewrite lenZ_slice, ?lenZ_fbytes; rewrite ?lenZ_contents; try lia.
  intros i Hi. rewrite rd_slice, rd_contents, rd_fbytes by lia. done.
Qed.

(** A write makes [blit] of the contents. *)
Lemma wrote_contents F din F' din' off src :
  0 <= off <= di_size din -> di_size din' = Z.max (di_size din) (off + lenZ src) ->
  wrote off (lenZ src) (fun i => rd src (i - off)) F din (blocks (di_size din))
    F' din' (blocks (di_size din')) ->
  contents F' din' = blit (contents F din) off src.
Proof.
  intros Ho Hs Hw. pose proof (lenZ_nonneg src).
  assert (Hl : lenZ (contents F din) = di_size din) by (apply lenZ_contents; lia).
  apply arr_eq; rewrite lenZ_contents by lia; [rewrite lenZ_blit_ext; lia|].
  intros i Hi. rewrite rd_contents, Hw, rd_blit_ext by lia. case_test; [done|rewrite rd_contents; [done|lia]..].
Qed.

(** The addresses of an inode fit in their words. *)
Lemma file_ok_words sb ds F din nb :
  map_ok sb F ds -> file_ok sb ds F din nb -> Forall (fun a => 0 <= a < 4294967296) (di_addrs din).
Proof.
  intros Hmap Hf. consts. pose proof (ds_pos _ _ _ Hmap). pose proof (fo_len _ _ _ _ _ Hf) as Hl.
  pose proof (ly_int _ _ _ (mo_layout _ _ _ Hmap)).
  apply Forall_lookup. intros i a Ha. pose proof (lookup_lt_Some _ _ _ Ha).
  assert (Ea : rd (di_addrs din) (Z.of_nat i) = a) by (apply rd_lookup; [lia|by rewrite Nat2Z.id]).
  unfold lenZ in Hl. destruct (Z.eq_dec (Z.of_nat i) NDIRECT) as [E|E].
  - rewrite E in Ea. fold (ind_addr din) in Ea.
    destruct (fo_ind _ _ _ _ _ Hf) as [|[[? _] _]]; lia.
  - assert (Eb : blk (f_view F) din (Z.of_nat i) = a).
    { unfold blk. rewrite (proj2 (Z.ltb_lt _ _)) by lia. done. }
    destruct (Z.lt_ge_cases (Z.of_nat i) nb).
    + destruct (fo_blk _ _ _ _ _ Hf (Z.of_nat i) ltac:(lia)). lia.
    + rewrite (fo_zero _ _ _ _ _ Hf) in Eb by lia. lia.
Qed.

(** Two files with no block in common. *)
Definition apart (F : fstore) (d1 d2 : dinode) : Prop :=
  forall y, owned F d1 (blocks (di_size d1)) y -> ~ owned F d2 (blocks (di_size d2)) y.

(** [src] was written at offset [off] of the file: its contents and its inode,
    in memory and on the disk, are as they should be; every other inode and
    every file that has no block in common with it are unchanged; the log got
    only blocks of the free map, the indirect block, the blocks of the file that
    [src] covers and the block of the inode. *)
Record written (sb : superblock) (ds : Z) (F : fstore) (inum : Z) (din : dinode) (src : bytes) (off : Z)
    (F' : fstore) (din' : dinode) : Prop := {
  wr_valid : valid_file sb ds F' inum din';
  wr_contents : contents F' din' = blit (contents F din) off src;
  wr_din : exists addrs, din' = mkDinode (di_type din) (di_major din) (di_minor din)
    (di_nlink din) (Z.max (di_size din) (off + lenZ src)) addrs;
  wr_inodes : forall j, 0 <= j < sb_ninodes sb -> j <> inum -> dinode_at sb F' j = dinode_at sb F j;
  wr_other : forall j d2, j <> inum -> valid_file sb ds F j d2 -> apart F d2 din ->
    valid_file sb ds F' j d2 /\ contents F' d2 = contents F d2;
  wr_unheld : unheld F' din' (blocks (di_size din'));
  wr_held : f_held F' = f_held F;
  wr_ops : f_ops F' = f_ops F;
  wr_log : forall y, y ∈ f_log F' -> y ∈ f_log F \/ is_map sb y \/
    (ind_addr din' <> 0 /\ y = ind_addr din') \/ y = IBLOCK inum sb \/
    exists i, off / BSIZE <= i < blocks (off + lenZ src) /\ y = blk (f_view F') din' i;
}.

Section edits.
Variables (sb : superblock) (ds : Z) (F : fstore) (inum : Z) (din : dinode) (lo hi nb' : Z)
  (F' : fstore) (din' : dinode).
Abbreviation nb := (blocks (di_size din)).
Hypothesis Hmap : map_ok sb F ds.
Hypothesis E : edit sb ds lo hi F din nb F' din' nb'.

Lemma edit_dinode_at j : 0 <= j < sb_ninodes sb -> dinode_at sb F' j = dinode_at sb F j.
Proof.
  intros Hj. unfold dinode_at. rewrite (ed_meta _ _ _ _ _ _ _ _ _ _ E); [done|].
  apply (iblock_range _ _ _ _ Hmap Hj).
Qed.

Lemma edit_valid_other j d2 :
  valid_file sb ds F j d2 -> apart F d2 din ->
  valid_file sb ds F' j d2 /\ contents F' d2 = contents F d2.
Proof.
  intros [V1 V2 V3 V4 V5] Ha. destruct (edit_other _ _ _ _ _ _ _ _ _ _ _ _ E V5 Ha) as [Hf Hb].
  split; [|by apply contents_ext]. split; try done; [apply E|]. by rewrite edit_dinode_at.
Qed.

End edits.

(** A write within the file. *)
Lemma written_within sb ds F inum din src off F' :
  let nb := blocks (di_size din) in
  valid_file sb ds F inum din -> unheld F din nb -> 0 <= off -> off + lenZ src <= di_size din ->
  edit sb ds (off / BSIZE) (blocks (off + lenZ src)) F din nb F' din nb ->
  wrote off (lenZ src) (fun i => rd src (i - off)) F din nb F' din nb ->
  written sb ds F inum din src off F' din.
Proof.
  intros nb [V1 V2 V3 V4 V5] Hun Ho Hfit E W. pose proof (lenZ_nonneg src). split.
  - split; try done; try apply E. by rewrite (edit_dinode_at _ _ _ _ _ _ _ _ _ V1 E).
  - apply wrote_contents; [lia|lia|done].
  - rewrite Z.max_l by lia. destruct din. by eexists.
  - intros j Hj _. by eapply edit_dinode_at.
  - intros j d2 _. by eapply edit_valid_other.
  - by eapply edit_unheld.
  - apply (ed_held _ _ _ _ _ _ _ _ _ _ E).
  - apply (ed_ops _ _ _ _ _ _ _ _ _ _ E).
  - intros y [|[|[|(i & Hi & _ & Hy)]]]%(ed_log _ _ _ _ _ _ _ _ _ _ E); auto. do 4 right. by exists i.
Qed.

Lemma iput_valid_other sb ds F inum x j d2 :
  fstore_wf F -> 0 <= inum < sb_ninodes sb -> lenZ (di_addrs x) = NDIRECT + 1 -> j <> inum ->
  valid_file sb ds F j d2 ->
  valid_file sb ds (f_iput sb F inum x) j d2 /\ contents (f_iput sb F inum x) d2 = contents F d2.
Proof.
  intros Hwf Hi Hl Hne [V1 V2 V3 V4 V5].
  destruct (iput_file sb ds F inum x V1 Hi d2 _ V5) as [Hf Hb].
  split; [|by apply contents_ext]. split; try done; [by apply iput_map|].
  by rewrite (iput_other sb ds) by (try done; lia).
Qed.

(** A write that makes the file larger, followed by [iupdate]. *)
Lemma written_grow sb ds F inum din src off F' din' :
  let end_ := off + lenZ src in let din2 := set_size end_ din' in
  valid_file sb ds F inum din -> unheld F din (blocks (di_size din)) -> fstore_wf F' ->
  0 <= off <= di_size din -> di_size din < end_ <= MAXFILE * BSIZE ->
  edit sb ds (off / BSIZE) (blocks end_) F din (blocks (di_size din)) F' din' (blocks end_) ->
  wrote off (lenZ src) (fun i => rd src (i - off)) F din (blocks (di_size din)) F' din' (blocks end_) ->
  written sb ds F inum din src off (f_iput sb F' inum din2) din2.
Proof.
  intros end_ din2 V Hun Hwf Ho He E W. pose proof V as [V1 V2 V3 V4 V5]. consts.
  destruct (ed_din _ _ _ _ _ _ _ _ _ _ E) as [addrs Ed].
  pose proof (ed_file _ _ _ _ _ _ _ _ _ _ E) as Hf'. pose proof (ed_map _ _ _ _ _ _ _ _ _ _ E) as Hm'.
  assert (Hf2 : file_ok sb ds F' din2 (blocks end_)) by (destruct Hf'; by split).
  destruct (iput_file sb ds F' inum din2 Hm' V2 din2 _ Hf2) as [Hf3 Hb3].
  assert (Hok : dinode_ok din2).
  { destruct V3. unfold din2. rewrite Ed. split; cbn; try done; [lia|rewrite <- (fo_len _ _ _ _ _ Hf'); by rewrite Ed|].
    pose proof (file_ok_words _ _ _ _ _ Hm' Hf2) as Hw. unfold din2 in Hw. by rewrite Ed in Hw. }
  assert (Hl : lenZ (di_addrs din2) = NDIRECT + 1) by apply Hok.
  assert (Hblk : forall i, blk (f_view (f_iput sb F' inum din2)) din2 i = blk (f_view F') din' i).
  { intros i. change (blk (f_view F') din' i) with (blk (f_view F') din2 i). apply blk_ext. intros Hne.
    apply iput_view. destruct (iblock_range _ _ _ _ Hm' V2) as (_ & _ & Hlt).
    destruct (fo_ind _ _ _ _ _ Hf2) as [|[[? _] _]]; [done|lia]. }
  split.
  - split; try done; [by apply iput_map|]. by apply (iput_same sb ds).
  - apply wrote_contents; [lia|cbn; lia|]. intros i Hi. cbn [di_size din2 set_size].
    rewrite Hb3 by done. by apply W.
  - unfold din2. rewrite Ed. cbn. rewrite Z.max_r by lia. by eexists.
  - intros j Hj Hne. rewrite (iput_other sb ds) by (try done; lia). by eapply edit_dinode_at.
  - intros j d2 Hne V2' Ha. destruct (edit_valid_other _ _ _ _ _ _ _ _ _ V1 E j d2 V2' Ha) as [V3' <-].
    by apply iput_valid_other.
  - intros y Ho'. change (f_is_held (f_iput sb F' inum din2) y) with (f_is_held F' y).
    eapply (edit_unheld sb ds); [exact V1|exact E|done|]. unfold owned in *.
    change (blocks (di_size din2)) with (blocks end_) in Ho'. change (ind_addr din2) with (ind_addr din') in Ho'.
    destruct Ho' as [|(i & Hi & ->)]; [by left|right; exists i]. by rewrite Hblk.
  - apply (ed_held _ _ _ _ _ _ _ _ _ _ E).
  - apply (ed_ops _ _ _ _ _ _ _ _ _ _ E).
  - intros y [Hy| ->%elem_of_singleton]%elem_of_union; [|auto].
    apply (ed_log _ _ _ _ _ _ _ _ _ _ E) in Hy as [|[|[|(i & Hi & _ & Hy)]]]; auto.
    do 4 right. exists i. by rewrite Hblk.
Qed.

Section io.
Context {S : Type} `{Laws : TxnLaws S rep}.
Implicit Types (F : fstore) (s : fs_t S).

Lemma iupdate_spec s F ds ip din (Q : unit -> fs_t S -> Prop) :
  let inum := i_inum (inode_at s ip) in
  rep (fs_store s) F -> map_ok (fs_sb s) F ds -> loaded s ip din -> 0 <= inum < sb_ninodes (fs_sb s) ->
  lenZ (di_addrs din) = NDIRECT + 1 -> budget F 1 1 ->
  (forall t, rep t (f_iput (fs_sb s) F inum din) -> Q tt (with_store t s)) ->
  wp (iupdate ip) s Q.
Proof.
  intros inum R Hmap (Hip & Hdev & Hdin) Hi Hl Hbg HQ.
  pose proof (tlaw_wf (rep := rep) _ _ R) as Hwf.
  pose proof (iblock_range _ _ _ _ Hmap Hi) as (Hhome & _).
  unfold iupdate, get_sb, iget_at. wp_step. wp_step. wp_step. wp_step. rewrite Hdev, Hdin. fold inum.
  wp_step. eapply wp_bread; [exact R|exact Hhome|by eapply iblock_unheld| |].
  { by apply (budget_buffers _ 1). }
  intros h t1 Hh R1. wp_step. eapply wp_data; [exact R1|apply lookup_insert_eq|]. cbn [f_view f_hold].
  pose proof (inode_slot inum) as Hslot.
  eapply (wp_put_relse _ F); [exact R1|done| | |].
  - apply dinode_put_wf; try done; try lia. apply Hwf, Hhome.
  - eapply budget_mono; [done|lia..].
  - intros t2 R2. by apply HQ.
Qed.

End io.

Section reads.
Context {S : Type} `{Laws : TxnLaws S rep}.
Context (dev_read : Z -> option (Z -> Z -> ST (fs_t S) (Z * bytes))).
Implicit Types (F : fstore) (s : fs_t S).

(** [readi] of a plain file or a directory. *)
Lemma readi_spec s F ds ip din off n (Q : Z * bytes -> fs_t S -> Prop) :
  rep (fs_store s) F -> map_ok (fs_sb s) F ds -> loaded s ip din ->
  file_ok (fs_sb s) ds F din (blocks (di_size din)) -> unheld F din (blocks (di_size din)) ->
  buffers F 1 -> di_type din <> T_DEV -> 0 <= di_size din < UINT_LIM ->
  0 <= off < UINT_LIM -> 0 <= n < UINT_LIM ->
  (forall t, rep t F ->
     Q (if (di_size din <? off) || (UINT_LIM <=? off + n) then (-1, [])
        else let data := slice (contents F din) off n in (lenZ data, data)) (with_store t s)) ->
  wp (readi dev_read ip off n) s Q.
Proof.
  intros R Hmap Hld Hfile Hun Hbuf Hty Hsz Ho Hn HQ. pose proof Hld as (Hip & Hdev & Hdin).
  unfold readi, iget_at. wp_step. wp_step. rewrite Hdin, (proj2 (Z.eqb_neq _ _) Hty).
  assert (Hs : with_store (fs_store s) s = s) by (by destruct s). unfold UINT_LIM in Hsz, Ho, Hn, HQ.
  destruct (Z.ltb_spec (di_size din) off); cbn [orb] in HQ |- *.
  { wp_step. rewrite <- Hs. by apply HQ. }
  destruct (Z.leb_spec 4294967296 (off + n)).
  - rewrite (proj2 (Z.ltb_lt (u32 (off + n)) off)).
    2: { unfold u32. rewrite <- (Z.mod_add _ (-1)), Z.mod_small; lia. }
    wp_step. rewrite <- Hs. by apply HQ.
  - rewrite u32_small by lia. rewrite (proj2 (Z.ltb_ge _ off)) by lia. cbv zeta in HQ |- *.
    set (m := if di_size din <? off + n then di_size din - off else n).
    assert (Em : m = Z.min n (di_size din - off)) by (unfold m; test_solver).
    rewrite slice_contents in HQ by lia. rewrite <- Em in HQ. rewrite lenZ_fbytes in HQ by lia.
    wp_step. rewrite <- Hs at 1. eapply wp_mono.
    + apply (readi_loop_spec (fs_sb s) ds ip F din (blocks (di_size din)) s); try done; try lia.
      unfold blocks. change BSIZE with 512. zlia.
    + intros r s' [-> (t & -> & Rt)]. wp_step. rewrite app_nil_l, Z.sub_0_r. by apply HQ.
Qed.

(** C3: [readi]: for a file or directory that is locked, the bytes of the contents
    from [off], at most [n] and not past the end; -1 if [off] is past the end
    or [off + n] overflows. *)
Theorem readi_correct s F ds ip din off n :
  rep (fs_store s) F -> valid_file (fs_sb s) ds F (i_inum (inode_at s ip)) din -> loaded s ip din ->
  unheld F din (blocks (di_size din)) -> buffers F 1 -> di_type din <> T_DEV ->
  0 <= off < UINT_LIM -> 0 <= n < UINT_LIM ->
  wp (readi dev_read ip off n) s (fun r s' =>
    r = (if (di_size din <? off) || (UINT_LIM <=? off + n) then (-1, [])
         else let data := slice (contents F din) off n in (lenZ data, data)) /\
    exists t, s' = with_store t s /\ rep t F).
Proof.
  intros R [V1 V2 V3 V4 V5] Hld Hun Hbuf Hty Ho Hn.
  apply (readi_spec s F ds ip din off n); try done; [apply V3|]. eauto.
Qed.

End reads.

Section writes.
Context {S : Type} `{Laws : TxnLaws S rep}.
Context (dev_write : Z -> option (Z -> bytes -> ST (fs_t S) Z)).
Implicit Types (F : fstore) (s : fs_t S).

(** [writei] within the limits. *)
Lemma writei_spec s F ds ip din src off k f (Q : Z -> fs_t S -> Prop) :
  let inum := i_inum (inode_at s ip) in
  rep (fs_store s) F -> valid_file (fs_sb s) ds F inum din -> loaded s ip din ->
  unheld F din (blocks (di_size din)) -> di_type din <> T_DEV -> bytes_ok src ->
  0 <= off <= di_size din -> off + lenZ src <= MAXFILE * BSIZE ->
  budget F (k + 1 + 6 * span off (lenZ src)) 2 -> 0 <= k ->
  has_free (fs_sb s) F f -> 2 * span off (lenZ src) <= f ->
  (forall t F' din', written (fs_sb s) ds F inum din src off F' din' -> budget F' k 2 -> rep t F' ->
     Q (lenZ src) (with_file t ip din' s)) ->
  wp (writei dev_write ip src off) s Q.
Proof.
  intros inum R V Hld Hun Hty Hok Ho Hmax Hbg Hk Hfr Hf HQ. pose proof V as [V1 V2 V3 V4 V5].
  pose proof Hld as (Hip & Hdev & Hdin). pose proof (lenZ_nonneg src) as Hn. consts.
  unfold writei, iget_at. wp_step. wp_step. rewrite Hdin, (proj2 (Z.eqb_neq _ _) Hty).
  rewrite u32_small by lia. rewrite !(proj2 (Z.ltb_ge _ _)) by lia. cbn [orb].
  wp_step. eapply (writei_loop_spec (fs_sb s) ds ip _ s F din (blocks (di_size din)) 0 off _ src (k + 1) f);
    rewrite ?Z.sub_0_r; try done; try lia.
  { unfold blocks. change BSIZE with 512 in *. zlia. }
  cbv zeta. rewrite ?Z.sub_0_r. intros t F1 din1 E W Hsame B1 R1.
  destruct (ed_din _ _ _ _ _ _ _ _ _ _ E) as [addrs Ed].
  assert (Hsz : di_size din1 = di_size din) by (by rewrite Ed).
  assert (Hmono : forall a b, a <= b -> blocks a <= blocks b) by (intros; unfold blocks; change BSIZE with 512; zlia).
  wp_step. wp_step. rewrite with_file_at by done. cbn [i_din set_i_din]. rewrite Hsz.
  wp_step. destruct (Z.ltb_spec (di_size din) (off + lenZ src)) as [Hlt|Hge].
  - rewrite (proj2 (Z.ltb_lt 0 (lenZ src))) by lia. cbn [andb when].
    rewrite Z.max_r in E, W by (apply Hmono; lia).
    wp_step. apply dmod_with_file; [done|]. set (din2 := set_size (off + lenZ src) din1).
    pose proof (tlaw_wf (rep := rep) _ _ R1) as Hwf1.
    assert (Hw : written (fs_sb s) ds F inum din src off (f_iput (fs_sb s) F1 inum din2) din2)
      by (apply written_grow; try done; lia).
    assert (Hin : i_inum (inode_at (with_file t ip din2 s) ip) = inum) by (by rewrite with_file_at).
    eapply (iupdate_spec _ F1 ds ip din2); try done; rewrite ?Hin.
    + apply E.
    + by eapply loaded_with_file.
    + done.
    + apply (do_addrs _ (vf_din _ _ _ _ _ (wr_valid _ _ _ _ _ _ _ _ _ Hw))).
    + eapply budget_mono; [done|lia..].
    + intros t2 R2. wp_step. change (with_store t2 (with_file t ip din2 s)) with (with_file t2 ip din2 s).
      eapply HQ; [exact Hw| |exact R2]. by apply budget_put.
  - replace ((0 <? lenZ src) && false) with false by (by destruct (0 <? lenZ src)). cbn [when].
    wp_step. wp_step. rewrite Hsame in * by (apply Hmono; lia).
    rewrite Z.max_l in E, W by (apply Hmono; lia).
    apply (HQ t F1 din); [|eapply budget_mono; [done|lia..]|done]. apply written_within; try done; lia.
Qed.

(** C2: [writei] of a file or directory: [src] replaces or extends the contents
    from [off], the size is kept up to date in memory and on the disk, nothing
    else changes (see [written]), and the call does not run out of log space
    or buffers. *)
Theorem writei_correct s F ds ip din src off :
  let inum := i_inum (inode_at s ip) in
  rep (fs_store s) F -> valid_file (fs_sb s) ds F inum din -> loaded s ip din ->
  unheld F din (blocks (di_size din)) -> di_type din <> T_DEV -> bytes_ok src ->
  0 <= off <= di_size din -> off + lenZ src <= MAXFILE * BSIZE ->
  budget F (1 + 6 * span off (lenZ src)) 2 -> has_free (fs_sb s) F (2 * span off (lenZ src)) ->
  wp (writei dev_write ip src off) s (fun r s' => r = lenZ src /\
    exists t F' din', s' = with_file t ip din' s /\ rep t F' /\
      written (fs_sb s) ds F inum din src off F' din').
Proof.
  intros inum R V Hld Hun Hty Hok Ho Hmax Hbg Hfr.
  eapply (writei_spec s F ds ip din src off 0); try done.
  intros t F' din' Hw _ Rt. split; [done|]. by exists t, F', din'.
Qed.
End writes.
