(* ===== verification/FsInode.v ===== *)
(** * The inode cache of fs.c

    [iget] keeps at most one entry for an inode and counts the references to
    it; [idup] and [iput] count them up and down; [ilock] reads an inode from
    the disk once; [itrunc] frees every block of a file. *)

From S2P Require Import Prelude Bytes Sleeplock Store Log Txn Fs FsBlock FsFile FsIo.

(** ** Entries *)

(** Entry [i] is in use for inode [inum] of device [dev]. *)
Definition caches (l : list inode) (i dev inum : Z) : Prop :=
  0 <= i < lenZ l /\ 0 < i_ref (rd l i) /\ i_dev (rd l i) = dev /\ i_inum (rd l i) = inum.

(** At most one entry for an inode; no count is negative. *)
Record icache_ok (l : list inode) : Prop := {
  ic_unique : forall i j dev inum, caches l i dev inum -> caches l j dev inum -> i = j;
  ic_ref : forall i, 0 <= i < lenZ l -> 0 <= i_ref (rd l i);
}.

Lemma rd_cons_0 {A} `{Inhabited A} (x : A) l : rd (x :: l) 0 = x.
Proof. done. Qed.
Lemma rd_cons {A} `{Inhabited A} (x : A) l i : 1 <= i -> rd (x :: l) i = rd l (i - 1).
Proof. intros. unfold rd. by replace (Z.to_nat i) with (S (Z.to_nat (i - 1))) by lia. Qed.

(** What the scan of [iget] finds. *)
Lemma iget_scan_spec l k dev inum e :
  match iget_scan l k dev inum e with
  | inl i => caches l (i - k) dev inum
  | inr r => (forall i, ~ caches l i dev inum) /\
      match e with
      | Some a => r = Some a
      | None =>
          match r with
          | Some a => 0 <= a - k < lenZ l /\ i_ref (rd l (a - k)) = 0
          | None => forall i, 0 <= i < lenZ l -> i_ref (rd l i) <> 0
          end
      end
  end.
Proof.
  revert k e. induction l as [|x l IH]; intros k e; cbn [iget_scan].
  - split; [intros i [Hi _]; unfold lenZ in Hi; cbn in Hi; lia|].
    destruct e; [done|]. intros i Hi. unfold lenZ in Hi. cbn in Hi. lia.
  - pose proof (lenZ_cons x l) as Hl. pose proof (lenZ_nonneg l) as Hn.
    destruct ((0 <? i_ref x) && (i_dev x =? dev) && (i_inum x =? inum)) eqn:E.
    + bool_to_prop. unfold caches. rewrite Z.sub_diag, rd_cons_0. split_and!; lia.
    + assert (Hx : ~ caches (x :: l) 0 dev inum).
      { intros (_ & H1 & H2 & H3). rewrite rd_cons_0 in *. apply not_true_iff_false in E. apply E.
        rewrite !andb_true_iff, Z.ltb_lt, !Z.eqb_eq. done. }
      assert (Hc : forall i, caches (x :: l) i dev inum -> caches l (i - 1) dev inum).
      { intros i Hi. destruct (Z.eq_dec i 0) as [->|]; [done|]. unfold caches in *.
        destruct Hi as (H1 & H2). rewrite rd_cons in H2 by lia. split; [lia|done]. }
      specialize (IH (k + 1) (match e with None => if i_ref x =? 0 then Some k else None | Some a => Some a end)).
      destruct (iget_scan l (k + 1) dev inum _) as [i|r].
      * destruct IH as (H1 & H2). unfold caches. rewrite rd_cons by lia.
        replace (i - k - 1) with (i - (k + 1)) by lia. split; [lia|done].
      * destruct IH as [IH1 IH2]. split; [intros i Hi; by apply (IH1 (i - 1)), Hc|].
        destruct e; [done|]. destruct (Z.eqb_spec (i_ref x) 0) as [E0|E0].
        -- subst r. rewrite Z.sub_diag, rd_cons_0. split; [lia|done].
        -- destruct r as [a|].
           ++ destruct IH2 as [H1 H2]. rewrite rd_cons by lia.
              replace (a - k - 1) with (a - (k + 1)) by lia. split; [lia|done].
           ++ intros i Hi. destruct (Z.eq_dec i 0) as [->|]; [done|]. rewrite rd_cons by lia. apply IH2. lia.
Qed.

Definition with_icache {S} (l : list inode) (s : fs_t S) : fs_t S :=
  mkFs (fs_sb s) l (fs_pid s) (fs_cwd s) (fs_store s).

(** Entry [ip] becomes [x]: the cache stays well formed if [x] is for the same
    inode, or if no other entry is for its inode. *)
Lemma icache_ok_upd l ip x :
  icache_ok l -> 0 <= ip < lenZ l -> 0 <= i_ref x ->
  (0 < i_ref x -> forall j, j <> ip -> ~ caches l j (i_dev x) (i_inum x)) ->
  icache_ok (upd l ip x).
Proof.
  intros [Hu Hr] Hip Hx Hne.
  assert (Hj : forall j, j <> ip -> forall d n, caches (upd l ip x) j d n -> caches l j d n).
  { intros j Hj d n (H1 & H2). rewrite upd_lenZ in H1. rewrite rd_upd_ne in H2 by lia. by split. }
  assert (Hi : forall d n, caches (upd l ip x) ip d n -> 0 < i_ref x /\ i_dev x = d /\ i_inum x = n).
  { intros d n (H1 & H2). rewrite rd_upd_eq in H2 by done. done. }
  split.
  - intros i j d n H1 H2. destruct (Z.eq_dec i ip) as [->|E1], (Z.eq_dec j ip) as [->|E2]; try done.
    + apply Hi in H1 as (H1 & <- & <-). exfalso. by apply (Hne H1 j E2), Hj.
    + apply Hi in H2 as (H2 & <- & <-). exfalso. by apply (Hne H2 i E1), Hj.
    + eapply Hu; [by apply Hj|by apply Hj].
  - intros i Hi'. rewrite upd_lenZ in Hi'. rewrite rd_upd by lia. case_test; [done|]. by apply Hr.
Qed.

Section icache.
Context {S : Type} `{TxnStore S}.
Implicit Types (s : fs_t S).

Lemma imod_icache s ip f (Q : unit -> fs_t S -> Prop) :
  Q tt (with_icache (upd (fs_icache s) ip (f (rd (fs_icache s) ip))) s) -> wp (imod ip f) s Q.
Proof. intros HQ. by apply wp_modify. Qed.

Lemma iget_spec s dev inum (Q : Z -> fs_t S -> Prop) :
  let l := fs_icache s in
  icache_ok l -> (exists i, 0 <= i < lenZ l /\ (caches l i dev inum \/ i_ref (rd l i) = 0)) ->
  (forall ip x, 0 <= ip < lenZ l -> i_dev x = dev -> i_inum x = inum -> i_ref x = i_ref (rd l ip) + 1 ->
     (caches l ip dev inum /\ x = set_i_ref (i_ref (rd l ip) + 1) (rd l ip) \/
      (forall j, ~ caches l j dev inum) /\ i_ref (rd l ip) = 0 /\ i_valid x = false /\ i_lock x = i_lock (rd l ip)) ->
     icache_ok (upd l ip x) -> Q ip (with_icache (upd l ip x) s)) ->
  wp (iget dev inum) s Q.
Proof.
  intros l Hok Hex HQ. unfold iget. wp_step. wp_step. fold l.
  pose proof (iget_scan_spec l 0 dev inum None) as Hs.
  destruct (iget_scan l 0 dev inum None) as [ip|[ip|]].
  - rewrite Z.sub_0_r in Hs. pose proof Hs as (Hip & Hr & Hd & Hi). wp_step. apply imod_icache. wp_step.
    fold l. apply HQ; try done; [by left|]. apply icache_ok_upd; try done; [cbn; lia|].
    intros _ j Hj Hc. apply Hj. eapply (ic_unique _ Hok); [exact Hc|]. cbn. by rewrite Hd, Hi.
  - rewrite Z.sub_0_r in Hs. destruct Hs as (Hno & Hip & Hr). wp_step. apply imod_icache. wp_step.
    fold l. apply HQ; try done; [cbn; lia|by right|]. by apply icache_ok_upd.
  - exfalso. destruct Hs as [Hno Hall]. destruct Hex as (i & Hi & Hc). specialize (Hall i Hi).
    destruct Hc as [Hc|Hc]; [by apply (Hno i)|done].
Qed.

(** C24: [iget] returns the entry of the inode, with one more reference: the entry
    that was in use for it, or an entry nobody used, which has to be read from
    the disk ([valid] is 0).  No other entry changes and no inode gets a second
    entry. *)
Theorem iget_correct s dev inum :
  let l := fs_icache s in
  icache_ok l -> (exists i, 0 <= i < lenZ l /\ (caches l i dev inum \/ i_ref (rd l i) = 0)) ->
  wp (iget dev inum) s (fun ip s' =>
    let l' := fs_icache s' in
    s' = with_icache l' s /\ icache_ok l' /\ lenZ l' = lenZ l /\ caches l' ip dev inum /\
    i_ref (rd l' ip) = i_ref (rd l ip) + 1 /\
    (forall j, 0 <= j -> j <> ip -> rd l' j = rd l j) /\
    (caches l ip dev inum /\ i_valid (rd l' ip) = i_valid (rd l ip) /\ i_din (rd l' ip) = i_din (rd l ip) \/
     i_ref (rd l ip) = 0 /\ i_valid (rd l' ip) = false)).
Proof.
  intros l Hok Hex. eapply iget_spec; try done. intros ip x Hip Hd Hi Hr Hc Hok'. fold l in Hip, Hc, Hr, Hok' |- *.
  cbn [fs_icache with_icache]. rewrite upd_lenZ. unfold caches at 1. rewrite !rd_upd_eq, upd_lenZ by done.
  pose proof (ic_ref _ Hok ip Hip). split_and!; try done; try lia.
  - intros j Hj Hne. apply rd_upd_ne; lia.
  - destruct Hc as [[Hc ->]|(_ & Hz & Hv & _)]; [left|right]; done.
Qed.

(** [idup] adds a reference. *)
Lemma idup_spec s ip (Q : Z -> fs_t S -> Prop) :
  let l := fs_icache s in
  icache_ok l -> 0 <= ip < lenZ l -> 0 < i_ref (rd l ip) ->
  (icache_ok (upd l ip (set_i_ref (i_ref (rd l ip) + 1) (rd l ip))) ->
   Q ip (with_icache (upd l ip (set_i_ref (i_ref (rd l ip) + 1) (rd l ip))) s)) ->
  wp (idup ip) s Q.
Proof.
  intros l Hok Hip Hr HQ. unfold idup. wp_step. apply imod_icache. wp_step. fold l. apply HQ.
  apply icache_ok_upd; try done; [cbn; lia|]. intros _ j Hj Hc. apply Hj.
  eapply (ic_unique _ Hok); [exact Hc|]. exact (conj Hip (conj Hr (conj eq_refl eq_refl))).
Qed.

(** [iput] of an inode that has links or other references only gives up the
    reference. *)
Lemma iput_spec s ip (Q : unit -> fs_t S -> Prop) :
  let l := fs_icache s in let x := rd l ip in
  icache_ok l -> 0 <= ip < lenZ l -> 0 < i_ref x -> sl_locked (i_lock x) = false ->
  di_nlink (i_din x) <> 0 \/ i_valid x = false \/ i_ref x <> 1 ->
  (forall lk, sl_locked lk = false ->
     let l' := upd l ip (set_i_ref (i_ref x - 1) (set_i_lock lk x)) in
     icache_ok l' -> Q tt (with_icache l' s)) ->
  wp (iput ip) s Q.
Proof.
  intros l x Hok Hip Hr Hlk Hkeep HQ. unfold iput, inode_acquire, inode_release.
  wp_step. wp_step. wp_step. change (inode_at s ip) with x. unfold acquiresleep. rewrite Hlk.
  apply imod_icache. fold l x. unfold iget_at. wp_step. wp_step.
  unfold inode_at. cbn [fs_icache with_icache]. rewrite rd_upd_eq by done.
  cbn [i_valid i_din i_ref set_i_lock]. wp_step.
  assert (Hw : forall m : ST (fs_t S) unit, when (i_valid x && (di_nlink (i_din x) =? 0)) (when (i_ref x =? 1) m) = ret tt).
  { intros m. unfold when. repeat case_test; bool_to_prop; try done. destruct Hkeep as [|[]]; congruence. }
  rewrite Hw. wp_step. wp_step. apply imod_icache. cbn [fs_icache with_icache].
  rewrite rd_upd_eq by done. apply imod_icache. cbn [fs_icache with_icache].
  rewrite rd_upd_eq by (by rewrite upd_lenZ). unfold upd. rewrite !list_insert_insert_eq. apply HQ; [done|].
  apply icache_ok_upd; try done; [cbn; lia|]. intros Hpos j Hj Hc. apply Hj.
  eapply (ic_unique _ Hok); [exact Hc|]. exact (conj Hip (conj Hr (conj eq_refl eq_refl))).
Qed.
End icache.
