(* ===== verification/FsTrunc.v ===== *)
(** * [itrunc]: every block of a file becomes free

    For a file system whose free map is one block, as mkfs.c makes it (1000
    blocks of at most 4096): all the blocks that [itrunc] frees are marked in
    that block, so that the log gets it once. *)

From S2P Require Import Prelude Bytes Store Log Txn Fs FsBlock FsFile FsIo.

(** Of the blocks, exactly those in [X] were freed; nothing but the free map
    changed. *)
Record freed (sb : superblock) (ds : Z) (F F' : fstore) (X : Z -> Prop) : Prop := {
  fr_map : map_ok sb F' ds;
  fr_used : forall y, 0 <= y < sb_size sb -> used sb F' y <-> used sb F y /\ ~ X y;
  fr_view : forall y, y < sb_bmapstart sb \/ ds <= y -> f_view F' y = f_view F y;
  fr_held : f_held F' = f_held F;
  fr_ops : f_ops F' = f_ops F;
}.

Lemma freed_refl sb ds F : map_ok sb F ds -> freed sb ds F F (fun _ => False).
Proof. intros. split; try done. naive_solver. Qed.

Lemma freed_ext sb ds F F' (X Y : Z -> Prop) :
  freed sb ds F F' X -> (forall y, X y <-> Y y) -> freed sb ds F F' Y.
Proof. intros [H1 H2 H3 H4 H5] HXY. split; try done. intros y Hy. by rewrite H2, HXY. Qed.

Lemma freed_step sb ds F F1 X x :
  freed sb ds F F1 X -> fstore_wf F1 -> ds <= x < sb_size sb -> ~ f_is_held F x ->
  freed sb ds F (f_free sb F1 x) (fun y => X y \/ y = x).
Proof.
  intros [H1 H2 H3 H4 H5] Hwf Hx Hn. pose proof (ds_pos _ _ _ H1) as Hds. split; try done.
  - apply map_ok_free; try done. unfold f_is_held in *. by rewrite H4.
  - intros y Hy. unfold used in *. rewrite (f_free_bit sb F1 ds) by done.
    rewrite andb_true_iff, negb_true_iff, Z.eqb_neq, H2 by done. naive_solver.
  - intros y Hy. rewrite f_free_other; [by apply H3|].
    pose proof (proj2 (map_block sb F1 ds H1 Hwf x ltac:(lia))). unfold BBLOCK in *. rewrite BPB_val in *. zlia.
Qed.

(** Room to log the free map, once, and [k] blocks. *)
Definition map_budget (sb : superblock) (F : fstore) (k h : Z) : Prop :=
  budget F (k + 1) h \/ sb_bmapstart sb ∈ f_log F /\ budget F k h.

Lemma map_budget_free sb F x k h :
  sb_size sb <= BPB -> 0 <= x < sb_size sb -> map_budget sb F k h -> map_budget sb (f_free sb F x) k h.
Proof.
  intros Hsz Hx Hb. rewrite BPB_val in Hsz. right.
  assert (E : BBLOCK x sb = sb_bmapstart sb) by (unfold BBLOCK; rewrite BPB_val; zlia).
  unfold f_free. rewrite E. split; [cbn; set_solver|]. destruct Hb as [Hb|[Hin [H1 H2 H3 H4]]].
  - by apply budget_put.
  - assert (El : f_log F ∪ {[sb_bmapstart sb]} = f_log F) by set_solver.
    split; cbn; rewrite ?El; try done.
Qed.

Lemma map_budget_weaken sb F k h : map_budget sb F k h -> 0 <= k -> budget F k h.
Proof. intros [Hb|[_ Hb]] Hk; [eapply budget_mono; [done|lia..]|done]. Qed.

Lemma wf_unhold F h b : f_held F !! h = None -> fstore_wf (f_hold F h b) -> fstore_wf F.
Proof.
  intros Hh [W1 W2 W3]. split; [done| |].
  - intros h' b' Hb. apply (W2 h'). cbn. rewrite lookup_insert_ne; [done|congruence].
  - intros h1 h2 b' H1 H2. apply (W3 h1 h2 b'); cbn; rewrite lookup_insert_ne; try done; congruence.
Qed.

Section itrunc.
Context {S : Type} `{Laws : TxnLaws S rep}.
Variables (sb : superblock) (ds ip : Z) (F : fstore) (din : dinode) (nb : Z) (s : fs_t S).
Hypothesis Hsb : fs_sb s = sb.
Hypothesis Hsz : sb_size sb <= BPB.
Hypothesis Hmap : map_ok sb F ds.
Hypothesis Hfile : file_ok sb ds F din nb.
Hypothesis Hun : unheld F din nb.

(** The blocks before index [i] of the file. *)
Definition before (i y : Z) : Prop := exists j, 0 <= j < Z.min i nb /\ y = blk (f_view F) din j.

Lemma before_step i y :
  0 <= i < nb -> before i y \/ y = blk (f_view F) din i <-> before (i + 1) y.
Proof.
  intros Hi. split.
  - intros [(j & Hj & ->)| ->]; [exists j|exists i]; (split; [lia|done]).
  - intros (j & Hj & ->). destruct (Z.eq_dec j i) as [->|]; [by right|left]. exists j. split; [lia|done].
Qed.

Lemma before_end i : nb <= i -> forall y, before i y <-> before (i + 1) y.
Proof. intros Hi y. unfold before. by rewrite !Z.min_r by lia. Qed.

Lemma before_not i y : 0 <= i < nb -> y = blk (f_view F) din i -> ~ before i y.
Proof.
  intros Hi -> (j & Hj & E). pose proof (fo_inj _ _ _ _ _ Hfile i j ltac:(lia) ltac:(lia) E). lia.
Qed.

(** One block of the file is freed, with [hs] buffers held. *)
Lemma bfree_own F1 i t (Q : unit -> fs_t S -> Prop) s1 k h :
  rep t F1 -> fs_sb s1 = sb -> fs_store s1 = t ->
  0 <= i < nb -> (forall y, data_block sb F ds y -> used sb F1 y <-> ~ before i y) ->
  map_ok sb F1 ds -> map_budget sb F1 k h -> 1 <= k -> 1 <= h ->
  (forall t', rep t' (f_free sb F1 (blk (f_view F) din i)) -> Q tt (with_store t' s1)) ->
  wp (bfree ROOTDEV (blk (f_view F) din i)) s1 Q.
Proof.
  intros R Hsb1 Ht Hi Hused Hmap1 Hbg Hk Hh HQ. pose proof (ds_pos _ _ _ Hmap) as Hds.
  pose proof (fo_blk _ _ _ _ _ Hfile i Hi) as Hd. pose proof Hd as [Hr Hu].
  eapply (bfree_spec sb F1 ds); try done.
  - by rewrite Ht.
  - lia.
  - apply Hused; [done|]. by apply (before_not i).
  - apply map_budget_weaken in Hbg; [|lia]. eapply budget_mono; [done|lia..].
Qed.

(** The inode with its first [i] addresses cleared. *)
Definition clr (i : Z) : dinode :=
  mkDinode (di_type din) (di_major din) (di_minor din) (di_nlink din) (di_size din)
    (blit (di_addrs din) 0 (zeros i)).

Lemma clr_len i : 0 <= i <= NDIRECT + 1 -> lenZ (di_addrs (clr i)) = NDIRECT + 1.
Proof.
  intros Hi. pose proof (fo_len _ _ _ _ _ Hfile). cbn [di_addrs clr]. rewrite lenZ_blit; rewrite ?lenZ_zeros; lia.
Qed.

Lemma clr_rd i j : 0 <= i <= NDIRECT + 1 -> 0 <= j <= NDIRECT ->
  rd (di_addrs (clr i)) j = if j <? i then 0 else rd (di_addrs din) j.
Proof.
  intros Hi Hj. pose proof (fo_len _ _ _ _ _ Hfile). cbn [di_addrs clr].
  rewrite rd_blit; rewrite ?lenZ_zeros; try lia. rewrite (proj2 (Z.leb_le 0 j)) by lia. cbn [andb]. rewrite Z.add_0_l.
  case_test; [|done]. apply rd_zeros. lia.
Qed.

Lemma clr_step i : 0 <= i <= NDIRECT -> set_addr i 0 (clr i) = clr (i + 1).
Proof.
  intros Hi. pose proof (clr_len i ltac:(lia)) as H1. pose proof (clr_len (i + 1) ltac:(lia)) as H2.
  unfold set_addr, clr in *. cbn [di_type di_major di_minor di_nlink di_size di_addrs] in *. f_equal.
  apply arr_eq; rewrite upd_lenZ; [by rewrite H1, H2|]. rewrite H1. intros j Hj.
  rewrite rd_upd by lia. pose proof (clr_rd i j ltac:(lia) ltac:(lia)) as E1.
  pose proof (clr_rd (i + 1) j ltac:(lia) ltac:(lia)) as E2. cbn [di_addrs clr] in E1, E2.
  rewrite E1, E2. test_solver.
Qed.

Lemma clr_same i : 0 <= i <= NDIRECT -> rd (di_addrs din) i = 0 -> clr (i + 1) = clr i.
Proof.
  intros Hi H0. rewrite <- clr_step by done. unfold set_addr, clr.
  cbn [di_type di_major di_minor di_nlink di_size di_addrs]. f_equal.
  pose proof (clr_len i ltac:(lia)) as H1. cbn [di_addrs clr] in H1.
  apply arr_eq; rewrite upd_lenZ; [done|]. intros j Hj. rewrite rd_upd by lia. case_test; [|done]. subst j.
  pose proof (clr_rd i i ltac:(lia) ltac:(lia)) as E1. cbn [di_addrs clr] in E1. rewrite E1. test_solver.
Qed.

Lemma itrunc_direct_spec i t F1 k (Q : unit -> fs_t S -> Prop) :
  loaded s ip din -> 0 <= i < NDIRECT -> rep t F1 -> freed sb ds F F1 (before i) ->
  map_budget sb F1 k 2 -> 1 <= k ->
  (forall t' F2, rep t' F2 -> freed sb ds F F2 (before (i + 1)) -> map_budget sb F2 k 2 ->
     Q tt (with_file t' ip (clr (i + 1)) s)) ->
  wp (itrunc_direct ip i) (with_file t ip (clr i) s) Q.
Proof.
  intros Hld Hi R Hfr Hbg Hk HQ. pose proof Hld as (Hip & Hdev & Hdin).
  unfold itrunc_direct, iget_at. wp_step. wp_step. rewrite with_file_at by done. cbn [i_din i_dev set_i_din].
  rewrite Hdev, clr_rd, (proj2 (Z.ltb_ge _ _)) by lia.
  assert (Eb : rd (di_addrs din) i = blk (f_view F) din i).
  { unfold blk. by rewrite (proj2 (Z.ltb_lt _ _)) by lia. }
  rewrite Eb. pose proof (ds_gt0 _ _ _ Hmap) as Hds. destruct (Z.lt_ge_cases i nb) as [Hlt|Hge].
  - pose proof (fo_blk _ _ _ _ _ Hfile i ltac:(lia)) as [Hr Hu].
    rewrite (proj2 (Z.eqb_neq _ _)) by lia. cbn [negb when]. wp_step.
    eapply (bfree_own F1 i t _ _ k 2); try done; try lia.
    { intros y [Hy1 Hy2]. rewrite (fr_used _ _ _ _ _ Hfr) by lia. naive_solver. }
    { apply Hfr. }
    intros t2 R2. change (with_store t2 (with_file t ip (clr i) s)) with (with_file t2 ip (clr i) s).
    apply dmod_with_file; [done|]. rewrite clr_step by lia.
    eapply HQ; [exact R2| |apply map_budget_free; try done; lia].
    eapply freed_ext; [apply freed_step; [exact Hfr|apply (tlaw_wf (rep := rep) _ _ R)|done|]|].
    + apply Hun. right. exists i. split; [lia|done].
    + intros y. apply before_step. lia.
  - rewrite (fo_zero _ _ _ _ _ Hfile) by (change MAXFILE with 140; change NDIRECT with 12 in *; lia).
    cbn [Z.eqb negb when]. wp_step. rewrite <- (clr_same i) by (try lia; rewrite Eb; apply (fo_zero _ _ _ _ _ Hfile); change MAXFILE with 140; change NDIRECT with 12 in *; lia).
    eapply HQ; try done. eapply freed_ext; [exact Hfr|]. intros y. by apply before_end.
Qed.

(** The indirect block is held in buffer [h]. *)
Section indirect.
Variables (h k : Z) (s1 : fs_t S).
Hypothesis Hne : ind_addr din <> 0.
Hypothesis Hh : f_held F !! h = None.
Hypothesis Hs1 : fs_sb s1 = sb.
Hypothesis Hk : 1 <= k.

Definition ind_inv (i : Z) (s2 : fs_t S) : Prop :=
  exists t F1, s2 = with_store t s1 /\ rep t (f_hold F1 h (ind_addr din)) /\
    freed sb ds F F1 (before i) /\ map_budget sb F1 k 2.

Lemma ind_data : data_block sb F ds (ind_addr din) /\ forall i, ~ before i (ind_addr din).
Proof using Hfile Hne.
  destruct (fo_ind _ _ _ _ _ Hfile) as [|[Hd Hn]]; [done|]. split; [done|].
  intros i (j & Hj & E). apply (Hn j); [lia|done].
Qed.

Lemma hold_ok F1 i : freed sb ds F F1 (before i) -> map_ok sb (f_hold F1 h (ind_addr din)) ds.
Proof.
  intros Hfr. destruct ind_data as [[Hr Hu] Hb]. pose proof (ds_pos _ _ _ Hmap).
  apply map_ok_hold; [apply Hfr|]. split; [done|]. apply (fr_used _ _ _ _ _ Hfr); [lia|]. by split.
Qed.

Lemma hold_budget F1 i :
  freed sb ds F F1 (before i) -> map_budget sb F1 k 2 -> map_budget sb (f_hold F1 h (ind_addr din)) k 1.
Proof.
  intros Hfr Hb. assert (Hh1 : f_held F1 !! h = None) by (by rewrite (fr_held _ _ _ _ _ Hfr)).
  destruct Hb as [Hb|[Hin Hb]]; [left|right; split; [done|]]; by apply budget_hold.
Qed.

Lemma itrunc_indirect_spec j s2 :
  0 <= j < NINDIRECT -> ind_inv (NDIRECT + j) s2 ->
  wp (itrunc_indirect ROOTDEV h j) s2 (fun _ s3 => ind_inv (NDIRECT + j + 1) s3).
Proof.
  intros Hj (t & F1 & -> & R & Hfr & Hbg). consts. destruct ind_data as [[Hir Hiu] Hib].
  pose proof (ds_gt0 _ _ _ Hmap) as Hds.
  unfold itrunc_indirect. wp_step. eapply wp_data; [exact R|apply lookup_insert_eq|]. cbn [f_view f_hold].
  rewrite (fr_view _ _ _ _ _ Hfr) by lia.
  assert (Eb : get32 (f_view F (ind_addr din)) (4 * j) = blk (f_view F) din (NDIRECT + j)).
  { unfold blk. rewrite (proj2 (Z.ltb_ge _ _)), (proj2 (Z.eqb_neq _ _) Hne) by lia. do 2 f_equal. lia. }
  rewrite Eb. destruct (Z.lt_ge_cases (NDIRECT + j) nb) as [Hlt|Hge].
  - pose proof (fo_blk _ _ _ _ _ Hfile (NDIRECT + j) ltac:(lia)) as [Hr Hu].
    rewrite (proj2 (Z.eqb_neq _ _)) by lia. cbn [negb when].
    eapply (bfree_own (f_hold F1 h (ind_addr din)) (NDIRECT + j) t _ _ k 1); try done; try lia.
    { intros y [Hy1 Hy2]. change (used sb (f_hold F1 h (ind_addr din)) y) with (used sb F1 y).
      rewrite (fr_used _ _ _ _ _ Hfr) by lia. naive_solver. }
    { by eapply hold_ok. }
    { by eapply hold_budget. }
    intros t2 R2. exists t2, (f_free sb F1 (blk (f_view F) din (NDIRECT + j))). split_and!; try done.
    + eapply freed_ext; [apply freed_step; [exact Hfr| |done|]|].
      * eapply wf_unhold; [by rewrite (fr_held _ _ _ _ _ Hfr)|apply (tlaw_wf (rep := rep) _ _ R)].
      * apply Hun. right. exists (NDIRECT + j). split; [lia|done].
      * intros y. apply before_step. lia.
    + apply map_budget_free; try done; lia.
  - rewrite (fo_zero _ _ _ _ _ Hfile) by lia. cbn [Z.eqb negb when]. wp_step.
    exists t, F1. split_and!; try done. eapply freed_ext; [exact Hfr|]. intros y. by apply before_end.
Qed.
End indirect.

(** The inode of an empty file. *)
Definition empty_din : dinode :=
  mkDinode (di_type din) (di_major din) (di_minor din) (di_nlink din) 0 (zeros 13).

Lemma clr_0 : clr 0 = din.
Proof. unfold clr, zeros. cbn. by destruct din. Qed.
Lemma clr_all : set_size 0 (clr 13) = empty_din.
Proof.
  unfold set_size, clr, empty_din. cbn [di_type di_major di_minor di_nlink di_addrs]. f_equal.
  apply blit_full. rewrite lenZ_zeros by lia. by rewrite (fo_len _ _ _ _ _ Hfile).
Qed.

(** The blocks freed are the blocks the file owned. *)
Lemma owned_before y :
  owned F din nb y <-> (ind_addr din <> 0 /\ y = ind_addr din) \/ before MAXFILE y.
Proof.
  unfold owned, before. pose proof (fo_range _ _ _ _ _ Hfile). rewrite Z.min_r by lia. done.
Qed.

(** The first loop. *)
Lemma itrunc_directs k (Q : unit -> fs_t S -> Prop) :
  loaded s ip din -> rep (fs_store s) F -> map_budget sb F k 2 -> 1 <= k ->
  (forall t F1, rep t F1 -> freed sb ds F F1 (before NDIRECT) -> map_budget sb F1 k 2 ->
     Q tt (with_file t ip (clr NDIRECT) s)) ->
  wp (forM (Z.to_nat NDIRECT) 0 (itrunc_direct ip)) s Q.
Proof.
  intros Hld R Hbg Hk HQ.
  apply (wp_forM _ _ _ (fun i s' => exists t F1, s' = with_file t ip (clr i) s /\ rep t F1 /\
    freed sb ds F F1 (before i) /\ map_budget sb F1 k 2)).
  - exists (fs_store s), F. split_and!; try done.
    + rewrite clr_0, with_file_same by done. by destruct s.
    + eapply freed_ext; [by apply freed_refl|]. intros y. split; [done|]. intros (j & Hj & _). lia.
  - intros j s' Hj (t & F1 & -> & Rt & Hfr & Hb).
    eapply (itrunc_direct_spec j t F1 k); try done; change NDIRECT with 12 in *; try lia.
    intros t' F2 R2 Hfr2 Hb2. by exists t', F2.
  - intros s' (t & F1 & -> & Rt & Hfr & Hb). by eapply HQ.
Qed.

(** The rest, from an inode whose direct addresses are cleared. *)
Lemma itrunc_ind t F1 k (Q : unit -> fs_t S -> Prop) :
  let s1 := with_file t ip (clr NDIRECT) s in
  loaded s ip din -> rep t F1 -> freed sb ds F F1 (before NDIRECT) -> map_budget sb F1 k 2 -> 1 <= k ->
  (forall t' F2, rep t' F2 -> freed sb ds F F2 (owned F din nb) -> map_budget sb F2 k 2 ->
     Q tt (with_file t' ip (clr (NDIRECT + 1)) s)) ->
  wp (when (negb (ind_addr din =? 0))
    (bp <- bread_ ROOTDEV (ind_addr din) ;;
     forM (Z.to_nat NINDIRECT) 0 (itrunc_indirect ROOTDEV bp) ;;;
     brelse_ bp ;;;
     bfree ROOTDEV (ind_addr din) ;;;
     dmod ip (set_addr NDIRECT 0))) s1 Q.
Proof.
  intros s1 Hld R Hfr Hbg Hk HQ. consts. pose proof (ds_gt0 _ _ _ Hmap) as Hds.
  destruct (Z.eqb_spec (ind_addr din) 0) as [E0|E0]; cbn [negb when].
  - wp_step. unfold s1. rewrite <- (clr_same NDIRECT) by (try done; lia).
    eapply HQ; try done. eapply freed_ext; [exact Hfr|]. intros y. rewrite owned_before.
    assert (Hnb : nb <= NDIRECT).
    { destruct (Z.le_gt_cases nb NDIRECT) as [|Hgt]; [done|]. exfalso.
      destruct (fo_blk _ _ _ _ _ Hfile NDIRECT ltac:(lia)) as [Hr _]. unfold blk in Hr.
      rewrite E0 in Hr. cbn in Hr. lia. }
    unfold before. rewrite !Z.min_r by lia. split; [by right|]. by intros [[? _]|].
  - destruct (ind_data E0) as [[Hir Hiu] Hib].
    wp_step. eapply (wp_bread _ F1); [exact R| | | |].
    { eapply layout_home; [apply Hfr|done]. }
    { unfold f_is_held. rewrite (fr_held _ _ _ _ _ Hfr). apply Hun. by left. }
    { apply (budget_buffers _ 1); [lia|]. apply map_budget_weaken in Hbg; [|lia]. eapply budget_mono; [done|lia..]. }
    intros h t1 Hh1 R1. wp_step.
    assert (Hh : f_held F !! h = None) by (by rewrite <- (fr_held _ _ _ _ _ Hfr)).
    eapply (wp_forM _ _ _ (fun j => ind_inv h k s1 (NDIRECT + j))).
    + exists t1, F1. by split_and!.
    + intros j s' Hj Hinv. rewrite Z.add_assoc. apply itrunc_indirect_spec; try done; lia.
    + change (0 + Z.of_nat (Z.to_nat NINDIRECT)) with NINDIRECT. change (NDIRECT + NINDIRECT) with MAXFILE.
      intros s' (t2 & F2 & -> & R2 & Hfr2 & Hb2). wp_step.
      assert (Hh2 : f_held F2 !! h = None) by (by rewrite (fr_held _ _ _ _ _ Hfr2)).
      eapply (wp_relse_clean _ F2); [exact R2|done| |].
      { apply map_budget_weaken in Hb2; [|lia]. apply Hb2. }
      intros t3 R3. wp_step. apply (bfree_spec sb F2 ds (ind_addr din)); try done.
      { apply Hfr2. }
      { lia. }
      { apply (fr_used _ _ _ _ _ Hfr2); [lia|]. by split. }
      { apply map_budget_weaken in Hb2; [|lia]. eapply budget_mono; [done|lia..]. }
      intros t4 R4. change (with_store t4 _) with (with_file t4 ip (clr NDIRECT) s).
      apply dmod_with_file; [apply Hld|]. rewrite clr_step by lia. eapply HQ; [exact R4| |].
      * eapply freed_ext; [apply freed_step; [exact Hfr2|apply (tlaw_wf (rep := rep) _ _ R3)|done|]|].
        -- apply Hun. by left.
        -- intros y. rewrite owned_before. naive_solver.
      * apply map_budget_free; try done. lia.
Qed.
End itrunc.

(** The file system after a truncation: the file is empty, its blocks are free
    and no others, and no other block changed. *)
Record truncated (sb : superblock) (ds : Z) (F : fstore) (inum : Z) (din : dinode)
    (F' : fstore) : Prop := {
  tc_valid : valid_file sb ds F' inum (empty_din din);
  tc_used : forall y, 0 <= y < sb_size sb ->
    used sb F' y <-> used sb F y /\ ~ owned F din (blocks (di_size din)) y;
  tc_data : forall y, ds <= y -> f_view F' y = f_view F y;
  tc_inodes : forall j, 0 <= j < sb_ninodes sb -> j <> inum -> dinode_at sb F' j = dinode_at sb F j;
  tc_held : f_held F' = f_held F;
}.

Lemma truncated_intro sb ds F inum din F1 :
  valid_file sb ds F inum din -> fstore_wf F1 ->
  freed sb ds F F1 (owned F din (blocks (di_size din))) ->
  truncated sb ds F inum din (f_iput sb F1 inum (empty_din din)).
Proof.
  intros [V1 V2 V3 V4 V5] Hwf [R1 R2 R3 R4 R5]. pose proof (ds_pos _ _ _ V1).
  destruct (iblock_range sb ds F1 inum R1 V2) as (Hhome & Hlt & Hlt').
  assert (Hok : dinode_ok (empty_din din)).
  { destruct V3. split; cbn; try done; try lia. apply Forall_replicate. lia. }
  split; try done.
  - split; try done; [by apply iput_map|by apply (iput_same sb ds)|].
    change (blocks (di_size (empty_din din))) with 0. split.
    + done.
    + done.
    + intros i Hi. lia.
    + intros i Hi. unfold blk. change (ind_addr (empty_din din)) with 0. cbn [Z.eqb].
      case_test; [|done]. apply (rd_zeros 13). change NDIRECT with 12 in *. lia.
    + intros i j Hi. lia.
    + by left.
  - intros y Hy. rewrite (iput_used sb ds) by done. by apply R2.
  - intros y Hy. rewrite iput_view by lia. apply R3. by right.
  - intros j Hj Hne. rewrite (iput_other sb ds) by (try done; lia). unfold dinode_at. rewrite R3; [done|].
    left. apply (iblock_range sb ds F j V1 Hj).
Qed.

Section itrunc_top.
Context {S : Type} `{Laws : TxnLaws S rep}.

Lemma itrunc_spec (s : fs_t S) F ds ip din (Q : unit -> fs_t S -> Prop) :
  let inum := i_inum (inode_at s ip) in
  rep (fs_store s) F -> valid_file (fs_sb s) ds F inum din -> loaded s ip din ->
  unheld F din (blocks (di_size din)) -> sb_size (fs_sb s) <= BPB -> budget F 2 2 ->
  (forall t F', rep t F' -> truncated (fs_sb s) ds F inum din F' ->
     Q tt (with_file t ip (empty_din din) s)) ->
  wp (itrunc ip) s Q.
Proof.
  intros inum R V Hld Hun Hsz Hbg HQ. pose proof V as [V1 V2 V3 V4 V5]. pose proof Hld as (Hip & Hdev & Hdin).
  unfold itrunc. wp_step.
  eapply (itrunc_directs (fs_sb s) ds ip F din _ s eq_refl Hsz V1 V5 Hun 1); try done; [by left|].
  intros t F1 R1 Hfr1 Hb1. unfold iget_at. wp_step. wp_step. rewrite with_file_at by done.
  cbn [i_din i_dev set_i_din]. rewrite Hdev, (clr_rd _ ds F _ _ V5), (proj2 (Z.ltb_ge _ _)) by (change NDIRECT with 12; lia).
  change (rd (di_addrs din) NDIRECT) with (ind_addr din). cbv zeta. wp_step.
  eapply (itrunc_ind (fs_sb s) ds ip F din _ s eq_refl Hsz V1 V5 Hun t F1 1); try done.
  intros t2 F2 R2 Hfr2 Hb2. wp_step. apply dmod_with_file; [done|].
  change (NDIRECT + 1) with 13. rewrite (clr_all _ _ _ _ _ V5).
  pose proof (tlaw_wf (rep := rep) _ _ R2) as Hwf2.
  assert (Hin : i_inum (inode_at (with_file t2 ip (empty_din din) s) ip) = inum) by (by rewrite with_file_at).
  eapply (iupdate_spec _ F2 ds ip (empty_din din)); try done; rewrite ?Hin; try done.
  - apply Hfr2.
  - by eapply loaded_with_file.
  - apply map_budget_weaken in Hb2; [|lia]. eapply budget_mono; [done|lia..].
  - intros t3 R3. eapply HQ; [exact R3|]. by apply truncated_intro.
Qed.

(** C4: [itrunc] empties the file, in memory and on the disk, and frees exactly the
    blocks that the file owned, the indirect block included. *)
Theorem itrunc_correct (s : fs_t S) F ds ip din :
  let inum := i_inum (inode_at s ip) in
  rep (fs_store s) F -> valid_file (fs_sb s) ds F inum din -> loaded s ip din ->
  unheld F din (blocks (di_size din)) -> sb_size (fs_sb s) <= BPB -> budget F 2 2 ->
  wp (itrunc ip) s (fun _ s' => exists t F',
    s' = with_file t ip (empty_din din) s /\ rep t F' /\ truncated (fs_sb s) ds F inum din F').
Proof.
  intros inum R V Hld Hun Hsz Hbg. eapply itrunc_spec; try done. intros t F' Rt Ht. by exists t, F'.
Qed.
End itrunc_top.
