(* ===== verification/FsDir.v ===== *)
(** * Directories and paths of fs.c

    A directory is a finite map from names to inode numbers: [dirlookup] reads
    it, [dirlink] adds to it.  [skipelem] splits a path into its elements. *)

From S2P Require Import Prelude Bytes Cstring Sleeplock Store Log Txn Fs FsBlock FsFile FsIo FsInode.

(** ** Names *)

(** What identifies a name: its characters up to a NUL, at most [DIRSIZ]. *)
Definition name_key (name : bytes) : bytes := cstrn (chr name) 0 (Z.to_nat DIRSIZ).

Lemma namecmp_key s t : (namecmp s t =? 0) = bool_decide (name_key s = name_key t).
Proof.
  apply eq_true_iff_eq. rewrite Z.eqb_eq, bool_decide_eq_true. apply strncmp_loop_zero.
Qed.

Lemma cstrn_ext (p q : Z -> Z) i n :
  (forall j, i <= j < i + Z.of_nat n -> p j = q j) -> cstrn p i n = cstrn q i n.
Proof.
  revert i. induction n as [|n IH]; intros i Hpq; [done|]. cbn [cstrn].
  rewrite (Hpq i) by lia. case_test; [done|]. f_equal. apply IH. intros j Hj. apply Hpq. lia.
Qed.

(** A string of non-zero characters, followed by NULs, reads back. *)
Lemma cstrn_pad c m n :
  Forall (fun x => x <> 0) c -> lenZ c <= Z.of_nat n ->
  forall l, cstrn (chr (l ++ c ++ zeros m)) (lenZ l) n = c.
Proof.
  intros Hc. revert n. induction Hc as [|x c Hx Hc IH]; intros n Hle l.
  - destruct n as [|n]; [done|]. cbn [cstrn].
    assert (E : chr (l ++ [] ++ zeros m) (lenZ l) = 0).
    { destruct (Z.lt_ge_cases 0 m).
      - rewrite chr_rd by (cbn [app]; rewrite !lenZ_app, lenZ_zeros by lia; pose proof (lenZ_nonneg l); lia).
        rewrite rd_app_r, Z.sub_diag by lia. cbn [app]. apply rd_zeros. lia.
      - apply chr_end. unfold zeros. replace (Z.to_nat m) with 0%nat by lia. cbn. by rewrite app_nil_r. }
    by rewrite E.
  - rewrite lenZ_cons in *. destruct n as [|n]; [pose proof (lenZ_nonneg c); lia|]. cbn [cstrn].
    assert (E0 : chr (l ++ (x :: c) ++ zeros m) (lenZ l) = x).
    { pose proof (lenZ_nonneg l). pose proof (lenZ_nonneg (c ++ zeros m)).
      rewrite chr_rd by (rewrite lenZ_app; cbn [app]; rewrite lenZ_cons; lia).
      rewrite rd_app_r, Z.sub_diag by lia. done. }
    rewrite E0, (proj2 (Z.eqb_neq x 0) Hx). f_equal.
    specialize (IH n ltac:(lia) (l ++ [x])). rewrite lenZ_app in IH.
    change (lenZ [x]) with 1 in IH. rewrite <- app_assoc in IH. exact IH.
Qed.

Lemma cstrn_nonzero p i n : Forall (fun x => x <> 0) (cstrn p i n).
Proof.
  revert i. induction n as [|n IH]; intros i; cbn [cstrn]; [constructor|].
  case_test; constructor; [done|apply IH].
Qed.
Lemma cstrn_len p i n : lenZ (cstrn p i n) <= Z.of_nat n.
Proof.
  revert i. induction n as [|n IH]; intros i; cbn [cstrn]; [done|].
  case_test; [unfold lenZ; cbn; lia|]. rewrite lenZ_cons. specialize (IH (i + 1)). lia.
Qed.

Lemma cstrn_rd p i n j : 0 <= j < lenZ (cstrn p i n) -> rd (cstrn p i n) j = p (i + j).
Proof.
  revert i j. induction n as [|n IH]; intros i j; cbn [cstrn]; [unfold lenZ; cbn; lia|].
  case_test; [unfold lenZ; cbn; lia|]. rewrite lenZ_cons. intros Hj.
  destruct (Z.eq_dec j 0) as [->|]; [by rewrite Z.add_0_r|]. rewrite rd_cons, IH by lia. f_equal. lia.
Qed.

Lemma lenZ_strncpy_arr src n : 0 <= n -> lenZ (strncpy_arr src n) = n.
Proof.
  intros Hn. unfold strncpy_arr. cbv zeta. pose proof (cstrn_len (chr src) 0 (Z.to_nat n)).
  rewrite lenZ_app, lenZ_zeros; lia.
Qed.

(** [strncpy_arr] is what [strncpy] of string.c leaves in the destination. *)
Lemma strncpy_arr_correct (m : mem) s t n src :
  wf_mem m -> 0 <= n -> s + n <= t \/ t + n <= s ->
  (forall i, 0 <= i < n -> chr src i = m (t + i)) ->
  forall i, 0 <= i < n -> strncpy m s t n (s + i) = rd (strncpy_arr src n) i.
Proof.
  intros Hm Hn Hd Hsrc i Hi. destruct (strncpy_correct m s t n Hm Hn Hd) as (H1 & H2 & _).
  assert (E : cstrn (chr src) 0 (Z.to_nat n) = cstrn (fun i => m (t + i)) 0 (Z.to_nat n)).
  { apply cstrn_ext. intros j Hj. apply Hsrc. lia. }
  unfold strncpy_arr. cbv zeta. rewrite E.
  set (c := cstrn (fun i => m (t + i)) 0 (Z.to_nat n)) in *.
  destruct (Z.lt_ge_cases i (lenZ c)).
  - rewrite rd_app_l by lia. rewrite <- H1. rewrite cstrn_rd; [done|]. rewrite H1. lia.
  - rewrite rd_app_r, rd_zeros by lia. apply H2. lia.
Qed.

(** ** Entries *)

Lemma strncpy_arr_ok src n : bytes_ok src -> bytes_ok (strncpy_arr src n).
Proof.
  intros Hs. unfold strncpy_arr. apply bytes_ok_app; [|apply bytes_ok_zeros].
  generalize (Z.to_nat n) at 1. generalize 0 at 1. intros i k. revert i.
  induction k as [|k IH]; intros i; cbn [cstrn]; [constructor|]. case_test; constructor; [by apply chr_byte|apply IH].
Qed.

Lemma mk_dirent_len name inum : lenZ (mk_dirent name inum) = SIZEOF_DIRENT.
Proof. unfold mk_dirent. rewrite lenZ_app, lenZ_le16, lenZ_strncpy_arr by done. done. Qed.
Lemma mk_dirent_ok name inum : bytes_ok name -> bytes_ok (mk_dirent name inum).
Proof. intros. apply bytes_ok_app; [apply bytes_ok_le16|by apply strncpy_arr_ok]. Qed.
Lemma mk_dirent_inum name inum : de_inum (mk_dirent name inum) = u16 inum.
Proof.
  unfold de_inum, mk_dirent, get16. rewrite !rd_app_l by (rewrite lenZ_le16; lia).
  change (inum mod 256 + 256 * (inum / 256 mod 256) = inum mod 65536). zlia.
Qed.
Lemma mk_dirent_key name inum : name_key (de_name (mk_dirent name inum)) = name_key name.
Proof.
  unfold de_name, mk_dirent. assert (E : slice (le16 inum ++ strncpy_arr name DIRSIZ) 2 DIRSIZ = strncpy_arr name DIRSIZ).
  { unfold slice. change (Z.to_nat 2) with (length (le16 inum)). rewrite drop_app_length.
    apply take_ge. pose proof (lenZ_strncpy_arr name DIRSIZ ltac:(done)) as Hl. unfold lenZ in Hl. lia. }
  rewrite E. unfold name_key at 1, strncpy_arr. fold (name_key name).
  pose proof (cstrn_len (chr name) 0 (Z.to_nat DIRSIZ)) as Hl. fold (name_key name) in Hl.
  change 0 with (lenZ (@nil Z)) at 1. rewrite <- (app_nil_l (name_key name ++ _)).
  apply cstrn_pad; [apply cstrn_nonzero|lia].
Qed.

(** ** A directory as a map *)

(** The entries of a directory with contents [c]. *)
Definition dent (c : bytes) (k : Z) : bytes := slice c (SIZEOF_DIRENT * k) SIZEOF_DIRENT.
Definition dents (c : bytes) : list bytes := dent c <$> seqZ 0 (lenZ c / SIZEOF_DIRENT).

(** The first entry in use that has the name: its inode number and index. *)
Fixpoint find_ent (l : list bytes) (k : Z) (name : bytes) : option (Z * Z) :=
  match l with
  | [] => None
  | de :: l =>
      if de_inum de =? 0 then find_ent l (k + 1) name
      else if bool_decide (name_key name = name_key (de_name de)) then Some (de_inum de, k)
      else find_ent l (k + 1) name
  end.

(** The index of the first empty entry, or the number of entries. *)
Fixpoint find_hole (l : list bytes) (k : Z) : Z :=
  match l with
  | [] => k
  | de :: l => if de_inum de =? 0 then k else find_hole l (k + 1)
  end.

(** The inode number a directory gives to a name. *)
Definition dir_get (c : bytes) (name : bytes) : option Z := fst <$> find_ent (dents c) 0 name.

Lemma find_ent_shift l k k' name : fst <$> find_ent l k name = fst <$> find_ent l k' name.
Proof. revert k k'. induction l as [|de l IH]; intros k k'; cbn; [done|]. repeat case_match; done || apply IH. Qed.

(** Filling the first hole, or appending. *)
Definition fill (l : list bytes) (de : bytes) : list bytes :=
  let j := Z.to_nat (find_hole l 0) in take j l ++ de :: drop (S j) l.

Lemma find_hole_shift l k : find_hole l k = k + find_hole l 0.
Proof.
  revert k. induction l as [|de l IH]; intros k; cbn [find_hole]; [lia|]. case_test; [lia|].
  rewrite (IH (k + 1)), (IH (0 + 1)). lia.
Qed.
Lemma find_hole_range l : 0 <= find_hole l 0 <= lenZ l.
Proof.
  induction l as [|de l IH]; cbn [find_hole]; [done|]. rewrite lenZ_cons. case_test; [pose proof (lenZ_nonneg l); lia|].
  rewrite find_hole_shift. lia.
Qed.

Lemma fill_cons de0 l de :
  fill (de0 :: l) de = if de_inum de0 =? 0 then de :: l else de0 :: fill l de.
Proof.
  unfold fill. cbn [find_hole]. destruct (de_inum de0 =? 0); [done|].
  rewrite find_hole_shift. pose proof (find_hole_range l).
  replace (Z.to_nat (0 + 1 + find_hole l 0)) with (S (Z.to_nat (find_hole l 0))) by lia. done.
Qed.

(** A name that was not there is added; every other name keeps its meaning. *)
Lemma find_fill l name inum name' :
  find_ent l 0 name = None -> u16 inum <> 0 ->
  fst <$> find_ent (fill l (mk_dirent name inum)) 0 name' =
  if bool_decide (name_key name' = name_key name) then Some (u16 inum)
  else fst <$> find_ent l 0 name'.
Proof.
  intros Hno Hi. induction l as [|de0 l IH].
  - change (fill [] (mk_dirent name inum)) with [mk_dirent name inum]. cbn [find_ent].
    rewrite mk_dirent_inum, mk_dirent_key, (proj2 (Z.eqb_neq _ _) Hi). by case_bool_decide.
  - rewrite fill_cons. cbn [find_ent] in Hno |- *. destruct (de_inum de0 =? 0) eqn:E0.
    + cbn [find_ent]. rewrite mk_dirent_inum, mk_dirent_key, (proj2 (Z.eqb_neq _ _) Hi). by case_bool_decide.
    + cbn [find_ent]. rewrite E0. destruct (decide (name_key name = name_key (de_name de0))) as [H1|H1].
      { by rewrite bool_decide_eq_true_2 in Hno by done. }
      rewrite bool_decide_eq_false_2 in Hno by done.
      destruct (bool_decide (name_key name' = name_key (de_name de0))) eqn:H2.
      * apply bool_decide_eq_true in H2. rewrite bool_decide_eq_false_2; [done|]. congruence.
      * rewrite !(find_ent_shift _ (0 + 1) 0). apply IH.
        destruct (find_ent l 0 name) eqn:E; [|done]. pose proof (find_ent_shift l (0 + 1) 0 name) as Hs.
        by rewrite Hno, E in Hs.
Qed.

Lemma rd_fill l de i :
  0 <= i -> rd (fill l de) i = if i =? find_hole l 0 then de else rd l i.
Proof.
  intros Hi. pose proof (find_hole_range l) as Hj. unfold fill. set (j := find_hole l 0) in *.
  assert (Ht : length (take (Z.to_nat j) l) = Z.to_nat j) by (rewrite length_take; unfold lenZ in Hj; lia).
  unfold rd. rewrite !list_lookup_total_alt. case_test.
  - subst i. rewrite lookup_app_r, Ht, Nat.sub_diag by lia. done.
  - destruct (Z.lt_ge_cases i j).
    + rewrite lookup_app_l, lookup_take_lt by lia. done.
    + rewrite lookup_app_r by lia. rewrite Ht.
      replace (Z.to_nat i - Z.to_nat j)%nat with (S (Z.to_nat (i - j - 1))) by lia.
      change (default inhabitant (drop (S (Z.to_nat j)) l !! Z.to_nat (i - j - 1)) = default inhabitant (l !! Z.to_nat i)).
      rewrite lookup_drop. do 2 f_equal. lia.
Qed.

(** The entries after the write of [dirlink]. *)
Lemma dents_blit c de :
  lenZ c mod SIZEOF_DIRENT = 0 -> lenZ de = SIZEOF_DIRENT ->
  dents (blit c (SIZEOF_DIRENT * find_hole (dents c) 0) de) = fill (dents c) de.
Proof.
  intros Hc Hde. change SIZEOF_DIRENT with 16 in *. pose proof (lenZ_nonneg c).
  assert (Hn : lenZ (dents c) = lenZ c / 16) by (unfold dents; apply lenZ_tab; change SIZEOF_DIRENT with 16; zlia).
  pose proof (find_hole_range (dents c)) as Hj.
  assert (Hlf : lenZ (fill (dents c) de) = Z.max (lenZ c / 16) (find_hole (dents c) 0 + 1)).
  { unfold fill, lenZ in *. rewrite length_app. cbn. rewrite length_take, length_drop. lia. }
  assert (Hrd : forall i, 0 <= i -> rd (fill (dents c) de) i = if i =? find_hole (dents c) 0 then de else rd (dents c) i)
    by (intros; by apply rd_fill).
  set (j := find_hole (dents c) 0) in *. clearbody j.
  assert (Hl : lenZ (blit c (16 * j) de) = Z.max (lenZ c) (16 * j + 16)) by (rewrite lenZ_blit_ext; zlia).
  apply arr_eq.
  - unfold dents at 1. rewrite lenZ_tab by (rewrite Hl; change SIZEOF_DIRENT with 16; zlia).
    change SIZEOF_DIRENT with 16. rewrite Hlf, Hl. zlia.
  - unfold dents at 1. rewrite lenZ_tab by (rewrite Hl; change SIZEOF_DIRENT with 16; zlia).
    change SIZEOF_DIRENT with 16. rewrite Hl. intros i Hi.
    rewrite Hrd by lia. unfold dents at 1. change SIZEOF_DIRENT with 16. rewrite rd_tab by (rewrite Hl; done).
    rewrite Z.add_0_l. unfold dent. change SIZEOF_DIRENT with 16. case_test.
    + subst i. apply arr_eq; rewrite lenZ_slice; try (rewrite ?Hl; zlia).
      intros k Hk. rewrite rd_slice, rd_blit_ext by zlia. rewrite Hde. test_solver. f_equal. lia.
    + unfold dents. change SIZEOF_DIRENT with 16. rewrite rd_tab by zlia. unfold dent. change SIZEOF_DIRENT with 16.
      rewrite Z.add_0_l. apply arr_eq; rewrite !lenZ_slice; try (rewrite ?Hl; zlia).
      intros k Hk. rewrite !rd_slice, rd_blit_ext by zlia. rewrite Hde. test_solver.
Qed.

(** ** The loops *)

Section loops.
Context {S : Type} `{Laws : TxnLaws S rep}.
Context (dev_read : Z -> option (Z -> Z -> ST (fs_t S) (Z * bytes))).
Variables (ds dp : Z) (F : fstore) (din : dinode) (s : fs_t S).
Hypothesis Hv : valid_file (fs_sb s) ds F (i_inum (inode_at s dp)) din.
Hypothesis Hld : loaded s dp din.
Hypothesis Hun : unheld F din (blocks (di_size din)).
Hypothesis Hbuf : buffers F 1.
Hypothesis Hdir : di_type din = T_DIR.
Hypothesis Hmod : di_size din mod SIZEOF_DIRENT = 0.
Abbreviation c := (contents F din).

Lemma dir_len : lenZ c = di_size din.
Proof. apply lenZ_contents. apply (vf_din _ _ _ _ _ Hv). Qed.

(** The entries from index [k]. *)
Definition dents_from (k : Z) : list bytes := dent c <$> seqZ k (di_size din / SIZEOF_DIRENT - k).

Lemma dents_from_0 : dents_from 0 = dents c.
Proof. unfold dents_from, dents. by rewrite dir_len, Z.sub_0_r. Qed.
Lemma dents_from_cons k :
  0 <= k -> SIZEOF_DIRENT * k < di_size din -> dents_from k = dent c k :: dents_from (k + 1).
Proof.
  intros Hk Hlt. change SIZEOF_DIRENT with 16 in *. unfold dents_from. change SIZEOF_DIRENT with 16.
  rewrite seqZ_cons by zlia. cbn. do 2 f_equal. f_equal; lia.
Qed.
Lemma dents_from_nil k : di_size din <= SIZEOF_DIRENT * k -> dents_from k = [].
Proof.
  intros Hle. change SIZEOF_DIRENT with 16 in *. unfold dents_from. change SIZEOF_DIRENT with 16.
  by rewrite seqZ_nil by zlia.
Qed.

(** Reading one entry. *)
Lemma read_dent t k (Q : Z * bytes -> fs_t S -> Prop) :
  rep t F -> 0 <= k -> SIZEOF_DIRENT * k < di_size din ->
  (forall t', rep t' F -> Q (SIZEOF_DIRENT, dent c k) (with_store t' s)) ->
  wp (readi dev_read dp (SIZEOF_DIRENT * k) SIZEOF_DIRENT) (with_store t s) Q.
Proof.
  intros R Hk Hlt HQ. pose proof Hv as [V1 V2 V3 V4 V5]. pose proof (do_size _ V3) as Hsz.
  pose proof (fo_range _ _ _ _ _ V5) as Hr.
  assert (Hmax : di_size din <= 140 * 512).
  { unfold blocks in Hr. change MAXFILE with 140 in Hr. change BSIZE with 512 in Hr. zlia. }
  change SIZEOF_DIRENT with 16 in *.
  eapply (readi_spec dev_read _ F ds dp din); try done; unfold UINT_LIM; try lia.
  { by rewrite Hdir. }
  intros t' R'. rewrite (proj2 (Z.ltb_ge _ _)), (proj2 (Z.leb_gt _ _)) by lia. cbn [orb].
  assert (E : lenZ (slice c (16 * k) 16) = 16) by (apply lenZ_slice; rewrite ?dir_len; zlia).
  cbv zeta. rewrite E. by apply HQ.
Qed.

Lemma dirlookup_loop_spec fuel k name t :
  rep t F -> 0 <= k -> di_size din / SIZEOF_DIRENT - k <= Z.of_nat fuel ->
  wp (dirlookup_loop dev_read fuel dp name (SIZEOF_DIRENT * k)) (with_store t s) (fun r s' =>
    r = (fun p => (fst p, SIZEOF_DIRENT * snd p)) <$> find_ent (dents_from k) k name /\
    exists t', s' = with_store t' s /\ rep t' F).
Proof.
  pose proof Hld as (Hip & Hdev & Hdin).
  revert k t. induction fuel as [|fuel IH]; intros k t R Hk Hfuel; cbn [dirlookup_loop];
    unfold iget_at; wp_step; wp_step; change (inode_at (with_store t s) dp) with (inode_at s dp); rewrite Hdin;
    destruct (Z.ltb_spec (SIZEOF_DIRENT * k) (di_size din)) as [Hlt|Hge].
  - exfalso. change SIZEOF_DIRENT with 16 in *. zlia.
  - wp_step. rewrite dents_from_nil by done. cbn. eauto.
  - wp_step. eapply read_dent; try done. intros t1 R1. cbn [fst snd].
    wp_step. wp_step; [done|]. rewrite dents_from_cons by done. cbn [find_ent]. rewrite namecmp_key.
    replace (SIZEOF_DIRENT * k + SIZEOF_DIRENT) with (SIZEOF_DIRENT * (k + 1)) by lia.
    repeat case_test; [apply IH; try done; lia|wp_step; cbn; eauto|apply IH; try done; lia].
  - wp_step. rewrite dents_from_nil by done. cbn. eauto.
Qed.

Lemma dirlink_loop_spec fuel k t :
  rep t F -> 0 <= k -> SIZEOF_DIRENT * k <= di_size din -> di_size din / SIZEOF_DIRENT - k <= Z.of_nat fuel ->
  wp (dirlink_loop dev_read fuel dp (SIZEOF_DIRENT * k)) (with_store t s) (fun r s' =>
    r = SIZEOF_DIRENT * find_hole (dents_from k) k /\
    exists t', s' = with_store t' s /\ rep t' F).
Proof.
  pose proof Hld as (Hip & Hdev & Hdin).
  revert k t. induction fuel as [|fuel IH]; intros k t R Hk Hle Hfuel; cbn [dirlink_loop];
    unfold iget_at; wp_step; wp_step; change (inode_at (with_store t s) dp) with (inode_at s dp); rewrite Hdin;
    destruct (Z.ltb_spec (SIZEOF_DIRENT * k) (di_size din)) as [Hlt|Hge].
  - exfalso. change SIZEOF_DIRENT with 16 in *. zlia.
  - wp_step. rewrite dents_from_nil by done. eauto.
  - wp_step. eapply read_dent; try done. intros t1 R1. cbn [fst snd].
    wp_step. wp_step; [done|]. rewrite dents_from_cons by done. cbn [find_hole]. case_test; [wp_step; eauto|].
    replace (SIZEOF_DIRENT * k + SIZEOF_DIRENT) with (SIZEOF_DIRENT * (k + 1)) by lia.
    apply IH; try done; change SIZEOF_DIRENT with 16 in *; zlia.
  - wp_step. rewrite dents_from_nil by done. eauto.
Qed.
End loops.

(** The directory [din] in cache entry [dp], locked, on a file system [F]. *)
Record dir_at {S} (rep : S -> fstore -> Prop) (s : fs_t S) (ds dp : Z) (F : fstore) (din : dinode) : Prop := {
  da_rep : rep (fs_store s) F;
  da_valid : valid_file (fs_sb s) ds F (i_inum (inode_at s dp)) din;
  da_loaded : loaded s dp din;
  da_unheld : unheld F din (blocks (di_size din));
  da_buffers : buffers F 1;
  da_dir : di_type din = T_DIR;
  da_mod : di_size din mod SIZEOF_DIRENT = 0;
}.

(** There is a cache entry for the inode, in use or not. *)
Definition iget_room (l : list inode) (inum : Z) : Prop :=
  exists i, 0 <= i < lenZ l /\ (caches l i ROOTDEV inum \/ i_ref (rd l i) = 0).

Section directories.
Context {S : Type} `{Laws : TxnLaws S rep}.
Context (dev_read : Z -> option (Z -> Z -> ST (fs_t S) (Z * bytes))).
Implicit Types (s : fs_t S).

(** The search of [dirlookup], before it gets the inode. *)
Lemma dirlookup_find s ds dp F din name (Q : option (Z * Z) -> fs_t S -> Prop) :
  dir_at rep s ds dp F din ->
  (forall t, rep t F -> Q ((fun p => (fst p, SIZEOF_DIRENT * snd p)) <$> find_ent (dents (contents F din)) 0 name)
     (with_store t s)) ->
  wp (dirlookup_loop dev_read (Z.to_nat (di_size din / SIZEOF_DIRENT + 1)) dp name 0) s Q.
Proof.
  intros [R Hv Hld Hun Hbuf Hdir Hmod] HQ.
  assert (Hs : with_store (fs_store s) s = s) by (by destruct s). rewrite <- Hs.
  change 0 with (SIZEOF_DIRENT * 0). pose proof (do_size _ (vf_din _ _ _ _ _ Hv)).
  eapply wp_mono; [eapply (dirlookup_loop_spec dev_read ds dp F din s); try done|].
  - change SIZEOF_DIRENT with 16. zlia.
  - intros r s' [-> (t & -> & Rt)]. rewrite (dents_from_0 _ _ _ _ _ Hv). by apply HQ.
Qed.

Lemma dirlookup_spec s ds dp F din name (Q : option (Z * Z) -> fs_t S -> Prop) :
  dir_at rep s ds dp F din ->
  (forall t, rep t F ->
     match find_ent (dents (contents F din)) 0 name with
     | None => Q None (with_store t s)
     | Some (inum, k) =>
         wp (iget ROOTDEV inum) (with_store t s) (fun ip s' => Q (Some (ip, SIZEOF_DIRENT * k)) s')
     end) ->
  wp (dirlookup dev_read dp name) s Q.
Proof.
  intros Hd HQ. pose proof (da_loaded _ _ _ _ _ _ Hd) as (Hip & Hdev & Hdin).
  unfold dirlookup, iget_at. wp_step. wp_step. rewrite Hdin, (da_dir _ _ _ _ _ _ Hd). wp_step. wp_step; [done|].
  wp_step. eapply dirlookup_find; [done|]. intros t Rt. specialize (HQ t Rt).
  destruct (find_ent _ 0 name) as [[inum k]|]; cbn [fmap option_fmap option_map fst snd]; [|by wp_step].
  wp_step. wp_step. change (inode_at (with_store t s) dp) with (inode_at s dp). rewrite Hdev.
  wp_step. eapply wp_mono; [exact HQ|]. intros ip s' H'. by wp_step.
Qed.

(** C6: [dirlookup] reads the map: for a name the directory has, the cache entry of
    its inode, with one more reference; otherwise 0, and nothing changes. *)
Theorem dirlookup_correct s ds dp F din name :
  let l := fs_icache s in
  dir_at rep s ds dp F din -> icache_ok l ->
  (forall inum, dir_get (contents F din) name = Some inum -> iget_room l inum) ->
  wp (dirlookup dev_read dp name) s (fun r s' => exists t, rep t F /\
    match dir_get (contents F din) name with
    | None => r = None /\ s' = with_store t s
    | Some inum => exists ip off l', r = Some (ip, off) /\ s' = with_icache l' (with_store t s) /\
        icache_ok l' /\ caches l' ip ROOTDEV inum /\ i_ref (rd l' ip) = i_ref (rd l ip) + 1 /\
        forall j, 0 <= j -> j <> ip -> rd l' j = rd l j
    end).
Proof.
  intros l Hd Hok Hroom. eapply dirlookup_spec; [done|]. intros t Rt. unfold dir_get in *.
  destruct (find_ent _ 0 name) as [[inum k]|]; cbn [fmap option_fmap option_map fst] in *; [|eauto].
  apply iget_spec; [done|by apply Hroom|]. intros ip x Hip Hdev Hi Hr Hc Hok'.
  exists t. split; [done|]. exists ip, (SIZEOF_DIRENT * k), (upd l ip x).
  unfold caches. rewrite rd_upd_eq, upd_lenZ by done. pose proof (ic_ref _ Hok ip Hip).
  change (fs_icache (with_store t s)) with l in Hr. split_and!; try done; try lia; [apply Hip|].
  intros j Hj Hne. apply rd_upd_ne; [|done|done]. apply Hip.
Qed.
End directories.

Section linking.
Context {S : Type} `{Laws : TxnLaws S rep}.
Context (dev_read : Z -> option (Z -> Z -> ST (fs_t S) (Z * bytes)))
        (dev_write : Z -> option (Z -> bytes -> ST (fs_t S) Z)).
Implicit Types (s : fs_t S).

Lemma with_store_dir s ds dp F din t :
  dir_at rep s ds dp F din -> rep t F -> dir_at rep (with_store t s) ds dp F din.
Proof. intros [R Hv Hld Hun Hbuf Hdir Hmod] Rt. by split. Qed.

(** C5: [dirlink] with a name the directory does not have returns 0, and the
    directory maps that name to the inode and every other name as before.
    Nothing else in the file system changes. *)
Theorem dirlink_correct s ds dp F din name inum :
  dir_at rep s ds dp F din -> dir_get (contents F din) name = None ->
  u16 inum <> 0 -> bytes_ok name -> di_size din + SIZEOF_DIRENT <= MAXFILE * BSIZE ->
  budget F 7 2 -> has_free (fs_sb s) F 2 ->
  wp (dirlink dev_read dev_write dp name inum) s (fun r s' => r = 0 /\
    exists t F' din' off, s' = with_file t dp din' s /\ dir_at rep s' ds dp F' din' /\
      (forall name', dir_get (contents F' din') name' =
         if bool_decide (name_key name' = name_key name) then Some (u16 inum)
         else dir_get (contents F din) name') /\
      written (fs_sb s) ds F (i_inum (inode_at s dp)) din (mk_dirent name inum) off F' din').
Proof.
  intros Hd Hno Hi Hok Hmax Hbg Hfr. pose proof Hd as [R Hv Hld Hun Hbuf Hdir Hmod].
  pose proof (do_size _ (vf_din _ _ _ _ _ Hv)) as Hsz. pose proof Hld as (Hip & Hdev & Hdin).
  assert (Hf : find_ent (dents (contents F din)) 0 name = None).
  { unfold dir_get in Hno. by destruct (find_ent _ 0 name). }
  assert (Hlen : lenZ (contents F din) = di_size din) by (apply lenZ_contents; lia).
  unfold dirlink. wp_step. eapply dirlookup_spec; [done|]. rewrite Hf. intros t1 R1.
  unfold iget_at. wp_step. wp_step. change (inode_at (with_store t1 s) dp) with (inode_at s dp). rewrite Hdin.
  wp_step. eapply wp_mono; [apply (dirlink_loop_spec (rep := rep) dev_read ds dp F din s Hv Hld Hun Hbuf Hdir Hmod _ 0 t1 R1);
    change SIZEOF_DIRENT with 16; zlia|].
  intros off s2 [-> (t2 & -> & R2)]. rewrite (dents_from_0 _ _ _ _ _ Hv).
  pose proof (find_hole_range (dents (contents F din))) as Hh.
  assert (Hn : lenZ (dents (contents F din)) = di_size din / 16).
  { unfold dents. rewrite lenZ_tab; rewrite Hlen; change SIZEOF_DIRENT with 16; zlia. }
  set (off := SIZEOF_DIRENT * find_hole (dents (contents F din)) 0).
  assert (Hoff : 0 <= off <= di_size din /\ off mod 16 = 0 /\ off <= di_size din).
  { unfold off. change SIZEOF_DIRENT with 16 in *. zlia. }
  assert (Hspan : span off (lenZ (mk_dirent name inum)) = 1).
  { rewrite mk_dirent_len. unfold span, blocks. change SIZEOF_DIRENT with 16. change BSIZE with 512. cbn. zlia. }
  wp_step. eapply (writei_spec dev_write _ F ds dp din (mk_dirent name inum) off 0 2); try done.
  { by rewrite Hdir. }
  { by apply mk_dirent_ok. }
  { lia. }
  { rewrite mk_dirent_len. lia. }
  { rewrite Hspan. done. }
  { rewrite Hspan. done. }
  intros t3 F' din' Hw Hbg' R3. rewrite mk_dirent_len. wp_step. wp_step; [done|]. wp_step. split; [done|].
  exists t3, F', din', off. destruct (wr_din _ _ _ _ _ _ _ _ _ Hw) as [addrs Ed].
  split; [done|]. split_and!; [split| |done]; try done.
  - change (fs_sb (with_file t3 dp din' (with_store t2 s))) with (fs_sb s).
    rewrite with_file_at by done. apply Hw.
  - by eapply loaded_with_file.
  - apply Hw.
  - apply (budget_buffers _ 0); [done|]. eapply budget_mono; [exact Hbg'|lia..].
  - by rewrite Ed.
  - rewrite Ed. cbn [di_size]. rewrite mk_dirent_len. change SIZEOF_DIRENT with 16 in *. zlia.
  - intros name'. unfold dir_get. rewrite (wr_contents _ _ _ _ _ _ _ _ _ Hw). unfold off.
    rewrite dents_blit; [|by rewrite Hlen|apply mk_dirent_len]. by apply find_fill.
Qed.

End linking.

(** ** Paths *)

(** The elements of a path: the non-empty pieces between slashes. *)
Fixpoint pieces (path : bytes) : list bytes :=
  match path with
  | [] => [[]]
  | c :: p =>
      if c =? 47 then [] :: pieces p
      else match pieces p with
           | [] => [[c]]
           | x :: xs => (c :: x) :: xs
           end
  end.
Definition elems (path : bytes) : list bytes := filter (fun e => e <> []) (pieces path).

Lemma pieces_ne path : pieces path <> [].
Proof. destruct path as [|c p]; cbn; [done|]. repeat case_match; done. Qed.

Lemma elems_slash p : elems (47 :: p) = elems p.
Proof. done. Qed.

Lemma skip_slashes_spec p :
  elems (skip_slashes p) = elems p /\ chr (skip_slashes p) 0 <> 47 /\
  (length (skip_slashes p) <= length p)%nat /\ (Forall (fun c => c <> 0) p -> Forall (fun c => c <> 0) (skip_slashes p)).
Proof.
  induction p as [|c p IH]; cbn [skip_slashes]; [done|]. destruct (Z.eqb_spec c 47) as [->|Hc].
  - destruct IH as (H1 & H2 & H3 & H4). rewrite elems_slash. split_and!; try done; [cbn; lia|].
    intros Hf. inversion Hf. auto.
  - by split_and!.
Qed.

Lemma take_elem_spec p e r :
  Forall (fun c => c <> 0) p -> take_elem p = (e, r) ->
  p = e ++ r /\ Forall (fun c => c <> 47) e /\ (r = [] \/ exists r', r = 47 :: r').
Proof.
  revert e r. induction p as [|c p IH]; intros e r Hz E; cbn [take_elem] in E.
  - injection E as <- <-. split_and!; auto.
  - inversion Hz as [|? ? Hc Hp]. subst. destruct ((c =? 47) || (c =? 0)) eqn:Eb.
    + injection E as <- <-. bool_to_prop; subst; split_and!; eauto. done.
    + destruct (take_elem p) as [e' r'] eqn:Et. injection E as <- <-. bool_to_prop.
      destruct (IH _ _ Hp eq_refl) as (-> & H1 & H2). split_and!; try done. by constructor.
Qed.

Lemma pieces_app e r :
  Forall (fun c => c <> 47) e -> (r = [] \/ exists r', r = 47 :: r') -> e <> [] ->
  elems (e ++ r) = e :: elems r.
Proof.
  intros He Hr Hne. assert (E : pieces (e ++ r) = e :: tail (pieces r)).
  { clear Hne. induction He as [|c e Hc He IH]; cbn [app pieces].
    - destruct Hr as [->|[r' ->]]; done.
    - rewrite (proj2 (Z.eqb_neq c 47) Hc), IH. done. }
  unfold elems. rewrite E, filter_cons_True by done. f_equal.
  destruct Hr as [->|[r' ->]]; done.
Qed.

Lemma cstrn_take (p : Z -> Z) n l :
  (forall i, 0 <= i < Z.min (Z.of_nat n) (lenZ l) -> p i = rd l i) ->
  Forall (fun c => c <> 0) l -> (lenZ l < Z.of_nat n -> p (lenZ l) = 0) -> cstrn p 0 n = take n l.
Proof.
  intros Hp Hz Hend. rewrite <- (app_nil_l (take n l)).
  assert (G : forall k i, i + Z.of_nat k = Z.of_nat n -> 0 <= i <= lenZ l ->
    cstrn p i k = take k (drop (Z.to_nat i) l)).
  { induction k as [|k IH]; intros i Hk Hi; [done|]. cbn [cstrn].
    destruct (Z.eq_dec i (lenZ l)) as [->|Hne].
    - rewrite Hend by lia. rewrite drop_ge by (unfold lenZ; lia). done.
    - rewrite Hp by lia. assert (Hin : l !! Z.to_nat i = Some (rd l i)) by (apply rd_lookup_Some; lia).
      rewrite (proj2 (Z.eqb_neq _ 0)) by (by eapply (Forall_lookup_1 _ _ _ _ Hz)).
      rewrite (drop_S _ _ _ Hin). cbn. f_equal. rewrite IH by lia. do 2 f_equal. lia. }
  rewrite app_nil_l. rewrite (G n 0); [by rewrite drop_0|lia|]. pose proof (lenZ_nonneg l). lia.
Qed.

Lemma skipelem_spec path name :
  Forall (fun c => c <> 0) path -> DIRSIZ <= lenZ name ->
  match elems path with
  | [] => skipelem path name = None
  | e :: es => exists rest name', skipelem path name = Some (rest, name') /\
      name_key name' = take (Z.to_nat DIRSIZ) e /\ lenZ name' = lenZ name /\
      elems rest = es /\ chr rest 0 <> 47 /\ (length rest < length path)%nat /\
      Forall (fun c => c <> 0) rest
  end.
Proof.
  intros Hz Hlen. unfold skipelem. destruct (skip_slashes_spec path) as (H1 & H2 & H3 & H4).
  rewrite <- H1. clear H1. specialize (H4 Hz). destruct (skip_slashes path) as [|c p']; [reflexivity|]. inversion H4 as [|? ? Hc Hp']. subst.
  change (chr (c :: p') 0) with c in *. rewrite (proj2 (Z.eqb_neq c 0) Hc).
  destruct (take_elem (c :: p')) as [e r] eqn:Et.
  destruct (take_elem_spec _ _ _ H4 Et) as (Ep & He & Hr).
  assert (Hne : e <> []).
  { intros ->. cbn in Ep. subst r. destruct Hr as [|[r' E]]; [done|]. by injection E as -> _. }
  rewrite Ep, pieces_app by done. destruct (skip_slashes_spec r) as (R1 & R2 & R3 & R4).
  rewrite Ep in H4. apply Forall_app in H4 as [Hze Hzr].
  eexists _, _. split; [reflexivity|]. split_and!; try done; try by apply R4.
  - unfold name_key. pose proof (lenZ_nonneg e). change DIRSIZ with 14 in *.
    apply cstrn_take; [| |]; [|done|].
    + intros i Hi. rewrite Z2Nat.id in Hi by lia. case_test.
      * rewrite chr_rd by (rewrite lenZ_blit; rewrite ?lenZ_slice; lia).
        rewrite rd_blit by (rewrite ?lenZ_slice; lia). rewrite lenZ_slice by lia. rewrite rd_slice by lia.
        rewrite Z.sub_0_r, Z.add_0_l. test_solver.
      * rewrite chr_rd by (rewrite upd_lenZ, lenZ_blit; lia).
        rewrite rd_upd_ne by lia. rewrite rd_blit by lia. rewrite Z.sub_0_r. test_solver.
    + intros Hi. rewrite Z2Nat.id in Hi by lia. rewrite (proj2 (Z.leb_gt _ _)) by lia.
      rewrite chr_rd by (rewrite upd_lenZ, lenZ_blit; lia).
      rewrite rd_upd_eq; [done|]. rewrite lenZ_blit; lia.
  - pose proof (lenZ_nonneg e). change DIRSIZ with 14 in *. case_test.
    + rewrite lenZ_blit; rewrite ?lenZ_slice; lia.
    + rewrite upd_lenZ, lenZ_blit; lia.
  - assert (length path >= length (e ++ r))%nat as Hle by (rewrite <- Ep; lia).
    rewrite length_app in Hle. destruct e; [done|]. cbn in Hle. lia.
Qed.

(** C25: [skipelem] returns 0 exactly when the path has no element.  Otherwise it
    puts the first element, cut at [DIRSIZ] characters, into [name] and returns
    a shorter path with the other elements and no leading slash. *)
Theorem skipelem_correct path name :
  Forall (fun c => c <> 0) path -> DIRSIZ <= lenZ name ->
  match elems path with
  | [] => skipelem path name = None
  | e :: es => exists rest name', skipelem path name = Some (rest, name') /\
      name_key name' = take (Z.to_nat DIRSIZ) e /\ lenZ name' = lenZ name /\
      elems rest = es /\ chr rest 0 <> 47 /\ (length rest < length path)%nat /\
      Forall (fun c => c <> 0) rest
  end.
Proof. exact (skipelem_spec path name). Qed.
