(* ===== verification/FsPath.v ===== *)
(** * Path names

    [namei] over a consistent file system: it follows the elements of the path
    through the directories on the disk, returns the inode that they lead to with
    one more reference, and leaves every other reference count as it was. *)

From S2P Require Import Prelude Bytes Cstring Sleeplock Store Log Txn Fs FsBlock FsFile FsIo FsInode FsDir.

(** ** References *)

(** The cache [l] is [l0] with one more reference, to the entry [cur], if any: an
    entry in use keeps its inode. *)
Record one_more (l0 l : list inode) (cur : option Z) : Prop := {
  om_len : lenZ l = lenZ l0;
  om_ref : forall i, 0 <= i < lenZ l0 -> i_ref (rd l i) = i_ref (rd l0 i) + (if bool_decide (cur = Some i) then 1 else 0);
  om_inum : forall i, 0 <= i < lenZ l0 -> 0 < i_ref (rd l0 i) -> i_inum (rd l i) = i_inum (rd l0 i);
}.
(** Two entries are not in use. *)
Definition two_unused (l : list inode) : Prop := exists a b,
  0 <= a < lenZ l /\ 0 <= b < lenZ l /\ a <> b /\ i_ref (rd l a) = 0 /\ i_ref (rd l b) = 0.

Lemma one_more_refl l : one_more l l None.
Proof. constructor; [done | intros i Hi | done]. rewrite bool_decide_eq_false_2 by done. lia. Qed.
Lemma one_more_room l0 l cur : two_unused l0 -> one_more l0 l cur -> exists i, 0 <= i < lenZ l /\ i_ref (rd l i) = 0.
Proof.
  intros (a & b & Ha & Hb & Hne & Ra & Rb) [Hl Hr _]. destruct (decide (cur = Some a)) as [->|Hn]; [exists b | exists a];
    (split; [lia|]); rewrite Hr, bool_decide_eq_false_2; congruence || lia || done.
Qed.
(** The count of an entry goes up or down. *)
Lemma one_more_get l0 l ip x : one_more l0 l None -> 0 <= ip < lenZ l -> i_ref x = i_ref (rd l ip) + 1 ->
  i_inum x = i_inum (rd l ip) \/ i_ref (rd l ip) = 0 -> one_more l0 (upd l ip x) (Some ip).
Proof.
  intros [Hl Hr Hi] Hip X1 X2. rewrite Hl in Hip. pose proof (Hr ip Hip) as Hrip. rewrite bool_decide_eq_false_2 in Hrip by done.
  constructor; [by rewrite upd_lenZ | |]; intros i Hir; rewrite rd_upd by lia; destruct (Z.eqb_spec ip i) as [->|Hne].
  - rewrite bool_decide_eq_true_2 by done. lia.
  - rewrite Hr by done. rewrite !bool_decide_eq_false_2 by congruence. done.
  - intros Hp. destruct X2 as [->|]; [by apply Hi | lia].
  - by apply Hi.
Qed.
Lemma one_more_put l0 l ip x : one_more l0 l (Some ip) -> 0 <= ip < lenZ l -> i_ref x = i_ref (rd l ip) - 1 ->
  i_inum x = i_inum (rd l ip) -> one_more l0 (upd l ip x) None.
Proof.
  intros [Hl Hr Hi] Hip X1 X2. rewrite Hl in Hip. pose proof (Hr ip Hip) as Hrip. rewrite bool_decide_eq_true_2 in Hrip by done.
  constructor; [by rewrite upd_lenZ | |]; intros i Hir; rewrite rd_upd by lia; destruct (Z.eqb_spec ip i) as [->|Hne].
  - rewrite bool_decide_eq_false_2 by done. lia.
  - rewrite Hr by done. rewrite !bool_decide_eq_false_2 by congruence. done.
  - rewrite X2. apply Hi. done.
  - by apply Hi.
Qed.
(** Another entry is found before the entry [ip] is put. *)
Lemma one_more_next l0 l ip next x2 x3 : one_more l0 l (Some ip) -> 0 <= ip < lenZ l -> 0 <= next < lenZ l ->
  i_ref x2 = i_ref (rd l next) + 1 -> 0 < i_ref (rd l ip) ->
  i_inum x2 = i_inum (rd l next) \/ i_ref (rd l next) = 0 ->
  i_ref x3 = i_ref (rd (upd l next x2) ip) - 1 -> i_inum x3 = i_inum (rd (upd l next x2) ip) ->
  one_more l0 (upd (upd l next x2) ip x3) (Some next).
Proof.
  intros [Hl Hr Hi] Hip Hn Y1 Hrp Y2 Z1 Z2. rewrite Hl in Hip, Hn. pose proof (Hr ip Hip) as Hrip. pose proof (Hr next Hn) as Hrn.
  rewrite rd_upd in Z1, Z2 by lia. rewrite bool_decide_eq_true_2 in Hrip by done.
  constructor; [by rewrite !upd_lenZ | |]; intros i Hir; rewrite !rd_upd by (rewrite ?upd_lenZ; lia).
  - pose proof (Hr i Hir) as Hri. revert Hri Hrn Z1.
    destruct (Z.eqb_spec ip i) as [E1|E1], (Z.eqb_spec next ip) as [E2|E2], (Z.eqb_spec next i) as [E3|E3];
      repeat case_bool_decide; simplify_eq; lia.
  - intros Hp. specialize (Hi i Hir Hp). destruct (Z.eqb_spec ip i) as [<-|].
    + rewrite Z2. destruct (Z.eqb_spec next ip) as [->|]; [|done]. destruct Y2; [congruence | lia].
    + destruct (Z.eqb_spec next i) as [<-|]; [|done]. destruct Y2 as [->|]; [done|]. case_bool_decide; lia.
Qed.
Lemma one_more_same l0 l cur ip x : one_more l0 l cur -> 0 <= ip < lenZ l -> i_ref x = i_ref (rd l ip) ->
  i_inum x = i_inum (rd l ip) -> one_more l0 (upd l ip x) cur.
Proof.
  intros [Hl Hr Hi] Hip X1 X2. rewrite Hl in Hip.
  constructor; [by rewrite upd_lenZ | |]; intros i Hir; rewrite rd_upd by lia; destruct (Z.eqb_spec ip i) as [->|Hne]; try (by auto).
  - rewrite X1. by apply Hr.
  - rewrite X2. by apply Hi.
Qed.
Lemma one_more_trans l0 l1 l2 cur : one_more l0 l1 None -> one_more l1 l2 cur -> one_more l0 l2 cur.
Proof.
  intros [L1 R1 I1] [L2 R2 I2]. assert (forall i, 0 <= i < lenZ l0 -> i_ref (rd l1 i) = i_ref (rd l0 i)) as E.
  { intros i Hi. rewrite R1, bool_decide_eq_false_2 by done. lia. }
  constructor; [congruence | |]; intros i Hi.
  - rewrite R2, E by (done || lia). done.
  - intros Hp. rewrite I2, I1; [done | done | done | lia | by rewrite E].
Qed.
Lemma one_more_unused l0 l : one_more l0 l None -> two_unused l0 -> two_unused l.
Proof.
  intros [L1 R1 _] (a & b & Ha & Hb & Hne & Ra & Rb). exists a, b. rewrite !R1, !bool_decide_eq_false_2 by done. split_and!; lia.
Qed.
(** Entries in use stay. *)
Lemma one_more_caches l0 l cur q n : one_more l0 l cur -> (forall i, 0 <= i < lenZ l -> 0 < i_ref (rd l i) -> i_dev (rd l i) = ROOTDEV) ->
  caches l0 q ROOTDEV n -> caches l q ROOTDEV n.
Proof.
  intros [Hl Hr Hi] Hd (H1 & H2 & _ & <-). assert (0 < i_ref (rd l q)) as Hp by (rewrite Hr by done; case_bool_decide; lia).
  split; [lia|]. split; [done|]. split; [apply Hd; [lia | done] | by apply Hi].
Qed.

(** ** A consistent file system *)

Definition inode_used (sb : superblock) (F : fstore) (inum : Z) : Prop :=
  0 <= inum < sb_ninodes sb /\ di_type (dinode_at sb F inum) <> 0.

(** Every inode in use is a file with links, the entries of the directories lead to
    inodes in use, and no buffer is held. *)
Record tree_ok (sb : superblock) (ds : Z) (F : fstore) : Prop := {
  to_map : map_ok sb F ds;
  to_held : f_held F = ∅;
  to_buffers : buffers F 1;
  to_file : forall i, inode_used sb F i -> valid_file sb ds F i (dinode_at sb F i) /\ di_nlink (dinode_at sb F i) <> 0;
  to_dir : forall i, inode_used sb F i -> di_type (dinode_at sb F i) = T_DIR ->
    di_size (dinode_at sb F i) mod SIZEOF_DIRENT = 0 /\
    forall name j, dir_get (contents F (dinode_at sb F i)) name = Some j -> inode_used sb F j;
  to_root : inode_used sb F ROOTINO;
}.

(** The cache: [held] is the entry that the process has locked. *)
Record cache_ok (sb : superblock) (F : fstore) (pid : Z) (held : option Z) (l : list inode) : Prop := {
  co_icache : icache_ok l;
  co_free : forall i, 0 <= i < lenZ l -> held <> Some i -> sl_locked (i_lock (rd l i)) = false;
  co_held : forall i, held = Some i -> 0 <= i < lenZ l /\ 0 < i_ref (rd l i) /\
    holdingsleep pid (i_lock (rd l i)) = true /\ i_valid (rd l i) = true;
  co_entry : forall i, 0 <= i < lenZ l -> 0 < i_ref (rd l i) ->
    i_dev (rd l i) = ROOTDEV /\ inode_used sb F (i_inum (rd l i)) /\
    (i_valid (rd l i) = true -> i_din (rd l i) = dinode_at sb F (i_inum (rd l i)));
}.

(** Where the elements [es] lead from inode [inum]. *)
Fixpoint resolve (sb : superblock) (F : fstore) (inum : Z) (es : list bytes) : option Z :=
  match es with
  | [] => Some inum
  | e :: es =>
      let din := dinode_at sb F inum in
      if di_type din =? T_DIR then
        match dir_get (contents F din) e with
        | None => None
        | Some j => resolve sb F j es
        end
      else None
  end.

Lemma resolve_used sb ds F es : tree_ok sb ds F -> forall i j, inode_used sb F i -> resolve sb F i es = Some j -> inode_used sb F j.
Proof.
  intros Ht. induction es as [|e es IH]; intros i j Hi; cbn [resolve]; [by intros [= ->]|].
  destruct (Z.eqb_spec (di_type (dinode_at sb F i)) T_DIR) as [Hd|]; [|done]. destruct (to_dir _ _ _ Ht i Hi Hd) as [_ He].
  destruct (dir_get _ e) as [m|] eqn:E; [|done]. apply IH. by apply (He e).
Qed.

Section path.
Context {S : Type} `{Laws : TxnLaws S rep}.
Context (dev_read : Z -> option (Z -> Z -> ST (fs_t S) (Z * bytes))).
Context (sb : superblock) (ds : Z) (F : fstore).
Hypothesis Htree : tree_ok sb ds F.
Implicit Types (s : fs_t S) (l : list inode).

(** An entry gets another lock, or is read from the disk. *)
Lemma cache_upd pid (held0 held : option Z) l ip x : cache_ok sb F pid held0 l -> (held0 = None \/ held0 = Some ip) -> 0 <= ip < lenZ l -> 0 <= i_ref x ->
  (0 < i_ref x -> i_dev x = ROOTDEV /\ inode_used sb F (i_inum x) /\ (i_valid x = true -> i_din x = dinode_at sb F (i_inum x)) /\
    forall j, j <> ip -> ~ caches l j (i_dev x) (i_inum x)) ->
  match held with
  | Some i => i = ip /\ 0 < i_ref x /\ holdingsleep pid (i_lock x) = true /\ i_valid x = true
  | None => sl_locked (i_lock x) = false
  end ->
  cache_ok sb F pid held (upd l ip x).
Proof.
  intros [Hok Hfr _ He] Hh0 Hip Hr Hx Hl. constructor.
  - apply icache_ok_upd; try done. intros Hp. by apply Hx.
  - intros i Hi Hh. rewrite upd_lenZ in Hi. rewrite rd_upd by lia. case_test; [|apply Hfr; [done | naive_solver]]. subst i.
    destruct held; [by destruct Hl as [-> _] | done].
  - intros i ->. destruct Hl as (-> & Hl). rewrite upd_lenZ, rd_upd_eq by done. done.
  - intros i Hi. rewrite upd_lenZ in Hi. rewrite rd_upd by lia. case_test; [|by apply He]. intros Hp.
    destruct (Hx Hp) as (X1 & X2 & X3 & _). done.
Qed.

Lemma entry_unique pid held l ip j : cache_ok sb F pid held l -> 0 <= ip < lenZ l -> 0 < i_ref (rd l ip) ->
  j <> ip -> ~ caches l j (i_dev (rd l ip)) (i_inum (rd l ip)).
Proof. intros Hc Hip Hr Hj Hca. apply Hj. by eapply (ic_unique _ (co_icache _ _ _ _ _ Hc)); [exact Hca|]. Qed.

Lemma ilock_rest s ip (Q : unit -> fs_t S -> Prop) :
  let l := fs_icache s in
  fs_sb s = sb -> rep (fs_store s) F -> cache_ok sb F (fs_pid s) None l -> 0 <= ip < lenZ l -> 0 < i_ref (rd l ip) ->
  (forall t x, rep t F -> i_ref x = i_ref (rd l ip) -> i_inum x = i_inum (rd l ip) ->
    i_din x = dinode_at sb F (i_inum (rd l ip)) -> cache_ok sb F (fs_pid s) (Some ip) (upd l ip x) ->
    Q tt (with_icache (upd l ip x) (with_store t s))) ->
  wp (ilock ip) s Q.
Proof.
  intros l Hsb R Hc Hip Hr HQ. destruct (co_entry _ _ _ _ _ Hc ip Hip Hr) as (Hdev & Hused & Hdin).
  pose proof (co_free _ _ _ _ _ Hc ip Hip ltac:(done)) as Hlk. set (x := rd l ip) in *.
  assert (forall t y, rep t F -> i_ref y = i_ref x -> i_inum y = i_inum x -> i_dev y = ROOTDEV ->
    i_din y = dinode_at sb F (i_inum x) -> i_valid y = true -> i_lock y = mkSleeplock true (fs_pid s) ->
    Q tt (with_icache (upd l ip y) (with_store t s))) as HQ'.
  { intros t y Rt Y1 Y2 Y3 Y4 Y5 Y6. apply HQ; try done. eapply cache_upd; [done | by left | done | lia | |].
    - intros _. rewrite Y2, Y3. do 3 (split; [done|]). intros j Hj.
      rewrite <- Hdev. by apply (entry_unique (fs_pid s) None).
    - split_and!; [done | lia | | done]. rewrite Y6. unfold holdingsleep. cbn. by rewrite Z.eqb_refl. }
  unfold ilock, iget_at, inode_acquire. wp_steps; [unfold inode_at; fold l x; apply Z.ltb_ge; lia|].
  unfold inode_at at 1. fold l x. unfold acquiresleep. rewrite Hlk. apply imod_icache. fold l x.
  wp_step. wp_step. unfold inode_at. cbn [fs_icache with_icache]. rewrite rd_upd_eq by done. cbn [i_valid i_dev i_inum set_i_lock].
  destruct (i_valid x) eqn:Ev; cbn [negb when].
  - wp_step. apply (HQ' (fs_store s)); cbn; auto. 
  - unfold get_sb. wp_steps. cbn [fs_sb with_icache]. rewrite Hsb, Hdev. destruct Hused as [Hin Hty].
    pose proof (to_map _ _ _ Htree) as Hmap. destruct (to_buffers _ _ _ Htree) as [Ht Hb].
    eapply wp_bread; [exact R | by eapply iblock_range | by eapply iblock_unheld | by split |]. intros h t1 Hh R1.
    wp_step. eapply wp_data; [exact R1 | apply lookup_insert_eq|]. cbn [f_view f_hold]. fold (dinode_at sb F (i_inum x)).
    wp_step. apply imod_icache. cbn [fs_icache with_icache with_store]. rewrite rd_upd_eq by done.
    wp_step. eapply (wp_relse_clean _ F h); [exact R1 | done | done|]. intros t2 R2.
    wp_step. apply imod_icache. cbn [fs_icache with_icache with_store]. rewrite rd_upd_eq by (by rewrite upd_lenZ).
    unfold upd. rewrite !list_insert_insert_eq. fold (upd l ip (set_i_valid true (set_i_din (dinode_at sb F (i_inum x))
      (set_i_lock (mkSleeplock true (fs_pid s)) x)))).
    wp_step; [by apply Z.eqb_neq|]. by apply (HQ' t2).
Qed.

Lemma iunlockput_rest s ip (Q : unit -> fs_t S -> Prop) :
  let l := fs_icache s in
  cache_ok sb F (fs_pid s) (Some ip) l ->
  (forall x, i_ref x = i_ref (rd l ip) - 1 -> i_inum x = i_inum (rd l ip) ->
    cache_ok sb F (fs_pid s) None (upd l ip x) -> Q tt (with_icache (upd l ip x) s)) ->
  wp (iunlockput ip) s Q.
Proof.
  intros l Hc HQ. destruct (co_held _ _ _ _ _ Hc ip eq_refl) as (Hip & Hr & Hlk & Hv).
  destruct (co_entry _ _ _ _ _ Hc ip Hip Hr) as (Hdev & Hused & Hdin). destruct (to_file _ _ _ Htree _ Hused) as [_ Hnl].
  set (x := rd l ip) in *. unfold iunlockput, iunlock, inode_release. wp_steps.
  { unfold inode_at. fold l x. rewrite Hlk. cbn. apply Z.ltb_ge. lia. }
  apply imod_icache. fold l x. set (x1 := set_i_lock _ x).
  assert (forall y, i_ref y = i_ref x - 1 \/ i_ref y = i_ref x -> i_inum y = i_inum x -> i_dev y = ROOTDEV -> i_valid y = true ->
    i_din y = i_din x -> sl_locked (i_lock y) = false -> cache_ok sb F (fs_pid s) None (upd l ip y)) as Hu.
  { intros y Y1 Y2 Y3 Y4 Y5 Y6. eapply cache_upd; [exact Hc | by right | done | lia | | done]. intros _. rewrite Y2, Y3, Y5.
    split; [done|]. split; [done|]. split; [by rewrite Hdin|]. intros j Hj. rewrite <- Hdev. by apply (entry_unique (fs_pid s) (Some ip)). }
  pose proof (Hu x1 ltac:(by right) eq_refl Hdev Hv eq_refl eq_refl) as Hc1.
  apply iput_spec; cbn [fs_icache with_icache].
  - apply Hc1.
  - by rewrite upd_lenZ.
  - by rewrite rd_upd_eq.
  - by rewrite rd_upd_eq.
  - rewrite rd_upd_eq by done. left. cbn. by rewrite Hdin.
  - rewrite rd_upd_eq by done. intros lk Hlk2. cbv zeta. intros _. unfold upd. rewrite list_insert_insert_eq.
    fold (upd l ip (set_i_ref (i_ref x1 - 1) (set_i_lock lk x1))). apply HQ; [done | done|]. apply Hu; try done. by left.
Qed.

Lemma iget_rest s held inum (Q : Z -> fs_t S -> Prop) :
  let l := fs_icache s in
  cache_ok sb F (fs_pid s) held l -> inode_used sb F inum -> (exists i, 0 <= i < lenZ l /\ i_ref (rd l i) = 0) ->
  (forall ip x, 0 <= ip < lenZ l -> i_ref x = i_ref (rd l ip) + 1 -> i_inum x = inum ->
    i_inum x = i_inum (rd l ip) \/ i_ref (rd l ip) = 0 ->
    cache_ok sb F (fs_pid s) held (upd l ip x) -> Q ip (with_icache (upd l ip x) s)) ->
  wp (iget ROOTDEV inum) s Q.
Proof.
  intros l [Hok Hfr Hh He] Hused Hun HQ. apply iget_spec; [done | |].
  { destruct Hun as (i & Hi & Hz). eauto. }
  intros ip x Hip Hd Hi Hr Hcase Hok'. fold l in Hip, Hr, Hcase, Hok' |- *. pose proof (ic_ref _ Hok ip Hip) as Hr0.
  assert (i_lock x = i_lock (rd l ip)) as Elk by (destruct Hcase as [[_ ->]|(_ & _ & _ & ->)]; done).
  apply HQ; [done | done | done | destruct Hcase as [[(_ & _ & _ & Hc) _]|(_ & Hz & _)]; [left; congruence | by right] |].
  constructor; [done | | |].
  - intros i Hir Hn. rewrite upd_lenZ in Hir. rewrite rd_upd by lia. case_test; [subst i; rewrite Elk|]; by apply Hfr.
  - intros i Ei. destruct (Hh i Ei) as (H1 & H2 & H3 & H4). rewrite upd_lenZ. split; [done|]. rewrite rd_upd by lia.
    case_test; [|done]. subst i. destruct Hcase as [[_ ->]|(_ & Hz & _)]; [|lia]. cbn. split_and!; [lia | done | done].
  - intros i Hir. rewrite upd_lenZ in Hir. rewrite rd_upd by lia. case_test; [|by apply He]. subst i. intros _.
    rewrite Hi. split; [done|]. split; [done|]. intros Hv. destruct Hcase as [[(_ & Hp & _ & Ec) ->]|(_ & _ & Hv' & _)]; [|congruence].
    rewrite <- Ec. by apply He.
Qed.

(** [dir_get] compares the first 14 characters. *)
Lemma find_ent_key (es : list bytes) k n n' : name_key n = name_key n' -> find_ent es k n = find_ent es k n'.
Proof. intros E. revert k. induction es as [|de es IH]; intros k; cbn [find_ent]; [done|]. rewrite E. repeat case_match; done || apply IH. Qed.
Lemma elems_nonzero path : Forall (fun c => c <> 0) path -> Forall (Forall (fun c => c <> 0)) (elems path).
Proof.
  intros Hp. assert (Forall (Forall (fun c => c <> 0)) (pieces path)) as Hq.
  { induction Hp as [|c p Hc Hp IH]; cbn [pieces]; [by repeat constructor|]. case_match; [by constructor|].
    destruct (pieces p) as [|e es]; [by repeat constructor|]. apply Forall_cons in IH as [??]. by repeat constructor. }
  unfold elems. apply Forall_forall. intros e [_ He]%list_elem_of_filter. by eapply Forall_forall in He.
Qed.
Lemma name_key_elem e : Forall (fun c => c <> 0) e -> name_key e = take (Z.to_nat DIRSIZ) e.
Proof.
  intros He. unfold name_key. apply cstrn_take; [|done|].
  - intros i Hi. apply chr_rd. lia.
  - intros _. unfold chr. by rewrite lookup_ge_None_2 by (unfold lenZ; lia).
Qed.

(** *** The loop *)

(** What [namex] leaves, for the inode [o] that it returns as [r]. *)
Definition walked s l0 (o r : option Z) s' : Prop := exists t l',
  s' = with_icache l' (with_store t s) /\ rep t F /\ cache_ok sb F (fs_pid s) None l' /\ one_more l0 l' r /\
  match o with
  | None => r = None
  | Some j => exists ip, r = Some ip /\ caches l' ip ROOTDEV j
  end.

(** A locked directory. *)
Lemma locked_dir s ip inum l : let din := dinode_at sb F inum in
  fs_sb s = sb -> rep (fs_store s) F -> fs_icache s = l -> 0 <= ip < lenZ l ->
  i_dev (rd l ip) = ROOTDEV /\ i_inum (rd l ip) = inum /\ i_din (rd l ip) = din ->
  inode_used sb F inum -> di_type din = T_DIR -> dir_at rep s ds ip F din.
Proof.
  intros din Hsb R Hl Hip (E1 & E2 & E3) Hused Hdir. destruct (to_dir _ _ _ Htree inum Hused Hdir) as [Hmod _].
  destruct (to_file _ _ _ Htree inum Hused) as [Hvf _].
  constructor; unfold loaded, inode_at; rewrite ?Hl, ?E2, ?Hsb; try done; [|apply (to_buffers _ _ _ Htree)].
  intros y _ [h Hh]. rewrite (to_held _ _ _ Htree) in Hh. by rewrite lookup_empty in Hh.
Qed.

Lemma namex_loop_rest l0 fuel : two_unused l0 -> forall s ip inum path name, let l := fs_icache s in
  fs_sb s = sb -> rep (fs_store s) F -> cache_ok sb F (fs_pid s) None l -> caches l ip ROOTDEV inum -> one_more l0 l (Some ip) ->
  Forall (fun c => c <> 0) path -> lenZ name = DIRSIZ -> (length path <= fuel)%nat ->
  wp (namex_loop dev_read fuel ip path false name) s (fun r s' => walked s l0 (resolve sb F inum (elems path)) r.1 s').
Proof.
  intros Hun. assert (forall s ip inum (name : bytes), let l := fs_icache s in rep (fs_store s) F -> cache_ok sb F (fs_pid s) None l ->
    caches l ip ROOTDEV inum -> one_more l0 l (Some ip) -> wp (ret (Some ip, name)) s (fun r s' => walked s l0 (Some inum) r.1 s')) as Hstop.
  { intros s ip inum name l R Hc Hca Hom. apply wp_ret. exists (fs_store s), l. destruct s. do 4 (split; [done|]). by exists ip. }
  induction fuel as [|fuel IH]; intros s ip inum path name l Hsb R Hc Hca Hom Hz Hname Hlen; cbn [namex_loop].
  - destruct path; [|cbn in Hlen; lia]. change (skipelem [] name) with (@None (bytes * bytes)). by apply Hstop.
  - pose proof (skipelem_spec path name Hz ltac:(lia)) as Hsk. pose proof (elems_nonzero path Hz) as Hez.
    destruct (elems path) as [|e es].
    { rewrite Hsk. by apply Hstop. }
    destruct Hsk as (rest & name' & -> & Hkey & Hn' & Hes & _ & Hlr & Hzr). cbn [resolve andb].
    apply Forall_cons in Hez as [He _].
    destruct Hca as (Hip & Hr & Hdev & Hinum). destruct (co_entry _ _ _ _ _ Hc ip Hip Hr) as (_ & Hused & _).
    wp_step. apply ilock_rest; [done | done | done | done | done|]. intros t x Rt X1 X2 X3 Hc1. fold l in X1, X2, X3, Hc1 |- *.
    pose proof (one_more_same l0 l (Some ip) ip x Hom Hip X1 X2) as Hom1.
    rewrite Hinum in *. set (din := dinode_at sb F inum) in *. unfold iget_at. wp_step. wp_step. unfold inode_at at 1.
    cbn [fs_icache with_icache]. rewrite rd_upd_eq by done. rewrite X3.
    assert (forall t', rep t' F -> wp (iunlockput ip ;;; ret (None, name')) (with_icache (upd l ip x) (with_store t' s))
      (fun r s' => walked s l0 None r.1 s')) as Hput.
    { intros t' Rt'. wp_step. apply iunlockput_rest; [done|]. cbn [fs_icache with_icache fs_pid with_store].
      intros x3 Z1 Z2 Hc3. wp_step. exists t', (upd (upd l ip x) ip x3). do 3 (split; [done|]). split; [|done].
      apply one_more_put; [done | by rewrite upd_lenZ | done | done]. }
    destruct (Z.eqb_spec (di_type din) T_DIR) as [Hdir|]; cbn [negb]; [|by apply Hput].
    destruct (to_dir _ _ _ Htree inum Hused Hdir) as [_ Hents].
    wp_step. eapply (dirlookup_spec (rep := rep) dev_read _ ds ip F din).
    { apply (locked_dir _ ip inum (upd l ip x)); [done | done | done | by rewrite upd_lenZ | | done | done]. rewrite rd_upd_eq by done. split_and!; [|done | done].
      pose proof (co_entry _ _ _ _ _ Hc1 ip) as Hd. rewrite upd_lenZ, rd_upd_eq in Hd by done. by destruct Hd as (Hd & _); [done | lia|]. }
    intros t1 Rt1. unfold dir_get in Hents |- *. rewrite (find_ent_key _ 0 e name') by (by rewrite Hkey, name_key_elem).
    specialize (Hents name'). destruct (find_ent _ 0 name') as [[j k]|]; cbn [fmap option_fmap option_map fst] in *; [|exact (Hput t1 Rt1)].
    apply (iget_rest _ (Some ip)); [done | by apply Hents | by apply (one_more_room l0 _ (Some ip))|]. cbn [fs_icache with_icache fs_pid with_store].
    intros next x2 Hnext Y1 Y2 Y3 Hc2. wp_step. apply iunlockput_rest; [done|]. cbn [fs_icache with_icache fs_pid with_store].
    intros x3 Z1 Z2 Hc3. set (l1 := upd l ip x) in *. set (l3 := upd _ ip x3) in *. set (s3 := with_icache l3 _).
    assert (0 <= ip < lenZ l1) as Hip1 by (unfold l1; by rewrite upd_lenZ).
    assert (0 < i_ref (rd l1 ip)) as Hr1 by (unfold l1; rewrite rd_upd_eq by done; lia).
    pose proof (one_more_next l0 l1 ip next x2 x3 Hom1 Hip1 Hnext Y1 Hr1 Y3 Z1 Z2) as Hom3. fold l3 in Hom3.
    eapply wp_mono; [apply (IH s3 next j rest name'); try done; try lia|].
    + pose proof (om_len _ _ _ Hom3) as El. pose proof (om_len _ _ _ Hom1) as El1. pose proof (om_ref _ _ _ Hom3 next ltac:(lia)) as Er.
      pose proof (ic_ref _ (co_icache _ _ _ _ _ Hc1) next Hnext) as Hn0. rewrite bool_decide_eq_true_2 in Er by done.
      assert (i_inum (rd l3 next) = j) as Ej.
      { unfold l3. rewrite rd_upd by (rewrite ?upd_lenZ; lia). destruct (Z.eqb_spec ip next) as [->|]; [rewrite Z2|]; by rewrite rd_upd_eq. }
      assert (0 < i_ref (rd l3 next)) as Hp3.
      { unfold l3. rewrite rd_upd by (rewrite ?upd_lenZ; lia). destruct (Z.eqb_spec ip next) as [->|]; [rewrite Z1|]; rewrite rd_upd_eq; lia. }
      destruct (co_entry _ _ _ _ _ Hc3 next) as (Hd & _); [lia | done|]. split; [cbn [fs_icache with_icache s3]; lia | done].
    + rewrite Hes. intros r s' (t' & l' & -> & Hw). by exists t', l'.
Qed.

(** *** namei *)

(** The path [path] leads to [o] from the working directory [w]. *)
Definition lookup_path (w : Z) (path : bytes) : option Z :=
  resolve sb F (if chr path 0 =? 47 then ROOTINO else w) (elems path).

(** The reference that [namex] starts from. *)
Lemma start_rest s w path (Q : Z -> fs_t S -> Prop) : let l := fs_icache s in
  let i0 := if chr path 0 =? 47 then ROOTINO else w in
  cache_ok sb F (fs_pid s) None l -> caches l (fs_cwd s) ROOTDEV w -> two_unused l ->
  (forall ip l1, cache_ok sb F (fs_pid s) None l1 -> caches l1 ip ROOTDEV i0 -> one_more l l1 (Some ip) -> Q ip (with_icache l1 s)) ->
  wp (if chr path 0 =? 47 then iget ROOTDEV ROOTINO else cwd <- gets fs_cwd ;; idup cwd) s Q.
Proof.
  intros l i0 Hc Hcwd Hun HQ.
  assert (forall ip x, 0 <= ip < lenZ l -> i_ref x = i_ref (rd l ip) + 1 -> i_inum x = i0 ->
    i_inum x = i_inum (rd l ip) \/ i_ref (rd l ip) = 0 -> cache_ok sb F (fs_pid s) None (upd l ip x) -> Q ip (with_icache (upd l ip x) s)) as HQ'.
  { intros ip x Hip X1 X2 X3 Hc1. pose proof (ic_ref _ (co_icache _ _ _ _ _ Hc) ip Hip) as Hr0. apply HQ; [done | |].
    - pose proof (co_entry _ _ _ _ _ Hc1 ip) as Hd. unfold caches. rewrite upd_lenZ, rd_upd_eq in * by done.
      destruct Hd as (Hd & _); [done | lia|]. split_and!; [lia | lia | lia | done | done].
    - apply one_more_get; [apply one_more_refl | done..]. }
  unfold i0 in *. destruct (chr path 0 =? 47).
  - apply (iget_rest _ None); [done | apply (to_root _ _ _ Htree) | | done]. by apply (one_more_room l l None), one_more_refl.
  - destruct Hcwd as (Hip & Hr & Hd & Hi). wp_steps. unfold idup. wp_step. apply imod_icache. wp_step. fold l.
    apply HQ'; try done; [by left|]. destruct (co_entry _ _ _ _ _ Hc _ Hip Hr) as (_ & E2 & E3).
    eapply cache_upd; [done | by left | done | cbn; lia | | by apply (co_free _ _ _ _ _ Hc)].
    intros _. split; [done|]. split; [done|]. split; [done|]. intros j Hj. by apply (entry_unique (fs_pid s) None).
Qed.

Lemma namei_rest s w path :
  fs_sb s = sb -> rep (fs_store s) F -> cache_ok sb F (fs_pid s) None (fs_icache s) ->
  caches (fs_icache s) (fs_cwd s) ROOTDEV w -> two_unused (fs_icache s) -> Forall (fun c => c <> 0) path ->
  wp (namei dev_read path) s (fun r s' => walked s (fs_icache s) (lookup_path w path) r s').
Proof.
  intros Hsb R Hc Hw Hun Hz. unfold namei, namex. do 2 wp_step. eapply start_rest; [done | done | done|].
  intros ip l1 Hc1 Hca Hom.
  eapply wp_mono; [apply (namex_loop_rest (fs_icache s) (length path) Hun (with_icache l1 s) ip _ path (zeros DIRSIZ) Hsb R Hc1 Hca Hom Hz); done|].
  intros r s' (t & l' & -> & Hr). wp_step. by exists t, l'.
Qed.

(** C0: [namei] on a consistent file system, for a process whose working directory
    is inode [w], with two entries of the inode cache unused: it returns the inode
    that the elements of the path lead to, from the root if the path starts with a
    slash, with one more reference to it; or 0 if a directory on the way is not one
    or has no such entry.  The disk and the locks are as before, every other entry
    of the cache has as many references as before, and an entry in use keeps its
    inode. *)
Theorem namei_correct s w path :
  fs_sb s = sb -> rep (fs_store s) F -> cache_ok sb F (fs_pid s) None (fs_icache s) ->
  caches (fs_icache s) (fs_cwd s) ROOTDEV w -> two_unused (fs_icache s) -> Forall (fun c => c <> 0) path ->
  wp (namei dev_read path) s (fun r s' => walked s (fs_icache s) (lookup_path w path) r s').
Proof. exact (namei_rest s w path). Qed.
End path.
