(* ===== verification/FsDemo.v ===== *)
(** * A small file system

    A disk with a root directory (inode 1) and a file "a" (inode 2), on which
    the theorems about fs.c are applied: log at blocks 2 to 9, inodes in block
    10, free map in block 11, data from block 12. *)

From S2P Require Import Prelude Bytes Sleeplock Store Bio Log Txn Storage Fs FsBlock FsFile FsIo FsInode FsTrunc FsDir.

Definition dm_sb : superblock := mkSb 24 12 8 8 2 10 11.
Definition dm_dir : dinode := mkDinode T_DIR 0 0 1 48 (12 :: replicate 12 0).
Definition dm_file : dinode := mkDinode T_FILE 0 0 1 5 (13 :: replicate 12 0).
Definition dm_dirent (inum : Z) (name : bytes) : bytes :=
  le16 inum ++ name ++ zeros (14 - lenZ name).
Definition dm_disk (b : Z) : bytes :=
  if b =? 10 then dinode_put (dinode_put (zeros 512) 64 dm_dir) 128 dm_file
  else if b =? 11 then blit (zeros 512) 0 [255; 63]
  else if b =? 12 then
    blit (zeros 512) 0 (dm_dirent 1 [46] ++ dm_dirent 1 [46; 46] ++ dm_dirent 2 [97])
  else if b =? 13 then blit (zeros 512) 0 [104; 101; 108; 108; 111]
  else zeros 512.

(** The store, inside a transaction. *)
Definition dm_F : fstore := mkFstore 24 2 10 dm_disk ∅ ∅ ∅ 1.
Definition dm_kernel : kernel := mkLsys (boot_log 2 8 1) (booted 24 dm_disk).

(** Both inodes are in the cache; process 1 holds the lock of the file in
    [dm_fs] and the lock of the directory in [dm_dfs]. *)
Definition dm_icache : list inode :=
  [ mkInode ROOTDEV 1 1 initsleeplock true dm_dir;
    mkInode ROOTDEV 2 1 (mkSleeplock true 1) true dm_file;
    inode0 ].
Definition dm_dicache : list inode :=
  [ mkInode ROOTDEV 1 1 (mkSleeplock true 1) true dm_dir;
    mkInode ROOTDEV 2 1 initsleeplock true dm_file;
    inode0 ].
Definition dm_fs : fs_t kernel := mkFs dm_sb dm_icache 1 0 dm_kernel.
Definition dm_dfs : fs_t kernel := mkFs dm_sb dm_dicache 1 0 dm_kernel.

Lemma dm_rep : log_rep (rep := brep) (fs_store dm_fs) dm_F.
Proof.
  apply (boot_kernel_rep 24 dm_disk 2 8 1); try lia; [|vm_compute; reflexivity].
  intros b Hb. 
  assert (E : forallb (fun b => (lenZ (dm_disk b) =? 512) && forallb (fun x => (0 <=? x) && (x <? 256)) (dm_disk b)) (seqZ 0 24) = true)
    by (vm_compute; reflexivity).
  pose proof (forallb_seqZ _ _ _ E b ltac:(lia)) as H. apply andb_true_iff in H as [H1 H2].
  split; [by apply Z.eqb_eq in H1|]. apply Forall_forall. intros x Hx.
  rewrite forallb_forall in H2. apply list_elem_of_In in Hx. apply H2 in Hx. bool_to_prop. lia.
Qed.

Lemma dm_used b : 0 <= b < 24 -> bit_of dm_sb dm_disk b = (b <? 14).
Proof.
  intros Hb. apply eqb_prop. revert b Hb. apply (forallb_seqZ _ 0 24). vm_compute. reflexivity.
Qed.

Lemma dm_map : map_ok dm_sb dm_F 12.
Proof.
  split.
  - split; cbn; try lia; try (vm_compute; congruence).
  - intros x Hx. unfold used. cbn [f_view dm_F]. rewrite dm_used by lia. test_solver.
  - intros x [h Hh]. cbn in Hh. by rewrite lookup_empty in Hh.
Qed.

Lemma dm_valid inum din :
  0 <= inum < 8 -> dinode_at dm_sb dm_F inum = din -> dinode_ok din ->
  file_ok dm_sb 12 dm_F din (blocks (di_size din)) ->
  valid_file dm_sb 12 dm_F inum din.
Proof. intros. split; try done. apply dm_map. Qed.

(** A one-block file whose block is [b]. *)
Lemma dm_file_ok din b :
  di_addrs din = b :: replicate 12 0 -> 0 < di_size din <= 512 -> 12 <= b < 14 ->
  file_ok dm_sb 12 dm_F din (blocks (di_size din)).
Proof.
  intros Ha Hs Hb. assert (Hbl : blocks (di_size din) = 1) by (unfold blocks; change BSIZE with 512; zlia).
  assert (Hind : ind_addr din = 0) by (unfold ind_addr; by rewrite Ha).
  assert (H0 : blk (f_view dm_F) din 0 = b) by (unfold blk; cbn; by rewrite Ha).
  rewrite Hbl. split.
  - by rewrite Ha.
  - change MAXFILE with 140. lia.
  - intros i Hi. replace i with 0 by lia. rewrite H0. split; [cbn; lia|].
    unfold used. cbn [f_view dm_F]. rewrite dm_used by lia. test_solver.
  - intros i Hi. unfold blk. rewrite Hind, Ha. cbn [Z.eqb]. destruct (Z.ltb_spec i NDIRECT); [|done].
    unfold rd. replace (Z.to_nat i) with (S (Z.to_nat (i - 1))) by lia. cbn.
    apply (lookup_total_replicate_2 12). change NDIRECT with 12 in *. lia.
  - intros. lia.
  - by left.
Qed.

Lemma dm_dir_valid : valid_file dm_sb 12 dm_F 1 dm_dir.
Proof.
  apply (dm_valid 1 dm_dir); [lia|vm_compute; reflexivity| |apply (dm_file_ok _ 12); [reflexivity|cbn; lia|lia]].
  unfold dm_dir, dm_file, T_DIR, T_FILE. split; try done; try (cbn; lia). apply Forall_cons. split; [lia|]. apply Forall_replicate. lia.
Qed.
Lemma dm_file_valid : valid_file dm_sb 12 dm_F 2 dm_file.
Proof.
  apply (dm_valid 2 dm_file); [lia|vm_compute; reflexivity| |apply (dm_file_ok _ 13); [reflexivity|cbn; lia|lia]].
  unfold dm_dir, dm_file, T_DIR, T_FILE. split; try done; try (cbn; lia). apply Forall_cons. split; [lia|]. apply Forall_replicate. lia.
Qed.

Lemma dm_loaded_dir : loaded dm_dfs 0 dm_dir.
Proof. split_and!; [unfold lenZ; cbn; lia|reflexivity|reflexivity..]. Qed.
Lemma dm_loaded_file : loaded dm_fs 1 dm_file.
Proof. split_and!; [unfold lenZ; cbn; lia|reflexivity|reflexivity..]. Qed.

Lemma dm_unheld din nb : unheld dm_F din nb.
Proof. intros y _ [h Hh]. cbn in Hh. by rewrite lookup_empty in Hh. Qed.
Lemma dm_buffers : buffers dm_F 1.
Proof. split; [reflexivity|]. vm_compute. congruence. Qed.
Lemma dm_budget k h : k <= 7 -> k + h <= 30 -> budget dm_F k h.
Proof.
  intros. split; try reflexivity; change (Z.of_nat (size (f_log dm_F))) with 0;
    change (Z.of_nat (size (f_held dm_F))) with 0; change (f_max dm_F) with 7; change NBUF with 30; cbn; lia.
Qed.
Lemma dm_free k : k <= 10 -> has_free dm_sb dm_F k.
Proof.
  intros Hk. exists (list_to_set (seqZ 14 10)). split.
  - replace (size _) with 10%nat by (vm_compute; reflexivity). lia.
  - intros x Hx. apply elem_of_list_to_set, elem_of_seqZ in Hx. split; [cbn; lia|].
    unfold used. cbn [f_view dm_F]. rewrite dm_used by lia. test_solver.
Qed.

(** ** The theorems applied *)

Abbreviation krep := (log_rep (rep := brep)).

Lemma balloc_correct_witness :
  wp (balloc ROOTDEV) dm_fs (fun a s' => a = 14 /\ 12 <= 14 /\
    exists t F', s' = with_store t dm_fs /\ krep t F' /\ map_ok dm_sb F' 12 /\
      f_view F' 14 = zeros BSIZE /\
      (forall y, 0 <= y < 24 -> used dm_sb F' y <-> y = 14 \/ used dm_sb dm_F y) /\
      (forall y, y < 11 \/ 12 <= y -> y <> 14 -> f_view F' y = dm_disk y)).
Proof.
  apply (balloc_correct (rep := krep) dm_sb dm_F 12 14 dm_fs dm_rep eq_refl dm_map).
  - apply dm_budget; lia.
  - cbn. lia.
  - unfold used. cbn [f_view dm_F]. rewrite dm_used by lia. test_solver.
  - intros y Hy. unfold used. cbn [f_view dm_F]. rewrite dm_used by lia. test_solver.
Defined.

Lemma bfree_correct_witness :
  wp (bfree ROOTDEV 13) dm_fs (fun _ s' =>
    exists t F', s' = with_store t dm_fs /\ krep t F' /\ map_ok dm_sb F' 12 /\
      (forall y, 0 <= y < 24 -> used dm_sb F' y <-> y <> 13 /\ used dm_sb dm_F y) /\
      (forall y, y < 11 \/ 12 <= y -> f_view F' y = dm_disk y)).
Proof.
  apply (bfree_correct (rep := krep) dm_sb dm_F 12 13 dm_fs dm_rep eq_refl dm_map).
  - apply dm_budget; lia.
  - cbn. lia.
  - unfold used. cbn [f_view dm_F]. rewrite dm_used by lia. test_solver.
  - intros [h Hh]. cbn in Hh. by rewrite lookup_empty in Hh.
Defined.

Definition no_dev_read (m : Z) : option (Z -> Z -> ST (fs_t kernel) (Z * bytes)) := None.
Definition no_dev_write (m : Z) : option (Z -> bytes -> ST (fs_t kernel) Z) := None.

Lemma readi_correct_witness :
  wp (readi no_dev_read 1 1 3) dm_fs (fun r s' =>
    r = (3, [101; 108; 108]) /\ exists t, s' = with_store t dm_fs /\ krep t dm_F).
Proof.
  assert (E : (if (5 <? 1) || (UINT_LIM <=? 1 + 3) then (-1, [])
     else let data := slice (contents dm_F dm_file) 1 3 in (lenZ data, data)) = (3, [101; 108; 108]))
    by (vm_compute; reflexivity).
  rewrite <- E.
  apply (readi_correct (rep := krep) no_dev_read dm_fs dm_F 12 1 dm_file 1 3 dm_rep dm_file_valid
    dm_loaded_file (dm_unheld _ _) dm_buffers); [discriminate|unfold UINT_LIM; lia..].
Defined.

Lemma writei_correct_witness :
  wp (writei no_dev_write 1 [33; 33] 5) dm_fs (fun r s' => r = 2 /\
    exists t F' din', s' = with_file t 1 din' dm_fs /\ krep t F' /\
      written dm_sb 12 dm_F 2 dm_file [33; 33] 5 F' din').
Proof.
  apply (writei_correct (rep := krep) no_dev_write dm_fs dm_F 12 1 dm_file [33; 33] 5 dm_rep
    dm_file_valid dm_loaded_file (dm_unheld _ _)).
  - discriminate.
  - repeat constructor; lia.
  - cbn. lia.
  - change (5 + 2 <= 140 * 512). lia.
  - apply dm_budget; change (span 5 (lenZ [33; 33])) with 1; lia.
  - apply dm_free. change (span 5 (lenZ [33; 33])) with 1. lia.
Defined.

Lemma writei_rejects_witness :
  writei no_dev_write 1 [33; 33] 6 dm_fs = Ok (-1, dm_fs).
Proof.
  apply (writei_rejects no_dev_write dm_fs 1 [33; 33] 6).
  - discriminate.
  - unfold UINT_LIM. lia.
  - unfold UINT_LIM, lenZ. cbn. lia.
  - left. reflexivity.
Defined.

(** The cache entries of [dm_dfs]: index 0 for inode 1, index 1 for inode 2. *)
Lemma dm_caches i dev inum :
  caches dm_dicache i dev inum -> dev = ROOTDEV /\ (i = 0 /\ inum = 1 \/ i = 1 /\ inum = 2).
Proof.
  intros (Hi & Hr & <- & <-). change (lenZ dm_dicache) with 3 in Hi.
  assert (i = 0 \/ i = 1 \/ i = 2) as [->|[->| ->]] by lia; [auto|auto|]. exfalso. vm_compute in Hr. discriminate.
Qed.
Lemma dm_icache_ok : icache_ok dm_dicache.
Proof.
  split.
  - intros i j dev inum H1 H2. apply dm_caches in H1, H2. lia.
  - intros i Hi. change (lenZ dm_dicache) with 3 in Hi.
    assert (i = 0 \/ i = 1 \/ i = 2) as [->|[->| ->]] by lia; vm_compute; discriminate.
Qed.
Lemma dm_room inum : iget_room dm_dicache inum.
Proof. exists 2. split; [change (lenZ dm_dicache) with 3; lia|]. by right. Qed.

Lemma dm_dir_at : dir_at krep dm_dfs 12 0 dm_F dm_dir.
Proof.
  split; [apply dm_rep|apply dm_dir_valid|apply dm_loaded_dir|apply dm_unheld|apply dm_buffers|reflexivity|reflexivity].
Qed.

Lemma iget_correct_witness :
  wp (iget ROOTDEV 2) dm_dfs (fun ip s' => caches (fs_icache s') ip ROOTDEV 2 /\ icache_ok (fs_icache s')).
Proof.
  eapply wp_mono; [apply (iget_correct dm_dfs ROOTDEV 2 dm_icache_ok (dm_room 2))|].
  intros ip s' (_ & Hok & _ & Hc & _). exact (conj Hc Hok).
Defined.

Lemma itrunc_correct_witness :
  wp (itrunc 1) dm_fs (fun _ s' => exists t F',
    s' = with_file t 1 (empty_din dm_file) dm_fs /\ krep t F' /\ truncated dm_sb 12 dm_F 2 dm_file F').
Proof.
  apply (itrunc_correct (rep := krep) dm_fs dm_F 12 1 dm_file dm_rep dm_file_valid dm_loaded_file (dm_unheld _ _)).
  - rewrite BPB_val. cbn. lia.
  - apply dm_budget; lia.
Defined.

(** "a" *)
Lemma dirlookup_correct_witness :
  wp (dirlookup no_dev_read 0 [97]) dm_dfs (fun r s' => exists ip off,
    r = Some (ip, off) /\ caches (fs_icache s') ip ROOTDEV 2).
Proof.
  assert (E : dir_get (contents dm_F dm_dir) [97] = Some 2) by (vm_compute; reflexivity).
  eapply wp_mono; [apply (dirlookup_correct (rep := krep) no_dev_read dm_dfs 12 0 dm_F dm_dir [97]
    dm_dir_at dm_icache_ok); intros inum _; apply dm_room|].
  cbn beta. rewrite E. intros r s' (t & _ & ip & off & l' & -> & -> & _ & Hc & _). exists ip, off. exact (conj eq_refl Hc).
Defined.

(** "b" *)
Lemma dirlink_correct_witness :
  wp (dirlink no_dev_read no_dev_write 0 [98] 5) dm_dfs (fun r s' => r = 0 /\
    exists t F' din' off, s' = with_file t 0 din' dm_dfs /\ dir_at krep s' 12 0 F' din' /\
      (forall name', dir_get (contents F' din') name' =
         if bool_decide (name_key name' = name_key [98]) then Some (u16 5)
         else dir_get (contents dm_F dm_dir) name') /\
      written dm_sb 12 dm_F 1 dm_dir (mk_dirent [98] 5) off F' din').
Proof.
  apply (dirlink_correct (rep := krep) no_dev_read no_dev_write dm_dfs 12 0 dm_F dm_dir [98] 5 dm_dir_at).
  - vm_compute. reflexivity.
  - discriminate.
  - repeat constructor; lia.
  - vm_compute. discriminate.
  - apply dm_budget; lia.
  - apply dm_free. lia.
Defined.


(** "/a//bb" *)
Lemma skipelem_correct_witness :
  skipelem [47; 97; 47; 47; 98; 98] (zeros 14) = Some ([98; 98], upd (blit (zeros 14) 0 [97]) 1 0).
Proof.
  assert (Hz : Forall (fun c => c <> 0) [47; 97; 47; 47; 98; 98]) by (repeat constructor; lia).
  destruct (skipelem_correct [47; 97; 47; 47; 98; 98] (zeros 14) Hz ltac:(done)) as (rest & name' & E & _).
  rewrite E. symmetry. rewrite <- E. vm_compute. reflexivity.
Defined.
