(* ===== verification/Exec.v ===== *)
(** * Program loading (src/xv6/exec.c): definitions

    [exec] for the current process: the pages of the machine ([Vm.v]), a file
    system, and the fields of the process that [exec] replaces.  The operations
    of the file system are a class; its instance for fs.c is at the end.  The
    message that [exec] prints when there is no such file is not represented. *)

From S2P Require Import Prelude Bytes Cstring Proc Kalloc Vm Store Log Txn Fs.

(** elf.h: the fields of [struct elfhdr] and [struct proghdr] that [exec] reads. *)
Definition ELF_MAGIC : Z := 1179403647.
Definition ELF_PROG_LOAD : Z := 1.
Definition SIZEOF_ELFHDR : Z := 52.
Definition SIZEOF_PROGHDR : Z := 32.
Record elfhdr := mkElf { elf_magic : Z; elf_entry : Z; elf_phoff : Z; elf_phnum : Z }.
Definition elf_get (d : bytes) : elfhdr := mkElf (get32 d 0) (get32 d 24) (get32 d 28) (get16 d 44).
Record proghdr := mkPh { ph_type : Z; ph_off : Z; ph_vaddr : Z; ph_filesz : Z; ph_memsz : Z }.
Definition ph_get (d : bytes) : proghdr :=
  mkPh (get32 d 0) (get32 d 4) (get32 d 8) (get32 d 16) (get32 d 20).

Definition MAXARG : Z := 32.

(** What [exec] calls of log.c and fs.c. *)
Class ExecFs (K : Type) := {
  x_begin_op : ST K unit;
  x_end_op : ST K unit;
  x_namei : bytes -> ST K (option Z);
  x_ilock : Z -> ST K unit;
  x_readi : Z -> Z -> Z -> ST K (Z * bytes);
  x_iunlockput : Z -> ST K unit;
}.

(** The fields of [curproc]; [xp_eip] and [xp_esp] are those of its trap frame. *)
Record xproc := mkXp { xp_pgdir : Z; xp_sz : Z; xp_kstack : Z; xp_eip : Z; xp_esp : Z; xp_name : bytes }.
(** What the processor uses: the page directory and the kernel stack. *)
Record xcpu := mkCpu { xc_cr3 : Z; xc_esp0 : Z }.
Record xsys (K : Type) := mkX { xs_vm : vm_t; xs_fs : K; xs_proc : xproc; xs_cpu : xcpu }.
Arguments mkX {K} _ _ _ _.
Arguments xs_vm {K} _.
Arguments xs_fs {K} _.
Arguments xs_proc {K} _.
Arguments xs_cpu {K} _.

(** The last element of a path: the loop of [exec] over [path]. *)
Fixpoint last_elem (s last : bytes) : bytes :=
  match s with
  | [] => last
  | c :: s => last_elem s (if c =? 47 then s else last)
  end.

Section exec.
Context (kend kdata : Z).
Context {K : Type} `{ExecFs K}.
Abbreviation sys := (xsys K).

Definition xvm {A} (m : ST vm_t A) : ST sys A :=
  zoom xs_vm (fun v s => mkX v (xs_fs s) (xs_proc s) (xs_cpu s)) m.
Definition xfs {A} (m : ST K A) : ST sys A :=
  zoom xs_fs (fun k s => mkX (xs_vm s) k (xs_proc s) (xs_cpu s)) m.
Definition xboth {A} (m : ST (vm_t * K) A) : ST sys A :=
  zoom (fun s => (xs_vm s, xs_fs s)) (fun t s => mkX t.1 t.2 (xs_proc s) (xs_cpu s)) m.

(** [switchuvm]: the constant fields of the task segment are not represented. *)
Definition switchuvm : ST sys unit :=
  p <- gets xs_proc ;;
  panic_if (xp_kstack p =? 0) "switchuvm: no kstack" ;;;
  panic_if (xp_pgdir p =? 0) "switchuvm: no pgdir" ;;;
  modify (fun s => mkX (xs_vm s) (xs_fs s) (xs_proc s)
    (mkCpu (V2P (xp_pgdir p)) (u32 (xp_kstack p + KSTACKSIZE)))).

(** The label [bad]. *)
Definition exec_bad (pgdir : Z) (ip : option Z) : ST sys Z :=
  when (negb (pgdir =? 0)) (xvm (freevm kend pgdir)) ;;;
  match ip with
  | Some ip => xfs (x_iunlockput ip) ;;; xfs x_end_op
  | None => ret tt
  end ;;;
  ret (-1).

(** The loop over the program headers, with [n] of them left: the size of the
    image, or [None] for a jump to [bad]. *)
Fixpoint exec_load (n : nat) (pgdir ip off sz : Z) : ST sys (option Z) :=
  match n with
  | O => ret (Some sz)
  | S n =>
      r <- xfs (x_readi ip off SIZEOF_PROGHDR) ;;
      if negb (r.1 =? SIZEOF_PROGHDR) then ret None else
      let ph := ph_get r.2 in
      let off' := u32 (off + SIZEOF_PROGHDR) in
      if negb (ph_type ph =? ELF_PROG_LOAD) then exec_load n pgdir ip off' sz else
      if ph_memsz ph <? ph_filesz ph then ret None else
      if u32 (ph_vaddr ph + ph_memsz ph) <? ph_vaddr ph then ret None else
      sz <- xvm (allocuvm kend pgdir sz (u32 (ph_vaddr ph + ph_memsz ph))) ;;
      if sz =? 0 then ret None else
      if negb (ph_vaddr ph mod PGSIZE =? 0) then ret None else
      r <- xboth (loaduvm pgdir (ph_vaddr ph) (x_readi ip) (ph_off ph) (ph_filesz ph)) ;;
      if r <? 0 then ret None else
      exec_load n pgdir ip off' sz
  end.

(** The loop over the arguments: the stack pointer and the addresses of the
    strings, [ustack[3..]], or [None] for a jump to [bad]. *)
Fixpoint exec_push (argv : list bytes) (pgdir sp : Z) (ptrs : list Z) : ST vm_t (option (Z * list Z)) :=
  match argv with
  | [] => ret (Some (sp, ptrs))
  | arg :: argv =>
      if MAXARG <=? lenZ ptrs then ret None else
      let sp := Z.land (u32 (sp - (lenZ arg + 1))) (u32 (Z.lnot 3)) in
      r <- copyout pgdir sp (arg ++ [0]) ;;
      if r <? 0 then ret None else
      exec_push argv pgdir sp (ptrs ++ [sp])
  end.

(** The array [ustack] for the stack pointer [sp]. *)
Definition ustack (sp : Z) (ptrs : list Z) : list Z :=
  [4294967295; lenZ ptrs; u32 (sp - (lenZ ptrs + 1) * 4)] ++ ptrs ++ [0].
Definition words (l : list Z) : bytes := concat (le32 <$> l).

(** From the name of the program on. *)
Definition exec_commit (path : bytes) (pgdir sz entry sp : Z) : ST sys Z :=
  old <- gets (fun s => xp_pgdir (xs_proc s)) ;;
  modify (fun s => let p := xs_proc s in
    mkX (xs_vm s) (xs_fs s)
      (mkXp pgdir sz (xp_kstack p) entry sp (safestrcpy_arr (xp_name p) (last_elem path path) 16)) (xs_cpu s)) ;;;
  switchuvm ;;;
  xvm (freevm kend old) ;;;
  ret 0.

(** From the user stack on. *)
Definition exec_stack (path : bytes) (argv : list bytes) (pgdir entry sz : Z) : ST sys Z :=
  let sz := PGROUNDUP sz in
  sz <- xvm (allocuvm kend pgdir sz (u32 (sz + 2 * PGSIZE))) ;;
  if sz =? 0 then exec_bad pgdir None else
  xvm (clearpteu pgdir (u32 (sz - 2 * PGSIZE))) ;;;
  o <- xvm (exec_push argv pgdir sz []) ;;
  match o with
  | None => exec_bad pgdir None
  | Some (sp, ptrs) =>
      let sp' := u32 (sp - (3 + lenZ ptrs + 1) * 4) in
      r <- xvm (copyout pgdir sp' (words (ustack sp ptrs))) ;;
      if r <? 0 then exec_bad pgdir None else
      exec_commit path pgdir sz entry sp'
  end.

Definition exec (path : bytes) (argv : list bytes) : ST sys Z :=
  xfs x_begin_op ;;;
  o <- xfs (x_namei path) ;;
  match o with
  | None => xfs x_end_op ;;; ret (-1)
  | Some ip =>
      xfs (x_ilock ip) ;;;
      r <- xfs (x_readi ip 0 SIZEOF_ELFHDR) ;;
      if negb (r.1 =? SIZEOF_ELFHDR) then exec_bad 0 (Some ip) else
      let elf := elf_get r.2 in
      if negb (elf_magic elf =? ELF_MAGIC) then exec_bad 0 (Some ip) else
      pgdir <- xvm (setupkvm kend kdata) ;;
      if pgdir =? 0 then exec_bad 0 (Some ip) else
      o <- exec_load (Z.to_nat (elf_phnum elf)) pgdir ip (elf_phoff elf) 0 ;;
      match o with
      | None => exec_bad pgdir (Some ip)
      | Some sz =>
          xfs (x_iunlockput ip) ;;;
          xfs x_end_op ;;;
          exec_stack path argv pgdir (elf_entry elf) sz
      end
  end.
End exec.

(** fs.c *)
Section inst.
Context {S : Type} `{TxnStore S}.
Context (dev_read : Z -> option (Z -> Z -> ST (fs_t S) (Z * bytes))).
Definition fs_exec : ExecFs (fs_t S) := {|
  x_begin_op := st tbegin_op;
  x_end_op := st tend_op;
  x_namei := namei dev_read;
  x_ilock := ilock;
  x_readi := readi dev_read;
  x_iunlockput := iunlockput;
|}.
End inst.
