(* ===== verification/ExecSpec.v ===== *)
(** * Program loading: specification

    [exec] either returns -1 with the process and every page as before, or it
    replaces the address space by one that holds the image that the program
    headers describe, a page that the process cannot use, and a stack with the
    arguments.  The file system is only known by the laws of [ExecLaws]. *)

From S2P Require Import Prelude Bytes Cstring Proc Kalloc Vm VmSpec VmUser VmSpace VmMem VmFork Exec.

(** What [exec] relies on: [path] leads to a file with the contents [file], or to
    none. *)
Class ExecLaws (K : Type) `{ExecFs K} (path : bytes) (file : option bytes) := {
  xl_idle : K -> Prop;
  xl_busy : K -> Prop;
  xl_found : Z -> K -> Prop;
  xl_locked : Z -> K -> Prop;
  xlaw_file c : file = Some c -> lenZ c < UINT_LIM /\ bytes_ok c;
  xlaw_begin k : xl_idle k -> wp x_begin_op k (fun _ k' => xl_busy k');
  xlaw_end k : xl_busy k -> wp x_end_op k (fun _ k' => xl_idle k');
  xlaw_namei k : xl_busy k -> wp (x_namei path) k (fun o k' =>
    match o, file with
    | None, None => xl_busy k'
    | Some ip, Some _ => xl_found ip k'
    | _, _ => False
    end);
  xlaw_ilock ip k : xl_found ip k -> wp (x_ilock ip) k (fun _ k' => xl_locked ip k');
  xlaw_readi c ip k off n : file = Some c -> xl_locked ip k -> 0 <= off < UINT_LIM -> 0 <= n < UINT_LIM ->
    wp (x_readi ip off n) k (fun r k' => r = file_read c off n /\ xl_locked ip k');
  xlaw_put ip k : xl_locked ip k -> wp (x_iunlockput ip) k (fun _ k' => xl_busy k');
}.

(** ** The image *)

(** The segment of a program header, over the image of the earlier ones. *)
Definition seg_ok (c : bytes) (ph : proghdr) : bool :=
  (ph_filesz ph <=? ph_memsz ph) && (ph_vaddr ph + ph_memsz ph <? KERNBASE) && (ph_vaddr ph mod 4096 =? 0) &&
  ((ph_filesz ph =? 0) || (ph_off ph + ph_filesz ph <=? lenZ c)).
Definition seg_over (c : bytes) (ph : proghdr) (img : Z -> Z) (a : Z) : Z :=
  if (ph_vaddr ph <=? a) && (a <? ph_vaddr ph + ph_filesz ph) then rd c (ph_off ph + (a - ph_vaddr ph)) else img a.

(** The size and the bytes of the image that [n] program headers at [off] describe. *)
Fixpoint load_image (c : bytes) (n : nat) (off sz : Z) (img : Z -> Z) : option (Z * (Z -> Z)) :=
  match n with
  | O => Some (sz, img)
  | S n =>
      if lenZ c <? off + 32 then None else
      let ph := ph_get (slice c off 32) in
      if negb (ph_type ph =? ELF_PROG_LOAD) then load_image c n (off + 32) sz img else
      let sz := Z.max sz (ph_vaddr ph + ph_memsz ph) in
      if seg_ok c ph && negb (sz =? 0) then load_image c n (off + 32) sz (seg_over c ph img) else None
  end.

(** The addresses of the strings and the stack pointer, in the page below [top]. *)
Fixpoint push_args (top sp : Z) (argv : list bytes) (ptrs : list Z) : option (Z * list Z) :=
  match argv with
  | [] => Some (sp, ptrs)
  | arg :: argv =>
      if MAXARG <=? lenZ ptrs then None else
      let sp := (sp - (lenZ arg + 1)) / 4 * 4 in
      if sp <? top - 4096 then None else push_args top sp argv (ptrs ++ [sp])
  end.
(** The stack of the new program: the pointer, and the addresses of the strings. *)
Definition stack_layout (top : Z) (argv : list bytes) : option (Z * list Z) :=
  match push_args top top argv [] with
  | None => None
  | Some (sp, ptrs) =>
      let sp := sp - 4 * (lenZ ptrs + 4) in
      if sp <? top - 4096 then None else Some (sp, ptrs)
  end.

(** The program that [exec] makes of a file: the entry point, the image and its size,
    the stack pointer and the addresses of the arguments. *)
Record image := mkImage { im_entry : Z; im_size : Z; im_bytes : Z -> Z; im_sp : Z; im_ptrs : list Z }.
Definition im_top (sz : Z) : Z := pages sz * 4096 + 8192.
Definition stack_image (entry sz : Z) (img : Z -> Z) (argv : list bytes) : option image :=
  if KERNBASE <=? im_top sz then None else
  match stack_layout (im_top sz) argv with
  | None => None
  | Some (sp, ptrs) => Some (mkImage entry sz img sp ptrs)
  end.
Definition exec_image (file : option bytes) (argv : list bytes) : option image :=
  match file with
  | None => None
  | Some c =>
      let elf := elf_get (slice c 0 SIZEOF_ELFHDR) in
      if (lenZ c <? SIZEOF_ELFHDR) || negb (elf_magic elf =? ELF_MAGIC) then None else
      match load_image c (Z.to_nat (elf_phnum elf)) (elf_phoff elf) 0 (fun _ => 0) with
      | None => None
      | Some (sz, img) => stack_image (elf_entry elf) sz img argv
      end
  end.

(** The process reads the bytes [l] at [va]. *)
Definition holds (s : vm_t) (pgdir va : Z) (l : bytes) : Prop :=
  forall k, 0 <= k < lenZ l -> umem s pgdir (va + k) = Some (rd l k).

Section spec.
Context (kend : Z).
Hypothesis Hkend : KERNBASE < kend.

(** The address space has [sz] bytes of memory, with the contents [img]. *)
Record loading (s0 s : vm_t) (pgdir sz : Z) (img : Z -> Z) : Prop := {
  ld_space : new_space kend s0 s pgdir;
  ld_size : 0 <= sz < KERNBASE;
  ld_page : forall m, 0 <= m < pages sz -> present (pte_of s pgdir m) /\ user_page s pgdir m;
  ld_none : forall m, pages sz <= m < UPAGES -> ~ present (pte_of s pgdir m);
  ld_mem : forall va, 0 <= va < pages sz * 4096 -> umem s pgdir va = Some (img va);
  ld_zero : forall va, pages sz * 4096 <= va -> img va = 0;
}.

Lemma flags_user e : PTE_FLAGS e = 7 -> Z.land e PTE_U <> 0.
Proof.
  unfold PTE_FLAGS, PTE_U. intros E H. assert (Z.land (Z.land e 4095) 4 = 4) as E' by (by rewrite E).
  rewrite <- Z.land_assoc in E'. change (Z.land 4095 4) with 4 in E'. lia.
Qed.

(** [allocuvm] *)
Lemma loading_alloc s0 s pgdir sz img newsz : free_ok kend s0 -> loading s0 s pgdir sz img -> sz <= newsz < KERNBASE ->
  wp (allocuvm kend pgdir sz newsz) s (fun r s' =>
    r = newsz /\ loading s0 s' pgdir newsz img \/ r = 0 /\ new_space kend s0 s' pgdir /\ short s0 (pages newsz)).
Proof.
  intros Hf0 [Hs Hsz Hp Hn Hm Hz] Hnew. pose proof (pages_range sz ltac:(lia)) as P1.
  pose proof (pages_range newsz ltac:(lia)) as P2. pose proof (pages_mono sz newsz ltac:(lia)) as P3.
  assert (forall m, pages sz <= m < pages newsz -> ~ present (pte_of s pgdir m)) as Hno by (intros m H; apply Hn; lia).
  eapply wp_mono; [apply (allocuvm_spec kend Hkend s pgdir sz newsz (ns_ok _ _ _ _ Hs) (ns_user _ _ _ _ Hs)); [lia | lia | done]|]. intros r s' [[-> Hg]|(-> & Hu & Hst)]; [left | right]; (split; [done|]).
  2: { split; [apply (new_space_undone kend s0 s s' pgdir (pages sz) (pages newsz)); try done; lia|].
       apply (starved_short kend s0 s pgdir (pages sz)); try done; lia. }
  assert (forall m, 0 <= m < UPAGES -> ~ (pages sz <= m < pages newsz) -> pte_of s' pgdir m = pte_of s pgdir m) as Hmap.
  { intros m Hr Hno'. apply (g_map _ _ _ _ _ _ _ Hg); [unfold vpn, UPAGES in *; lia | done]. }
  constructor.
  - apply (new_space_grown kend s0 s s' pgdir (pages sz) (pages newsz)); try done; lia.
  - lia.
  - intros m Hr. destruct (decide (pages sz <= m)) as [Hle|Hle].
    + destruct (g_new _ _ _ _ _ _ _ Hg m ltac:(lia)) as (G1 & G2 & _). split; [done | by apply flags_user].
    + unfold user_page. rewrite Hmap by lia. apply Hp. lia.
  - intros m Hr. rewrite Hmap by lia. apply Hn. lia.
  - intros va Hv. unfold umem, page_data, addr_of. destruct (decide (pages sz <= va / 4096)) as [Hle|Hle].
    + destruct (g_new _ _ _ _ _ _ _ Hg (va / 4096) ltac:(zlia)) as (G1 & _ & _ & G4). unfold addr_of in G4.
      rewrite (G1 : _ = 1), G4. cbn -[rd zeros]. rewrite Hz by zlia. f_equal. apply rd_replicate. unfold PGSIZE. zlia.
    + rewrite <- Hm by zlia. unfold umem, page_data, addr_of. rewrite Hmap by zlia. destruct (Hp (va / 4096) ltac:(zlia)) as [Hpm _].
      rewrite (Hpm : _ = 1). destruct (u_page _ _ _ (ns_user _ _ _ _ Hs) (va / 4096) ltac:(zlia) Hpm) as (_ & d & Hd & _).
      unfold addr_of in Hd. by rewrite Hd, (g_data _ _ _ _ _ _ _ Hg _ _ Hd).
  - intros va Hv. apply Hz. lia.
Qed.
(** It does not shrink the memory. *)
Lemma loading_alloc_max s0 s pgdir sz img newsz : free_ok kend s0 -> loading s0 s pgdir sz img -> 0 <= newsz ->
  wp (allocuvm kend pgdir sz newsz) s (fun r s' =>
    r = Z.max sz newsz /\ newsz < KERNBASE /\ loading s0 s' pgdir r img \/
    r = 0 /\ new_space kend s0 s' pgdir /\ (newsz < KERNBASE -> short s0 (pages newsz))).
Proof.
  intros Hf0 Hl Hn. destruct (Z.lt_ge_cases newsz KERNBASE) as [Hk|Hk]; [destruct (Z.lt_ge_cases newsz sz) as [Hs|Hs]|].
  - unfold allocuvm. rewrite (proj2 (Z.leb_gt KERNBASE newsz)), (proj2 (Z.ltb_lt newsz sz)) by lia. wp_step. left.
    split_and!; [lia | done | done].
  - eapply wp_mono; [by apply loading_alloc|]. intros r s' [[-> H]|(-> & H1 & H2)]; [left | by right]. split_and!; [lia | done | done].
  - unfold allocuvm. rewrite (proj2 (Z.leb_le KERNBASE newsz)) by lia. wp_step. right. split; [done|]. split; [apply Hl | lia].
Qed.

(** [loaduvm] of a segment. *)
Section load.
Context {K : Type} `{XL : ExecLaws K path file} (c : bytes).
Hypothesis Hfile : file = Some c.
Implicit Types x : xsys K.

Lemma loading_load s0 s k pgdir ip sz img ph : loading s0 s pgdir sz img -> xl_locked ip k ->
  0 <= ph_off ph < UINT_LIM -> 0 <= ph_filesz ph -> 0 <= ph_vaddr ph -> ph_vaddr ph mod 4096 = 0 ->
  ph_vaddr ph + ph_filesz ph <= sz ->
  wp (loaduvm pgdir (ph_vaddr ph) (x_readi ip) (ph_off ph) (ph_filesz ph)) (s, k) (fun r t => xl_locked ip t.2 /\
    (r = 0 /\ loading s0 t.1 pgdir sz (seg_over c ph img) /\ (0 < ph_filesz ph -> ph_off ph + ph_filesz ph <= lenZ c) \/
     r = -1 /\ new_space kend s0 t.1 pgdir /\ 0 < ph_filesz ph /\ lenZ c < ph_off ph + ph_filesz ph)).
Proof.
  intros [Hs Hsz Hp Hn Hm Hz] Hk Ho Hf Hv Hal Hin. pose proof (pages_range sz ltac:(lia)) as P1.
  assert (sz <= pages sz * 4096) as P2 by (unfold pages; zlia).
  eapply wp_mono; [apply (loaduvm_spec kend (xl_locked ip) c (x_readi ip)); try done|].
  - by apply xlaw_file.
  - intros k' off n. by apply xlaw_readi.
  - split_and!; [done | done | lia].
  - apply Hs.
  - apply Hs.
  - intros j Hj. apply Hp. zlia.
  - intros r [s' k'] (Q1 & Q2 & Q3). cbn [fst snd] in *. split; [done|].
    pose proof (edited_space kend s0 s s' pgdir _ Hs Q2) as Hs'.
    destruct Q3 as [(-> & Q3 & Q4)|(-> & Q3)]; [left | by right]. split_and!; [done| |done]. constructor; try done.
    + intros m Hr. unfold user_page. rewrite (ed_pte _ _ _ _ _ Q2). by apply Hp.
    + intros m Hr. rewrite (ed_pte _ _ _ _ _ Q2). by apply Hn.
    + intros va Hva. unfold seg_over. destruct (_ && _) eqn:E; bool_to_prop;
        [|rewrite (ed_mem _ _ _ _ _ Q2); [by apply Hm | unfold KERNBASE, UPAGES in *; lia | lia]..].
      specialize (Q3 (va - ph_vaddr ph) ltac:(lia)). by replace (ph_vaddr ph + (va - ph_vaddr ph)) with va in Q3 by lia.
    + intros va Hva. unfold seg_over. destruct (_ && _) eqn:E; bool_to_prop; [lia | by apply Hz..].
Qed.

(** The process and the processor are untouched, the file is locked. *)
Record loads_to x x' (s0 : vm_t) (pgdir ip : Z) : Prop := {
  lt_proc : xs_proc x' = xs_proc x;
  lt_cpu : xs_cpu x' = xs_cpu x;
  lt_file : xl_locked ip (xs_fs x');
  lt_space : new_space kend s0 (xs_vm x') pgdir;
}.

(** The result of the loop: the image, or a reason for there being none. *)
Definition load_result (s0 s : vm_t) (pgdir : Z) (im : option (Z * (Z -> Z))) (o : option Z) : Prop :=
  match o with
  | None => forall sz img, im = Some (sz, img) -> short s0 (pages sz)
  | Some sz => exists img, im = Some (sz, img) /\ loading s0 s pgdir sz img
  end.

Lemma load_image_mono n : forall off sz img sz' img', load_image c n off sz img = Some (sz', img') -> sz <= sz'.
Proof.
  induction n as [|n IH]; intros off sz img sz' img'; cbn [load_image]; [intros [= -> _]; lia|]. repeat case_match; try done; intros E%IH; lia.
Qed.

Lemma exec_load_spec s0 pgdir ip n : free_ok kend s0 -> forall off sz img x, loading s0 (xs_vm x) pgdir sz img -> xl_locked ip (xs_fs x) ->
  0 <= off < UINT_LIM ->
  wp (exec_load kend n pgdir ip off sz) x (fun o x' => loads_to x x' s0 pgdir ip /\
    load_result s0 (xs_vm x') pgdir (load_image c n off sz img) o).
Proof.
  intros Hf0. destruct (xlaw_file c Hfile) as [Hc Hb]. induction n as [|n IH]; intros off sz img x Hl Hk Ho; cbn [exec_load load_image].
  { wp_step. split; [by constructor; try apply Hl|]. unfold load_result. eauto. }
  pose proof (ld_space _ _ _ _ _ Hl) as Hs.
  wp_step. apply wp_zoom. eapply wp_mono; [apply (xlaw_readi c); [done | done | done | unfold SIZEOF_PROGHDR, UINT_LIM; lia]|].
  intros r k' [-> Hk']. unfold SIZEOF_PROGHDR. destruct (file_read_len c off 32 ltac:(lia) ltac:(lia) Hc) as (_ & R2 & R3).
  destruct (Z.eqb_spec (file_read c off 32).1 32) as [E|E]; cbn [negb].
  2: { rewrite (proj2 (Z.ltb_lt (lenZ c) (off + 32))) by lia. wp_step. by split. }
  apply R2 in E. rewrite (R3 E). rewrite (proj2 (Z.ltb_ge (lenZ c) (off + 32))) by lia. set (ph := ph_get (slice c off 32)).
  assert (0 <= ph_off ph < UINT_LIM /\ 0 <= ph_vaddr ph < UINT_LIM /\ 0 <= ph_filesz ph < UINT_LIM /\ 0 <= ph_memsz ph < UINT_LIM)
    as (F1 & F2 & F3 & F4) by (split_and!; apply get32_range; by apply bytes_ok_slice).
  unfold UINT_LIM in *.
  assert (forall sz' img' x', loads_to x x' s0 pgdir ip -> loading s0 (xs_vm x') pgdir sz' img' ->
    wp (exec_load kend n pgdir ip (u32 (off + 32)) sz') x' (fun o x' => loads_to x x' s0 pgdir ip /\
      load_result s0 (xs_vm x') pgdir (load_image c n (off + 32) sz' img') o)) as Hnext.
  { intros sz' img' x' [L1 L2 L3 L4] Hl'. rewrite u32_small by lia. eapply wp_mono; [apply (IH (off + 32) sz' img' x'); try done; lia|].
    intros o x2 [[M1 M2 M3 M4] Ho2]. split; [constructor; congruence | done]. }
  destruct (Z.eqb_spec (ph_type ph) ELF_PROG_LOAD) as [Et|Et]; cbn [negb]; [|by apply Hnext].
  set (newsz := ph_vaddr ph + ph_memsz ph) in *.
  assert (forall x', loads_to x x' s0 pgdir ip -> (seg_ok c ph = true -> Z.max sz newsz <> 0 -> short s0 (pages (Z.max sz newsz))) ->
    wp (ret None) x' (fun o x' => loads_to x x' s0 pgdir ip /\ load_result s0 (xs_vm x') pgdir
      (if seg_ok c ph && negb (Z.max sz newsz =? 0) then load_image c n (off + 32) (Z.max sz newsz) (seg_over c ph img) else None) o)) as Hnone.
  { intros x' Hx' Hsh. wp_step. split; [done|]. intros sz' img'. destruct (seg_ok c ph); [|done].
    destruct (Z.eqb_spec (Z.max sz newsz) 0); [done|]. cbn [negb andb]. intros E'%load_image_mono.
    apply (short_mono s0 (pages (Z.max sz newsz))); [by apply Hsh | by apply pages_mono]. }
  assert (seg_ok c ph = true -> ph_filesz ph <= ph_memsz ph /\ newsz < KERNBASE /\ ph_vaddr ph mod 4096 = 0 /\
    (ph_filesz ph = 0 \/ ph_off ph + ph_filesz ph <= lenZ c)) as Hseg.
  { unfold seg_ok. fold newsz. intros ?. bool_to_prop; tauto. }
  assert (forall v k, new_space kend s0 v pgdir -> xl_locked ip k -> loads_to x (mkX v k (xs_proc x) (xs_cpu x)) s0 pgdir ip) as Hto by (by constructor).
  destruct (Z.ltb_spec (ph_memsz ph) (ph_filesz ph)) as [|Hfm]; [apply Hnone; [by apply Hto | intros Hs' _; apply Hseg in Hs'; lia]|].
  destruct (Z.ltb_spec (u32 newsz) (ph_vaddr ph)) as [Hov|Hov].
  { apply Hnone; [by apply Hto | intros Hs' _; apply Hseg in Hs']. unfold KERNBASE, u32, newsz in *. zlia. }
  assert (u32 newsz = newsz) as Eu by (unfold u32, newsz in *; zlia). rewrite Eu. wp_step. apply wp_zoom. cbn [xs_vm xs_fs xs_proc xs_cpu].
  eapply wp_mono; [apply (loading_alloc_max s0 _ pgdir sz img); [done | done | unfold newsz; lia]|].
  intros sz' s1 [(Esz & Hkb & Hl1)|(-> & Hs1 & Hsh)].
  2: { change (0 =? 0) with true. apply Hnone; [by apply Hto|]. intros Hs' _. apply Hseg in Hs' as (_ & Hk2 & _). apply (short_mono s0 (pages newsz)); [by apply Hsh|].
       apply pages_mono. lia. }
  pose proof (ld_space _ _ _ _ _ Hl1) as Hs1. destruct (Z.eqb_spec sz' 0) as [|Hz]; [apply Hnone; [by apply Hto | lia]|].
  unfold PGSIZE. destruct (Z.eqb_spec (ph_vaddr ph mod 4096) 0) as [Hal|]; cbn [negb].
  2: { apply Hnone; [by apply Hto|]. intros Hs' _. apply Hseg in Hs'. tauto. }
  wp_step. apply wp_zoom. cbn [xs_vm xs_fs xs_proc xs_cpu].
  eapply wp_mono; [apply (loading_load s0 s1 k' pgdir ip sz' img ph); unfold UINT_LIM; try done; unfold newsz in *; lia|].
  intros r [s2 k2] [Hk2 [(-> & Hl2 & Hin)|(-> & Hs2 & Hbad)]]; cbn [fst snd] in *.
  2: { change (-1 <? 0) with true. apply Hnone; [by apply Hto|]. intros Hs' _. apply Hseg in Hs'. lia. }
  change (0 <? 0) with false. cbv iota. rewrite <- Esz, (proj2 (Z.eqb_neq sz' 0) Hz), andb_true_r. replace (seg_ok c ph) with true.
  - apply Hnext; [apply Hto; [exact (ld_space _ _ _ _ _ Hl2) | done] | done].
  - symmetry. unfold seg_ok. fold newsz. rewrite (proj2 (Z.leb_le _ _) Hfm), (proj2 (Z.ltb_lt _ _) Hkb), Hal, Z.eqb_refl. cbn [andb].
    destruct (Z.eqb_spec (ph_filesz ph) 0); [done|]. apply Z.leb_le, Hin. lia.
Qed.
End load.

(** ** The stack *)

(** The image, a page that the process cannot use, and the page of the stack. *)
Record stacked (s0 s : vm_t) (pgdir top : Z) (img : Z -> Z) : Prop := {
  sk_space : new_space kend s0 s pgdir;
  sk_top : top mod 4096 = 0 /\ 8192 <= top < KERNBASE;
  sk_page : forall m, 0 <= m < top / 4096 -> present (pte_of s pgdir m) /\ (user_page s pgdir m <-> m <> top / 4096 - 2);
  sk_none : forall m, top / 4096 <= m < UPAGES -> ~ present (pte_of s pgdir m);
  sk_mem : forall va, 0 <= va < top - 8192 -> umem s pgdir va = Some (img va);
}.

Lemma stacked_edit s0 s s' pgdir top img P : stacked s0 s pgdir top img -> edited kend s s' pgdir P ->
  (forall a, P a -> top - 8192 <= a) -> stacked s0 s' pgdir top img.
Proof.
  intros [Hs Ht Hp Hn Hm] He HP. constructor; [by apply (edited_space kend s0 s s' pgdir P) | done | | |].
  - intros m. unfold user_page. rewrite (ed_pte _ _ _ _ _ He). apply Hp.
  - intros m. rewrite (ed_pte _ _ _ _ _ He). apply Hn.
  - intros va Hv. rewrite (ed_mem _ _ _ _ _ He); [by apply Hm | lia|]. intros H%HP. lia.
Qed.
Lemma holds_edit s s' pgdir va l P : holds s pgdir va l -> edited kend s s' pgdir P ->
  0 <= va -> va + lenZ l <= KERNBASE -> (forall a, va <= a < va + lenZ l -> ~ P a) -> holds s' pgdir va l.
Proof. intros Hh He Hv Hl HP k Hk. rewrite (ed_mem _ _ _ _ _ He) by (lia || apply HP; lia). by apply Hh. Qed.

(** [copyout] to the stack: the bytes are there, or they do not fit. *)
Lemma stack_write s0 s pgdir top img sp buf : stacked s0 s pgdir top img -> top - 8192 <= sp -> sp + lenZ buf <= top -> 0 < lenZ buf ->
  wp (copyout pgdir sp buf) s (fun r s' =>
    stacked s0 s' pgdir top img /\ edited kend s s' pgdir (fun a => sp <= a < sp + lenZ buf) /\
    (r = 0 /\ top - 4096 <= sp /\ holds s' pgdir sp buf \/ r = -1 /\ sp < top - 4096)).
Proof.
  intros Hk Hlo Hhi Hpos. destruct (sk_top _ _ _ _ _ Hk) as [Hal Ht]. unfold KERNBASE in *.
  eapply wp_mono; [apply (copyout_spec kend); try apply Hk; unfold KERNBASE; try lia|].
  { intros k Hr. apply (sk_page _ _ _ _ _ Hk). zlia. }
  intros r s' [He Hr]. split_and!; [eapply stacked_edit; [done | exact He | cbn; lia] | done|].
  assert (forall k, 0 <= k < lenZ buf -> user_page s pgdir ((sp + k) / 4096) <-> top - 4096 <= sp + k) as Hu.
  { intros k Hr'. destruct (sk_page _ _ _ _ _ Hk ((sp + k) / 4096) ltac:(zlia)) as [_ ->]. zlia. }
  destruct Hr as [[-> Hr]|(-> & k & Hr & Hn)]; [left | right]; split; try done.
  - split; [|intros k Hr'; by apply Hr]. destruct (Hr 0 ltac:(lia)) as [H0 _]. apply Hu in H0; lia.
  - rewrite Hu in Hn by done. lia.
Qed.

Lemma land_4 a : 0 <= a < 4294967296 -> Z.land a (u32 (Z.lnot 3)) = a / 4 * 4.
Proof.
  intros Ha. assert (Z.land a (u32 (Z.lnot 3)) + Z.land a 3 = a) as E.
  { rewrite <- Z.add_lor_land, <- Z.land_lor_distr_r. change (Z.lor (u32 (Z.lnot 3)) 3) with (Z.ones 32).
    rewrite Z.land_ones, Z.mod_small by lia. rewrite (Z.land_comm a 3), <- Z.land_assoc, (Z.land_assoc _ 3 a).
    change (Z.land (u32 (Z.lnot 3)) 3) with 0. rewrite Z.land_0_l, Z.land_0_r. lia. }
  change (Z.land a 3) with (Z.land a (Z.ones 2)) in E. rewrite Z.land_ones in E by lia. change (2 ^ 2) with 4 in E. zlia.
Qed.

(** The strings are at the addresses, from [sp] on. *)
Definition strings (s : vm_t) (pgdir top sp : Z) : list bytes -> list Z -> Prop :=
  Forall2 (fun arg p => holds s pgdir p (arg ++ [0]) /\ sp <= p /\ p + lenZ arg + 1 <= top).

Lemma strings_edit s s' pgdir top sp sp' argv ptrs : strings s pgdir top sp argv ptrs -> top < KERNBASE -> 0 <= sp' <= sp ->
  edited kend s s' pgdir (fun a => sp' <= a < sp) -> strings s' pgdir top sp' argv ptrs.
Proof.
  intros Hs Ht Hp He. eapply Forall2_impl; [exact Hs|]. cbn. intros arg p (H1 & H2 & H3). split_and!; [|lia | lia].
  pose proof (lenZ_nonneg arg). assert (lenZ (arg ++ [0]) = lenZ arg + 1) as E by (rewrite lenZ_app; done).
  eapply holds_edit; [done | exact He | lia | lia | cbn; lia].
Qed.

Lemma exec_push_spec s0 pgdir top img argv : Forall (fun arg => lenZ arg < 4096) argv ->
  forall before ptrs sp s, stacked s0 s pgdir top img -> top - 4096 <= sp <= top -> sp mod 4 = 0 ->
  strings s pgdir top sp before ptrs ->
  wp (exec_push argv pgdir sp ptrs) s (fun o s' => new_space kend s0 s' pgdir /\ o = push_args top sp argv ptrs /\
    match o with
    | None => True
    | Some (sp', ptrs') => stacked s0 s' pgdir top img /\ strings s' pgdir top sp' (before ++ argv) ptrs' /\
        top - 4096 <= sp' <= top /\ sp' mod 4 = 0 /\ (lenZ ptrs <= MAXARG -> lenZ ptrs' <= MAXARG)
    end).
Proof.
  induction 1 as [|arg argv Harg _ IH]; intros before ptrs sp s Hk Hsp Hal Hst; cbn [exec_push push_args].
  { wp_step. rewrite app_nil_r. split_and!; lia || done || apply Hk. }
  destruct (Z.leb_spec MAXARG (lenZ ptrs)) as [|Hmax]; [wp_step; split_and!; lia || done || apply Hk|].
  destruct (sk_top _ _ _ _ _ Hk) as [Hta Ht]. unfold KERNBASE in Ht. pose proof (lenZ_nonneg arg) as Hlen.
  assert (lenZ (arg ++ [0]) = lenZ arg + 1) as El by (rewrite lenZ_app; done).
  rewrite (u32_small (sp - (lenZ arg + 1))), land_4 by lia. set (sp1 := (sp - (lenZ arg + 1)) / 4 * 4).
  assert (top - 8192 <= sp1 /\ sp1 + (lenZ arg + 1) <= sp /\ sp1 mod 4 = 0) as (P1 & P2 & P3).
  { unfold sp1. assert ((top - 8192) mod 4 = 0) by zlia. zlia. }
  wp_step. eapply wp_mono; [apply (stack_write s0 s pgdir top img sp1); [done | lia..]|]. rewrite El.
  intros r s1 (Hk1 & He & [(-> & Hin & Hh)|(-> & Hout)]).
  2: { change (-1 <? 0) with true. cbv iota. wp_step. rewrite (proj2 (Z.ltb_lt sp1 _)) by lia. split_and!; lia || done || apply Hk1. }
  change (0 <? 0) with false. cbv iota. rewrite (proj2 (Z.ltb_ge sp1 _)) by lia.
  eapply wp_mono; [apply (IH (before ++ [arg]) (ptrs ++ [sp1]) sp1 s1); [done | lia | done|]|].
  - apply Forall2_app; [|constructor; [split_and!; [done | lia | lia] | constructor]].
    eapply strings_edit; [exact Hst | unfold KERNBASE; lia | lia|]. eapply edited_trans; [exact He | apply (edited_refl _ _ _ (fun _ => False)); apply He | cbn; intros a [|]; [lia | done]].
  - intros o s2 (Q1 & -> & Q3). split_and!; [done | done|]. destruct (push_args _ _ _ _) as [[sp2 ptrs2]|]; [|done].
    rewrite <- app_assoc in Q3. destruct Q3 as (R1 & R2 & R3 & R4 & R5). split_and!; try done; try lia.
    intros _. apply R5. rewrite lenZ_app. unfold MAXARG in *. cbn. unfold lenZ in *. cbn. lia.
Qed.

Lemma loading_stacked s0 s s' pgdir top img : loading s0 s pgdir top img -> top mod 4096 = 0 -> 8192 <= top ->
  hidden kend s s' pgdir (top / 4096 - 2) -> stacked s0 s' pgdir top img.
Proof.
  intros [Hs Hsz Hp Hn Hm Hz] Hal Hlo Hh. assert (pages top = top / 4096) as Ep by (unfold pages; zlia). rewrite Ep in *.
  unfold KERNBASE in *. constructor; [by apply (hidden_space kend s0 s s' pgdir (top / 4096 - 2)) | unfold KERNBASE; lia | | |].
  - intros m Hr. destruct (Hp m Hr) as [H1 H2]. assert (vpn m) as Hv by (unfold vpn; zlia).
    destruct (hidden_addr _ _ _ _ _ Hh m Hv) as [_ E]. split; [unfold present; by rewrite E|].
    unfold user_page. rewrite (hd_pte _ _ _ _ _ Hh) by done. destruct (Z.eqb_spec m (top / 4096 - 2)) as [->|]; [|done].
    destruct (no_u_parts (pte_of s pgdir (top / 4096 - 2))) as (_ & _ & ->). split; lia.
  - intros m Hr. destruct (hidden_addr _ _ _ _ _ Hh m) as [_ E]; [unfold vpn, UPAGES in *; zlia|].
    unfold present. rewrite E. by apply Hn.
  - intros va Hv. rewrite (hidden_mem kend s s' pgdir (top / 4096 - 2)); try done; [apply Hm; zlia | apply Hs | apply Hs | unfold KERNBASE; lia].
Qed.

(** [words] *)
Lemma lenZ_words l : lenZ (words l) = 4 * lenZ l.
Proof. unfold words. induction l as [|w l IH]; [done|]. cbn [fmap list_fmap concat]. rewrite lenZ_app, IH. unfold lenZ. cbn. lia. Qed.

(** ** exec *)

(** The new program: its memory, its stack and its arguments. *)
Record program (s : vm_t) (pgdir top : Z) (img : Z -> Z) (argv : list bytes) (sp : Z) (ptrs : list Z) : Prop := {
  pg_top : top mod 4096 = 0 /\ 8192 <= top < KERNBASE;
  pg_page : forall m, 0 <= m < UPAGES -> present (pte_of s pgdir m) <-> m < top / 4096;
  pg_user : forall m, 0 <= m < top / 4096 -> user_page s pgdir m <-> m <> top / 4096 - 2;
  pg_img : forall va, 0 <= va < top - 8192 -> umem s pgdir va = Some (img va);
  pg_args : Forall2 (fun arg p => holds s pgdir p (arg ++ [0])) argv ptrs;
  pg_frame : holds s pgdir sp (words ([4294967295; lenZ argv; sp + 12] ++ ptrs ++ [0]));
}.

(** The address space [old] has been replaced by [pgdir]: every other page is as
    before, and no page is lost. *)
Record replaced (s0 s : vm_t) (old pgdir : Z) : Prop := {
  rp_ok : vm_ok kend s pgdir;
  rp_user : user_ok kend s pgdir;
  rp_same : forall a, ~ pages_of s0 old a -> ~ pages_of s pgdir a -> v_frame s !! a = v_frame s0 !! a;
  rp_pages : forall a, a ∈ v_free s \/ pages_of s pgdir a <-> a ∈ v_free s0 \/ pages_of s0 old a;
}.

(** [freevm] of the old address space. *)
Lemma free_old s0 s old pgdir : vm_ok kend s0 old -> user_ok kend s0 old -> new_space kend s0 s pgdir ->
  wp (freevm kend old) s (fun _ s' => replaced s0 s' old pgdir /\ beside kend s s' pgdir).
Proof.
  intros Hok Hu Hs. pose proof (vm_free_ok kend _ _ Hok) as Hf0.
  pose proof (new_space_beside kend s0 s pgdir old Hf0 Hs Hok Hu) as Hb.
  eapply wp_mono; [apply (freevm_spec kend Hkend s old); apply Hb|]. intros [] s' [R1 R2 R3 R4 R5].
  pose proof (beside_pages kend s0 s old Hb) as Hpg.
  assert (forall a, pages_of s pgdir a -> ~ pages_of s old a) as Hdis.
  { intros a Ha Ho%Hpg. apply (pages_of_not_free kend s0 old a Hok Hu Ho). apply (ns_free _ _ _ _ Hs). by right. }
  assert (beside kend s s' pgdir) as Hb'.
  { apply beside_frames; [apply Hs | apply Hs | by split|]. intros a f Ha Hfa. rewrite R1; [done | by apply Hdis]. }
  pose proof (beside_pages kend s s' pgdir Hb') as Hpg'. split; [|done]. constructor; try apply Hb'.
  - intros a. rewrite Hpg'. intros Ho Hn. rewrite R1 by (by rewrite Hpg). by apply (ns_same _ _ _ _ Hs).
  - intros a. rewrite R3, Hpg', Hpg, (ns_free _ _ _ _ Hs). tauto.
Qed.

Lemma beside_holds s s' pgdir va l : beside kend s s' pgdir -> holds s pgdir va l -> 0 <= va -> va + lenZ l <= KERNBASE -> holds s' pgdir va l.
Proof. intros Hb Hh Hv Hl k Hk. rewrite (beside_mem kend s s' pgdir) by (done || lia). by apply Hh. Qed.
Lemma beside_program s0 s s' pgdir top img argv sp sp1 ptrs : stacked s0 s pgdir top img -> beside kend s s' pgdir ->
  strings s pgdir top sp1 argv ptrs -> 0 <= sp1 -> 0 <= sp -> sp + 4 * (lenZ ptrs + 4) <= top ->
  holds s pgdir sp (words ([4294967295; lenZ argv; sp + 12] ++ ptrs ++ [0])) ->
  program s' pgdir top img argv sp ptrs.
Proof.
  intros [Hs Ht Hp Hn Hm] Hb Hst Hsp1 Hsp Htop Hh. destruct Ht as [Hal Ht]. unfold KERNBASE in Ht.
  assert (forall m, 0 <= m < UPAGES -> pte_of s' pgdir m = pte_of s pgdir m) as Hpte.
  { intros m Hr. apply (bs_pte _ _ _ _ Hb). unfold vpn, UPAGES in *. lia. }
  constructor; [done | | | | |].
  - intros m Hr. rewrite Hpte by done. destruct (Z.lt_ge_cases m (top / 4096)).
    + split; [done|]. intros _. apply Hp. lia.
    + split; [|lia]. intros Hpr. by destruct (Hn m ltac:(lia)).
  - intros m Hr. unfold user_page. rewrite Hpte by (unfold UPAGES; zlia). by apply Hp.
  - intros va Hv. rewrite (beside_mem kend s s' pgdir) by (done || unfold KERNBASE; lia). by apply Hm.
  - eapply Forall2_impl; [exact Hst|]. cbn. intros arg p (H1 & H2 & H3). apply (beside_holds s); [done | done | lia|].
    rewrite lenZ_app. unfold KERNBASE, lenZ in *. cbn. lia.
  - apply (beside_holds s); [done | done | done|]. rewrite lenZ_words, !lenZ_app. unfold KERNBASE, lenZ in *. cbn. lia.
Qed.

(** The two results of [namei]. *)
Lemma named (o : option Z) (file : option bytes) (P : Prop) (Q : Z -> Prop) :
  match o, file with None, None => P | Some ip, Some _ => Q ip | _, _ => False end ->
  o = None /\ file = None /\ P \/ exists ip c, o = Some ip /\ file = Some c /\ Q ip.
Proof. destruct o as [ip|], file as [c|]; naive_solver. Qed.
Lemma exec_image_eq file f argv : file = f -> exec_image file argv = exec_image f argv.
Proof. by intros ->. Qed.

Section exec.
Context {K : Type} `{XL : ExecLaws K path file}.
Implicit Types x : xsys K.

(** [exec] has failed. *)
Record failed x x' : Prop := {
  fl_vm : restored kend (xs_vm x) (xs_vm x');
  fl_fs : xl_idle (xs_fs x');
  fl_proc : xs_proc x' = xs_proc x;
  fl_cpu : xs_cpu x' = xs_cpu x;
}.

Lemma exec_bad_spec x0 x pgdir ip : free_ok kend (xs_vm x0) -> xs_proc x = xs_proc x0 -> xs_cpu x = xs_cpu x0 ->
  (if pgdir =? 0 then restored kend (xs_vm x0) (xs_vm x) else new_space kend (xs_vm x0) (xs_vm x) pgdir) ->
  match ip with Some ip => xl_locked ip (xs_fs x) | None => xl_idle (xs_fs x) end ->
  wp (exec_bad kend pgdir ip) x (fun r x' => r = -1 /\ failed x0 x').
Proof.
  intros Hf Hp Hc Hvm Hfs. unfold exec_bad.
  assert (forall v, restored kend (xs_vm x0) v -> wp (match ip with
      | Some ip => xfs (x_iunlockput ip) ;;; xfs x_end_op
      | None => ret tt
      end ;;; ret (-1)) (mkX v (xs_fs x) (xs_proc x) (xs_cpu x)) (fun r x' => r = -1 /\ failed x0 x')) as Hrest.
  { intros v Hv. destruct ip as [ip|].
    - do 2 wp_step. apply wp_zoom. cbn. eapply wp_mono; [by apply xlaw_put|]. intros [] k1 H1.
      apply wp_zoom. cbn. eapply wp_mono; [by apply xlaw_end|]. intros [] k2 H2. wp_step. split; [done|]. by constructor.
    - do 2 wp_step. split; [done|]. by constructor. }
  wp_step. destruct (Z.eqb_spec pgdir 0) as [->|Hne]; cbn [negb when].
  - apply wp_ret. destruct x as [v k q u]. by apply Hrest.
  - apply wp_zoom. eapply wp_mono; [by apply (new_space_free kend Hkend (xs_vm x0))|]. intros [] v Hv. by apply Hrest.
Qed.

(** The two pages of the stack. *)
Lemma stack_alloc s0 s pgdir sz img : free_ok kend s0 -> loading s0 s pgdir sz img ->
  wp (allocuvm kend pgdir (pages sz * 4096) (im_top sz)) s (fun r s' =>
    r = im_top sz /\ loading s0 s' pgdir (im_top sz) img \/
    r = 0 /\ new_space kend s0 s' pgdir /\ (im_top sz < KERNBASE -> short s0 (pages sz + 2))).
Proof.
  intros Hf0 Hl. unfold im_top. pose proof (ld_size _ _ _ _ _ Hl) as Hsz. pose proof (pages_range sz ltac:(lia)) as Hpr.
  destruct (Z.lt_ge_cases (pages sz * 4096 + 8192) KERNBASE) as [Hk|Hk].
  - eapply wp_mono; [apply (loading_alloc s0 s pgdir (pages sz * 4096) img); [done | | lia]|].
    + destruct Hl. assert (pages (pages sz * 4096) = pages sz) as E by (unfold pages; zlia). constructor; rewrite ?E; try done. lia.
    + intros r s' [H'|(-> & H1 & H2)]; [by left | right]. split; [done|]. split; [done|]. intros _.
      by replace (pages sz + 2) with (pages (pages sz * 4096 + 8192)) by (unfold pages; zlia).
  - unfold allocuvm. rewrite (proj2 (Z.leb_le KERNBASE _)) by lia. wp_step. right. split; [done|]. split; [apply Hl | lia].
Qed.

(** The process has become the program [im]. *)
Record started x x' (argv : list bytes) (im : image) (pgdir : Z) : Prop := {
  sd_proc : let p := xs_proc x in xs_proc x' = mkXp pgdir (im_top (im_size im)) (xp_kstack p) (im_entry im) (im_sp im)
    (safestrcpy_arr (xp_name p) (last_elem path path) 16);
  sd_cpu : xs_cpu x' = mkCpu (V2P pgdir) (u32 (xp_kstack (xs_proc x) + KSTACKSIZE));
  sd_mem : program (xs_vm x') pgdir (im_top (im_size im)) (im_bytes im) argv (im_sp im) (im_ptrs im);
  sd_vm : replaced (xs_vm x) (xs_vm x') (xp_pgdir (xs_proc x)) pgdir;
}.

(** The outcome of [exec] for a file that makes the program [im], or none. *)
Definition outcome x (argv : list bytes) (o : option image) (r : Z) x' : Prop := xl_idle (xs_fs x') /\
  match o with
  | None => r = -1 /\ failed x x'
  | Some im => r = 0 /\ (exists pgdir, started x x' argv im pgdir) \/
      r = -1 /\ failed x x' /\ short (xs_vm x) (pages (im_size im) + 2)
  end.
Lemma outcome_bad x argv o y pgdir ip : free_ok kend (xs_vm x) -> xs_proc y = xs_proc x -> xs_cpu y = xs_cpu x ->
  (if pgdir =? 0 then restored kend (xs_vm x) (xs_vm y) else new_space kend (xs_vm x) (xs_vm y) pgdir) ->
  match ip with Some ip => xl_locked ip (xs_fs y) | None => xl_idle (xs_fs y) end ->
  (forall im, o = Some im -> short (xs_vm x) (pages (im_size im) + 2)) ->
  wp (exec_bad kend pgdir ip) y (outcome x argv o).
Proof.
  intros Hf Y1 Y2 Y3 Y4 Ho. eapply wp_mono; [by apply (exec_bad_spec x y pgdir ip)|]. intros r x' [-> Hfl]. split; [apply Hfl|].
  destruct o as [im|]; [right | done]. auto.
Qed.

Lemma exec_commit_spec x0 x pgdir argv im sp1 :
  let top := im_top (im_size im) in
  vm_ok kend (xs_vm x0) (xp_pgdir (xs_proc x0)) -> user_ok kend (xs_vm x0) (xp_pgdir (xs_proc x0)) ->
  xp_kstack (xs_proc x0) <> 0 -> xs_proc x = xs_proc x0 -> xl_idle (xs_fs x) -> pgdir <> 0 ->
  stacked (xs_vm x0) (xs_vm x) pgdir top (im_bytes im) -> strings (xs_vm x) pgdir top sp1 argv (im_ptrs im) ->
  0 <= sp1 -> 0 <= im_sp im -> im_sp im + 4 * (lenZ (im_ptrs im) + 4) <= top ->
  holds (xs_vm x) pgdir (im_sp im) (words ([4294967295; lenZ argv; im_sp im + 12] ++ im_ptrs im ++ [0])) ->
  wp (exec_commit kend path pgdir top (im_entry im) (im_sp im)) x (fun r x' => r = 0 /\ xl_idle (xs_fs x') /\
    started x0 x' argv im pgdir).
Proof.
  intros top Hok Hu Hks Hp Hfs Hd Hst Hstr H1 H2 H3 Hh. unfold exec_commit. wp_steps. rewrite Hp. unfold switchuvm. wp_steps.
  - by apply Z.eqb_neq.
  - by apply Z.eqb_neq.
  - apply wp_zoom. cbn. eapply wp_mono; [by apply (free_old (xs_vm x0) (xs_vm x) _ pgdir Hok Hu), Hst|].
    intros [] v [Hr Hb]. wp_step. split_and!; [done | done|]. constructor; cbn; try done.
    by apply (beside_program (xs_vm x0) (xs_vm x) v pgdir top (im_bytes im) argv (im_sp im) sp1 (im_ptrs im)).
Qed.

Lemma exec_stack_spec x0 x argv pgdir entry sz img :
  vm_ok kend (xs_vm x0) (xp_pgdir (xs_proc x0)) -> user_ok kend (xs_vm x0) (xp_pgdir (xs_proc x0)) ->
  xp_kstack (xs_proc x0) <> 0 -> xs_proc x = xs_proc x0 -> xs_cpu x = xs_cpu x0 -> xl_idle (xs_fs x) -> pgdir <> 0 ->
  Forall (fun arg => lenZ arg < 4096) argv -> loading (xs_vm x0) (xs_vm x) pgdir sz img ->
  wp (exec_stack kend path argv pgdir entry sz) x (outcome x0 argv (stack_image entry sz img argv)).
Proof.
  intros Hok Hu Hks Hp Hcpu Hfs Hd Hargs Hl. pose proof (vm_free_ok kend _ _ Hok) as Hf.
  pose proof (ld_size _ _ _ _ _ Hl) as Hsz. pose proof (pages_range sz ltac:(lia)) as Hpr. unfold UPAGES in Hpr.
  assert (forall y, xs_proc y = xs_proc x0 -> xs_cpu y = xs_cpu x0 -> xl_idle (xs_fs y) -> new_space kend (xs_vm x0) (xs_vm y) pgdir ->
    (forall im, stack_image entry sz img argv = Some im -> short (xs_vm x0) (pages (im_size im) + 2)) ->
    wp (exec_bad kend pgdir None) y (outcome x0 argv (stack_image entry sz img argv))) as Hbad.
  { intros y Y1 Y2 Y3 Y4 Y5. apply outcome_bad; try done. by rewrite (proj2 (Z.eqb_neq pgdir 0)). }
  unfold exec_stack. rewrite PGROUNDUP_pages by lia. unfold PGSIZE. rewrite (u32_small (pages sz * 4096 + 2 * 4096)) by lia.
  change (pages sz * 4096 + 2 * 4096) with (im_top sz). wp_step. apply wp_zoom.
  eapply wp_mono; [by apply stack_alloc|]. unfold stack_image in *. set (top := im_top sz) in *. intros r s1 [[-> Hl1]|(-> & Hs1 & Hsh)].
  2: { change (0 =? 0) with true. apply Hbad; try done. intros im. case_test; [done|].
       destruct (stack_layout top argv) as [[sp ptrs]|]; [|done]. intros [= <-]. apply Hsh. lia. }
  assert (top mod 4096 = 0 /\ 8192 <= top < KERNBASE) as [Hal Ht].
  { pose proof (ld_size _ _ _ _ _ Hl1). unfold top, im_top in *. split; [zlia | lia]. }
  rewrite (proj2 (Z.leb_gt KERNBASE top)) in * by lia.
  unfold KERNBASE in Ht. rewrite (proj2 (Z.eqb_neq top 0)) by lia. change (2 * 4096) with 8192. rewrite (u32_small (top - 8192)) by lia.
  replace (top - 8192) with ((top / 4096 - 2) * 4096) by zlia. wp_step. apply wp_zoom. cbn [xs_vm xs_fs xs_proc xs_cpu].
  eapply wp_mono; [apply (clearpteu_spec kend); [apply (ld_space _ _ _ _ _ Hl1) | apply (ld_space _ _ _ _ _ Hl1) | unfold UPAGES; zlia |]|].
  { apply (ld_page _ _ _ _ _ Hl1). unfold pages. zlia. }
  intros [] s2 Hh. apply (loading_stacked _ _ _ _ _ _ Hl1 Hal ltac:(lia)) in Hh as Hst. wp_step. apply wp_zoom. cbn [xs_vm xs_fs xs_proc xs_cpu].
  eapply wp_mono; [apply (exec_push_spec (xs_vm x0) pgdir top img argv Hargs [] [] top s2); [done | lia | zlia | constructor]|].
  intros o s3 (Hs3 & Ho & Hr). unfold stack_layout in *. rewrite <- Ho in *. clear Ho.
  destruct o as [[sp ptrs]|]; [|by apply Hbad]. destruct Hr as (Hst3 & Hstr & Hsp & Hsp4 & Hmax).
  specialize (Hmax ltac:(done)). unfold MAXARG in Hmax. pose proof (lenZ_nonneg ptrs) as Hn0.
  assert (lenZ ptrs = lenZ argv) as Eargc by (pose proof (Forall2_length _ _ _ Hstr) as El; cbn in El; unfold lenZ; lia).
  rewrite (u32_small (sp - (3 + lenZ ptrs + 1) * 4)) by lia. replace (sp - 4 * (lenZ ptrs + 4)) with (sp - (3 + lenZ ptrs + 1) * 4) in * by lia.
  set (sp' := sp - (3 + lenZ ptrs + 1) * 4) in *. cbv zeta in *.
  assert (ustack sp ptrs = [4294967295; lenZ argv; sp' + 12] ++ ptrs ++ [0]) as ->.
  { unfold ustack. rewrite u32_small by lia. rewrite <- Eargc.
    by replace (sp - (lenZ ptrs + 1) * 4) with (sp' + 12) by (unfold sp'; lia). }
  set (buf := words _). assert (lenZ buf = 4 * (lenZ ptrs + 4)) as Hbuf by (unfold buf; rewrite lenZ_words, !lenZ_app; unfold lenZ; cbn; lia).
  assert (sp' + lenZ buf = sp) as Ebuf by (rewrite Hbuf; unfold sp'; lia). wp_step. apply wp_zoom. cbn [xs_vm xs_fs xs_proc xs_cpu].
  eapply wp_mono; [apply (stack_write (xs_vm x0) s3 pgdir top img sp' buf); [done | unfold sp'; lia..]|].
  intros r s4 (Hst4 & He & Hr). destruct Hr as [(-> & Hin & Hh4)|(-> & Hout)].
  2: { rewrite (proj2 (Z.ltb_lt sp' _)) in * by lia. change (-1 <? 0) with true. apply Hbad; try done; apply Hst4. }
  rewrite (proj2 (Z.ltb_ge sp' _)) in * by lia. change (0 <? 0) with false. cbv iota.
  eapply wp_mono; [apply (exec_commit_spec x0 _ pgdir argv (mkImage entry sz img sp' ptrs) sp'); try done;
    cbn [xs_vm xs_fs xs_proc xs_cpu im_size im_sp im_ptrs]; fold top; try (unfold sp'; lia)|].
  - eapply strings_edit; [exact Hstr | unfold KERNBASE; lia | unfold sp'; lia|]. by rewrite Ebuf in He.
  - intros r x' (-> & H1 & H2). split; [done|]. left. eauto.
Qed.

Context (kdata : Z).
Hypothesis Hkdata : KERNLINK < kdata < KERNBASE + PHYSTOP /\ kdata mod 4096 = 0.

Lemma new_space_loading s0 s pgdir : new_space kend s0 s pgdir -> (forall m, 0 <= m < UPAGES -> ~ present (pte_of s pgdir m)) ->
  loading s0 s pgdir 0 (fun _ => 0).
Proof. intros Hs Hn. constructor; try done; change (pages 0) with 0; lia. Qed.

(** The size of a program is that of its image. *)
Lemma stack_image_size entry sz img argv im : stack_image entry sz img argv = Some im -> im_size im = sz.
Proof. unfold stack_image. case_test; [done|]. destruct (stack_layout _ _) as [[sp ptrs]|]; [|done]. by intros [= <-]. Qed.

(** C0: [exec], over any file system that keeps the laws of the interface, for
    arguments shorter than a page.  If the path leads to no file, or the file and the
    arguments make no program, it returns -1.  Otherwise it returns 0 and the process
    is that program: its address space holds the image that the program headers of the
    ELF file describe, byte for byte, a page that the process may not use, and a stack
    with the arguments and their addresses as [main] finds them; its registers are the
    entry point and the stack pointer, the processor uses the new page directory, every
    page of the old address space is free unless the new one uses it, and no other page
    has changed.  It can only fail then if the free pages are fewer than the program and
    its page tables may need.  When it returns -1 the process, the memory and the set of
    free pages are as before, the inode is put and the transaction has ended. *)
Theorem exec_correct x argv :
  let old := xp_pgdir (xs_proc x) in
  vm_ok kend (xs_vm x) old -> user_ok kend (xs_vm x) old -> xp_kstack (xs_proc x) <> 0 -> xl_idle (xs_fs x) ->
  Forall (fun arg => lenZ arg < 4096) argv ->
  wp (exec kend kdata path argv) x (outcome x argv (exec_image file argv)).
Proof.
  intros old Hok Hu Hks Hfs Hargs. pose proof (vm_free_ok kend _ _ Hok) as Hf.
  assert (restored kend (xs_vm x) (xs_vm x)) as Hre by (by constructor).
  unfold exec. wp_step. apply wp_zoom. eapply wp_mono; [by apply xlaw_begin|]. intros [] k1 H1.
  wp_step. apply wp_zoom. eapply wp_mono; [by apply xlaw_namei|]. intros o k2 H2. cbn [xs_vm xs_fs xs_proc xs_cpu] in *.
  destruct (named o file _ _ H2) as [(-> & Ef & H2')|(ip & c & -> & Ef & H2')]; rewrite (exec_image_eq _ _ argv Ef).
  { wp_step. apply wp_zoom. eapply wp_mono; [by apply xlaw_end|]. intros [] k3 H3. wp_step. split; [done|]. split; [done | by constructor]. }
  destruct (xlaw_file c Ef) as [Hc Hb].
  wp_step. apply wp_zoom. eapply wp_mono; [by apply xlaw_ilock|]. intros [] k3 H3.
  wp_step. apply wp_zoom. eapply wp_mono; [by apply (xlaw_readi c)|]. intros r k4 [-> H4]. cbn [xs_vm xs_fs xs_proc xs_cpu exec_image] in *.
  unfold SIZEOF_ELFHDR. destruct (file_read_len c 0 52 ltac:(lia) ltac:(lia) Hc) as (_ & R2 & R3).
  destruct (Z.eqb_spec (file_read c 0 52).1 52) as [E|E]; cbn [negb].
  2: { rewrite (proj2 (Z.ltb_lt (lenZ c) 52)) by lia. by apply outcome_bad. }
  apply R2 in E. rewrite (R3 E), (proj2 (Z.ltb_ge (lenZ c) 52)) by lia. cbn [orb].
  set (elf := elf_get (slice c 0 52)). destruct (Z.eqb_spec (elf_magic elf) ELF_MAGIC) as [Em|]; cbn [negb]; [|by apply outcome_bad].
  set (o := match load_image _ _ _ _ _ with Some _ => _ | None => _ end).
  assert (forall im, o = Some im -> exists img, load_image c (Z.to_nat (elf_phnum elf)) (elf_phoff elf) 0 (fun _ => 0) = Some (im_size im, img)) as Him.
  { intros im. unfold o. destruct (load_image _ _ _ _ _) as [[sz img]|]; [|done]. intros ->%stack_image_size. eauto. }
  wp_step. apply wp_zoom. eapply wp_mono; [by apply (setupkvm_spec kend Hkend kdata Hkdata)|]. cbn [xs_vm xs_fs xs_proc xs_cpu].
  intros pgdir s1 [(Hd & Hs1 & Hno)|(-> & Hr & Hs0)].
  2: { change (0 =? 0) with true. apply outcome_bad; try done. intros im [img Hi]%Him. apply load_image_mono in Hi.
       apply (short_mono _ 0); [done|]. unfold pages. zlia. }
  rewrite (proj2 (Z.eqb_neq pgdir 0) Hd).
  wp_step. eapply wp_mono; [apply (exec_load_spec c Ef (xs_vm x) pgdir ip _ Hf _ 0 (fun _ => 0)); [by apply new_space_loading | done|]|].
  { apply get32_range. by apply bytes_ok_slice. }
  intros o' x2 [[L1 L2 L3 L4] Ho]. cbn [xs_vm xs_fs xs_proc xs_cpu] in *. destruct o' as [sz|].
  2: { apply outcome_bad; try done; [by rewrite (proj2 (Z.eqb_neq pgdir 0) Hd)|]. intros im [img Hi]%Him.
       apply (short_mono _ (pages (im_size im))); [by apply (Ho _ img) | lia]. }
  destruct Ho as (img & Himg & Hl). unfold o. rewrite Himg.
  wp_step. apply wp_zoom. eapply wp_mono; [by apply xlaw_put|]. intros [] k5 H5. wp_step. apply wp_zoom.
  eapply wp_mono; [by apply xlaw_end|]. intros [] k6 H6. cbn [xs_vm xs_fs xs_proc xs_cpu] in *.
  by apply (exec_stack_spec x _ argv pgdir (elf_entry elf) sz img).
Qed.
End exec.
End spec.
