(* ===== verification/ExecFs.v ===== *)
(** * exec over the file system of xv6

    The operations of fs.c and log.c keep the laws that [ExecSpec.v] relies on, for
    a path that leads to a file on a consistent file system. *)

From S2P Require Import Prelude Bytes Cstring Sleeplock Store Log Txn Fs FsBlock FsFile FsIo FsInode FsDir FsPath.
From S2P Require Import Kalloc Vm VmSpec VmUser VmSpace VmMem VmFork Exec ExecSpec.

(** ** The disk between two operations *)

(** The blocks outside the log are the same. *)
Record same_disk (F F' : fstore) : Prop := {
  sm_size : f_size F' = f_size F;
  sm_lo : f_lo F' = f_lo F;
  sm_hi : f_hi F' = f_hi F;
  sm_held : f_held F' = f_held F;
  sm_view : forall b, f_home F b -> f_view F' b = f_view F b;
  sm_buffers : buffers F' 1;
}.

Section same.
Context (sb : superblock) (ds : Z) (F F' : fstore).
Hypothesis Htree : tree_ok sb ds F.
Hypothesis Hsame : same_disk F F'.

Lemma same_layout : layout sb F' ds.
Proof. apply (layout_ext sb F); try apply Hsame. apply (to_map _ _ _ Htree). Qed.
Lemma same_used x : 0 <= x < sb_size sb -> used sb F' x <-> used sb F x.
Proof.
  intros Hx. unfold used, bit_of. rewrite (sm_view _ _ Hsame); [done|].
  eapply layout_bitmap; [apply (to_map _ _ _ Htree) | done].
Qed.
Lemma data_home y : ds <= y < sb_size sb -> f_home F y.
Proof.
  intros Hy. destruct (to_map _ _ _ Htree) as [[] _ _]. unfold f_home, home. rewrite BPB_val in *. change IPB with 8 in *. split; zlia.
Qed.
Lemma same_map : map_ok sb F' ds.
Proof.
  destruct (to_map _ _ _ Htree) as [Hly Hm Hh]. destruct Hly. rewrite BPB_val in *. change IPB with 8 in *. constructor; [apply same_layout | |].
  - intros x Hx. apply same_used; [lia | by apply Hm].
  - intros x [h Hx]. rewrite (sm_held _ _ Hsame) in Hx. destruct (Hh x) as [H1 H2]; [by exists h|]. split; [done|].
    apply same_used; [|done]. zlia.
Qed.
Lemma same_dinode i : 0 <= i < sb_ninodes sb -> dinode_at sb F' i = dinode_at sb F i.
Proof.
  intros Hi. unfold dinode_at. rewrite (sm_view _ _ Hsame); [done|]. by apply (iblock_range sb ds F i), Hi; apply Htree.
Qed.
Lemma same_inode_used i : inode_used sb F' i <-> inode_used sb F i.
Proof. unfold inode_used. split; intros [H1 H2]; (split; [done|]); by rewrite same_dinode in *. Qed.

Lemma same_file i : inode_used sb F i -> let din := dinode_at sb F i in
  file_ok sb ds F' din (blocks (di_size din)) /\ contents F' din = contents F din.
Proof.
  intros Hi din. destruct (to_file _ _ _ Htree i Hi) as [[_ _ _ _ Hf] _]. fold din in Hf.
  assert (ind_addr din <> 0 -> f_view F' (ind_addr din) = f_view F (ind_addr din)) as Hind.
  { intros Hn. apply (sm_view _ _ Hsame), data_home. destruct (fo_ind _ _ _ _ _ Hf) as [|[[? _] _]]; [done | done]. }
  split.
  - apply (file_ok_keep sb ds F); [done | | done]. intros y [Hr Hu]. apply same_used; [|done].
    destruct (to_map _ _ _ Htree) as [[] _ _]. rewrite BPB_val in *. change IPB with 8 in *. zlia.
  - apply contents_ext. intros k Hk. unfold fbyte. rewrite (blk_ext (f_view F)) by done. case_test; [|done].
    rewrite (sm_view _ _ Hsame); [done|]. change BSIZE with 512 in *. apply data_home, (fo_blk _ _ _ _ _ Hf). zlia.
Qed.

Lemma same_tree : tree_ok sb ds F'.
Proof.
  constructor.
  - apply same_map.
  - rewrite (sm_held _ _ Hsame). apply (to_held _ _ _ Htree).
  - apply Hsame.
  - intros i Hi%same_inode_used. pose proof Hi as [Hr _]. destruct (to_file _ _ _ Htree i Hi) as [[V1 V2 V3 V4 V5] Hn].
    rewrite same_dinode by done. split; [|done]. constructor; [apply same_map | done | done | by apply same_dinode | by apply same_file].
  - intros i Hi%same_inode_used. pose proof Hi as [Hr _]. rewrite same_dinode by done. intros Hd.
    destruct (to_dir _ _ _ Htree i Hi Hd) as [H1 H2]. split; [done|]. intros name j. destruct (same_file i Hi) as [_ ->].
    intros Hj. by apply same_inode_used, (H2 name).
  - apply same_inode_used, Htree.
Qed.

Lemma same_resolve es : forall i, inode_used sb F i -> resolve sb F' i es = resolve sb F i es.
Proof.
  induction es as [|e es IH]; intros i Hi; cbn [resolve]; [done|]. pose proof Hi as [Hr _]. rewrite same_dinode by done.
  case_test; [|done]. destruct (same_file i Hi) as [_ ->]. destruct (dir_get _ e) as [j|] eqn:Ej; [|done].
  apply IH. by destruct (to_dir _ _ _ Htree i Hi) as [_ H2]; [done | apply (H2 e)].
Qed.
Lemma same_path w path : inode_used sb F w -> lookup_path sb F' w path = lookup_path sb F w path.
Proof. intros Hw. unfold lookup_path. apply same_resolve. case_test; [apply Htree | done]. Qed.
End same.

(** ** The laws *)

Section laws.
Context {S : Type} `{Laws : TxnLaws S rep}.
Context (dev_read : Z -> option (Z -> Z -> ST (fs_t S) (Z * bytes))).
(** The file system, the process, and the inode cache when [exec] is called. *)
Context (sb : superblock) (ds pid cwd w : Z) (l0 : list inode) (path : bytes) (file : option bytes).
Hypothesis Hunused : two_unused l0.
Hypothesis Hcwd : caches l0 cwd ROOTDEV w.
Hypothesis Hpath : Forall (fun x => x <> 0) path.
Hypothesis Hfile : forall c, file = Some c -> lenZ c < UINT_LIM /\ bytes_ok c.
Implicit Types (k : fs_t S) (F : fstore).

(** The path leads to [file], which is not a device. *)
Definition path_file F : Prop :=
  match lookup_path sb F w path with
  | None => file = None
  | Some j => di_type (dinode_at sb F j) <> T_DEV /\ file = Some (contents F (dinode_at sb F j))
  end.

(** In [ops] operations, with [held] locked and a reference to [cur]. *)
Record fs_at k F (held cur : option Z) (ops : Z) : Prop := {
  fa_sb : fs_sb k = sb;
  fa_rep : rep (fs_store k) F;
  fa_tree : tree_ok sb ds F;
  fa_ops : f_ops F = ops;
  fa_log : f_log F = ∅;
  fa_path : path_file F;
  fa_pid : fs_pid k = pid;
  fa_cwd : fs_cwd k = cwd;
  fa_cache : cache_ok sb F pid held (fs_icache k);
  fa_refs : one_more l0 (fs_icache k) cur;
}.

Lemma fs_at_cwd k F held cur ops : fs_at k F held cur ops -> caches (fs_icache k) cwd ROOTDEV w /\ inode_used sb F w.
Proof.
  intros Hk. assert (caches (fs_icache k) cwd ROOTDEV w) as Hw.
  { apply (one_more_caches l0 _ cur); [apply Hk | | done]. intros i Hi Hr. by apply (co_entry _ _ _ _ _ (fa_cache _ _ _ _ _ Hk)). }
  split; [done|]. destruct Hw as (H1 & H2 & _ & <-). by apply (co_entry _ _ _ _ _ (fa_cache _ _ _ _ _ Hk)).
Qed.

(** [begin_op] and [end_op] *)
Lemma fs_at_same k F F' t ops ops' : fs_at k F None None ops -> same_disk F F' -> rep t F' -> f_ops F' = ops' -> f_log F' = ∅ ->
  fs_at (with_store t k) F' None None ops'.
Proof.
  intros Hk Hs Rt Ho Hl. destruct (fs_at_cwd _ _ _ _ _ Hk) as [_ Hw]. destruct Hk as [K1 K2 K3 K4 K5 K6 K7 K8 K9 K10].
  constructor; try done; [by apply (same_tree sb ds F) | |].
  - unfold path_file in *. rewrite (same_path sb ds F F') by done. destruct (lookup_path sb F w path) as [j|] eqn:Hj; [|done].
    assert (inode_used sb F j) as Hu.
    { unfold lookup_path in Hj. eapply resolve_used; [exact K3 | | exact Hj]. case_test; [apply K3 | done]. }
    rewrite (same_dinode sb ds F F') by (done || apply Hu). destruct (same_file sb ds F F' K3 Hs j Hu) as [_ ->]. done.
  - destruct K9 as [C1 C2 C3 C4]. constructor; try done. intros i Hi Hr. destruct (C4 i Hi Hr) as (D1 & D2 & D3).
    split; [done|]. split; [by apply (same_inode_used sb ds F F')|]. rewrite (same_dinode sb ds F F') by (done || apply D2). done.
Qed.

Definition fs_idle k : Prop := exists F, fs_at k F None None 0.
Definition fs_busy k : Prop := exists F, fs_at k F None None 1.
Definition fs_found (ip : Z) k : Prop := exists F j, fs_at k F None (Some ip) 1 /\
  lookup_path sb F w path = Some j /\ caches (fs_icache k) ip ROOTDEV j.
Definition fs_locked (ip : Z) k : Prop := exists F j, fs_at k F (Some ip) (Some ip) 1 /\
  lookup_path sb F w path = Some j /\ i_inum (rd (fs_icache k) ip) = j.

Lemma fs_begin k : fs_idle k -> wp (st tbegin_op) k (fun _ k' => fs_busy k').
Proof.
  intros (F & Hk). unfold st. apply wp_zoom. eapply wp_mono; [apply (tlaw_begin (rep := rep) _ F (fa_rep _ _ _ _ _ Hk))|].
  { rewrite (fa_log _ _ _ _ _ Hk), (fa_ops _ _ _ _ _ Hk), size_empty. done. }
  intros [] t Rt. exists (f_setops F (f_ops F + 1)). apply (fs_at_same k F _ t 0); try done; [|cbn; by rewrite (fa_ops _ _ _ _ _ Hk)|apply Hk].
  constructor; try done. apply (to_buffers _ _ _ (fa_tree _ _ _ _ _ Hk)).
Qed.
Lemma fs_end k : fs_busy k -> wp (st tend_op) k (fun _ k' => fs_idle k').
Proof.
  intros (F & Hk). pose proof (fa_tree _ _ _ _ _ Hk) as Ht. destruct (to_buffers _ _ _ Ht) as [Ht0 Hb]. unfold st. apply wp_zoom.
  eapply wp_mono; [apply (tlaw_end_last (rep := rep) _ F (fa_rep _ _ _ _ _ Hk)); [apply (to_held _ _ _ Ht) | done | apply Hk |]|].
  { rewrite (fa_log _ _ _ _ _ Hk), size_empty. done. }
  intros [] t (v & Hv & Rt). exists (f_commit F v). apply (fs_at_same k F _ t 1); try done. constructor; try done.
  split; [done|]. cbn. rewrite size_empty. lia.
Qed.
Lemma fs_namei k : fs_busy k -> wp (namei dev_read path) k (fun o k' =>
  match o, file with None, None => fs_busy k' | Some ip, Some _ => fs_found ip k' | _, _ => False end).
Proof.
  intros (F & Hk). destruct (fs_at_cwd _ _ _ _ _ Hk) as [Hw _]. pose proof Hk as [K1 K2 K3 K4 K5 K6 K7 K8 K9 K10].
  eapply wp_mono; [apply (namei_rest dev_read sb ds F K3 k w path K1 K2); [by rewrite K7 | by rewrite K8 | by apply (one_more_unused l0) | done]|].
  intros o k' (t & l' & -> & Rt & Hc' & Hom & Ho). rewrite K7 in Hc'. apply (one_more_trans l0) in Hom; [|done].
  pose proof K6 as Hf. unfold path_file in Hf. destruct (lookup_path sb F w path) as [j|] eqn:Ej.
  - destruct Ho as (ip & -> & Hca), Hf as [_ ->]. exists F, j. split; [by constructor | done].
  - subst o. rewrite Hf. exists F. by constructor.
Qed.
Lemma fs_ilock ip k : fs_found ip k -> wp (ilock ip) k (fun _ k' => fs_locked ip k').
Proof.
  intros (F & j & Hk & Hj & H1 & H2 & H3 & H4). pose proof Hk as [K1 K2 K3 K4 K5 K6 K7 K8 K9 K10].
  eapply (ilock_rest (rep := rep) dev_read sb ds F K3); try done; [by rewrite K7|]. intros t x Rt X1 X2 X3 Hc'. rewrite K7 in Hc'.
  exists F, j. split; [|split; [done | cbn; by rewrite rd_upd_eq, X2 by done]]. constructor; try done. by apply one_more_same.
Qed.
Lemma fs_put ip k : fs_locked ip k -> wp (iunlockput ip) k (fun _ k' => fs_busy k').
Proof.
  intros (F & j & Hk & _). pose proof Hk as [K1 K2 K3 K4 K5 K6 K7 K8 K9 K10]. destruct (co_held _ _ _ _ _ K9 ip eq_refl) as (Hip & _).
  apply (iunlockput_rest dev_read sb ds F K3); [by rewrite K7|]. intros x X1 X2 Hc'. rewrite K7 in Hc'. exists F. constructor; try done.
  by apply one_more_put.
Qed.
Lemma fs_readi c ip k off n : file = Some c -> fs_locked ip k -> 0 <= off < UINT_LIM -> 0 <= n < UINT_LIM ->
  wp (readi dev_read ip off n) k (fun r k' => r = file_read c off n /\ fs_locked ip k').
Proof.
  intros Ec (F & j & Hk & Hj & Hi) Ho Hn. pose proof Hk as [K1 K2 K3 K4 K5 K6 K7 K8 K9 K10].
  destruct (co_held _ _ _ _ _ K9 ip eq_refl) as (Hip & Hr & _ & Hv). destruct (co_entry _ _ _ _ _ K9 ip Hip Hr) as (Hd & Hu & Hdin).
  specialize (Hdin Hv). rewrite Hi in Hu, Hdin. destruct (to_file _ _ _ K3 j Hu) as [Hvf _]. pose proof K6 as Hf. unfold path_file in Hf. rewrite Hj, Ec in Hf.
  destruct Hf as [Hty [= ->]].
  pose proof Hvf as [V1 V2 V3 V4 V5].
  eapply (readi_spec (rep := rep) dev_read k F ds ip (dinode_at sb F j)); try done; rewrite ?K1; try done.
  - intros y _ [h Hh]. rewrite (to_held _ _ _ K3) in Hh. by rewrite lookup_empty in Hh.
  - apply (to_buffers _ _ _ K3).
  - apply (do_size _ V3).
  - intros t Rt. split.
    + unfold file_read. by rewrite lenZ_contents by (pose proof (do_size _ V3); lia).
    + exists F, j. split; [by constructor | done].
Qed.

(** fs.c and log.c keep the laws of [exec]. *)
Definition fs_exec_laws : @ExecLaws (fs_t S) (fs_exec dev_read) path file :=
  @Build_ExecLaws (fs_t S) (fs_exec dev_read) path file fs_idle fs_busy fs_found fs_locked
    Hfile fs_begin fs_end fs_namei fs_ilock fs_readi fs_put.
End laws.
