(* ===== verification/SysfileDemo.v ===== *)
(** * Witnesses for the file descriptors

    A process without open files on the file system of [FsDemo.v] makes a pipe,
    duplicates its read end and closes it again. *)

From S2P Require Import Prelude Bytes Pipe Syscall Store Bio Log Txn Storage Fs File FileSpec Sysfile SysfileSpec FsDemo.

Definition sd_user (arg0 : Z) : user :=
  mkUser 4096 100 (fun a => if a =? 104 then arg0 mod 256 else if a =? 105 then arg0 / 256 else 0).
Definition sd_0 : usys kernel :=
  mkU (replicate (Z.to_nat NOFILE) None) (sd_user 300)
    (mkK (replicate (Z.to_nat NFILE) file0) ∅ [4096; 8192] false dm_fs).
Definition sd_junk (_ : Z) : bytes := zeros 512.
Definition sd_after (m : ST (usys kernel) Z) (s : usys kernel) : usys kernel :=
  match m s with
  | Ok (_, s') => s'
  | _ => s
  end.
Definition sd_1 : usys kernel := sd_after (sys_pipe sd_junk) sd_0.
Definition sd_2 : usys kernel := mkU (x_ofile sd_1) (sd_user 0) (x_k sd_1).
Definition sd_3 : usys kernel := sd_after sys_dup sd_2.
Definition sd_4 : usys kernel := sd_after sys_close sd_3.

Lemma sd_ok : fd_ok (fun _ => 0) sd_0.
Proof.
  assert (forall f, fslot f -> file_at (x_k sd_0) f = file0) as Hat
    by (intros f Hf; unfold file_at; apply rd_replicate; exact Hf).
  assert (forall f, nfd (x_ofile sd_0) f = 0) as Hn by (intros f; reflexivity).
  assert (forall f w a, ~ pipe_end (refs (fun _ => 0) sd_0) (x_k sd_0) f w a) as Hno.
  { intros f w a (_ & Hr & _). unfold refs in Hr. rewrite Hn in Hr. lia. }
  constructor; [reflexivity | | constructor | ].
  - intros fd f Hfd Hr. unfold sd_0, x_ofile in Hr. rewrite rd_replicate in Hr by exact Hfd. done.
  - reflexivity.
  - intros f Hf. rewrite Hat by done. unfold refs. rewrite Hn. done.
  - intros f Hf _. by rewrite Hat.
  - intros f w a Hp. by destruct (Hno f w a).
  - intros f g w a Hp. by destruct (Hno f w a).
  - intros a p Hp. unfold sd_0, x_k, k_pipe in Hp. by rewrite lookup_empty in Hp.
  - intros a _. apply lookup_empty.
  - unfold sd_0, x_k, k_free. apply NoDup_cons. split; [|apply NoDup_singleton].
    rewrite list_elem_of_singleton. lia.
  - intros f Hf Hr. unfold refs in Hr. rewrite Hn in Hr. lia.
Qed.

Lemma sd_run : star (call_step no_dev_read no_dev_write sd_junk) sd_0 sd_4.
Proof.
  apply star_step with sd_1.
  { apply cs_call with (sys_pipe sd_junk) 0; [unfold file_calls; set_solver | vm_compute; reflexivity]. }
  apply star_step with sd_2; [apply cs_user|].
  apply star_step with sd_3.
  { apply cs_call with sys_dup 2; [unfold file_calls; set_solver | vm_compute; reflexivity]. }
  apply star_step with sd_4.
  { apply cs_call with sys_close 0; [unfold file_calls; set_solver | vm_compute; reflexivity]. }
  apply star_refl.
Qed.

Lemma descriptors_counted_witness :
  fd_ok (fun _ => 0) sd_4 /\
  forall fd f, 0 <= fd < NOFILE -> rd (x_ofile sd_4) fd = Some f ->
    1 <= fl_ref (file_at (x_k sd_4) f) /\ fl_type (file_at (x_k sd_4) f) <> FD_NONE /\
    (fl_type (file_at (x_k sd_4) f) = FD_PIPE ->
       exists p, k_pipe (x_k sd_4) !! fl_pipe (file_at (x_k sd_4) f) = Some p /\
         end_open (fl_writable (file_at (x_k sd_4) f)) p = true).
Proof.
  apply (descriptors_counted no_dev_read no_dev_write sd_junk (fun _ => 0) sd_0 sd_4).
  - intros f. lia.
  - exact sd_ok.
  - exact sd_run.
Defined.
