(* ===== verification/Kbd.v ===== *)
(** * The keyboard (src/xv6/kbd.c, src/xv6/kbd.h)

    The translation of scan codes to characters, with its modifier state.  The
    controller is the list of the scan codes that wait in it: its status port
    says whether there is one, and its data port takes it. *)

From S2P Require Import Prelude.
From Stdlib Require Import Ascii.

Definition chars (s : string) : list Z := (fun a => Z.of_N (N_of_ascii a)) <$> String.list_ascii_of_string s.

(** ** kbd.h *)

Definition NO : Z := 0.
Definition SHIFT : Z := Z.shiftl 1 0.
Definition CTL : Z := Z.shiftl 1 1.
Definition ALT : Z := Z.shiftl 1 2.
Definition CAPSLOCK : Z := Z.shiftl 1 3.
Definition NUMLOCK : Z := Z.shiftl 1 4.
Definition SCROLLLOCK : Z := Z.shiftl 1 5.
Definition E0ESC : Z := Z.shiftl 1 6.

Definition KEY_HOME : Z := 224.
Definition KEY_END : Z := 225.
Definition KEY_UP : Z := 226.
Definition KEY_DN : Z := 227.
Definition KEY_LF : Z := 228.
Definition KEY_RT : Z := 229.
Definition KEY_PGUP : Z := 230.
Definition KEY_PGDN : Z := 231.
Definition KEY_INS : Z := 232.
Definition KEY_DEL : Z := 233.

(** [C('A')] *)
Definition ctrl (s : string) : list Z := (fun c => c - 64) <$> chars s.

(** An array of 256 bytes with an initializer: the elements in order, then
    those with an index. *)
Definition array256 (l : list Z) (at_ : list (Z * Z)) : list Z :=
  u8 <$> foldl (fun l d => upd l d.1 d.2) (l ++ replicate (256 - length l) 0) at_.

Definition shiftcode : list Z :=
  array256 [] [(29, CTL); (42, SHIFT); (54, SHIFT); (56, ALT); (157, CTL); (184, ALT)].

Definition togglecode : list Z :=
  array256 [] [(58, CAPSLOCK); (69, NUMLOCK); (70, SCROLLLOCK)].

(** The keys after an [E0] escape, the same in the three maps. *)
Definition e0keys : list (Z * Z) :=
  [(200, KEY_UP); (208, KEY_DN); (201, KEY_PGUP); (209, KEY_PGDN); (203, KEY_LF); (205, KEY_RT);
   (151, KEY_HOME); (207, KEY_END); (210, KEY_INS); (211, KEY_DEL)].

Definition normalmap : list Z :=
  array256
    ([NO; 27] ++ chars "1234567890-=" ++ [8; 9] ++
     chars "qwertyuiop[]" ++ [10; NO] ++ chars "as" ++
     chars "dfghjkl;'`" ++ [NO] ++ chars "\zxcv" ++
     chars "bnm,./" ++ [NO] ++ chars "*" ++ [NO] ++ chars " " ++ replicate 6 NO ++
     replicate 7 NO ++ chars "789-456+1" ++
     chars "230." ++ replicate 4 NO)
    ([(156, 10); (181, 47)] ++ e0keys).

Definition shiftmap : list Z :=
  array256
    ([NO; 27] ++ chars "!@#$%^&*()_+" ++ [8; 9] ++
     chars "QWERTYUIOP{}" ++ [10; NO] ++ chars "AS" ++
     chars "DFGHJKL:" ++ [34] ++ chars "~" ++ [NO] ++ chars "|ZXCV" ++
     chars "BNM<>?" ++ [NO] ++ chars "*" ++ [NO] ++ chars " " ++ replicate 6 NO ++
     replicate 7 NO ++ chars "789-456+1" ++
     chars "230." ++ replicate 4 NO)
    ([(156, 10); (181, 47)] ++ e0keys).

Definition ctlmap : list Z :=
  array256
    (replicate 16 NO ++
     ctrl "QWERTYUIOP" ++ [NO; NO; 13; NO] ++ ctrl "AS" ++
     ctrl "DFGHJKL" ++ replicate 4 NO ++ ctrl "\ZXCV" ++
     ctrl "BNM" ++ [NO; NO] ++ ctrl "/" ++ [NO; NO])
    ([(156, 13); (181, 47 - 64)] ++ e0keys).

(** ** kbd.c *)

(** The static variable [shift], and the scan codes in the controller. *)
Record kbd := mkKbd { k_shift : Z; k_port : list Z }.

Definition charcode : list (list Z) := [normalmap; shiftmap; ctlmap; ctlmap].

(** [kbdgetc] on a scan code: the character, 0 for none, and the new [shift]. *)
Definition kbd_code (shift data : Z) : Z * Z :=
  if data =? 224 then (0, Z.lor shift E0ESC)
  else if negb (Z.land data 128 =? 0) then
    (* Key released *)
    let data := if negb (Z.land shift E0ESC =? 0) then data else Z.land data 127 in
    (0, Z.land shift (Z.lnot (Z.lor (rd shiftcode data) E0ESC)))
  else
    let '(data, shift) :=
      if negb (Z.land shift E0ESC =? 0) then (Z.lor data 128, Z.land shift (Z.lnot E0ESC))
      else (data, shift) in
    let shift := Z.lor shift (rd shiftcode data) in
    let shift := Z.lxor shift (rd togglecode data) in
    let c := rd (rd charcode (Z.land shift (Z.lor CTL SHIFT))) data in
    let c :=
      if negb (Z.land shift CAPSLOCK =? 0) then
        if (97 <=? c) && (c <=? 122) then u32 (c + (65 - 97))
        else if (65 <=? c) && (c <=? 90) then u32 (c + (97 - 65))
        else c
      else c in
    (c, shift).

Definition kbdgetc : ST kbd Z := fun k =>
  match k_port k with
  | [] => Ok (-1, k)
  | data :: port => let '(c, shift) := kbd_code (k_shift k) data in Ok (c, mkKbd shift port)
  end.

(** ** The codes of a sequence of scan codes *)

Fixpoint kbd_codes (shift : Z) (port : list Z) : list Z * Z :=
  match port with
  | [] => ([], shift)
  | data :: port =>
      let '(c, shift) := kbd_code shift data in
      let '(cs, shift) := kbd_codes shift port in (c :: cs, shift)
  end.

Lemma kbd_codes_app shift p q :
  kbd_codes shift (p ++ q) =
    let '(cs, shift) := kbd_codes shift p in let '(ds, shift) := kbd_codes shift q in (cs ++ ds, shift).
Proof.
  revert shift. induction p as [|d p IH]; intros shift; cbn [kbd_codes app].
  - by destruct (kbd_codes shift q).
  - destruct (kbd_code shift d) as [c sh]. rewrite IH. destruct (kbd_codes sh p) as [cs sh'].
    by destruct (kbd_codes sh' q).
Qed.

(** [shift] uses its seven low bits. *)
Definition shift_wf (shift : Z) : Prop := 0 <= shift < 128.

Definition code_ok (shift data : Z) : bool :=
  let '(c, sh) := kbd_code shift data in
  (0 <=? c) && (c <? 256) && (0 <=? sh) && (sh <? 128).
Lemma code_ok_all :
  forallb (fun shift => forallb (code_ok shift) (seqZ 0 256)) (seqZ 0 128) = true.
Proof. by vm_compute. Qed.

(** Every scan code gives a byte and keeps the modifier state in its seven bits. *)
Lemma kbd_code_ok shift data : shift_wf shift -> 0 <= data < 256 ->
  0 <= (kbd_code shift data).1 < 256 /\ shift_wf (kbd_code shift data).2.
Proof.
  intros Hs Hd. pose proof (forallb_seqZ _ _ _ code_ok_all shift Hs) as H.
  pose proof (forallb_seqZ _ _ _ H data Hd) as H'. unfold code_ok in H'.
  destruct (kbd_code shift data) as [c sh]. unfold shift_wf. cbn [fst snd]. bool_to_prop. lia.
Qed.

Lemma kbd_codes_ok shift port : shift_wf shift -> Forall (fun d => 0 <= d < 256) port ->
  Forall (fun c => 0 <= c < 256) (kbd_codes shift port).1.
Proof.
  intros Hs Hp. revert shift Hs. induction Hp as [|d port Hd _ IH]; intros shift Hs; [constructor|].
  cbn [kbd_codes]. destruct (kbd_code_ok shift d Hs Hd) as [H1 H2].
  destruct (kbd_code shift d) as [c sh]. specialize (IH sh H2).
  destruct (kbd_codes sh port). by constructor.
Qed.

(** ** Typing *)

(** The key that gives a character in a map. *)
Definition key_of (map_ : list Z) (c : Z) : option Z :=
  Z.of_nat <$> (fst <$> list_find (fun x => x = c) (take 128 map_)).

(** The scan codes of a typist: the key goes down and up, under the shift key
    when the character needs it. *)
Definition keys (c : Z) : list Z :=
  match key_of normalmap c with
  | Some d => [d; d + 128]
  | None => match key_of shiftmap c with
            | Some d => [42; d; d + 128; 42 + 128]
            | None => []
            end
  end.

(** The printable characters and the newline. *)
Definition typable (c : Z) : bool := (32 <=? c) && (c <=? 126) || (c =? 10).

Definition types_ok (c : Z) : bool :=
  negb (typable c) ||
  let '(cs, sh) := kbd_codes 0 (keys c) in
  bool_decide (filter (fun x => x <> 0) cs = [c]) && (sh =? 0) && forallb (fun d => (0 <=? d) && (d <? 256)) (keys c).
Lemma types_ok_all : forallb types_ok (seqZ 0 128) = true.
Proof. by vm_compute. Qed.

Lemma kbd_types c : typable c = true ->
  filter (fun x => x <> 0) (kbd_codes 0 (keys c)).1 = [c] /\ (kbd_codes 0 (keys c)).2 = 0 /\
  Forall (fun d => 0 <= d < 256) (keys c).
Proof.
  intros Hc. assert (0 <= c < 0 + 128) as Hr by (unfold typable in Hc; bool_to_prop; lia).
  pose proof (forallb_seqZ _ _ _ types_ok_all c Hr) as H. unfold types_ok in H. rewrite Hc in H. cbn [negb orb] in H.
  destruct (kbd_codes 0 (keys c)) as [cs sh]. bool_to_prop. split_and!; [done..|].
  apply Forall_forall. intros d Hd. rewrite forallb_forall in H0.
  specialize (H0 d ltac:(by apply list_elem_of_In)). bool_to_prop. lia.
Qed.

(** What a typist types arrives: the codes of the keys of a text, but for those
    that stand for no character, are the text. *)
Lemma kbd_types_text t : forallb typable t = true ->
  filter (fun x => x <> 0) (kbd_codes 0 (t ≫= keys)).1 = t /\ (kbd_codes 0 (t ≫= keys)).2 = 0 /\
  Forall (fun d => 0 <= d < 256) (t ≫= keys).
Proof.
  induction t as [|c t IH]; intros Ht; [by split_and!|]. cbn [forallb] in Ht. apply andb_true_iff in Ht as [Hc Ht].
  destruct (kbd_types c Hc) as (H1 & H2 & H3). destruct (IH Ht) as (I1 & I2 & I3).
  cbn [mbind list_bind]. rewrite kbd_codes_app. destruct (kbd_codes 0 (keys c)) as [cs sh].
  cbn [snd fst] in *. subst sh. change (list_bind _ _ keys t) with (t ≫= keys).
  destruct (kbd_codes 0 (t ≫= keys)) as [ds sh]. cbn [fst snd] in *.
  rewrite filter_app, H1, I1. split_and!; [done | done | by apply Forall_app].
Qed.
