(* ===== verification/Console.v ===== *)
(** * The console (src/xv6/console.c, src/xv6/uart.c)

    The screen, the serial line, formatted output and the line discipline that
    turns characters typed into lines to read.  [cons.lock] is a flag: the code
    runs on one processor at a time under it, and to take it twice is a panic.
    [consoleread] runs from its loop test to its return or to the next [sleep].
    The ports of the screen are its cursor register, those of the serial line
    the bytes sent and the bytes that wait to be received. *)

From S2P Require Import Prelude Bytes.

Definition INPUT_BUF : Z := 128.
Definition BACKSPACE : Z := 256.

(** [C(x)] for the control characters the console knows. *)
Definition CTRL_D : Z := 4.
Definition CTRL_H : Z := 8.
Definition CTRL_P : Z := 16.
Definition CTRL_U : Z := 21.

Record input := mkInput {
  buf : bytes;
  r : Z;   (* Read index *)
  w : Z;   (* Write index *)
  e : Z;   (* Edit index *)
}.

Record console := mkCons {
  c_input : input;
  c_lock : bool;       (* cons.lock is held *)
  c_locking : bool;    (* cons.locking *)
  c_panicked : bool;
  c_crt : list Z;      (* the cells of the screen, 16 bits each *)
  c_pos : Z;           (* the cursor register *)
  c_uart : bool;       (* is there a uart? *)
  c_sent : bytes;      (* what the serial line sent *)
  c_woken : bool;      (* wakeup(&input.r) was called *)
  c_ilock : bool;      (* the process holds the lock of the inode of the console *)
}.

Definition set_input (f : input -> input) (s : console) : console :=
  mkCons (f (c_input s)) (c_lock s) (c_locking s) (c_panicked s) (c_crt s) (c_pos s) (c_uart s) (c_sent s) (c_woken s) (c_ilock s).
Definition set_lock (b : bool) (s : console) : console :=
  mkCons (c_input s) b (c_locking s) (c_panicked s) (c_crt s) (c_pos s) (c_uart s) (c_sent s) (c_woken s) (c_ilock s).
Definition set_locking (b : bool) (s : console) : console :=
  mkCons (c_input s) (c_lock s) b (c_panicked s) (c_crt s) (c_pos s) (c_uart s) (c_sent s) (c_woken s) (c_ilock s).
Definition set_panicked (s : console) : console :=
  mkCons (c_input s) (c_lock s) (c_locking s) true (c_crt s) (c_pos s) (c_uart s) (c_sent s) (c_woken s) (c_ilock s).
Definition set_screen (crt : list Z) (pos : Z) (s : console) : console :=
  mkCons (c_input s) (c_lock s) (c_locking s) (c_panicked s) crt pos (c_uart s) (c_sent s) (c_woken s) (c_ilock s).
Definition send (c : Z) (s : console) : console :=
  mkCons (c_input s) (c_lock s) (c_locking s) (c_panicked s) (c_crt s) (c_pos s) (c_uart s) (c_sent s ++ [u8 c]) (c_woken s) (c_ilock s).
Definition set_woken (b : bool) (s : console) : console :=
  mkCons (c_input s) (c_lock s) (c_locking s) (c_panicked s) (c_crt s) (c_pos s) (c_uart s) (c_sent s) b (c_ilock s).
Definition set_ilock (b : bool) (s : console) : console :=
  mkCons (c_input s) (c_lock s) (c_locking s) (c_panicked s) (c_crt s) (c_pos s) (c_uart s) (c_sent s) (c_woken s) b.

Definition acquire : ST console unit :=
  l <- gets c_lock ;; panic_if l "acquire" ;;; modify (set_lock true).
Definition release : ST console unit :=
  l <- gets c_lock ;; panic_if (negb l) "release" ;;; modify (set_lock false).
Definition iunlock : ST console unit :=
  l <- gets c_ilock ;; panic_if (negb l) "iunlock" ;;; modify (set_ilock false).
Definition ilock : ST console unit := modify (set_ilock true).

(** ** Output *)

(** The serial line is ready at the latest after the delay. *)
Definition uartputc (c : Z) : ST console unit :=
  u <- gets c_uart ;; when u (modify (send c)).

(** [memmove(crt, crt+80, ...)] and [memset(crt+pos, 0, ...)] on the cells. *)
Definition scroll (crt : list Z) (pos : Z) : list Z :=
  let crt := take 1840 (drop 80 crt) ++ drop 1840 crt in
  take (Z.to_nat pos) crt ++ replicate (Z.to_nat (24 * 80 - pos)) 0 ++ drop 1920 crt.

Definition cgaputc (c : Z) : ST console unit :=
  crt <- gets c_crt ;;
  pos <- gets c_pos ;;
  let '(crt, pos) :=
    if c =? 10 then (crt, pos + (80 - pos mod 80))
    else if c =? BACKSPACE then (crt, if pos >? 0 then pos - 1 else pos)
    else (upd crt pos (Z.lor (Z.land c 255) 1792), pos + 1) in
  panic_if ((pos <? 0) || (pos >? 25 * 80)) "pos under/overflow" ;;;
  let '(crt, pos) :=
    if pos / 80 >=? 24 then (scroll crt (pos - 80), pos - 80) else (crt, pos) in
  modify (set_screen (upd crt pos (Z.lor 32 1792)) (u16 pos)).

(** After a panic the processor spins. *)
Definition consputc (c : Z) : ST console unit :=
  p <- gets c_panicked ;;
  if (p : bool) then nofuel else
  (if c =? BACKSPACE then uartputc 8 ;;; uartputc 32 ;;; uartputc 8 else uartputc c) ;;;
  cgaputc c.

Fixpoint consputs (l : list Z) : ST console unit :=
  match l with
  | [] => ret tt
  | c :: l => consputc c ;;; consputs l
  end.

Definition digits : bytes := [48;49;50;51;52;53;54;55;56;57;97;98;99;100;101;102].

(** [buf[0..i-1]] at the end of the loop; a word has at most 32 digits. *)
Fixpoint printint_loop (fuel : nat) (x base : Z) : bytes :=
  match fuel with
  | O => []
  | S fuel =>
      rd digits (x mod base) ::
      (if x / base =? 0 then [] else printint_loop fuel (x / base) base)
  end.
Definition printint (xx base : Z) (sgn : bool) : ST console unit :=
  let neg := sgn && (xx <? 0) in
  let x := if neg then u32 (- xx) else u32 xx in
  let buf := printint_loop 32 x base ++ (if neg then [45] else []) in
  consputs (reverse buf).

Fixpoint put_str (s : bytes) : ST console unit :=
  match s with
  | c :: s => if c =? 0 then ret tt else consputc c ;;; put_str s
  | [] => ret tt
  end.

(** The words after [fmt] on the stack are [argp]; [str] is the memory, as the
    bytes from an address on. *)
Fixpoint cprintf_loop (str : Z -> bytes) (fmt : bytes) (argp : list Z) {struct fmt} : ST console unit :=
  match fmt with
  | [] => ret tt
  | c :: fmt =>
      let c := Z.land c 255 in
      if c =? 0 then ret tt else
      if negb (c =? 37) then consputc c ;;; cprintf_loop str fmt argp else
      match fmt with
      | [] => ret tt
      | c :: fmt =>
          let c := Z.land c 255 in
          if c =? 0 then ret tt else
          if c =? 100 then printint (s32 (rd argp 0)) 10 true ;;; cprintf_loop str fmt (tail argp)
          else if (c =? 120) || (c =? 112) then
            printint (s32 (rd argp 0)) 16 false ;;; cprintf_loop str fmt (tail argp)
          else if c =? 115 then
            put_str (if rd argp 0 =? 0 then [40; 110; 117; 108; 108; 41] else str (rd argp 0)) ;;;
            cprintf_loop str fmt (tail argp)
          else if c =? 37 then consputc 37 ;;; cprintf_loop str fmt argp
          else consputc 37 ;;; consputc c ;;; cprintf_loop str fmt argp
      end
  end.

Definition cprintf (str : Z -> bytes) (fmt : bytes) (argp : list Z) : ST console unit :=
  locking <- gets c_locking ;;
  when locking acquire ;;;
  cprintf_loop str fmt argp ;;;
  when locking release.

(** [panic], up to the loop it ends in: [pcs] are the callers that [getcallerpcs]
    finds, [stack] what a conversion in the message would print. *)
Definition kpanic (str : Z -> bytes) (lapicid : Z) (s : bytes) (stack pcs : list Z) : ST console unit :=
  modify (set_locking false) ;;;
  (* "lapicid %d: panic: " *)
  cprintf str [108;97;112;105;99;105;100;32;37;100;58;32;112;97;110;105;99;58;32] [lapicid] ;;;
  cprintf str s stack ;;;
  cprintf str [10] [] ;;;
  forM 10 0 (fun i => cprintf str [32;37;112] [rd pcs i]) ;;;
  modify set_panicked.

Fixpoint consolewrite_loop (l : bytes) : ST console unit :=
  match l with
  | [] => ret tt
  | c :: l => consputc (Z.land c 255) ;;; consolewrite_loop l
  end.
(** [n] is the length of [buf]. *)
Definition consolewrite (buf : bytes) : ST console Z :=
  iunlock ;;; acquire ;;; consolewrite_loop buf ;;; release ;;; ilock ;;; ret (lenZ buf).

Definition consoleinit (s : console) : console := set_locking true (set_lock false s).

(** ** Input *)

(** [input.e--], [input.r--] and their like. *)
Definition set_e (x : Z) : ST console unit :=
  modify (set_input (fun i => mkInput (buf i) (r i) (w i) (u32 x))).
Definition set_w (x : Z) : ST console unit :=
  modify (set_input (fun i => mkInput (buf i) (r i) (u32 x) (e i))).
Definition set_r (x : Z) : ST console unit :=
  modify (set_input (fun i => mkInput (buf i) (u32 x) (w i) (e i))).
Definition set_buf (k x : Z) : ST console unit :=
  modify (set_input (fun i => mkInput (upd (buf i) k (u8 x)) (r i) (w i) (e i))).

(** Kill line.  The line has at most [input.e - input.w] characters. *)
Fixpoint kill_line (fuel : nat) : ST console unit :=
  match fuel with
  | O => nofuel
  | S fuel =>
      i <- gets c_input ;;
      if negb (e i =? w i) && negb (rd (buf i) (u32 (e i - 1) mod INPUT_BUF) =? 10) then
        set_e (e i - 1) ;;; consputc BACKSPACE ;;; kill_line fuel
      else ret tt
  end.

(** One turn of the loop of [consoleintr], but for control-P. *)
Definition consolekey (c : Z) : ST console unit :=
  i <- gets c_input ;;
  if c =? CTRL_U then kill_line (S (Z.to_nat (u32 (e i - w i))))
  else if (c =? CTRL_H) || (c =? 127) then
    when (negb (e i =? w i)) (set_e (e i - 1) ;;; consputc BACKSPACE)
  else
    when (negb (c =? 0) && (u32 (e i - r i) <? INPUT_BUF))
      (let c := if c =? 13 then 10 else c in
       set_buf (e i mod INPUT_BUF) c ;;;
       set_e (e i + 1) ;;;
       consputc c ;;;
       i <- gets c_input ;;
       when ((c =? 10) || (c =? CTRL_D) || (e i =? u32 (r i + INPUT_BUF)))
         (set_w (e i) ;;; modify (set_woken true))).

Section intr.
Context {K : Type} (getc : ST K Z) (procdump : ST console unit).

Definition on_console {A} (m : ST console A) : ST (console * K) A := zoom fst (fun s x => (s, x.2)) m.
Definition on_device {A} (m : ST K A) : ST (console * K) A := zoom snd (fun k x => (x.1, k)) m.

(** The loop of [consoleintr] returns [doprocdump]; the fuel is more than the
    number of the characters that wait. *)
Fixpoint consoleintr_loop (fuel : nat) (doprocdump : bool) : ST (console * K) bool :=
  match fuel with
  | O => nofuel
  | S fuel =>
      c <- on_device getc ;;
      if c >=? 0 then
        if c =? CTRL_P then consoleintr_loop fuel true
        else on_console (consolekey c) ;;; consoleintr_loop fuel doprocdump
      else ret doprocdump
  end.

Definition consoleintr (fuel : nat) : ST (console * K) unit :=
  on_console acquire ;;;
  doprocdump <- consoleintr_loop fuel false ;;
  on_console release ;;;
  when doprocdump (on_console procdump).
End intr.

(** [uartgetc], on the bytes that wait in the serial line. *)
Definition uartgetc : ST (bool * bytes) Z := fun k =>
  let '(uart, port) := k in
  if negb uart then Ok (-1, k)
  else match port with
       | [] => Ok (-1, k)
       | c :: port => Ok (c, (uart, port))
       end.

(** Where [consoleread] stops: it returns, or it sleeps on [&input.r] with [n]
    bytes to go.  The bytes are those written at [dst]. *)
Inductive cout := CDone (res : Z) (dst : bytes) | CSleep (n : Z) (dst : bytes).

(** The outer loop, from the test of the inner one; the bytes of [dst] so far. *)
Fixpoint consoleread_loop (killed : bool) (target : Z) (n : nat) (dst : bytes) : ST console cout :=
  match n with
  | O => release ;;; ilock ;;; ret (CDone (s32 target) dst)
  | S n' =>
      i <- gets c_input ;;
      if r i =? w i then
        if killed then release ;;; ilock ;;; ret (CDone (-1) dst)
        else release ;;; ret (CSleep (Z.of_nat n) dst)
      else
        let c := rd (buf i) (r i mod INPUT_BUF) in
        set_r (r i + 1) ;;;
        if c =? CTRL_D then
          when (Z.of_nat n <? target) (i <- gets c_input ;; set_r (r i - 1)) ;;;
          release ;;; ilock ;;; ret (CDone (s32 (target - Z.of_nat n)) dst)
        else if c =? 10 then release ;;; ilock ;;; ret (CDone (s32 (target - Z.of_nat n')) (dst ++ [c]))
        else consoleread_loop killed target n' (dst ++ [c])
  end.

(** [consoleread] from its entry, and after a [sleep], which takes the lock
    again. *)
Definition consoleread (killed : bool) (n : Z) : ST console cout :=
  iunlock ;;; acquire ;;;
  (if n <=? 0 then release ;;; ilock ;;; ret (CDone 0 []) else consoleread_loop killed (u32 n) (Z.to_nat n) []).
Definition consoleread_resume (killed : bool) (target n : Z) (dst : bytes) : ST console cout :=
  acquire ;;; consoleread_loop killed target (Z.to_nat n) dst.
