(* ===== verification/ConsoleSpec.v ===== *)
(** * What the console promises

    The screen stays well formed; the ring of [console.c] implements a line
    editor on two lists, the text ready to be read and the line being edited;
    [consoleread] delivers the lines; and what is typed at the keyboard is what
    a read returns. *)

From S2P Require Import Prelude Bytes Kbd Console.

(** ** The screen *)

(** 25 rows of 80 cells, and the cursor in the first 24. *)
Record screen_ok (s : console) : Prop := {
  so_crt : lenZ (c_crt s) = 2000;
  so_pos : 0 <= c_pos s < 1920;
  so_panicked : c_panicked s = false;
}.

(** Output changes the screen and the serial line only. *)
Record same_state (s s' : console) : Prop := {
  ss_input : c_input s' = c_input s;
  ss_lock : c_lock s' = c_lock s;
  ss_locking : c_locking s' = c_locking s;
  ss_woken : c_woken s' = c_woken s;
  ss_ilock : c_ilock s' = c_ilock s;
  ss_uart : c_uart s' = c_uart s;
}.

#[export] Instance same_state_preorder : PreOrder same_state.
Proof. split; [by intros s | intros a b c [] []; split; congruence]. Qed.

(** What the serial line sends for a character. *)
Definition echo (c : Z) : bytes := if c =? BACKSPACE then [8; 32; 8] else [u8 c].

Lemma scroll_len crt pos : lenZ crt = 2000 -> 0 <= pos <= 1920 -> lenZ (scroll crt pos) = 2000.
Proof.
  unfold lenZ, scroll. intros Hl Hp.
  repeat rewrite ?length_app, ?length_take, ?length_drop, ?length_replicate. lia.
Qed.

Lemma uartputc_spec c s (Q : unit -> console -> Prop) :
  Q tt (if c_uart s then send c s else s) -> wp (uartputc c) s Q.
Proof. unfold uartputc, wp, bind, gets. intros HQ. by destruct (c_uart s). Qed.

Lemma cgaputc_spec c s : screen_ok s ->
  wp (cgaputc c) s (fun _ s' => exists crt pos, s' = set_screen crt pos s /\ screen_ok s').
Proof.
  intros [Hl Hp Hn]. unfold cgaputc. wp_steps.
  destruct (if c =? 10 then _ else _) as [crt pos] eqn:E.
  assert (lenZ crt = 2000 /\ 0 <= pos <= 1920) as [Hl' Hp'].
  { repeat case_match; simplify_eq; rewrite ?upd_lenZ; split; try done; bool_to_prop; try zlia. }
  wp_steps; [lia|]. destruct (pos / 80 >=? 24) eqn:Es; wp_steps; eexists _, _; (split; [done|]).
  - assert (1920 <= pos) by zlia. split; cbn; [|rewrite u16_small; lia | done].
    rewrite upd_lenZ. apply scroll_len; [done | lia].
  - assert (pos < 1920) by zlia. split; cbn; [by rewrite upd_lenZ | rewrite u16_small; lia | done].
Qed.

(** [consputc] keeps the screen well formed and never panics; it sends the
    character, or what erases one, on the serial line. *)
Lemma consputc_spec c s : screen_ok s ->
  wp (consputc c) s (fun _ s' => screen_ok s' /\ same_state s s' /\
    c_sent s' = c_sent s ++ if c_uart s then echo c else []).
Proof.
  intros Hs. unfold consputc, echo. wp_steps. rewrite (so_panicked s Hs). wp_steps.
  destruct (c =? BACKSPACE); repeat (wp_step || apply uartputc_spec);
    destruct (c_uart s) eqn:Hu; cbn [c_uart send]; rewrite ?Hu; cbn [c_uart send]; rewrite ?Hu;
    (eapply wp_mono; [apply cgaputc_spec; destruct Hs; by split|]);
    intros [] s' (crt & pos & -> & Hok); cbn; rewrite <- ?app_assoc, ?app_nil_r; (split; [done | by split]).
Qed.

Lemma acquire_spec s (Q : unit -> console -> Prop) :
  c_lock s = false -> Q tt (set_lock true s) -> wp acquire s Q.
Proof. unfold acquire, wp, bind, gets. by intros ->. Qed.
Lemma release_spec s (Q : unit -> console -> Prop) :
  c_lock s = true -> Q tt (set_lock false s) -> wp release s Q.
Proof. unfold release, wp, bind, gets. by intros ->. Qed.
Lemma iunlock_spec s (Q : unit -> console -> Prop) :
  c_ilock s = true -> Q tt (set_ilock false s) -> wp iunlock s Q.
Proof. unfold iunlock, wp, bind, gets. by intros ->. Qed.

Create HintDb prints.

(** Output that returns, on a well-formed screen. *)
Definition prints (m : ST console unit) : Prop :=
  forall s, screen_ok s -> wp m s (fun _ s' => screen_ok s' /\ same_state s s').

Lemma prints_ret : prints (ret tt).
Proof. intros s Hs. wp_steps. split; [done | reflexivity]. Qed.
Lemma prints_consputc c : prints (consputc c).
Proof. intros s Hs. eapply wp_mono; [by apply consputc_spec|]. naive_solver. Qed.
Lemma prints_seq m k : prints m -> prints k -> prints (m ;;; k).
Proof.
  intros Hm Hk s Hs. wp_steps. eapply wp_mono; [by apply Hm|]. intros [] s1 [H1 E1].
  eapply wp_mono; [by apply Hk|]. intros [] s2 [H2 E2]. split; [done | by transitivity s1].
Qed.
#[local] Hint Resolve prints_ret prints_consputc prints_seq : prints.

Lemma prints_consputs l : prints (consputs l).
Proof. induction l; cbn [consputs]; auto with prints. Qed.
Lemma prints_put_str s : prints (put_str s).
Proof. induction s as [|c s IH]; cbn [put_str]; repeat case_match; auto with prints. Qed.
#[local] Hint Resolve prints_consputs prints_put_str : prints.

Lemma prints_cprintf_loop str fmt argp : prints (cprintf_loop str fmt argp).
Proof.
  remember (length fmt) as n eqn:Hn. revert fmt argp Hn.
  induction n as [n IH] using lt_wf_ind; intros [|c [|d fmt]] argp ->; cbn [cprintf_loop length] in *;
    unfold printint; repeat case_match; eauto 7 with prints arith.
  all: repeat apply prints_seq; auto with prints; eapply (IH (S (length fmt))); cbn; lia.
Qed.

(** [cprintf] keeps the locks as they are; it needs [cons.lock] to be free. *)
Lemma cprintf_spec str fmt argp s : screen_ok s -> (c_locking s = true -> c_lock s = false) ->
  wp (cprintf str fmt argp) s (fun _ s' => screen_ok s' /\ same_state s s').
Proof.
  intros Hs Hl. unfold cprintf. apply wp_bind, wp_gets, wp_bind. destruct (c_locking s) eqn:El; cbn [when].
  - apply acquire_spec; [by apply Hl|]. apply wp_bind.
    eapply wp_mono; [apply prints_cprintf_loop; destruct Hs; by split|]. intros [] s' [Hs' []]. cbn in *.
    apply release_spec; [done|]. split; [destruct Hs'; by split|]. split; cbn; try done. by rewrite Hl.
  - wp_steps. eapply wp_mono; [by apply prints_cprintf_loop|]. intros [] s' H. by wp_steps.
Qed.

(** ** The line editor *)

(** The text ready to be read, and the line being edited. *)
Record line := mkLine { ready : bytes; edit : bytes }.

(** A key: erase the line, erase a character, or add a character; a newline,
    an end of file or the last free place makes the line ready. *)
Definition line_key (l : line) (c : Z) : line :=
  if c =? CTRL_P then l
  else if c =? CTRL_U then mkLine (ready l) []
  else if (c =? CTRL_H) || (c =? 127) then mkLine (ready l) (removelast (edit l))
  else if (c =? 0) || (INPUT_BUF <=? lenZ (ready l ++ edit l)) then l
  else
    let c := if c =? 13 then 10 else c in
    let l' := mkLine (ready l) (edit l ++ [c]) in
    if (c =? 10) || (c =? CTRL_D) || (lenZ (ready l' ++ edit l') =? INPUT_BUF)
    then mkLine (ready l' ++ edit l') [] else l'.

(** The ring from [R] on holds the text; the indices count modulo [2^32]. *)
Record ring (i : input) (l : line) (R : Z) : Prop := {
  rg_r : r i = u32 R;
  rg_w : w i = u32 (R + lenZ (ready l));
  rg_e : e i = u32 (R + lenZ (ready l ++ edit l));
  rg_buf : lenZ (buf i) = INPUT_BUF;
  rg_len : lenZ (ready l ++ edit l) <= INPUT_BUF;
  rg_get k : 0 <= k < lenZ (ready l ++ edit l) -> rd (buf i) ((R + k) mod INPUT_BUF) = rd (ready l ++ edit l) k;
}.

(** The line being edited is no complete line, and there is none when the
    ring is full. *)
Record line_ok (l : line) : Prop := {
  lo_edit : 10 ∉ edit l;
  lo_full : lenZ (ready l ++ edit l) = INPUT_BUF -> edit l = [];
}.

Lemma mod_buf z : u32 z mod INPUT_BUF = z mod INPUT_BUF.
Proof. apply u32_mod_div; [unfold INPUT_BUF; lia|]. by exists 33554432. Qed.
Lemma u32_eqb a b : -4294967296 < a - b < 4294967296 -> (u32 a =? u32 b) = (a =? b).
Proof. intros H. unfold u32. destruct (Z.eqb_spec a b), (Z.eqb_spec (a mod 4294967296) (b mod 4294967296)); try done; zlia. Qed.

Section ring.
Context (i : input) (l : line) (R : Z).
Hypothesis Hr : ring i l R.

Lemma ring_sizes : 0 <= lenZ (ready l) /\ 0 <= lenZ (edit l) /\ lenZ (ready l ++ edit l) = lenZ (ready l) + lenZ (edit l) /\
  lenZ (ready l) + lenZ (edit l) <= 128.
Proof. pose proof (rg_len _ _ _ Hr) as H. rewrite lenZ_app in H |- *. unfold INPUT_BUF in H. pose proof (lenZ_nonneg (ready l)). pose proof (lenZ_nonneg (edit l)). lia. Qed.

Lemma ring_edit_empty : (e i =? w i) = (lenZ (edit l) =? 0).
Proof.
  destruct ring_sizes as (? & ? & E & ?). rewrite (rg_e _ _ _ Hr), (rg_w _ _ _ Hr), E, u32_eqb by lia.
  destruct (Z.eqb_spec (lenZ (edit l)) 0), (Z.eqb_spec (R + (lenZ (ready l) + lenZ (edit l))) (R + lenZ (ready l))); lia.
Qed.
Lemma ring_ready_empty : (r i =? w i) = (lenZ (ready l) =? 0).
Proof.
  destruct ring_sizes as (? & ? & E & ?). rewrite (rg_r _ _ _ Hr), (rg_w _ _ _ Hr), u32_eqb by lia.
  destruct (Z.eqb_spec (lenZ (ready l)) 0), (Z.eqb_spec R (R + lenZ (ready l))); lia.
Qed.
Lemma ring_used : u32 (e i - r i) = lenZ (ready l ++ edit l).
Proof.
  destruct ring_sizes as (? & ? & E & ?). rewrite (rg_e _ _ _ Hr), (rg_r _ _ _ Hr), u32_sub_l, u32_sub_r.
  rewrite u32_small; lia.
Qed.
Lemma ring_full : (e i =? u32 (r i + INPUT_BUF)) = (lenZ (ready l ++ edit l) =? INPUT_BUF).
Proof.
  destruct ring_sizes as (? & ? & E & ?).
  rewrite (rg_e _ _ _ Hr), (rg_r _ _ _ Hr), u32_add_l, u32_eqb by (unfold INPUT_BUF; lia).
  destruct (Z.eqb_spec (lenZ (ready l ++ edit l)) INPUT_BUF), (Z.eqb_spec (R + lenZ (ready l ++ edit l)) (R + INPUT_BUF)); lia.
Qed.

Lemma ring_commit : ring (mkInput (buf i) (r i) (u32 (e i)) (e i)) (mkLine (ready l ++ edit l) []) R.
Proof.
  destruct Hr as [Er Ew Ee Eb El Eg]. split; cbn; rewrite ?app_nil_r; try done. by rewrite Ee, u32_idem.
Qed.

Lemma ring_push c : 0 <= c < 256 -> lenZ (ready l ++ edit l) < INPUT_BUF ->
  ring (mkInput (upd (buf i) (e i mod INPUT_BUF) (u8 c)) (r i) (w i) (u32 (e i + 1))) (mkLine (ready l) (edit l ++ [c])) R.
Proof.
  intros Hc Hlt. destruct Hr as [Er Ew Ee Eb El Eg]. set (t := ready l ++ edit l) in *.
  assert (ready l ++ edit l ++ [c] = t ++ [c]) as Et by (unfold t; by rewrite app_assoc).
  pose proof (lenZ_nonneg t) as Ht. unfold INPUT_BUF in *.
  split; cbn [Console.buf Console.r Console.w Console.e ready edit]; rewrite ?Et, ?lenZ_app; change (lenZ [c]) with 1; try done.
  - by rewrite Ee, u32_add_l, Z.add_assoc.
  - by rewrite upd_lenZ.
  - unfold INPUT_BUF; lia.
  - intros k Hk. rewrite Ee. fold INPUT_BUF. rewrite mod_buf, u8_small by done. unfold INPUT_BUF.
    rewrite rd_upd by (rewrite ?Eb; apply Z.mod_pos_bound; lia).
    destruct (Z.eqb_spec ((R + lenZ t) mod 128) ((R + k) mod 128)) as [E|E].
    + assert (k = lenZ t) as -> by zlia. by rewrite rd_app_r, Z.sub_diag by lia.
    + assert (k <> lenZ t) by congruence. rewrite rd_app_l by lia. apply Eg. lia.
Qed.
End ring.

Lemma ring_erase i rdy ed c R : ring i (mkLine rdy (ed ++ [c])) R ->
  rd (buf i) (u32 (e i - 1) mod INPUT_BUF) = c /\
  ring (mkInput (buf i) (r i) (w i) (u32 (e i - 1))) (mkLine rdy ed) R.
Proof.
  intros [Er Ew Ee Eb El Eg]. cbn [ready edit] in *. rewrite app_assoc, lenZ_app in *. change (lenZ [c]) with 1 in *.
  set (t := rdy ++ ed) in *. pose proof (lenZ_nonneg t) as Ht.
  assert (u32 (e i - 1) = u32 (R + lenZ t)) as E by (rewrite Ee, u32_sub_l; f_equal; lia).
  rewrite E, mod_buf. split; [rewrite Eg by lia; by rewrite rd_app_r, Z.sub_diag by lia|].
  split; cbn; fold t; try done; [lia|]. intros k Hk. rewrite Eg, rd_app_l by lia. done.
Qed.

Lemma ring_pop i c rdy ed R : ring i (mkLine (c :: rdy) ed) R ->
  rd (buf i) (r i mod INPUT_BUF) = c /\
  ring (mkInput (buf i) (u32 (r i + 1)) (w i) (e i)) (mkLine rdy ed) (R + 1).
Proof.
  intros [Er Ew Ee Eb El Eg]. cbn [ready edit app] in *. rewrite !lenZ_cons in *.
  set (t := rdy ++ ed) in *. pose proof (lenZ_nonneg t) as Ht. rewrite Er, mod_buf. split.
  - rewrite <- (Z.add_0_r R), Eg by lia. done.
  - split; cbn; fold t; rewrite ?Ew, ?Ee, ?u32_add_l; try done; [f_equal; lia | f_equal; lia | lia |].
    intros k Hk. replace (R + 1 + k) with (R + (k + 1)) by lia. rewrite Eg by lia.
    unfold rd. by replace (Z.to_nat (k + 1)) with (S (Z.to_nat k)) by lia.
Qed.

(** The console holds a line, on a well-formed screen. *)
Record holds (s : console) (l : line) (R : Z) : Prop := {
  ho_screen : screen_ok s;
  ho_ring : ring (c_input s) l R;
  ho_line : line_ok l;
}.

(** What a key leaves alone; a wakeup is not taken back. *)
Record key_frame (s s' : console) : Prop := {
  kf_lock : c_lock s' = c_lock s;
  kf_locking : c_locking s' = c_locking s;
  kf_ilock : c_ilock s' = c_ilock s;
  kf_woken : c_woken s = true -> c_woken s' = true;
}.
#[export] Instance key_frame_preorder : PreOrder key_frame.
Proof. split; [by intros s | intros a b c [] []; split; [congruence.. | auto]]. Qed.
Lemma same_key_frame s s' : same_state s s' -> key_frame s s'.
Proof. intros []. split; congruence. Qed.

Lemma line_ok_erase rdy ed c : line_ok (mkLine rdy (ed ++ [c])) -> lenZ (rdy ++ ed ++ [c]) <= INPUT_BUF ->
  line_ok (mkLine rdy ed) /\ c <> 10.
Proof.
  intros [He Hf] Hl. cbn [ready edit] in *. split; [split; cbn|].
  - set_solver.
  - intros E. rewrite app_assoc, lenZ_app, E in Hl. change (lenZ [c]) with 1 in Hl. lia.
  - set_solver.
Qed.

(** [input.e--; consputc(BACKSPACE)] *)
Lemma erase_spec s rdy ed c R : holds s (mkLine rdy (ed ++ [c])) R ->
  wp (set_e (e (c_input s) - 1) ;;; consputc BACKSPACE) s (fun _ s' => holds s' (mkLine rdy ed) R /\ key_frame s s').
Proof.
  intros [Hs Hr Hl]. unfold set_e. wp_steps. destruct (ring_erase _ _ _ _ _ Hr) as [_ Hr'].
  eapply wp_mono; [apply consputc_spec; destruct Hs; by split|]. intros [] s' (Hs' & Hss & _).
  split; [|destruct Hss; cbn in *; by split; [..|congruence]].
  split; [done | | apply (line_ok_erase _ _ _ Hl), (rg_len _ _ _ Hr)].
  by rewrite (ss_input _ _ Hss).
Qed.

Lemma kill_line_spec fuel s rdy ed R : holds s (mkLine rdy ed) R -> (length ed < fuel)%nat ->
  wp (kill_line fuel) s (fun _ s' => holds s' (mkLine rdy []) R /\ key_frame s s').
Proof.
  revert s ed. induction fuel as [|fuel IH]; intros s ed Hh Hf; [lia|]. cbn [kill_line]. apply wp_bind, wp_gets.
  rewrite (ring_edit_empty _ _ _ (ho_ring _ _ _ Hh)). cbn [edit].
  destruct ed as [|c ed _] using rev_ind; [cbn; wp_steps; split; [done | reflexivity]|].
  destruct (ring_erase _ _ _ _ _ (ho_ring _ _ _ Hh)) as [-> _].
  destruct (line_ok_erase _ _ _ (ho_line _ _ _ Hh) (rg_len _ _ _ (ho_ring _ _ _ Hh))) as [_ Hc].
  rewrite lenZ_app, (proj2 (Z.eqb_neq c 10) Hc). change (lenZ [c]) with 1.
  rewrite (proj2 (Z.eqb_neq (lenZ ed + 1) 0)) by (pose proof (lenZ_nonneg ed); lia). cbn [negb andb].
  pose proof (erase_spec s rdy ed c R Hh) as He. unfold wp, bind in He |- *.
  destruct (set_e _ s) as [[[] s1]| | |]; try done. destruct (consputc _ s1) as [[[] s2]| | |]; try done.
  destruct He as [Hh' Hk]. eapply (wp_mono (kill_line fuel)); [apply (IH s2 ed Hh')|].
  - rewrite length_app in Hf. cbn in Hf. lia.
  - intros [] s3 [H3 K3]. split; [done | by transitivity s2].
Qed.

(** A character goes into the ring and on the screen. *)
Lemma push_spec s l R c : holds s l R -> 0 <= c < 256 -> lenZ (ready l ++ edit l) < INPUT_BUF ->
  wp (set_buf (e (c_input s) mod INPUT_BUF) c ;;; set_e (e (c_input s) + 1) ;;; consputc c) s
    (fun _ s' => screen_ok s' /\ ring (c_input s') (mkLine (ready l) (edit l ++ [c])) R /\ key_frame s s').
Proof.
  intros [Hs Hr Hl] Hc Hlt. unfold set_buf, set_e. wp_steps. pose proof (ring_push _ _ _ Hr c Hc Hlt) as Hr'.
  eapply wp_mono; [apply consputc_spec; destruct Hs; by split|]. intros [] s' (Hs' & Hss & _).
  split_and!; [done | by rewrite (ss_input _ _ Hss) | destruct Hss; cbn in *; by split; [..|congruence]].
Qed.

Lemma line_ok_committed t : line_ok (mkLine t []).
Proof. split; cbn; [set_solver | done]. Qed.

(** [consolekey] is [line_key], and wakes the readers when text becomes ready. *)
Lemma consolekey_spec s l R c : holds s l R -> 0 <= c < 256 -> c <> CTRL_P ->
  wp (consolekey c) s (fun _ s' => holds s' (line_key l c) R /\ key_frame s s' /\
    (ready (line_key l c) <> ready l -> c_woken s' = true)).
Proof.
  intros Hh Hc Hp. pose proof (ho_ring _ _ _ Hh) as Hr. unfold consolekey, line_key. apply wp_bind, wp_gets.
  rewrite (proj2 (Z.eqb_neq c CTRL_P) Hp). destruct (c =? CTRL_U).
  { destruct l as [rdy ed]. eapply wp_mono; [eapply kill_line_spec; [done|]|].
    - destruct (ring_sizes _ _ _ Hr) as (? & ? & E & ?). cbn [ready edit] in *.
      rewrite (rg_e _ _ _ Hr), (rg_w _ _ _ Hr), u32_sub_l, u32_sub_r. cbn [ready edit].
      rewrite u32_small by lia. unfold lenZ in *. lia.
    - intros [] s' [H1 H2]. cbn. by split_and!. }
  destruct ((c =? CTRL_H) || (c =? 127)).
  { rewrite (ring_edit_empty _ _ _ Hr). destruct l as [rdy ed]. cbn [ready edit].
    destruct ed as [|x ed _] using rev_ind.
    { change (lenZ (@nil Z) =? 0) with true. cbn [negb when removelast]. wp_steps. by split_and!. }
    rewrite removelast_last, lenZ_app. change (lenZ [x]) with 1.
    rewrite (proj2 (Z.eqb_neq (lenZ ed + 1) 0)) by (pose proof (lenZ_nonneg ed); lia). cbn [negb when].
    eapply wp_mono; [by eapply erase_spec|]. intros [] s' [H1 H2]. by split_and!. }
  rewrite (ring_used _ _ _ Hr). destruct (c =? 0) eqn:E0; cbn [negb andb orb when].
  { wp_steps. by split_and!. }
  rewrite Z.leb_antisym. destruct (lenZ (ready l ++ edit l) <? INPUT_BUF) eqn:El; cbn [negb when].
  2: { wp_steps. by split_and!. }
  set (c' := if c =? 13 then 10 else c). assert (0 <= c' < 256) as Hc' by (unfold c'; case_match; lia).
  apply Z.ltb_lt in El. pose proof (push_spec s l R c' Hh Hc' El) as Hpush. unfold wp, bind in Hpush |- *.
  destruct (set_buf _ _ s) as [[[] s1]| | |]; try done. destruct (set_e _ s1) as [[[] s2]| | |]; try done.
  destruct (consputc _ s2) as [[[] s3]| | |]; try done. destruct Hpush as (Hs3 & Hr3 & Hk3). unfold gets.
  rewrite (ring_full _ _ _ Hr3). cbn [ready edit].
  destruct (_ || _) eqn:Ec; cbn [when].
  - split_and!; [|by destruct Hk3; split; [..|done] | done].
    split; [by destruct Hs3; split | by apply (ring_commit _ _ _ Hr3) | apply line_ok_committed].
  - cbn [ret]. split_and!; [|done | done]. split; [done | done|]. bool_to_prop.
    destruct (ho_line _ _ _ Hh) as [He _]. split; cbn; [set_solver | done].
Qed.

(** ** Interrupts *)

(** The device delivers characters until it has none. *)
Inductive delivers {K} (getc : ST K Z) : K -> list Z -> K -> Prop :=
| dl_end k c k' : getc k = Ok (c, k') -> c < 0 -> delivers getc k [] k'
| dl_char k c k1 cs k2 :
    getc k = Ok (c, k1) -> 0 <= c < 256 -> delivers getc k1 cs k2 -> delivers getc k (c :: cs) k2.

Lemma kbd_delivers shift port : shift_wf shift -> Forall (fun d => 0 <= d < 256) port ->
  delivers kbdgetc (mkKbd shift port) (kbd_codes shift port).1 (mkKbd (kbd_codes shift port).2 []).
Proof.
  intros Hs Hp. revert shift Hs. induction Hp as [|d port Hd _ IH]; intros shift Hs.
  - by apply (dl_end _ _ (-1)).
  - cbn [kbd_codes]. destruct (kbd_code_ok shift d Hs Hd) as [H1 H2].
    destruct (kbd_code shift d) as [c sh] eqn:E. cbn [fst snd] in *. specialize (IH sh H2).
    destruct (kbd_codes sh port) as [cs sh']. eapply dl_char; [|done | exact IH]. unfold kbdgetc. cbn. by rewrite E.
Qed.

Lemma uart_delivers port : Forall (fun d => 0 <= d < 256) port ->
  delivers uartgetc (true, port) port (true, []).
Proof.
  induction 1 as [|c port Hc _ IH]; [by apply (dl_end _ _ (-1))|]. by eapply dl_char; [done | done | exact IH].
Qed.

Section intr.
Context {K : Type} (getc : ST K Z) (procdump : ST console unit).

(** The process listing prints, with [cons.lock] free. *)
Definition dump_prints : Prop :=
  forall s, screen_ok s -> c_lock s = false -> wp procdump s (fun _ s' => screen_ok s' /\ same_state s s').

Lemma consoleintr_loop_spec k cs k' : delivers getc k cs k' -> forall fuel dump s l R,
  holds s l R -> (length cs < fuel)%nat ->
  wp (consoleintr_loop getc fuel dump) (s, k) (fun _ x => holds x.1 (foldl line_key l cs) R /\ x.2 = k' /\
    key_frame s x.1 /\ (ready (foldl line_key l cs) <> ready l -> c_woken x.1 = true)).
Proof.
  induction 1 as [k c k' Hg Hc | k c k1 cs k2 Hg Hc _ IH]; intros [|fuel] dump s l R Hh Hf; cbn [length] in Hf; try lia;
    cbn [consoleintr_loop foldl]; apply wp_bind, wp_zoom; unfold wp at 1; cbn [snd]; rewrite Hg.
  - rewrite Z.geb_leb, (proj2 (Z.leb_gt 0 c) Hc). wp_steps. by split_and!.
  - rewrite Z.geb_leb, (proj2 (Z.leb_le 0 c)) by lia. destruct (Z.eqb_spec c CTRL_P) as [->|Hp].
    { apply IH; [done | lia]. }
    apply wp_bind, wp_zoom. cbn [fst]. eapply wp_mono; [by apply consolekey_spec|].
    intros [] s1 (H1 & K1 & W1). cbn [snd]. eapply wp_mono; [apply IH; [exact H1 | lia]|].
    intros b x (H2 & E2 & K2 & W2). split_and!; [done | done | by transitivity s1|].
    intros Hne. destruct (decide (ready (line_key l c) = ready l)) as [E|E].
    + apply W2. by rewrite E.
    + by apply (kf_woken _ _ K2), W1.
Qed.

(** The characters of the device go through the line editor; the locks are as
    before, and if text became ready then the readers were woken. *)
Lemma consoleintr_spec k cs k' fuel s l R : delivers getc k cs k' -> dump_prints ->
  holds s l R -> c_lock s = false -> (length cs < fuel)%nat ->
  wp (consoleintr getc procdump fuel) (s, k) (fun _ x => holds x.1 (foldl line_key l cs) R /\ x.2 = k' /\
    key_frame s x.1 /\ (ready (foldl line_key l cs) <> ready l -> c_woken x.1 = true)).
Proof.
  intros Hd Hpd Hh Hl Hf. unfold consoleintr, on_console. apply wp_bind, wp_zoom, acquire_spec; [done|]. cbn [snd].
  apply wp_bind. eapply wp_mono; [eapply consoleintr_loop_spec; [done | | done]|].
  { destruct Hh as [[] Hr Hlo]. by split; [split|..]. }
  intros dump [s1 k1] (H1 & E1 & K1 & W1). cbn [fst snd] in *. apply wp_bind, wp_zoom. cbn [fst snd].
  apply release_spec; [apply (kf_lock _ _ K1)|].
  assert (holds (set_lock false s1) (foldl line_key l cs) R /\ key_frame s (set_lock false s1)) as [H2 K2].
  { destruct H1 as [[] Hr Hlo], K1. split; [by split; [split|..]|]. split; cbn in *; [by rewrite Hl | done..]. }
  destruct dump; cbn [when]; [|wp_steps; by split_and!].
  apply wp_zoom. cbn [fst snd]. eapply wp_mono; [apply Hpd; [apply H2 | done]|].
  intros [] s2 [Hs2 Hss]. cbn [fst snd]. split_and!; [|done | by transitivity (set_lock false s1); [|apply same_key_frame] |].
  - destruct H2 as [_ Hr Hlo]. split; [done | by rewrite (ss_input _ _ Hss) | done].
  - rewrite (ss_woken _ _ Hss). exact W1.
Qed.
End intr.

(** ** Reads *)

(** A read of the text that is ready: it ends after [n] bytes, after a newline
    or at an end of file, which stays for the next read if this one has bytes;
    otherwise it waits for more. *)
Inductive rres := Got (dst rest : bytes) | Wait (dst : bytes).
Fixpoint read_line (n : nat) (dst t : bytes) : rres :=
  match n, t with
  | O, _ => Got dst t
  | S _, [] => Wait dst
  | S n, c :: t' =>
      if c =? CTRL_D then Got dst (match dst with [] => t' | _ => t end)
      else if c =? 10 then Got (dst ++ [c]) t'
      else read_line n (dst ++ [c]) t'
  end.

(** A read that waited and goes on is a read of the whole text. *)
Lemma read_line_resume n dst t d u : read_line n dst t = Wait d ->
  (length d <= n + length dst)%nat /\ read_line (n + length dst - length d) d u = read_line n dst (t ++ u).
Proof.
  revert dst t. induction n as [|n IH]; intros dst [|c t]; cbn [read_line app]; try done.
  - intros [= ->]. split; [lia|]. by replace (S n + length d - length d)%nat with (S n) by lia.
  - repeat case_match; try done. intros H'. destruct (IH _ _ H') as [H1 H2].
    rewrite length_app in H1, H2. cbn in H1, H2. split; [lia|]. rewrite <- H2. f_equal; lia.
Qed.

Lemma read_line_text n dst t u : Forall (fun c => c <> 10 /\ c <> CTRL_D) t -> (length t < n)%nat ->
  read_line n dst (t ++ 10 :: u) = Got (dst ++ t ++ [10]) u.
Proof.
  intros Ht. revert n dst. induction Ht as [|c t [H1 H2] _ IH]; intros [|n] dst Hn; cbn [length app read_line] in *; try lia.
  - done.
  - rewrite (proj2 (Z.eqb_neq c 10) H1), (proj2 (Z.eqb_neq c CTRL_D) H2), IH by lia.
    by rewrite <- app_assoc.
Qed.

Lemma line_ok_pop c rdy ed : line_ok (mkLine (c :: rdy) ed) -> lenZ ((c :: rdy) ++ ed) <= INPUT_BUF ->
  line_ok (mkLine rdy ed).
Proof.
  intros [He Hf] Hl. split; [done|]. cbn [ready edit app] in *. rewrite lenZ_cons in Hl. lia.
Qed.

(** What a read does to the console. *)
Definition read_post (killed : bool) (n : Z) (l : line) (res : rres) (o : cout) (s' : console) : Prop :=
  c_lock s' = false /\
  match res with
  | Got d rest => o = CDone (lenZ d) d /\ c_ilock s' = true /\ exists R', holds s' (mkLine rest (edit l)) R'
  | Wait d =>
      (exists R', holds s' (mkLine [] (edit l)) R') /\
      if killed then o = CDone (-1) d /\ c_ilock s' = true
      else o = CSleep (n - lenZ d) d /\ c_ilock s' = false
  end.

Lemma holds_ext s s' l R : holds s l R -> c_input s' = c_input s -> c_crt s' = c_crt s -> c_pos s' = c_pos s ->
  c_panicked s' = c_panicked s -> holds s' l R.
Proof. intros [[] Hr Hl] E1 E2 E3 E4. split; [split; congruence | by rewrite E1 | done]. Qed.

Lemma done_spec s o (Q : cout -> console -> Prop) : c_lock s = true ->
  Q o (set_ilock true (set_lock false s)) -> wp (release ;;; ilock ;;; ret o) s Q.
Proof. intros Hl HQ. apply wp_bind, release_spec; [done|]. unfold ilock. by wp_steps. Qed.

Lemma consoleread_loop_spec killed target n dst s l R : holds s l R -> c_lock s = true -> c_ilock s = false ->
  target = Z.of_nat n + lenZ dst -> target < 2147483648 ->
  wp (consoleread_loop killed target n dst) s (read_post killed target l (read_line n dst (ready l))).
Proof.
  revert dst s l R. induction n as [|n IH]; intros dst s l R Hh Hl Hil Ht Hlim; cbn [consoleread_loop read_line].
  { apply done_spec; [done|]. split; [done|]. pose proof (lenZ_nonneg dst). rewrite s32_small by lia.
    split_and!; [by rewrite Ht | done | exists R; destruct l; by eapply holds_ext]. }
  apply wp_bind, wp_gets. rewrite (ring_ready_empty _ _ _ (ho_ring _ _ _ Hh)).
  destruct l as [[|c rdy] ed]; cbn [ready edit].
  { change (lenZ (@nil Z) =? 0) with true. cbn iota. destruct killed.
    - apply done_spec; [done|]. split; [done|]. split; [exists R; by eapply holds_ext | done].
    - apply wp_bind, release_spec; [done|]. wp_steps. split; [done|]. split; [exists R; by eapply holds_ext|].
      split; [f_equal; lia | done]. }
  rewrite lenZ_cons, (proj2 (Z.eqb_neq (lenZ rdy + 1) 0)) by (pose proof (lenZ_nonneg rdy); lia).
  destruct Hh as [Hs Hr Hlo]. destruct (ring_pop _ _ _ _ _ Hr) as [-> Hr'].
  pose proof (line_ok_pop _ _ _ Hlo (rg_len _ _ _ Hr)) as Hlo'. unfold set_r.
  apply wp_bind, wp_modify.
  match goal with |- wp _ ?s1 _ => assert (holds s1 (mkLine rdy ed) (R + 1)) as Hh1 end.
  { by split; [destruct Hs; split | exact Hr' | exact Hlo']. }
  pose proof (lenZ_nonneg dst) as Hd.
  destruct (c =? CTRL_D); [|destruct (c =? 10)].
  - rewrite s32_small by lia. destruct dst as [|x dst].
    + change (lenZ (@nil Z)) with 0 in *. rewrite (proj2 (Z.ltb_ge _ _)) by lia. cbn [when]. wp_step. wp_step.
      apply done_spec; [done|]. split; [done|]. split_and!; [|done | exists (R + 1); by eapply holds_ext]. f_equal. change (lenZ (@nil Z)) with 0. lia.
    + rewrite lenZ_cons in *. pose proof (lenZ_nonneg dst). rewrite (proj2 (Z.ltb_lt _ _)) by lia. cbn [when].
      apply wp_bind, wp_bind, wp_gets, wp_modify, done_spec; [done|]. split; [done|]. rewrite lenZ_cons.
      split_and!; [f_equal; lia | done |]. exists R. split; [by destruct Hs; split | | done]. cbn.
      assert (u32 (u32 (r (c_input s) + 1) - 1) = r (c_input s)) as E.
      { rewrite (rg_r _ _ _ Hr), !u32_add_l, u32_sub_l. f_equal. lia. }
      rewrite E. by destruct (c_input s).
  - rewrite s32_small by lia. apply done_spec; [done|]. split; [done|]. rewrite lenZ_app. change (lenZ [c]) with 1.
    split_and!; [f_equal; lia | done | exists (R + 1); by eapply holds_ext].
  - apply (IH _ _ (mkLine rdy ed) (R + 1)); [done.. | rewrite lenZ_app; change (lenZ [c]) with 1; lia | done].
Qed.

Lemma consoleread_spec killed n s l R : holds s l R -> c_lock s = false -> c_ilock s = true -> 0 < n < 2147483648 ->
  wp (consoleread killed n) s (read_post killed n l (read_line (Z.to_nat n) [] (ready l))).
Proof.
  intros Hh Hl Hi Hn. unfold consoleread. apply wp_bind, iunlock_spec; [done|].
  apply wp_bind, acquire_spec; [done|]. rewrite (proj2 (Z.leb_gt n 0)) by lia. rewrite u32_small by lia.
  eapply consoleread_loop_spec; [by eapply holds_ext | done | done | change (lenZ (@nil Z)) with 0; lia | lia].
Qed.
Lemma consoleread_resume_spec killed target n dst s l R :
  holds s l R -> c_lock s = false -> c_ilock s = false -> 0 <= n -> target = n + lenZ dst -> target < 2147483648 ->
  wp (consoleread_resume killed target n dst) s (read_post killed target l (read_line (Z.to_nat n) dst (ready l))).
Proof.
  intros Hh Hl Hi Hn Ht Hlim. unfold consoleread_resume. apply wp_bind, acquire_spec; [done|].
  eapply consoleread_loop_spec; [by eapply holds_ext | done | done | lia | lia].
Qed.

(** ** Readers and interrupts *)

Record reader := mkReader { rd_asleep : bool; rd_target : Z; rd_n : Z; rd_dst : bytes }.
Definition wake_reader (q : reader) : reader := mkReader false (rd_target q) (rd_n q) (rd_dst q).

(** The console, the processes that sleep in a read of it, and two histories: the
    text that became ready, and the bytes that reads delivered. *)
Record csys := mkSys { y_cons : console; y_rd : gmap nat reader; y_ready : bytes; y_got : bytes }.

(** The text of the ring between two indices. *)
Definition slice (b : bytes) (from to : Z) : bytes :=
  (fun k => rd b ((from + k) mod INPUT_BUF)) <$> seqZ 0 (u32 (to - from)).

(** The bytes of a read that had delivered [old] before, and its reader when it
    sleeps. *)
Definition out_bytes (o : cout) : bytes := match o with CDone _ d => d | CSleep _ d => d end.
Definition after_read (p : nat) (target : Z) (old : bytes) (o : cout) (s' : console) (y : csys) : csys :=
  mkSys s'
    match o with
    | CDone _ _ => delete p (y_rd y)
    | CSleep n d => <[p := mkReader true target n d]> (y_rd y)
    end
    (y_ready y) (y_got y ++ drop (length old) (out_bytes o)).

Section machine.
Context (procdump : ST console unit).

Inductive cstep : csys -> csys -> Prop :=
| cs_intr K (getc : ST K Z) k cs k' fuel y s' k1 :
    delivers getc k cs k' -> (length cs < fuel)%nat ->
    consoleintr getc procdump fuel (set_woken false (y_cons y), k) = Ok (tt, (s', k1)) ->
    cstep y (mkSys s' (if c_woken s' then wake_reader <$> y_rd y else y_rd y)
               (y_ready y ++ slice (buf (c_input s')) (w (c_input (y_cons y))) (w (c_input s'))) (y_got y))
| cs_read p killed n y o s' :
    y_rd y !! p = None -> 0 < n < 2147483648 ->
    consoleread killed n (set_ilock true (y_cons y)) = Ok (o, s') ->
    cstep y (after_read p n [] o s' y)
| cs_resume p killed target n dst y o s' :
    y_rd y !! p = Some (mkReader false target n dst) ->
    consoleread_resume killed target n dst (set_ilock false (y_cons y)) = Ok (o, s') ->
    cstep y (after_read p target dst o s' y).

(** Text goes from the ready history to the readers in order, but for the ends of
    file; a reader sleeps only while no text is ready. *)
Record csys_ok (y : csys) : Prop := {
  cy_lock : c_lock (y_cons y) = false;
  cy_text : exists l R taken, holds (y_cons y) l R /\ y_ready y = taken ++ ready l /\
    y_got y = filter (fun c => c <> CTRL_D) taken /\
    (forall p q, y_rd y !! p = Some q -> rd_asleep q = true -> ready l = []);
  cy_rd p q : y_rd y !! p = Some q -> 0 <= rd_n q /\ rd_target q = rd_n q + lenZ (rd_dst q) /\ rd_target q < 2147483648;
}.

(** The bytes of a read, and the text that it takes. *)
Lemma read_line_taken n dst t :
  match read_line n dst t with
  | Got d rest => exists x, t = x ++ rest /\ d = dst ++ filter (fun c => c <> CTRL_D) x
  | Wait d => d = dst ++ filter (fun c => c <> CTRL_D) t /\ (length d < length dst + n)%nat
  end.
Proof.
  revert dst t. induction n as [|n IH]; intros dst [|c t]; cbn [read_line].
  - exists []. split; [done | by rewrite filter_nil, app_nil_r].
  - exists []. split; [done | by rewrite filter_nil, app_nil_r].
  - rewrite filter_nil, app_nil_r. split; [done | lia].
  - destruct (Z.eqb_spec c CTRL_D) as [->|Hc].
    { destruct dst; [exists [CTRL_D] | exists []]; [done | split; [done | by rewrite filter_nil, app_nil_r]]. }
    destruct (Z.eqb_spec c 10) as [->|_]; [by exists [10]|].
    specialize (IH (dst ++ [c]) t). destruct (read_line n (dst ++ [c]) t) as [d rest | d].
    + destruct IH as (x & -> & ->). exists (c :: x). rewrite filter_cons_True by done. by rewrite <- app_assoc.
    + destruct IH as [-> Hl]. rewrite filter_cons_True by done. rewrite <- app_assoc in *. split; [done|].
      rewrite !length_app in *. cbn in *. lia.
Qed.

Lemma line_keys_ready l cs : exists x, ready (foldl line_key l cs) = ready l ++ x.
Proof.
  revert l. induction cs as [|c cs IH]; intros l; cbn [foldl]; [exists []; by rewrite app_nil_r|].
  destruct (IH (line_key l c)) as [x ->]. unfold line_key.
  repeat case_match; cbn [ready edit]; rewrite <- ?app_assoc; eauto.
Qed.

Lemma slice_ring i l R t x : ring i l R -> ready l = t ++ x -> slice (buf i) (u32 (R + lenZ t)) (w i) = x.
Proof.
  intros Hr Et. destruct (ring_sizes _ _ _ Hr) as (? & ? & E & ?). pose proof (lenZ_nonneg t). pose proof (lenZ_nonneg x).
  assert (lenZ (ready l) = lenZ t + lenZ x) as El by (rewrite Et; apply lenZ_app). unfold slice.
  assert (u32 (w i - u32 (R + lenZ t)) = lenZ x) as ->.
  { rewrite (rg_w _ _ _ Hr), El, u32_sub_l, u32_sub_r, u32_small; lia. }
  apply arr_eq; [by rewrite lenZ_tab by lia|]. intros k Hk. rewrite lenZ_tab in Hk by lia. rewrite rd_tab by lia.
  rewrite Z.add_0_l. unfold INPUT_BUF. rewrite <- Zplus_mod_idemp_l. fold INPUT_BUF. rewrite mod_buf. unfold INPUT_BUF.
  rewrite Zplus_mod_idemp_l. fold INPUT_BUF. rewrite <- Z.add_assoc, (rg_get _ _ _ Hr) by lia.
  rewrite Et, <- app_assoc, rd_app_r by lia. rewrite rd_app_l by lia. f_equal. lia.
Qed.

Lemma after_read_ok p killed target n dst y o s' l R taken :
  csys_ok y -> holds (y_cons y) l R -> y_ready y = taken ++ ready l ->
  y_got y = filter (fun c => c <> CTRL_D) taken ->
  (forall p q, y_rd y !! p = Some q -> rd_asleep q = true -> ready l = []) ->
  0 <= n -> target = n + lenZ dst -> target < 2147483648 ->
  read_post killed target l (read_line (Z.to_nat n) dst (ready l)) o s' ->
  csys_ok (after_read p target dst o s' y).
Proof.
  intros Hy Hh Er Eg Hsl Hn Ht Hlim [Hlk Hpost]. pose proof (read_line_taken (Z.to_nat n) dst (ready l)) as Htk.
  split; [done | |].
  - destruct (read_line _ _ _) as [d rest | d].
    + destruct Hpost as (-> & _ & R' & Hh'), Htk as (x & Ex & ->). exists (mkLine rest (edit l)), R', (taken ++ x).
      cbn. rewrite drop_app_length, filter_app, Er, Eg, Ex, app_assoc. split_and!; [done..|].
      intros q' q Hq Ha. apply lookup_delete_Some in Hq as [_ Hq]. specialize (Hsl _ _ Hq Ha).
      rewrite Ex in Hsl. by apply app_nil in Hsl as [_ ->].
    + destruct Hpost as ((R' & Hh') & Ho), Htk as [-> _]. exists (mkLine [] (edit l)), R', (taken ++ ready l).
      assert (out_bytes o = dst ++ filter (fun c => c <> CTRL_D) (ready l)) as Eo by (destruct killed; by destruct Ho as [-> _]).
      cbn. rewrite Eo, drop_app_length, filter_app, Er, Eg, app_nil_r. split_and!; done.
  - intros q' q. cbn. destruct (read_line _ _ _) as [d rest | d].
    + destruct Hpost as (-> & _). rewrite lookup_delete_Some. intros [_ Hq]. by apply (cy_rd y Hy) in Hq.
    + destruct Hpost as (_ & Ho), Htk as [_ Hl]. destruct killed; destruct Ho as [-> _].
      * rewrite lookup_delete_Some. intros [_ Hq]. by apply (cy_rd y Hy) in Hq.
      * rewrite lookup_insert_Some. intros [[_ <-]|[_ Hq]]; [|by apply (cy_rd y Hy) in Hq].
        cbn. unfold lenZ in *. lia.
Qed.

Hypothesis Hdump : dump_prints procdump.

Lemma cstep_ok y y' : csys_ok y -> cstep y y' -> csys_ok y'.
Proof.
  intros Hy Hstep. destruct (cy_text y Hy) as (l & R & taken & Hh & Er & Eg & Hsl). pose proof (cy_lock y Hy) as Hlk.
  destruct Hstep as [K getc k cs k' fuel y s' k1 Hd Hf Hrun | p killed n y o s' Hp Hn Hrun | p killed target n dst y o s' Hp Hrun].
  - assert (holds (set_woken false (y_cons y)) l R) as Hh' by by eapply holds_ext.
    pose proof (wp_wlp _ _ _ (consoleintr_spec getc procdump k cs k' fuel _ l R Hd Hdump Hh' Hlk Hf)) as Hw.
    pose proof (wlp_elim _ _ _ _ _ Hw Hrun) as (H1 & _ & K1 & W1). cbn [fst] in *.
    destruct (line_keys_ready l cs) as [x Ex]. split; cbn; [by rewrite (kf_lock _ _ K1) | |].
    + exists (foldl line_key l cs), R, taken. rewrite (rg_w _ _ _ (ho_ring _ _ _ Hh)).
      rewrite (slice_ring _ _ _ _ _ (ho_ring _ _ _ H1) Ex), Er, Ex, app_assoc. split_and!; [by rewrite <- ?Ex | done | done|].
      intros p q Hq Ha. destruct (c_woken s').
      * apply lookup_fmap_Some in Hq as (q0 & <- & _). done.
      * specialize (Hsl _ _ Hq Ha). rewrite <- Ex. destruct (decide (ready (foldl line_key l cs) = ready l)) as [E|E]; [by rewrite E|].
        by specialize (W1 E).
    + intros p q. destruct (c_woken s'); [|apply (cy_rd y Hy)]. rewrite lookup_fmap_Some.
      intros (q0 & <- & Hq). by apply (cy_rd y Hy) in Hq.
  - eapply (after_read_ok p killed n n []); try done; [lia | change (lenZ (@nil Z)) with 0; lia | lia|].
    eapply wlp_elim; [eapply wp_wlp, consoleread_spec | exact Hrun]; [by eapply holds_ext | done..].
  - destruct (cy_rd y Hy _ _ Hp) as (Hn & Ht & Hlim). cbn in Hn, Ht, Hlim.
    eapply (after_read_ok p killed target n dst); try done.
    eapply wlp_elim; [eapply wp_wlp, consoleread_resume_spec | exact Hrun]; [by eapply holds_ext | done..].
Qed.
End machine.

(** ** The properties of the console *)

(** C14: An interrupt hands the characters of its device to a line editor on two
    lists: whatever the device delivers, the handler returns with the locks as
    they were and the screen well formed, the ring holds what the editor holds,
    and the readers are woken if text became ready. *)
Theorem consoleintr_refines {K} (getc : ST K Z) procdump k cs k' s l R :
  delivers getc k cs k' -> dump_prints procdump -> holds s l R -> c_lock s = false ->
  exists fuel s', consoleintr getc procdump fuel (s, k) = Ok (tt, (s', k')) /\
    holds s' (foldl line_key l cs) R /\ c_lock s' = false /\ c_ilock s' = c_ilock s /\
    (ready (foldl line_key l cs) <> ready l -> c_woken s' = true).
Proof.
  intros Hd Hp Hh Hl.
  pose proof (consoleintr_spec getc procdump k cs k' (S (length cs)) s l R Hd Hp Hh Hl ltac:(lia)) as Hw.
  apply wp_ok in Hw as ([] & [s' k1] & Hrun & H1 & E1 & K1 & W1). cbn [fst snd] in *. subst k1.
  exists (S (length cs)), s'. split_and!; [done | done | | apply (kf_ilock _ _ K1) | done]. by rewrite (kf_lock _ _ K1).
Qed.

(** C13: In every run of interrupts and reads, by any number of processes, the
    reads deliver the text that became ready, in order and without loss, but
    for the ends of file; and no process sleeps while text is ready. *)
Theorem console_reads_in_order procdump s0 y R0 :
  dump_prints procdump -> holds s0 (mkLine [] []) R0 -> c_lock s0 = false ->
  star (cstep procdump) (mkSys s0 ∅ [] []) y ->
  exists taken rest, y_ready y = taken ++ rest /\ y_got y = filter (fun c => c <> CTRL_D) taken /\
    slice (buf (c_input (y_cons y))) (r (c_input (y_cons y))) (w (c_input (y_cons y))) = rest /\
    forall p q, y_rd y !! p = Some q -> rd_asleep q = true -> rest = [].
Proof.
  intros Hd Hh Hl Hstar. assert (csys_ok y) as Hy.
  { eapply (star_invariant _ csys_ok); [intros a b; by apply cstep_ok | exact Hstar |].
    split; cbn; [done | | by intros p q []%lookup_empty_Some].
    exists (mkLine [] []), R0, []. split_and!; try done. }
  destruct (cy_text y Hy) as (l & R & taken & H1 & H2 & H3 & H4). exists taken, (ready l).
  split_and!; [done | done | | done]. rewrite (rg_r _ _ _ (ho_ring _ _ _ H1)), <- (Z.add_0_r R).
  by apply (slice_ring _ l R []); [apply H1|].
Qed.

Lemma line_keys_filter l cs : foldl line_key l (filter (fun c => c <> 0) cs) = foldl line_key l cs.
Proof.
  revert l. induction cs as [|c cs IH]; intros l; [done|]. rewrite filter_cons. case_decide as Hc; cbn [foldl].
  - apply IH.
  - subst c. by rewrite IH.
Qed.

Lemma line_keys_text l t : ready l = [] -> Forall (fun c => typable c = true /\ c <> 10) t ->
  lenZ (edit l ++ t) < INPUT_BUF -> foldl line_key l t = mkLine [] (edit l ++ t).
Proof.
  destruct l as [rdy ed]. cbn [ready edit]. intros ->. intros Ht. revert ed.
  induction Ht as [|c t [Hc Hn] _ IH]; intros ed Hl; cbn [foldl]; [by rewrite app_nil_r|].
  rewrite lenZ_app, lenZ_cons in Hl. pose proof (lenZ_nonneg t).
  assert (line_key (mkLine [] ed) c = mkLine [] (ed ++ [c])) as ->.
  { unfold line_key, typable, CTRL_P, CTRL_U, CTRL_H, CTRL_D, INPUT_BUF in *. clear IH. cbn [ready edit app]. rewrite lenZ_app.
    repeat case_test; bool_to_prop; try done; change (lenZ [c]) with 1 in *; lia. }
  rewrite IH; [by rewrite <- app_assoc|]. rewrite !lenZ_app. change (lenZ [c]) with 1. lia.
Qed.

Lemma line_keys_line t : Forall (fun c => typable c = true /\ c <> 10) t -> lenZ t < INPUT_BUF ->
  foldl line_key (mkLine [] []) (t ++ [10]) = mkLine (t ++ [10]) [].
Proof.
  intros Ht Hl. rewrite foldl_app, (line_keys_text (mkLine [] []) t) by done. cbn [foldl edit app].
  unfold line_key. cbn [ready edit app]. rewrite (proj2 (Z.leb_gt INPUT_BUF (lenZ t))) by lia. done.
Qed.

(** C15: What is typed is read: a process reads from the console, finds no text
    and sleeps; the keys of a line and of Enter go down and up; the process is
    woken, and its read returns the line. *)
Theorem typed_line_is_read procdump s R t n :
  dump_prints procdump -> holds s (mkLine [] []) R -> c_lock s = false -> c_ilock s = true ->
  Forall (fun c => typable c = true /\ c <> 10) t -> lenZ t < INPUT_BUF -> lenZ t < n < 2147483648 ->
  exists fuel s1 s2 s3, consoleread false n s = Ok (CSleep n [], s1) /\
    consoleintr kbdgetc procdump fuel (s1, mkKbd 0 ((t ++ [10]) ≫= keys)) = Ok (tt, (s2, mkKbd 0 [])) /\
    c_woken s2 = true /\
    consoleread_resume false n n [] s2 = Ok (CDone (lenZ t + 1) (t ++ [10]), s3).
Proof.
  intros Hd Hh Hl Hi Ht Hlen Hn. pose proof (lenZ_nonneg t).
  pose proof (consoleread_spec false n s _ R Hh Hl Hi ltac:(lia)) as H1.
  apply wp_ok in H1 as (o1 & s1 & E1 & Hl1 & Hpost). cbn [ready] in Hpost.
  destruct (Z.to_nat n) as [|n'] eqn:En; [lia|]. cbn [read_line edit] in Hpost.
  destruct Hpost as ((R1 & Hh1) & -> & Hi1). change (lenZ (@nil Z)) with 0 in E1. rewrite Z.sub_0_r in E1.
  assert (forallb typable (t ++ [10]) = true) as Htt.
  { rewrite forallb_app. apply andb_true_iff. split; [|done]. apply forallb_forall. intros c Hc.
    rewrite Forall_forall in Ht. apply Ht, list_elem_of_In, Hc. }
  destruct (kbd_types_text _ Htt) as (Hc & Hs & Hp).
  pose proof (kbd_delivers 0 _ ltac:(unfold shift_wf; lia) Hp) as Hdl. rewrite Hs in Hdl.
  pose proof (consoleintr_spec kbdgetc procdump _ _ _ _ s1 _ R1 Hdl Hd Hh1 Hl1 (Nat.lt_succ_diag_r _)) as H2.
  apply wp_ok in H2 as ([] & [s2 k2] & E2 & Hh2 & Ek & K2 & W2). cbn [fst snd] in *. subst k2.
  rewrite <- line_keys_filter, Hc, line_keys_line in Hh2, W2 by done.
  pose proof (consoleread_resume_spec false n n [] s2 _ R1 Hh2 ltac:(by rewrite (kf_lock _ _ K2)) ltac:(by rewrite (kf_ilock _ _ K2))
    ltac:(lia) ltac:(change (lenZ (@nil Z)) with 0; lia) ltac:(lia)) as H3.
  apply wp_ok in H3 as (o3 & s3 & E3 & _ & Hpost). cbn [ready] in Hpost.
  rewrite read_line_text in Hpost; [| |unfold lenZ in *; lia].
  2: { eapply Forall_impl; [exact Ht|]. cbn. intros c [Hc1 Hc2]. split; [done|]. unfold typable, CTRL_D in *. bool_to_prop; lia. }
  destruct Hpost as (-> & _). rewrite app_nil_l, lenZ_app in E3. change (lenZ [10]) with 1 in E3.
  eexists _, s1, s2, s3. split_and!; [done | exact E2 | | done]. apply W2. cbn. by destruct t.
Qed.

(** ** A console in use *)

Definition demo_cons : console :=
  consoleinit (mkCons (mkInput (replicate 128 0) 0 0 0) false false false (replicate 2000 0) 0 true [] false true).
Definition demo_dump : ST console unit := cprintf (fun _ => []) [10] [].

Lemma demo_holds : holds demo_cons (mkLine [] []) 0.
Proof.
  split; [split; cbn; [by vm_compute | lia | done] | | apply line_ok_committed].
  split; cbn; [by vm_compute | by vm_compute | by vm_compute | by vm_compute | by vm_compute |].
  intros k Hk. change (lenZ (@nil Z)) with 0 in Hk. lia.
Qed.
Lemma demo_dump_prints : dump_prints demo_dump.
Proof. intros s Hs Hl. apply cprintf_spec; [done | by intros _]. Qed.
Lemma demo_delivers : delivers uartgetc (true, [104; 105; 13]) [104; 105; 13] (true, []).
Proof. apply uart_delivers. repeat constructor; lia. Qed.

Lemma consoleintr_refines_witness :
  exists fuel s', consoleintr uartgetc demo_dump fuel (demo_cons, (true, [104; 105; 13])) = Ok (tt, (s', (true, []))) /\
    holds s' (mkLine [104; 105; 10] []) 0 /\ c_woken s' = true.
Proof.
  destruct (consoleintr_refines uartgetc demo_dump _ _ _ _ _ 0 demo_delivers demo_dump_prints demo_holds eq_refl)
    as (fuel & s' & H1 & H2 & _ & _ & H3).
  exists fuel, s'. split_and!; [exact H1 | exact H2 | by apply H3].
Defined.

Definition st_of {A} (x : res (A * console)) : console := match x with Ok (_, s) => s | _ => demo_cons end.
Definition demo_y0 : csys := mkSys demo_cons ∅ [] [].
Definition demo_s1 : console := Eval vm_compute in st_of (consoleread false 10 demo_cons).
Definition demo_y1 : csys := after_read 1 10 [] (CSleep 10 []) demo_s1 demo_y0.
Definition demo_s2 : console := Eval vm_compute in
  match consoleintr uartgetc demo_dump 4 (set_woken false demo_s1, (true, [104; 105; 13])) with
  | Ok (_, (s, _)) => s | _ => demo_cons end.
Definition demo_y2 : csys := mkSys demo_s2 (wake_reader <$> y_rd demo_y1) [104; 105; 10] [].
Definition demo_s3 : console := Eval vm_compute in st_of (consoleread_resume false 10 10 [] (set_ilock false demo_s2)).
Definition demo_y3 : csys := after_read 1 10 [] (CDone 3 [104; 105; 10]) demo_s3 demo_y2.

Lemma demo_run : star (cstep demo_dump) demo_y0 demo_y3.
Proof.
  eapply star_step; [apply (cs_read demo_dump 1 false 10 demo_y0 (CSleep 10 []) demo_s1); [done | lia | by vm_compute]|].
  eapply star_step; [|eapply star_step; [|apply star_refl]].
  - pose proof (cs_intr demo_dump _ uartgetc _ _ _ 4 demo_y1 demo_s2 (true, []) demo_delivers) as H.
    exact (H ltac:(cbn; lia) ltac:(by vm_compute)).
  - apply (cs_resume demo_dump 1 false 10 10 [] demo_y2 (CDone 3 [104; 105; 10]) demo_s3); [done | by vm_compute].
Qed.

Lemma console_reads_in_order_witness :
  exists taken rest, y_ready demo_y3 = taken ++ rest /\ y_got demo_y3 = filter (fun c => c <> CTRL_D) taken.
Proof.
  destruct (console_reads_in_order demo_dump demo_cons demo_y3 0 demo_dump_prints demo_holds eq_refl demo_run)
    as (taken & rest & H1 & H2 & _). by exists taken, rest.
Defined.

(** ["ls"] and Enter, read by [read(0, buf, 100)]. *)
Lemma typed_line_is_read_witness :
  exists fuel s1 s2 s3, consoleread false 100 demo_cons = Ok (CSleep 100 [], s1) /\
    consoleintr kbdgetc demo_dump fuel (s1, mkKbd 0 [38; 166; 31; 159; 28; 156]) = Ok (tt, (s2, mkKbd 0 [])) /\
    c_woken s2 = true /\ consoleread_resume false 100 100 [] s2 = Ok (CDone 3 [108; 115; 10], s3).
Proof.
  apply (typed_line_is_read demo_dump demo_cons 0 [108; 115] 100 demo_dump_prints demo_holds eq_refl eq_refl);
    [repeat constructor; done | by vm_compute | split; by vm_compute].
Defined.
