(* ===== verification/Sim.v ===== *)
(** * The paging simulator (src/lab-07/sim.c)

    A simulator of page replacement: references to pages of processes go through
    a RAM of 8 frames and a swap area of 16, with FIFO or LRU replacement.  The
    arrays are locals of [main] that it initialises in part, so their initial
    contents are arguments of the model; an access outside an array has no
    defined behaviour and is a [Panic] here.  The messages that trace each step
    are left out; the two tables printed at the end are lists of their entries. *)

From S2P Require Import Prelude.

Definition VIRTUAL : Z := 16.
Definition FISICA : Z := 8.
Definition SWAP : Z := 16.
Definition MAX_PROCESOS : Z := 100.

Record pagina := mkPagina {
  pg_pid : Z;
  indice : Z;
  nroEnMemoria : Z;
  memoria : Z;      (* 1 is RAM, 2 is the swap area *)
  lru_indice : Z;
}.
Record proceso := mkProceso { p_pid : Z; paginas : list pagina; activo : Z }.

#[export] Instance pagina_inh : Inhabited pagina := populate (mkPagina 0 0 0 0 0).
#[export] Instance proceso_inh : Inhabited proceso := populate (mkProceso 0 [] 0).

(** The globals and the locals of [main]. *)
Record sim := mkSim {
  procesos : list proceso;
  ram : list pagina;
  fifo_index : Z;
  memSecundaria : list pagina;
  lru_index : Z;
}.

Definition set_pid (v : Z) (p : pagina) := mkPagina v (indice p) (nroEnMemoria p) (memoria p) (lru_indice p).
Definition set_indice (v : Z) (p : pagina) := mkPagina (pg_pid p) v (nroEnMemoria p) (memoria p) (lru_indice p).
Definition set_nro (v : Z) (p : pagina) := mkPagina (pg_pid p) (indice p) v (memoria p) (lru_indice p).
Definition set_memoria (v : Z) (p : pagina) := mkPagina (pg_pid p) (indice p) (nroEnMemoria p) v (lru_indice p).
Definition set_lru (v : Z) (p : pagina) := mkPagina (pg_pid p) (indice p) (nroEnMemoria p) (memoria p) v.

(** ** Array accesses *)

Definition inside (i n : Z) : ST sim unit := panic_if (negb ((0 <=? i) && (i <? n))) "out of bounds".

(** [procesos[pid - 1]] and [procesos[pid - 1].paginas[pag]] *)
Definition proc_get (pid : Z) : ST sim proceso :=
  inside (pid - 1) MAX_PROCESOS ;;; gets (fun s => rd (procesos s) (pid - 1)).
Definition proc_upd (pid : Z) (f : proceso -> proceso) : ST sim unit :=
  inside (pid - 1) MAX_PROCESOS ;;;
  modify (fun s => mkSim (upd (procesos s) (pid - 1) (f (rd (procesos s) (pid - 1)))) (ram s) (fifo_index s)
                     (memSecundaria s) (lru_index s)).
Definition pag_get (pid pag : Z) : ST sim pagina :=
  p <- proc_get pid ;; inside pag VIRTUAL ;;; ret (rd (paginas p) pag).
Definition pag_upd (pid pag : Z) (f : pagina -> pagina) : ST sim unit :=
  inside pag VIRTUAL ;;;
  proc_upd pid (fun p => mkProceso (p_pid p) (upd (paginas p) pag (f (rd (paginas p) pag))) (activo p)).
Definition ram_get (i : Z) : ST sim pagina := inside i FISICA ;;; gets (fun s => rd (ram s) i).
Definition ram_set (i : Z) (p : pagina) : ST sim unit :=
  inside i FISICA ;;;
  modify (fun s => mkSim (procesos s) (upd (ram s) i p) (fifo_index s) (memSecundaria s) (lru_index s)).
Definition swap_get (i : Z) : ST sim pagina := inside i SWAP ;;; gets (fun s => rd (memSecundaria s) i).
Definition swap_set (i : Z) (p : pagina) : ST sim unit :=
  inside i SWAP ;;;
  modify (fun s => mkSim (procesos s) (ram s) (fifo_index s) (upd (memSecundaria s) i p) (lru_index s)).
Definition set_fifo (v : Z) : ST sim unit :=
  modify (fun s => mkSim (procesos s) (ram s) v (memSecundaria s) (lru_index s)).
(** [lru_index++], with the value it had *)
Definition next_lru : ST sim Z :=
  v <- gets lru_index ;;
  modify (fun s => mkSim (procesos s) (ram s) (fifo_index s) (memSecundaria s) (s32 (v + 1))) ;;; ret v.

(** ** The operations *)

(** The frame with the least [lru_indice] among [i], ..., [FISICA - 1], if that is
    less than [best], the one of [marco]. *)
Fixpoint min_lru (n : nat) (i : Z) (l : list pagina) (marco best : Z) : Z * Z :=
  match n with
  | O => (marco, best)
  | S n =>
      if lru_indice (rd l i) <? best then min_lru n (i + 1) l i (lru_indice (rd l i))
      else min_lru n (i + 1) l marco best
  end.

(** The page [pag] of [pid], in [marcoSwap], and the page of [marcoRam] change
    places. *)
Definition gestionarProcesoEnMemoria (modo pid pag : Z) : ST sim Z :=
  p <- pag_get pid pag ;;
  if (modo =? 108) && (memoria p =? 1) then
    v <- gets lru_index ;;
    pag_upd pid pag (set_lru v) ;;;
    p <- pag_get pid pag ;;
    q <- ram_get (nroEnMemoria p) ;;
    ram_set (nroEnMemoria p) (set_lru v q) ;;;
    next_lru ;;; ret 0
  else if (modo =? 108) && (memoria p =? 2) then
    let marcoSwap := nroEnMemoria p in
    q0 <- ram_get 0 ;;
    l <- gets ram ;;
    let marcoRam := (min_lru 7 1 l 0 (lru_indice q0)).1 in
    paginaEnSwap <- swap_get marcoSwap ;;
    paginaEnRAM <- ram_get marcoRam ;;
    swap_set marcoSwap (set_memoria 2 paginaEnRAM) ;;;
    pag_upd (pg_pid paginaEnRAM) (indice paginaEnRAM) (set_nro marcoSwap) ;;;
    pag_upd (pg_pid paginaEnRAM) (indice paginaEnRAM) (set_memoria 2) ;;;
    v <- gets lru_index ;;
    ram_set marcoRam (set_lru v (set_memoria 1 paginaEnSwap)) ;;;
    pag_upd pid pag (set_nro marcoRam) ;;;
    pag_upd pid pag (set_memoria 1) ;;;
    pag_upd pid pag (set_lru v) ;;;
    next_lru ;;; ret 0
  else if (modo =? 102) && (memoria p =? 1) then ret 0
  else if (modo =? 102) && (memoria p =? 2) then
    let marcoSwap := nroEnMemoria p in
    marcoRam <- gets fifo_index ;;
    paginaEnSwap <- swap_get marcoSwap ;;
    paginaEnRAM <- ram_get marcoRam ;;
    swap_set marcoSwap (set_memoria 2 paginaEnRAM) ;;;
    pag_upd (pg_pid paginaEnRAM) (indice paginaEnRAM) (set_nro marcoSwap) ;;;
    pag_upd (pg_pid paginaEnRAM) (indice paginaEnRAM) (set_memoria 2) ;;;
    ram_set marcoRam (set_memoria 1 paginaEnSwap) ;;;
    pag_upd pid pag (set_nro marcoRam) ;;;
    pag_upd pid pag (set_memoria 1) ;;;
    set_fifo ((marcoRam + 1) mod FISICA) ;;; ret 0
  else ret 1.

(** The first free frame among [i], [i + 1], ... *)
Fixpoint hueco (i : Z) (l : list pagina) : option Z :=
  match l with
  | [] => None
  | p :: l => if pg_pid p =? -1 then Some i else hueco (i + 1) l
  end.

(** Whether the program goes on: it exits when the swap area is full. *)
Definition verificarMemoriaSecundaria : ST sim bool :=
  s <- get ;; ret (bool_decide (is_Some (hueco 0 (memSecundaria s)))).

Definition inicializarProcesoSiEsNecesario (pid : Z) : ST sim unit :=
  p <- proc_get pid ;;
  when (activo p =? -1)
    (proc_upd pid (fun p => mkProceso (p_pid p) (paginas p) 1) ;;;
     proc_upd pid (fun p => mkProceso pid (paginas p) (activo p)) ;;;
     forM 16 0 (fun i =>
       pag_upd pid i (set_pid pid) ;;;
       pag_upd pid i (set_nro (-1)) ;;;
       pag_upd pid i (set_indice i) ;;;
       pag_upd pid i (set_lru (-1)))).

(** [procesos[pid - 1].paginas[pagina]] goes into RAM frame [i]. *)
Definition entra_en_ram (pid pag i : Z) : ST sim unit :=
  pag_upd pid pag (set_nro i) ;;;
  pag_upd pid pag (set_memoria 1) ;;;
  v <- gets lru_index ;;
  pag_upd pid pag (set_lru v) ;;;
  next_lru ;;; ret tt.

(** The page is in no memory: the part of the loop of [main] after
    [gestionarProcesoEnMemoria] returned 1. *)
Definition cargar (modo pid pag : Z) : ST sim unit :=
  s <- get ;;
  match hueco 0 (ram s) with
  | Some i =>
      entra_en_ram pid pag i ;;;
      p <- pag_get pid pag ;; ram_set i p
  | None =>
      when (modo =? 102)
        (f <- gets fifo_index ;;
         match hueco 0 (memSecundaria s) with
         | Some i =>
             entra_en_ram pid pag f ;;;
             q <- ram_get f ;;
             swap_set i (set_memoria 2 q) ;;;
             pag_upd (pg_pid q) (indice q) (set_memoria 2)
         | None => ret tt
         end ;;;
         p <- pag_get pid pag ;; ram_set f p ;;;
         set_fifo ((f + 1) mod FISICA)) ;;;
      when (modo =? 108)
        (q0 <- ram_get 0 ;;
         l <- gets ram ;;
         let paginaRemplazo := (min_lru 7 1 l 0 (lru_indice q0)).1 in
         match hueco 0 (memSecundaria s) with
         | Some i =>
             entra_en_ram pid pag paginaRemplazo ;;;
             q <- ram_get paginaRemplazo ;;
             swap_set i (set_memoria 2 q) ;;;
             pag_upd (pg_pid q) (indice q) (set_memoria 2) ;;;
             pag_upd (pg_pid q) (indice q) (set_nro i)
         | None => ret tt
         end ;;;
         p <- pag_get pid pag ;; ram_set paginaRemplazo p)
  end.

(** The body of the loop of [main] for one reference; [false] when it exits. *)
Definition referencia (modo pid pag : Z) : ST sim bool :=
  if (pid >? MAX_PROCESOS - 1) || (pag >? VIRTUAL - 1) then ret false else
  ok <- verificarMemoriaSecundaria ;;
  if negb ok then ret false else
  inicializarProcesoSiEsNecesario pid ;;;
  r <- gestionarProcesoEnMemoria modo pid pag ;;
  when (r =? 1) (cargar modo pid pag) ;;;
  ret true.

(** The loop on the references of the input; the result is the exit status. *)
Fixpoint main_loop (modo : Z) (refs : list (Z * Z)) : ST sim Z :=
  match refs with
  | [] => ret 0
  | (pid, pag) :: refs =>
      ok <- referencia modo pid pag ;;
      if (ok : bool) then main_loop modo refs else ret 1
  end.

(** The locals of [main] when its loop starts; [s] has what they held before. *)
Definition main_init (s : sim) : sim :=
  mkSim ((fun p => mkProceso (p_pid p) (paginas p) (-1)) <$> procesos s) (set_pid (-1) <$> ram s) 0
    (set_pid (-1) <$> memSecundaria s) 0.

Definition main (modo : Z) (refs : list (Z * Z)) (s : sim) : res (Z * sim) := main_loop modo refs (main_init s).

(** ** The tables printed at the end *)

Inductive celda := Libre | EnRam (marco : Z) | EnSwap (marco : Z).
Definition celda_de (p : pagina) : option celda :=
  if nroEnMemoria p =? -1 then Some Libre
  else if memoria p =? 1 then Some (EnRam (nroEnMemoria p))
  else if memoria p =? 2 then Some (EnSwap (nroEnMemoria p)) else None.
Definition imprimirTablaPaginacion (s : sim) : list (Z * list celda) :=
  (fun p => (p_pid p, omap celda_de (paginas p))) <$>
    filter (fun p => activo p = 1 /\ p_pid p <> -1) (procesos s).
Definition imprimirMemorias (s : sim) : list (option (Z * Z)) * list (option (Z * Z)) :=
  let marco p := if pg_pid p =? -1 then None else Some (pg_pid p, indice p) in
  (marco <$> ram s, marco <$> memSecundaria s).
