(* ===== verification/SimSpec.v ===== *)
(** * The simulator implements LRU

    With [-l] the simulator of [Sim.v] is proved to follow the reference policy:
    the frames of the RAM hold the pages most recently used, those displaced are
    in the swap area, and the page tables say where each page is.  With [-f] the
    tables do not: two runs show it. *)

From S2P Require Import Prelude Sim.
From Stdlib Require Import Sorted.

(** ** The policy *)

Abbreviation page := (Z * Z)%type.

(** The pages in RAM, the most recently used first, and those in the swap area. *)
Record lru := mkLru { mru : list page; out : list page }.
Definition lru_ref (a : lru) (p : page) : lru :=
  let l := p :: filter (fun q => q <> p) (mru a) in
  mkLru (take 8 l) (drop 8 l ++ filter (fun q => q <> p) (out a)).

(** ** The state *)

Definition valid (p : page) : Prop := 1 <= p.1 <= 99 /\ 0 <= p.2 < 16.
(** The page table entry of a page. *)
Definition entry (s : sim) (p : page) : pagina := rd (paginas (rd (procesos s) (p.1 - 1))) p.2.
Definition set_entry (p : page) (f : pagina -> pagina) (s : sim) : sim :=
  mkSim (upd (procesos s) (p.1 - 1)
           (let q := rd (procesos s) (p.1 - 1) in
            mkProceso (p_pid q) (upd (paginas q) p.2 (f (rd (paginas q) p.2))) (activo q)))
    (ram s) (fifo_index s) (memSecundaria s) (lru_index s).
Definition set_ram (i : Z) (q : pagina) (s : sim) : sim :=
  mkSim (procesos s) (upd (ram s) i q) (fifo_index s) (memSecundaria s) (lru_index s).
Definition set_swap (i : Z) (q : pagina) (s : sim) : sim :=
  mkSim (procesos s) (ram s) (fifo_index s) (upd (memSecundaria s) i q) (lru_index s).
Definition tick (s : sim) : sim :=
  mkSim (procesos s) (ram s) (fifo_index s) (memSecundaria s) (s32 (lru_index s + 1)).

(** The arrays have their sizes. *)
Record sizes (s : sim) : Prop := {
  sz_proc : lenZ (procesos s) = 100;
  sz_pag i : 0 <= i < 100 -> lenZ (paginas (rd (procesos s) i)) = 16;
  sz_ram : lenZ (ram s) = 8;
  sz_swap : lenZ (memSecundaria s) = 16;
}.

(** The page in a frame. *)
Definition occ (q : pagina) : option page := if pg_pid q =? -1 then None else Some (pg_pid q, indice q).

Lemma entry_set_entry s p f q : sizes s -> valid p -> valid q ->
  entry (set_entry p f s) q = if decide (q = p) then f (entry s p) else entry s q.
Proof.
  intros Hs [H1 H2] [H3 H4]. unfold entry, set_entry. cbn [procesos]. pose proof (sz_pag s Hs (p.1 - 1) ltac:(lia)) as Hp.
  rewrite rd_upd by (rewrite ?(sz_proc s Hs); lia).
  destruct (Z.eqb_spec (p.1 - 1) (q.1 - 1)) as [E|E].
  - cbn [paginas]. rewrite rd_upd by lia. destruct (Z.eqb_spec p.2 q.2) as [E'|E'].
    + rewrite decide_True by (destruct p, q; cbn in *; f_equal; lia). done.
    + rewrite decide_False by congruence. by rewrite E.
  - rewrite decide_False by congruence. done.
Qed.
Lemma sizes_set_entry s p f : sizes s -> valid p -> sizes (set_entry p f s).
Proof.
  intros [H1 H2 H3 H4] [H5 H6]. split; cbn; [by rewrite upd_lenZ | | done | done].
  intros i Hi. rewrite rd_upd by lia. destruct (Z.eqb_spec (p.1 - 1) i); [|by apply H2].
  cbn. rewrite upd_lenZ. apply H2. lia.
Qed.
Lemma sizes_set_ram s i q : sizes s -> sizes (set_ram i q s).
Proof. intros []. split; cbn; rewrite ?upd_lenZ; done. Qed.
Lemma sizes_set_swap s i q : sizes s -> sizes (set_swap i q s).
Proof. intros []. split; cbn; rewrite ?upd_lenZ; done. Qed.
Lemma sizes_tick s : sizes s -> sizes (tick s).
Proof. intros []. by split. Qed.
Lemma activo_set_entry s p f i : sizes s -> valid p -> 0 <= i < 100 ->
  activo (rd (procesos (set_entry p f s)) i) = activo (rd (procesos s) i).
Proof.
  intros Hs [H1 H2] Hi. cbn. rewrite rd_upd by (rewrite ?(sz_proc s Hs); lia). by destruct (Z.eqb_spec (p.1 - 1) i) as [<-|].
Qed.

(** ** The accesses *)

Lemma inside_spec i n s (Q : unit -> sim -> Prop) : 0 <= i < n -> Q tt s -> wp (inside i n) s Q.
Proof.
  intros Hi HQ. unfold inside. apply wp_panic_if; [|done]. apply negb_false_iff, andb_true_iff. split; lia.
Qed.
Lemma pag_get_spec pid pag s (Q : pagina -> sim -> Prop) :
  valid (pid, pag) -> Q (entry s (pid, pag)) s -> wp (pag_get pid pag) s Q.
Proof.
  intros [H1 H2] HQ. cbn in H1, H2. unfold pag_get, proc_get. apply wp_bind, wp_bind, inside_spec; [unfold MAX_PROCESOS; lia|].
  apply wp_gets, wp_bind, inside_spec; [unfold VIRTUAL; lia|]. by apply wp_ret.
Qed.
Lemma pag_upd_spec pid pag f s (Q : unit -> sim -> Prop) :
  valid (pid, pag) -> Q tt (set_entry (pid, pag) f s) -> wp (pag_upd pid pag f) s Q.
Proof.
  intros [H1 H2] HQ. cbn in H1, H2. unfold pag_upd, proc_upd. apply wp_bind, inside_spec; [unfold VIRTUAL; lia|].
  apply wp_bind, inside_spec; [unfold MAX_PROCESOS; lia|]. by apply wp_modify.
Qed.
Lemma ram_get_spec i s (Q : pagina -> sim -> Prop) : 0 <= i < 8 -> Q (rd (ram s) i) s -> wp (ram_get i) s Q.
Proof. intros Hi HQ. unfold ram_get. apply wp_bind, inside_spec; [done|]. by apply wp_gets. Qed.
Lemma ram_set_spec i q s (Q : unit -> sim -> Prop) : 0 <= i < 8 -> Q tt (set_ram i q s) -> wp (ram_set i q) s Q.
Proof. intros Hi HQ. unfold ram_set. apply wp_bind, inside_spec; [done|]. by apply wp_modify. Qed.
Lemma swap_get_spec i s (Q : pagina -> sim -> Prop) : 0 <= i < 16 -> Q (rd (memSecundaria s) i) s -> wp (swap_get i) s Q.
Proof. intros Hi HQ. unfold swap_get. apply wp_bind, inside_spec; [done|]. by apply wp_gets. Qed.
Lemma swap_set_spec i q s (Q : unit -> sim -> Prop) : 0 <= i < 16 -> Q tt (set_swap i q s) -> wp (swap_set i q) s Q.
Proof. intros Hi HQ. unfold swap_set. apply wp_bind, inside_spec; [done|]. by apply wp_modify. Qed.
Lemma next_lru_spec s (Q : Z -> sim -> Prop) : Q (lru_index s) (tick s) -> wp next_lru s Q.
Proof. intros HQ. unfold next_lru. by wp_steps. Qed.

Ltac sim_step :=
  lazymatch goal with
  | |- wp (bind _ _) _ _ => apply wp_bind
  | |- wp (pag_get _ _) _ _ => apply pag_get_spec; [done|]
  | |- wp (pag_upd _ _ _) _ _ => apply pag_upd_spec; [done|]
  | |- wp (ram_get _) _ _ => apply ram_get_spec; [done|]
  | |- wp (ram_set _ _) _ _ => apply ram_set_spec; [done|]
  | |- wp (swap_get _) _ _ => apply swap_get_spec; [done|]
  | |- wp (swap_set _ _) _ _ => apply swap_set_spec; [done|]
  | |- wp next_lru _ _ => apply next_lru_spec
  | |- wp (ret _) _ _ => apply wp_ret
  | |- wp (gets _) _ _ => apply wp_gets
  | |- wp get _ _ => apply wp_get
  end.

(** ** The invariant *)

Record inv (s : sim) (a : lru) : Prop := {
  iv_sizes : sizes s;
  iv_ram_perm : omap occ (ram s) ≡ₚ mru a;
  iv_swap_perm : omap occ (memSecundaria s) ≡ₚ out a;
  iv_nodup : NoDup (mru a ++ out a);
  iv_ram i p : 0 <= i < 8 -> occ (rd (ram s) i) = Some p ->
    valid p /\ nroEnMemoria (entry s p) = i /\ memoria (entry s p) = 1 /\
    lru_indice (rd (ram s) i) = lru_indice (entry s p);
  iv_swap j p : 0 <= j < 16 -> occ (rd (memSecundaria s) j) = Some p ->
    valid p /\ nroEnMemoria (entry s p) = j /\ memoria (entry s p) = 2;
  iv_else p : valid p -> p ∉ mru a ++ out a -> memoria (entry s p) <> 1 /\ memoria (entry s p) <> 2;
  iv_known pid : 1 <= pid <= 99 ->
    activo (rd (procesos s) (pid - 1)) = 1 /\
      (forall pag, 0 <= pag < 16 -> pg_pid (entry s (pid, pag)) = pid /\ indice (entry s (pid, pag)) = pag) \/
    activo (rd (procesos s) (pid - 1)) = -1 /\ (forall pag, (pid, pag) ∉ mru a ++ out a);
  iv_absent p : valid p -> activo (rd (procesos s) (p.1 - 1)) = 1 -> p ∉ mru a ++ out a -> nroEnMemoria (entry s p) = -1;
  iv_sorted : StronglySorted (fun p q => lru_indice (entry s q) < lru_indice (entry s p)) (mru a);
  iv_time p : p ∈ mru a -> 0 <= lru_indice (entry s p) < lru_index s;
  iv_lru : 0 <= lru_index s;
  iv_full : out a <> [] -> length (mru a) = 8%nat;
}.

Lemma omap_occ_elem (l : list pagina) p : p ∈ omap occ l <-> exists i, 0 <= i < lenZ l /\ occ (rd l i) = Some p.
Proof.
  rewrite list_elem_of_omap. split.
  - intros (x & Hx & Ho). apply list_elem_of_lookup in Hx as [i Hi]. exists (Z.of_nat i).
    pose proof (lookup_lt_Some _ _ _ Hi). split; [unfold lenZ; lia|].
    by rewrite (rd_lookup _ _ x) by (rewrite ?Nat2Z.id; done || lia).
  - intros (i & Hi & Ho). exists (rd l i). split; [|done]. apply list_elem_of_lookup. exists (Z.to_nat i).
    by apply rd_lookup_Some.
Qed.

Lemma omap_upd (l : list pagina) i x : 0 <= i < lenZ l ->
  option_list (occ (rd l i)) ++ omap occ (upd l i x) ≡ₚ option_list (occ x) ++ omap occ l.
Proof.
  intros Hi. pose proof (rd_lookup_Some l i Hi) as Hl. unfold upd.
  rewrite <- (take_drop_middle _ _ _ Hl) at 3. rewrite insert_take_drop by (unfold lenZ in Hi; lia).
  rewrite !omap_app. cbn [omap list_omap].
  destruct (occ (rd l i)), (occ x); cbn [option_list app]; rewrite ?(Permutation_middle _ _ _); try done.
  all: rewrite <- ?Permutation_middle; solve_Permutation || constructor.
Qed.

Lemma omap_occ_len (l : list pagina) : (length (omap occ l) <= length l)%nat.
Proof. induction l as [|x l IH]; cbn; [done|]. destruct (occ x); cbn; lia. Qed.

(** [hueco] finds a free frame when there is one. *)
Lemma hueco_spec k l :
  match hueco k l with
  | Some i => k <= i < k + lenZ l /\ occ (rd l (i - k)) = None /\ (length (omap occ l) < length l)%nat
  | None => length (omap occ l) = length l
  end.
Proof.
  revert k. induction l as [|x l IH]; intros k; cbn [hueco omap list_omap]; [done|].
  rewrite lenZ_cons. pose proof (lenZ_nonneg l). pose proof (omap_occ_len l). destruct (pg_pid x =? -1) eqn:E.
  - assert (occ x = None) as Ex by (unfold occ; by rewrite E).
    rewrite Z.sub_diag, Ex. cbn [length]. split_and!; [lia | lia | exact Ex | lia].
  - assert (occ x = Some (pg_pid x, indice x)) as -> by (unfold occ; by rewrite E).
    specialize (IH (k + 1)). destruct (hueco (k + 1) l) as [i|]; cbn [length]; [|lia].
    destruct IH as (H1 & H2 & H3). split_and!; [lia | lia | | lia]. rewrite <- H2. f_equal.
    unfold rd. by replace (Z.to_nat (i - k)) with (S (Z.to_nat (i - (k + 1)))) by lia.
Qed.

Section inv.
Context (s : sim) (a : lru).
Hypothesis Hi : inv s a.

Lemma in_ram p : p ∈ mru a <-> exists i, 0 <= i < 8 /\ occ (rd (ram s) i) = Some p.
Proof. rewrite <- (iv_ram_perm s a Hi), omap_occ_elem, (sz_ram s (iv_sizes s a Hi)). done. Qed.
Lemma in_swap p : p ∈ out a <-> exists j, 0 <= j < 16 /\ occ (rd (memSecundaria s) j) = Some p.
Proof. rewrite <- (iv_swap_perm s a Hi), omap_occ_elem, (sz_swap s (iv_sizes s a Hi)). done. Qed.
Lemma ram_not_swap p : p ∈ mru a -> p ∉ out a.
Proof. destruct (proj1 (NoDup_app _ _) (iv_nodup s a Hi)) as (_ & H & _). apply H. Qed.
Lemma mru_valid p : p ∈ mru a ++ out a -> valid p.
Proof.
  intros [(i & H1 & H2)%in_ram | (j & H1 & H2)%in_swap]%elem_of_app; [by apply (iv_ram s a Hi i) | by apply (iv_swap s a Hi j)].
Qed.
Lemma mru_len : (length (mru a) <= 8)%nat.
Proof.
  rewrite <- (iv_ram_perm s a Hi). pose proof (sz_ram s (iv_sizes s a Hi)) as H. unfold lenZ in H.
  pose proof (omap_occ_len (ram s)). lia.
Qed.

(** Where the page table says a page is. *)
Lemma memoria_1 p : valid p -> memoria (entry s p) = 1 ->
  p ∈ mru a /\ 0 <= nroEnMemoria (entry s p) < 8 /\ occ (rd (ram s) (nroEnMemoria (entry s p))) = Some p.
Proof.
  intros Hv Hm. destruct (decide (p ∈ mru a ++ out a)) as [Hin|Hin]; [|by destruct (iv_else s a Hi p Hv Hin)].
  apply elem_of_app in Hin as [Hin|Hin].
  - split; [done|]. apply in_ram in Hin as (i & Hr & Ho). destruct (iv_ram s a Hi i p Hr Ho) as (_ & -> & _). done.
  - apply in_swap in Hin as (j & Hr & Ho). destruct (iv_swap s a Hi j p Hr Ho) as (_ & _ & E). lia.
Qed.
Lemma memoria_2 p : valid p -> memoria (entry s p) = 2 ->
  p ∈ out a /\ 0 <= nroEnMemoria (entry s p) < 16 /\ occ (rd (memSecundaria s) (nroEnMemoria (entry s p))) = Some p.
Proof.
  intros Hv Hm. destruct (decide (p ∈ mru a ++ out a)) as [Hin|Hin]; [|by destruct (iv_else s a Hi p Hv Hin)].
  apply elem_of_app in Hin as [Hin|Hin].
  - apply in_ram in Hin as (i & Hr & Ho). destruct (iv_ram s a Hi i p Hr Ho) as (_ & _ & E & _). lia.
  - split; [done|]. apply in_swap in Hin as (j & Hr & Ho). destruct (iv_swap s a Hi j p Hr Ho) as (_ & -> & _). done.
Qed.
Lemma memoria_else p : valid p -> memoria (entry s p) <> 1 -> memoria (entry s p) <> 2 -> p ∉ mru a ++ out a.
Proof.
  intros Hv H1 H2 [(i & Hr & Ho)%in_ram | (j & Hr & Ho)%in_swap]%elem_of_app.
  - by destruct (iv_ram s a Hi i p Hr Ho) as (_ & _ & E & _).
  - by destruct (iv_swap s a Hi j p Hr Ho) as (_ & _ & E).
Qed.
End inv.

(** ** The transitions *)

(** [s'] differs from [s] in the entry of [p], which is now in frame [i], used at
    time [lru_index s]. *)
Record placed (s s' : sim) (p : page) (i : Z) : Prop := {
  pl_sizes : sizes s';
  pl_time : lru_index s' = lru_index s + 1;
  pl_nro : nroEnMemoria (entry s' p) = i;
  pl_memoria : memoria (entry s' p) = 1;
  pl_lru : lru_indice (entry s' p) = lru_index s;
  pl_frame : 0 <= i < 8;
  pl_ram : exists x, ram s' = upd (ram s) i x /\ occ x = Some p /\ lru_indice x = lru_index s;
  pl_valid : valid p;
  pl_known pid : 1 <= pid <= 99 -> activo (rd (procesos s') (pid - 1)) = activo (rd (procesos s) (pid - 1)) /\
    forall pag, 0 <= pag < 16 -> pg_pid (entry s' (pid, pag)) = pg_pid (entry s (pid, pag)) /\
      indice (entry s' (pid, pag)) = indice (entry s (pid, pag));
  pl_active : activo (rd (procesos s) (p.1 - 1)) = 1;
}.

Lemma sorted_ext (f g : page -> Z) l : (forall p, p ∈ l -> f p = g p) ->
  StronglySorted (fun p q => f q < f p) l -> StronglySorted (fun p q => g q < g p) l.
Proof.
  intros He Hs. induction Hs as [|p l Hs IH Hp]; [constructor|]. constructor; [apply IH; set_solver|].
  rewrite Forall_forall in *. intros q Hq. rewrite <- !He by set_solver. by apply Hp.
Qed.
Lemma sorted_filter {A} (R : A -> A -> Prop) (P : A -> Prop) `{!forall x, Decision (P x)} l :
  StronglySorted R l -> StronglySorted R (filter P l).
Proof.
  induction 1 as [|x l Hs IH Hp]; [constructor|]. rewrite filter_cons. case_decide; [|done]. constructor; [done|].
  rewrite Forall_forall in *. intros y [_ Hy]%list_elem_of_filter. by apply Hp.
Qed.
Lemma sorted_app_l {A} (R : A -> A -> Prop) l k : StronglySorted R (l ++ k) -> StronglySorted R l.
Proof.
  induction l as [|x l IH]; intros Hs; [constructor|]. inversion_clear Hs as [|? ? H1 H2]. constructor; [by apply IH|].
  by apply Forall_app in H2 as [? _].
Qed.

Section placed.
Context (s s' : sim) (a : lru) (p : page) (i : Z) (m : list page).
Hypothesis Hi : inv s a.
Hypothesis Hp : placed s s' p i.
Hypothesis Hm : forall q, q ∈ m -> q ∈ mru a /\ q <> p /\ entry s' q = entry s q.

(** The page used is the most recent. *)
Lemma placed_sorted : StronglySorted (fun p q => lru_indice (entry s q) < lru_indice (entry s p)) m ->
  StronglySorted (fun p q => lru_indice (entry s' q) < lru_indice (entry s' p)) (p :: m).
Proof.
  intros Hs. constructor.
  - eapply (sorted_ext (fun q => lru_indice (entry s q)) (fun q => lru_indice (entry s' q))); [|done].
    intros q Hq. by destruct (Hm q Hq) as (_ & _ & ->).
  - apply Forall_forall. intros q Hq. destruct (Hm q Hq) as (Hq' & _ & ->). rewrite (pl_lru _ _ _ _ Hp).
    apply (iv_time s a Hi q Hq').
Qed.
Lemma placed_time q : q ∈ p :: m -> 0 <= lru_indice (entry s' q) < lru_index s'.
Proof.
  rewrite (pl_time _ _ _ _ Hp). intros [->|Hq]%elem_of_cons.
  - rewrite (pl_lru _ _ _ _ Hp). pose proof (iv_lru s a Hi). lia.
  - destruct (Hm q Hq) as (Hq' & _ & ->). pose proof (iv_time s a Hi q Hq'). lia.
Qed.

Lemma placed_known pid : 1 <= pid <= 99 -> forall o, (forall q, q ∈ m ++ o -> q ∈ mru a ++ out a) ->
  activo (rd (procesos s') (pid - 1)) = 1 /\
    (forall pag, 0 <= pag < 16 -> pg_pid (entry s' (pid, pag)) = pid /\ indice (entry s' (pid, pag)) = pag) \/
  activo (rd (procesos s') (pid - 1)) = -1 /\ (forall pag, (pid, pag) ∉ (p :: m) ++ o).
Proof.
  intros Hpid o Ho. destruct (pl_known _ _ _ _ Hp pid Hpid) as [-> Hk].
  destruct (iv_known s a Hi pid Hpid) as [[-> H]|[E H]]; [left | right]; (split; [done|]).
  - intros pag Hpag. destruct (Hk pag Hpag) as [-> ->]. by apply H.
  - intros pag [Hin|Hin]%elem_of_cons; [|by apply (H pag), Ho].
    pose proof (pl_active _ _ _ _ Hp) as Ha. rewrite <- Hin in Ha. cbn in Ha. lia.
Qed.

Lemma inv_placed o :
  omap occ (ram s') ≡ₚ p :: m -> omap occ (memSecundaria s') ≡ₚ o -> NoDup ((p :: m) ++ o) ->
  (forall k q, 0 <= k < 8 -> k <> i -> occ (rd (ram s) k) = Some q -> q ∈ m) ->
  (forall j q, 0 <= j < 16 -> occ (rd (memSecundaria s') j) = Some q ->
     valid q /\ nroEnMemoria (entry s' q) = j /\ memoria (entry s' q) = 2) ->
  (forall q, valid q -> q ∉ (p :: m) ++ o -> entry s' q = entry s q /\ q ∉ mru a ++ out a) ->
  (forall q, q ∈ m ++ o -> q ∈ mru a ++ out a) ->
  StronglySorted (fun p q => lru_indice (entry s q) < lru_indice (entry s p)) m ->
  (o <> [] -> length (p :: m) = 8%nat) ->
  inv s' (mkLru (p :: m) o).
Proof.
  intros Hrp Hsp Hnd Hfr Hsw Helse Hsub Hsort Hfull. destruct (pl_ram _ _ _ _ Hp) as (x & Er & Hx & Hxl).
  pose proof (pl_frame _ _ _ _ Hp) as Hfi. pose proof (sz_ram s (iv_sizes s a Hi)) as Hlr.
  split; cbn [mru out]; try done.
  - apply (pl_sizes _ _ _ _ Hp).
  - intros k q Hk. rewrite Er, rd_upd by lia. destruct (Z.eqb_spec i k) as [<-|Hne].
    + rewrite Hx. intros [= <-]. rewrite Hxl, (pl_lru _ _ _ _ Hp).
      split_and!; [apply (pl_valid _ _ _ _ Hp) | apply (pl_nro _ _ _ _ Hp) | apply (pl_memoria _ _ _ _ Hp) | done].
    + intros Hq. destruct (Hm q (Hfr k q Hk ltac:(done) Hq)) as (_ & _ & ->). by apply (iv_ram s a Hi).
  - intros q Hv Hq. destruct (Helse q Hv Hq) as [-> Hq']. by apply (iv_else s a Hi).
  - intros pid Hpid. by apply placed_known.
  - intros q Hv Ha Hq. destruct (Helse q Hv Hq) as [-> Hq']. apply (iv_absent s a Hi q Hv); [|done].
    destruct Hv as [Hv _]. by rewrite <- (proj1 (pl_known _ _ _ _ Hp _ Hv)).
  - by apply placed_sorted.
  - by apply placed_time.
  - rewrite (pl_time _ _ _ _ Hp). pose proof (iv_lru s a Hi). lia.
Qed.
End placed.

Lemma filter_ne (p : page) (l : list page) : p ∉ l -> filter (fun q => q <> p) l = l.
Proof.
  induction l as [|q l IH]; intros Hp; [done|]. rewrite filter_cons_True by set_solver. f_equal. apply IH. set_solver.
Qed.

Lemma filter_ne_perm (p : page) (l : list page) : p ∈ l -> NoDup l -> p :: filter (fun q => q <> p) l ≡ₚ l.
Proof.
  intros (l1 & l2 & ->)%list_elem_of_split Hnd. apply NoDup_app in Hnd as (_ & H1 & H2). apply NoDup_cons in H2 as [H2 _].
  rewrite filter_app, filter_cons_False by (by intros []).
  rewrite !filter_ne by set_solver. by rewrite Permutation_middle.
Qed.

Lemma lru_ref_hit a p : p ∈ mru a -> p ∉ out a -> NoDup (mru a) -> (length (mru a) <= 8)%nat ->
  lru_ref a p = mkLru (p :: filter (fun q => q <> p) (mru a)) (out a).
Proof.
  intros Hin Hout Hnd Hlen. pose proof (filter_ne_perm p (mru a) Hin Hnd) as HP.
  unfold lru_ref. rewrite <- (Permutation_length HP) in Hlen.
  rewrite take_ge, drop_ge by done. f_equal. cbn. by apply filter_ne.
Qed.

Lemma lru_ref_load a p : p ∉ mru a ++ out a -> (length (mru a) < 8)%nat ->
  lru_ref a p = mkLru (p :: mru a) (out a).
Proof.
  intros Hp Hl. unfold lru_ref. rewrite !filter_ne by set_solver.
  rewrite take_ge, drop_ge by (cbn; lia). done.
Qed.
Lemma lru_ref_replace a p q m : p ∉ mru a -> mru a = m ++ [q] -> length (mru a) = 8%nat ->
  lru_ref a p = mkLru (p :: m) (q :: filter (fun q => q <> p) (out a)).
Proof.
  intros Hp Em Hl. unfold lru_ref. rewrite (filter_ne p (mru a)) by done. rewrite Em, length_app in *. cbn in Hl.
  assert (length (p :: m) = 8%nat) as H8 by (cbn; lia). rewrite app_comm_cons, <- H8, take_app_length, drop_app_length. done.
Qed.

(** ** The three cases *)

Lemma inv_hit s s' a p i : inv s a -> placed s s' p i -> occ (rd (ram s) i) = Some p ->
  memSecundaria s' = memSecundaria s -> (forall q, valid q -> q <> p -> entry s' q = entry s q) ->
  inv s' (lru_ref a p).
Proof.
  intros Hi Hp Ho Es He. pose proof (pl_frame _ _ _ _ Hp) as Hf.
  assert (p ∈ mru a) as Hin by (apply (in_ram s a Hi); eauto).
  pose proof (ram_not_swap s a Hi p Hin) as Hout.
  destruct (proj1 (NoDup_app _ _) (iv_nodup s a Hi)) as (Hnd & Hdis & Hnd').
  rewrite (lru_ref_hit a p Hin Hout Hnd (mru_len s a Hi)). pose proof (filter_ne_perm p _ Hin Hnd) as HP.
  set (m := filter _ _) in *.
  assert (forall q, q ∈ m <-> q <> p /\ q ∈ mru a) as Hm by (intros q; unfold m; by rewrite list_elem_of_filter).
  assert (forall q, q ∈ mru a ++ out a -> valid q) as Hv by apply (mru_valid s a Hi).
  eapply (inv_placed s s' a p i); try done.
  - intros q Hq. apply Hm in Hq as [H1 H2]. split_and!; [done | done | apply He; [apply Hv; set_solver | done]].
  - destruct (pl_ram _ _ _ _ Hp) as (x & -> & Hx & _).
    pose proof (omap_upd (ram s) i x ltac:(rewrite (sz_ram s (iv_sizes s a Hi)); lia)) as Hu. rewrite Ho, Hx in Hu.
    rewrite HP, <- (iv_ram_perm s a Hi). by apply Permutation_app_inv_l in Hu.
  - rewrite Es. apply (iv_swap_perm s a Hi).
  - rewrite HP. apply (iv_nodup s a Hi).
  - intros k q Hk Hne Hq. apply Hm. split; [|apply (in_ram s a Hi); eauto]. intros ->.
    destruct (iv_ram s a Hi k p Hk Hq) as (_ & E1 & _), (iv_ram s a Hi i p Hf Ho) as (_ & E2 & _). lia.
  - intros j q Hj. rewrite Es. intros Hq. rewrite He; [by apply (iv_swap s a Hi)| |].
    + by apply (iv_swap s a Hi j).
    + intros ->. apply Hout, (in_swap s a Hi). eauto.
  - intros q Hq Hn. rewrite HP in Hn. split; [apply He; [done | set_solver] | done].
  - intros q. rewrite !elem_of_app, Hm. tauto.
  - apply sorted_filter, (iv_sorted s a Hi).
  - rewrite (Permutation_length HP). apply (iv_full s a Hi).
Qed.

Lemma inv_load s s' a p i : inv s a -> placed s s' p i -> occ (rd (ram s) i) = None ->
  p ∉ mru a ++ out a -> (length (mru a) < 8)%nat ->
  memSecundaria s' = memSecundaria s -> (forall q, valid q -> q <> p -> entry s' q = entry s q) ->
  inv s' (lru_ref a p).
Proof.
  intros Hi Hp Ho Hnot Hlen Es He. rewrite lru_ref_load by done.
  assert (out a = []) as Eo.
  { destruct (out a) eqn:E; [done|]. pose proof (iv_full s a Hi ltac:(by rewrite E)). lia. }
  assert (forall q, q ∈ mru a ++ out a -> entry s' q = entry s q) as He'.
  { intros q Hq. apply He; [by apply (mru_valid s a Hi) | set_solver]. }
  eapply (inv_placed s s' a p i); try done.
  - intros q Hq. split_and!; [done | set_solver | apply He'; set_solver].
  - destruct (pl_ram _ _ _ _ Hp) as (x & -> & Hx & _). pose proof (pl_frame _ _ _ _ Hp) as Hf.
    pose proof (omap_upd (ram s) i x ltac:(rewrite (sz_ram s (iv_sizes s a Hi)); lia)) as Hu. rewrite Ho, Hx in Hu.
    cbn [option_list app] in Hu. by rewrite Hu, (iv_ram_perm s a Hi).
  - rewrite Es. apply (iv_swap_perm s a Hi).
  - rewrite <- app_comm_cons. apply NoDup_cons. split; [done | apply (iv_nodup s a Hi)].
  - intros k q Hk _ Hq. apply (in_ram s a Hi). eauto.
  - intros j q Hj. rewrite Es. intros Hq. assert (q ∈ out a) by (apply (in_swap s a Hi); eauto).
    rewrite He' by set_solver. by apply (iv_swap s a Hi).
  - intros q Hq Hn. split; [apply He; [done | set_solver] | set_solver].
  - apply (iv_sorted s a Hi).
Qed.

(** What the swap area holds when [q] takes slot [j]. *)
Lemma swap_replace s a p q j y : inv s a -> 0 <= j < 16 ->
  occ (rd (memSecundaria s) j) = (if decide (p ∈ out a) then Some p else None) -> occ y = Some q ->
  omap occ (upd (memSecundaria s) j y) ≡ₚ q :: filter (fun q => q <> p) (out a).
Proof.
  intros Hi Hj Hold Hy. destruct (proj1 (NoDup_app _ _) (iv_nodup s a Hi)) as (_ & _ & Hnd).
  pose proof (omap_upd (memSecundaria s) j y ltac:(rewrite (sz_swap s (iv_sizes s a Hi)); lia)) as Hu.
  rewrite Hold, Hy, (iv_swap_perm s a Hi) in Hu. destruct (decide (p ∈ out a)) as [Hin|Hin]; cbn [option_list app] in Hu.
  - apply (Permutation_cons_inv (a := p)). rewrite Hu, <- (filter_ne_perm p (out a) Hin Hnd) at 1. by rewrite Permutation_swap.
  - by rewrite filter_ne.
Qed.

Lemma replace_nodup (p q : page) m o : p ∉ m ++ [q] -> NoDup ((m ++ [q]) ++ o) ->
  NoDup ((p :: m) ++ q :: filter (fun r => r <> p) o).
Proof.
  intros Hp Hnd. rewrite <- app_assoc in Hnd. cbn [app] in *. apply NoDup_app in Hnd as (H1 & H2 & H3).
  apply NoDup_cons in H3 as [H3 H4]. apply NoDup_cons. split.
  - rewrite elem_of_app, elem_of_cons, list_elem_of_filter. rewrite elem_of_app, list_elem_of_singleton in Hp. tauto.
  - apply NoDup_app. split_and!; [done | |].
    + intros r Hr. specialize (H2 r Hr). rewrite elem_of_cons in *. rewrite list_elem_of_filter. tauto.
    + apply NoDup_cons. split; [rewrite list_elem_of_filter; tauto | by apply NoDup_filter].
Qed.

(** The page of frame [i], the least recently used, goes to slot [j] of the swap
    area, which is free or holds [p]. *)
Lemma inv_replace s s' a p q m i j y : inv s a -> placed s s' p i -> p ∉ mru a -> mru a = m ++ [q] ->
  length (mru a) = 8%nat -> occ (rd (ram s) i) = Some q -> 0 <= j < 16 ->
  occ (rd (memSecundaria s) j) = (if decide (p ∈ out a) then Some p else None) ->
  memSecundaria s' = upd (memSecundaria s) j y -> occ y = Some q ->
  nroEnMemoria (entry s' q) = j -> memoria (entry s' q) = 2 ->
  (forall r, valid r -> r <> p -> r <> q -> entry s' r = entry s r) ->
  inv s' (lru_ref a p).
Proof.
  intros Hi Hp Hnot Em Hlen Ho Hj Hold Es Hy Hn2 Hm2 He. rewrite (lru_ref_replace a p q m) by done.
  pose proof (pl_frame _ _ _ _ Hp) as Hf. pose proof (iv_nodup s a Hi) as Hnd. rewrite Em in Hnd.
  assert (forall r, r ∈ mru a <-> r ∈ m \/ r = q) as Hmru
    by (intros r; by rewrite Em, elem_of_app, list_elem_of_singleton).
  assert ((q ∉ m) /\ (q ∉ out a) /\ (forall r, r ∈ m -> r ∉ out a)) as (Hqm & Hqo & Hmo).
  { apply NoDup_app in Hnd as (H1 & H2 & _). apply NoDup_app in H1 as (_ & H1 & _). clear - H1 H2. set_solver. }
  assert (forall r, r ∈ mru a ++ out a -> r <> p -> r <> q -> entry s' r = entry s r) as He'.
  { intros r Hr. apply He. by apply (mru_valid s a Hi). }
  eapply (inv_placed s s' a p i); try done.
  - intros r Hr. assert (r ∈ mru a) as Hra by (apply Hmru; by left).
    assert (r <> p /\ r <> q) as [? ?] by (split; congruence).
    split_and!; [done.. | apply He'; [apply elem_of_app; by left | done..]].
  - destruct (pl_ram _ _ _ _ Hp) as (x & -> & Hx & _).
    pose proof (omap_upd (ram s) i x ltac:(rewrite (sz_ram s (iv_sizes s a Hi)); lia)) as Hu. rewrite Ho, Hx in Hu.
    cbn [option_list app] in Hu. rewrite (iv_ram_perm s a Hi), Em, (Permutation_app_comm m [q]) in Hu.
    apply (Permutation_cons_inv (a := q)). rewrite Hu. cbn. by rewrite Permutation_swap.
  - rewrite Es. by apply (swap_replace s a).
  - apply replace_nodup; [by rewrite <- Em | done].
  - intros k r Hk Hne Hr. assert (r ∈ mru a) as [?| ->]%Hmru by (apply (in_ram s a Hi); eauto); [done|].
    destruct (iv_ram s a Hi k q Hk Hr) as (_ & E1 & _), (iv_ram s a Hi i q Hf Ho) as (_ & E2 & _). lia.
  - intros k r Hk. rewrite Es, rd_upd by (rewrite ?(sz_swap s (iv_sizes s a Hi)); lia).
    destruct (Z.eqb_spec j k) as [<-|Hne]; intros Hr.
    { rewrite Hy in Hr. injection Hr as <-. split_and!; [|done | done]. apply (mru_valid s a Hi), elem_of_app. left. apply Hmru. by right. }
    assert (r ∈ out a) as Hro by (apply (in_swap s a Hi); eauto).
    assert (r <> p) as Hrp.
    { intros ->. rewrite decide_True in Hold by done.
      destruct (iv_swap s a Hi k p Hk Hr) as (_ & E1 & _), (iv_swap s a Hi j p Hj Hold) as (_ & E2 & _). lia. }
    assert (r <> q) as Hrq by congruence. rewrite He' by (done || apply elem_of_app; by right). by apply (iv_swap s a Hi).
  - intros r Hv Hr. rewrite elem_of_app, !elem_of_cons, list_elem_of_filter in Hr. split; [apply He; tauto|]. intros Hin. apply Hr.
    rewrite elem_of_app, Hmru in Hin. destruct (decide (r = p)); tauto.
  - intros r. rewrite !elem_of_app, Hmru, elem_of_cons, list_elem_of_filter. tauto.
  - pose proof (iv_sorted s a Hi) as Hs. rewrite Em in Hs. by apply sorted_app_l in Hs.
  - intros _. rewrite Em, length_app in Hlen. cbn in *. lia.
Qed.

(** ** A new process *)

(** The first [j] pages of [pid] have their names, and nothing else changed that
    the invariant depends on. *)
Record named (s : sim) (pid j : Z) (s' : sim) : Prop := {
  nm_sizes : sizes s';
  nm_ram : ram s' = ram s;
  nm_swap : memSecundaria s' = memSecundaria s;
  nm_lru : lru_index s' = lru_index s;
  nm_active : activo (rd (procesos s') (pid - 1)) = 1;
  nm_other r : 1 <= r <= 99 -> r <> pid -> activo (rd (procesos s') (r - 1)) = activo (rd (procesos s) (r - 1));
  nm_entry p : valid p -> p.1 <> pid -> entry s' p = entry s p;
  nm_memoria p : valid p -> memoria (entry s' p) = memoria (entry s p);
  nm_name k : 0 <= k < j -> pg_pid (entry s' (pid, k)) = pid /\ indice (entry s' (pid, k)) = k;
  nm_nro k : 0 <= k < j -> nroEnMemoria (entry s' (pid, k)) = -1;
}.

Lemma named_entry s pid j s' f : 1 <= pid <= 99 -> 0 <= j < 16 -> named s pid j s' ->
  (forall x, memoria (f x) = memoria x) -> named s pid j (set_entry (pid, j) f s').
Proof.
  intros Hpid Hj Hn Hf. assert (valid (pid, j)) as Hv by done. pose proof (nm_sizes _ _ _ _ Hn) as Hs.
  split; try apply Hn; try done.
  - by apply sizes_set_entry.
  - rewrite activo_set_entry by (done || lia). apply Hn.
  - intros r Hr Hne. rewrite activo_set_entry by (done || lia). by apply (nm_other _ _ _ _ Hn).
  - intros p Hp Hne. rewrite entry_set_entry, decide_False by (done || (intros ->; done)). by apply (nm_entry _ _ _ _ Hn).
  - intros p Hp. rewrite entry_set_entry by done. case_decide as E; [subst p; rewrite Hf|]; by apply (nm_memoria _ _ _ _ Hn).
  - intros k Hk. rewrite entry_set_entry, decide_False by (done || (split; cbn; lia) || (intros [=]; lia)).
    by apply (nm_name _ _ _ _ Hn).
  - intros k Hk. rewrite entry_set_entry, decide_False by (done || (split; cbn; lia) || (intros [=]; lia)).
    by apply (nm_nro _ _ _ _ Hn).
Qed.

Lemma named_activate s pid x : sizes s -> 1 <= pid <= 99 -> paginas x = paginas (rd (procesos s) (pid - 1)) -> activo x = 1 ->
  named s pid 0 (mkSim (upd (procesos s) (pid - 1) x) (ram s) (fifo_index s) (memSecundaria s) (lru_index s)).
Proof.
  intros Hs Hpid Hx Ha. pose proof (sz_proc s Hs) as Hl.
  assert (forall p, valid p -> entry (mkSim (upd (procesos s) (pid - 1) x) (ram s) (fifo_index s) (memSecundaria s) (lru_index s)) p = entry s p) as He.
  { intros p [H1 H2]. unfold entry. cbn. rewrite rd_upd by lia. destruct (Z.eqb_spec (pid - 1) (p.1 - 1)) as [E|]; [|done]. by rewrite Hx, E. }
  split; cbn; try done.
  - split; cbn; [by rewrite upd_lenZ | | apply Hs | apply Hs]. intros i Hi. rewrite rd_upd by lia.
    destruct (Z.eqb_spec (pid - 1) i) as [<-|]; [rewrite Hx|]; by apply (sz_pag s Hs).
  - by rewrite rd_upd_eq by lia.
  - intros r Hr Hne. by rewrite rd_upd_ne by lia.
  - intros p Hp _. by apply He.
  - intros p Hp. by rewrite He.
  - lia.
  - lia.
Qed.

Lemma named_step s pid j s' : 1 <= pid <= 99 -> 0 <= j < 16 -> named s pid j s' ->
  wp (pag_upd pid j (set_pid pid) ;;; pag_upd pid j (set_nro (-1)) ;;;
      pag_upd pid j (set_indice j) ;;; pag_upd pid j (set_lru (-1))) s' (fun _ s'' => named s pid (j + 1) s'').
Proof.
  intros Hpid Hj Hn. assert (valid (pid, j)) as Hv by done. repeat sim_step.
  assert (named s pid j (set_entry (pid, j) (set_lru (-1)) (set_entry (pid, j) (set_indice j)
    (set_entry (pid, j) (set_nro (-1)) (set_entry (pid, j) (set_pid pid) s'))))) as Hn' by by repeat apply named_entry.
  pose proof (nm_sizes _ _ _ _ Hn) as Hs.
  split; try apply Hn'; intros k Hk; (destruct (decide (k = j)) as [->|Hne]; [|apply Hn'; lia]);
  by rewrite !entry_set_entry, !decide_True by (done || by repeat apply sizes_set_entry).
Qed.

Lemma named_inv s a pid s' : inv s a -> 1 <= pid <= 99 -> (forall pag, (pid, pag) ∉ mru a ++ out a) ->
  named s pid 16 s' -> inv s' a.
Proof.
  intros Hi Hpid Hnew Hn.
  assert (forall p, p ∈ mru a ++ out a -> entry s' p = entry s p) as He.
  { intros p Hp. apply (nm_entry _ _ _ _ Hn); [by apply (mru_valid s a Hi)|]. intros <-. destruct p. by apply (Hnew z0). }
  assert (forall p, p ∈ mru a -> entry s' p = entry s p) as Hm by (intros p Hp; apply He, elem_of_app; by left).
  split; rewrite ?(nm_ram _ _ _ _ Hn), ?(nm_swap _ _ _ _ Hn), ?(nm_lru _ _ _ _ Hn); try apply Hi.
  - apply Hn.
  - intros i p Hr Ho. rewrite Hm by (apply (in_ram s a Hi); eauto). by apply (iv_ram s a Hi).
  - intros j p Hr Ho. rewrite He by (apply elem_of_app; right; apply (in_swap s a Hi); eauto). by apply (iv_swap s a Hi).
  - intros p Hv Hp. rewrite (nm_memoria _ _ _ _ Hn) by done. by apply (iv_else s a Hi).
  - intros r Hr. destruct (decide (r = pid)) as [->|Hne].
    + left. split; [apply Hn | apply (nm_name _ _ _ _ Hn)].
    + rewrite (nm_other _ _ _ _ Hn) by done.
      destruct (iv_known s a Hi r Hr) as [[H1 H2]|H]; [left | by right]. split; [done|]. intros pag Hpag.
      rewrite (nm_entry _ _ _ _ Hn) by done. by apply H2.
  - intros p Hv Ha Hp. destruct (Hv) as [Hv1 Hv2]. destruct (decide (p.1 = pid)) as [E|E].
    + destruct p as [r k]. cbn in E, Hv2. subst r. by apply (nm_nro _ _ _ _ Hn).
    + rewrite (nm_other _ _ _ _ Hn) in Ha by done. rewrite (nm_entry _ _ _ _ Hn) by done. by apply (iv_absent s a Hi).
  - eapply (sorted_ext (fun p => lru_indice (entry s p)) (fun p => lru_indice (entry s' p))); [|apply Hi].
    intros p Hp. by rewrite Hm.
  - intros p Hp. rewrite Hm by done. by apply (iv_time s a Hi).
Qed.

Lemma inicializar_spec s a pid : inv s a -> 1 <= pid <= 99 ->
  wp (inicializarProcesoSiEsNecesario pid) s (fun _ s' => inv s' a /\ activo (rd (procesos s') (pid - 1)) = 1 /\
    lru_index s' = lru_index s /\ memSecundaria s' = memSecundaria s).
Proof.
  intros Hi Hpid. unfold inicializarProcesoSiEsNecesario, proc_get, proc_upd. pose proof (iv_sizes s a Hi) as Hs.
  apply wp_bind, wp_bind, inside_spec; [unfold MAX_PROCESOS; lia|]. apply wp_gets.
  destruct (iv_known s a Hi pid Hpid) as [[Ea Hk]|[Ea Hk]]; rewrite Ea; cbn [Z.eqb when]; [wp_steps; by rewrite Ea|].
  change (-1 =? -1) with true. cbn [when].
  apply wp_bind, wp_bind, inside_spec; [unfold MAX_PROCESOS; lia|]. apply wp_modify.
  apply wp_bind, wp_bind, inside_spec; [unfold MAX_PROCESOS; lia|]. apply wp_modify.
  apply (wp_forM _ _ _ (fun j => named s pid j)).
  - cbn. pose proof (sz_proc s Hs). rewrite rd_upd_eq by lia. unfold upd. rewrite list_insert_insert_eq. by apply named_activate.
  - intros j s1 Hj Hn. apply named_step; [done | lia | done].
  - intros s' Hn. split_and!; [by eapply named_inv | apply Hn..].
Qed.

(** ** The victim *)

Lemma min_lru_spec n i l marco : 0 <= marco < i -> (forall k, 0 <= k < i -> lru_indice (rd l marco) <= lru_indice (rd l k)) ->
  let m := (min_lru n i l marco (lru_indice (rd l marco))).1 in
  0 <= m < i + Z.of_nat n /\ forall k, 0 <= k < i + Z.of_nat n -> lru_indice (rd l m) <= lru_indice (rd l k).
Proof.
  revert i marco. induction n as [|n IH]; intros i marco Hm Hmin; cbn [min_lru].
  { cbn. rewrite Z.add_0_r. by split. }
  replace (i + Z.of_nat (S n)) with (i + 1 + Z.of_nat n) by lia.
  destruct (Z.ltb_spec (lru_indice (rd l i)) (lru_indice (rd l marco))) as [E|E]; apply IH; try lia.
  all: intros k Hk; destruct (decide (k = i)) as [->|]; try lia; specialize (Hmin k ltac:(lia)); lia.
Qed.

(** When the RAM is full, the frame with the least [lru_indice] holds the page least
    recently used. *)
Lemma victim_spec s a : inv s a -> length (mru a) = 8%nat ->
  let i := (min_lru 7 1 (ram s) 0 (lru_indice (rd (ram s) 0))).1 in
  exists m q, mru a = m ++ [q] /\ 0 <= i < 8 /\ occ (rd (ram s) i) = Some q /\ valid q.
Proof.
  intros Hi Hlen i. assert (forall k, 0 <= k < 1 -> lru_indice (rd (ram s) 0) <= lru_indice (rd (ram s) k)) as H0.
  { intros k Hk. by replace k with 0 by lia. }
  destruct (min_lru_spec 7 1 (ram s) 0 ltac:(lia) H0) as [Hr Hmin]. fold i in Hr, Hmin.
  destruct (mru a) as [|q m _] eqn:Em using rev_ind; [done|]. exists m, q. split; [done|]. split; [lia|].
  pose proof (sz_ram s (iv_sizes s a Hi)) as Hl8. pose proof (iv_ram_perm s a Hi) as HP. rewrite Em in HP.
  assert (is_Some (occ (rd (ram s) i))) as [p Hp].
  { destruct (occ (rd (ram s) i)) eqn:E; [done|]. exfalso.
    pose proof (omap_upd (ram s) i (mkPagina 1 0 0 0 0) ltac:(lia)) as Hu. rewrite E in Hu.
    apply Permutation_length in Hu, HP. rewrite !length_app in Hu. pose proof (omap_occ_len (upd (ram s) i (mkPagina 1 0 0 0 0))) as Hle.
    rewrite upd_len in Hle. unfold lenZ in Hl8. cbn in Hu. lia. }
  assert (q ∈ mru a) as Hq by (rewrite Em; set_solver). destruct (proj1 (in_ram s a Hi q) Hq) as (k & Hk & Ho).
  destruct (iv_ram s a Hi i p ltac:(lia) Hp) as (Hv & _ & _ & E1), (iv_ram s a Hi k q Hk Ho) as (Hv' & _ & _ & E2).
  destruct (decide (p = q)) as [->|Hne]; [done|]. exfalso. specialize (Hmin k ltac:(lia)).
  assert (p ∈ m) as Hpm.
  { assert (p ∈ mru a) as H by (apply (in_ram s a Hi); exists i; split; [lia | done]). rewrite Em in H. set_solver. }
  pose proof (iv_sorted s a Hi) as Hs. rewrite Em in Hs. apply list_elem_of_split in Hpm as (l1 & l2 & ->).
  rewrite <- app_assoc in Hs. clear - Hs Hmin E1 E2. induction l1 as [|x l1 IH]; cbn in Hs.
  - inversion_clear Hs as [|? ? _ Hf]. rewrite Forall_forall in Hf. specialize (Hf q ltac:(set_solver)). lia.
  - inversion_clear Hs. by apply IH.
Qed.

(** ** The operations *)

Lemma occ_known s a p f : inv s a -> valid p -> activo (rd (procesos s) (p.1 - 1)) = 1 ->
  pg_pid (f (entry s p)) = pg_pid (entry s p) -> indice (f (entry s p)) = indice (entry s p) ->
  occ (f (entry s p)) = Some p.
Proof.
  intros Hi [H1 H2] Ha E1 E2. destruct p as [pid pag]. cbn in *. unfold occ. rewrite E1, E2.
  destruct (iv_known s a Hi pid H1) as [[_ H]|[H _]]; [|lia]. destruct (H pag H2) as [-> ->].
  by rewrite (proj2 (Z.eqb_neq pid (-1))) by lia.
Qed.
Lemma occ_eq x p : occ x = Some p -> p = (pg_pid x, indice x) /\ pg_pid x <> -1.
Proof. unfold occ. destruct (Z.eqb_spec (pg_pid x) (-1)); [done|]. by intros [= <-]. Qed.

Lemma entry_set_ram s i x p : entry (set_ram i x s) p = entry s p.
Proof. done. Qed.
Lemma entry_set_swap s i x p : entry (set_swap i x s) p = entry s p.
Proof. done. Qed.
Lemma entry_tick s p : entry (tick s) p = entry s p.
Proof. done. Qed.

#[local] Hint Resolve sizes_set_entry sizes_set_ram sizes_set_swap sizes_tick : xv6.

(** Page table entries of a state built by updates. *)
Ltac entries :=
  repeat first
    [ rewrite entry_tick | rewrite entry_set_ram | rewrite entry_set_swap
    | rewrite entry_set_entry by (done || auto 12 with xv6) ];
  repeat first [ rewrite decide_True by done | rewrite decide_False by (done || congruence) ].

Lemma name_set_entry s p f r : sizes s -> valid p -> valid r ->
  (forall x, pg_pid (f x) = pg_pid x /\ indice (f x) = indice x) ->
  pg_pid (entry (set_entry p f s) r) = pg_pid (entry s r) /\ indice (entry (set_entry p f s) r) = indice (entry s r).
Proof. intros Hs Hp Hr Hf. rewrite entry_set_entry by done. case_decide as E; [subst r; apply Hf | done]. Qed.

(** The names of the pages and the active processes are the same. *)
Definition same_names (s s' : sim) : Prop := forall pid, 1 <= pid <= 99 ->
  activo (rd (procesos s') (pid - 1)) = activo (rd (procesos s) (pid - 1)) /\
  forall pag, 0 <= pag < 16 -> pg_pid (entry s' (pid, pag)) = pg_pid (entry s (pid, pag)) /\
    indice (entry s' (pid, pag)) = indice (entry s (pid, pag)).
Lemma same_names_refl s : same_names s s.
Proof. done. Qed.
Lemma same_names_entry s0 s p f : sizes s -> valid p -> (forall x, pg_pid (f x) = pg_pid x /\ indice (f x) = indice x) ->
  same_names s0 s -> same_names s0 (set_entry p f s).
Proof.
  intros Hs Hp Hf Hn pid Hpid. destruct (Hn pid Hpid) as [<- H]. split; [apply activo_set_entry; [done | done | lia]|].
  intros pag Hpag. destruct (H pag Hpag) as [<- <-]. by apply name_set_entry.
Qed.
Lemma same_names_ram s0 s i x : same_names s0 s -> same_names s0 (set_ram i x s).
Proof. done. Qed.
Lemma same_names_swap s0 s i x : same_names s0 s -> same_names s0 (set_swap i x s).
Proof. done. Qed.
Lemma same_names_tick s0 s : same_names s0 s -> same_names s0 (tick s).
Proof. done. Qed.
#[local] Hint Resolve same_names_refl same_names_entry same_names_ram same_names_swap same_names_tick : xv6.

Lemma lru_tick s : 0 <= lru_index s -> lru_index s + 1 < 2147483648 -> s32 (lru_index s + 1) = lru_index s + 1.
Proof. intros. apply s32_small. lia. Qed.

(** The state after each kind of reference. *)
Definition hit_state (p : page) (i : Z) (s : sim) : sim :=
  tick (set_ram i (set_lru (lru_index s) (rd (ram s) i)) (set_entry p (set_lru (lru_index s)) s)).
Definition enter (p : page) (i : Z) (s : sim) : sim :=
  set_entry p (set_lru (lru_index s)) (set_entry p (set_memoria 1) (set_entry p (set_nro i) s)).
Definition leave (q : page) (j : Z) (s : sim) : sim := set_entry q (set_memoria 2) (set_entry q (set_nro j) s).

Section states.
Context (s : sim) (a : lru) (p : page).
Hypothesis Hi : inv s a.
Hypothesis Hv : valid p.
Hypothesis Ha : activo (rd (procesos s) (p.1 - 1)) = 1.
Hypothesis Hlim : lru_index s + 1 < 2147483648.

Lemma states_sizes : sizes s.
Proof. apply (iv_sizes s a Hi). Qed.
#[local] Hint Resolve states_sizes : xv6.

Lemma hit_inv i : 0 <= i < 8 -> occ (rd (ram s) i) = Some p -> inv (hit_state p i s) (lru_ref a p).
Proof.
  intros Hr Ho. destruct (iv_ram s a Hi i p Hr Ho) as (_ & E1 & E2 & _).
  pose proof states_sizes as Hs. pose proof (lru_tick s (iv_lru s a Hi) Hlim) as Ht.
  apply (inv_hit s _ a p i); try done.
  - unfold hit_state. split; try (entries; done); try done; auto 8 with xv6.
    + eexists. split; [done | by split].
    + apply same_names_tick, same_names_ram, same_names_entry; auto with xv6.
  - intros q Hq Hne. unfold hit_state. by entries.
Qed.

(** [p] enters frame [i], free until now. *)
Lemma load_inv i x : 0 <= i < 8 -> occ (rd (ram s) i) = None -> p ∉ mru a ++ out a -> (length (mru a) < 8)%nat ->
  x = entry (tick (enter p i s)) p -> inv (set_ram i x (tick (enter p i s))) (lru_ref a p).
Proof.
  intros Hr Ho Hnot Hlen ->. pose proof states_sizes as Hs. pose proof (lru_tick s (iv_lru s a Hi) Hlim) as Ht.
  apply (inv_load s _ a p i); try done.
  - unfold enter. split; try (entries; done); try done; auto 8 with xv6.
    + eexists. split; [done|]. entries. split; [|done].
      by apply (occ_known s a p (fun x => set_lru (lru_index s) (set_memoria 1 (set_nro i x)))).
    + repeat (apply same_names_tick || apply same_names_ram || apply same_names_entry); auto 8 with xv6.
  - intros q Hq Hne. unfold enter. by entries.
Qed.

Context (m : list page) (q : page) (i j : Z).
Hypothesis Hnot : p ∉ mru a.
Hypothesis Em : mru a = m ++ [q].
Hypothesis Hlen : length (mru a) = 8%nat.
Hypothesis Hr : 0 <= i < 8.
Hypothesis Hq : occ (rd (ram s) i) = Some q.
Hypothesis Hvq : valid q.
Hypothesis Hj : 0 <= j < 16.

Lemma victim_ne : q <> p.
Proof. intros ->. apply Hnot. rewrite Em. apply elem_of_app. right. by apply list_elem_of_singleton. Qed.
#[local] Hint Resolve victim_ne : xv6.

(** [p] comes from slot [j] of the swap area, where [q] goes. *)
Lemma swap_in_inv : occ (rd (memSecundaria s) j) = Some p ->
  inv (tick (enter p i (set_ram i (set_lru (lru_index s) (set_memoria 1 (rd (memSecundaria s) j)))
        (leave q j (set_swap j (set_memoria 2 (rd (ram s) i)) s))))) (lru_ref a p).
Proof.
  intros Hold. pose proof states_sizes as Hs. pose proof (lru_tick s (iv_lru s a Hi) Hlim) as Ht. pose proof victim_ne as Hne.
  assert (p ∈ out a) as Hout by (apply (in_swap s a Hi); eauto).
  eapply (inv_replace s _ a p q m i j (set_memoria 2 (rd (ram s) i))); unfold enter, leave; try done; try (by entries).
  - split; try (entries; done); try done; auto 12 with xv6.
    + eexists. split; [done | by split].
    + repeat (apply same_names_tick || apply same_names_ram || apply same_names_swap || apply same_names_entry); auto 12 with xv6.
  - intros r Hvr H1 H2. by entries.
Qed.

(** [p] is new, and slot [j] is free. *)
Lemma swap_out_inv x : occ (rd (memSecundaria s) j) = None -> p ∉ out a ->
  let s1 := set_entry q (set_nro j) (set_entry q (set_memoria 2)
              (set_swap j (set_memoria 2 (rd (ram s) i)) (tick (enter p i s)))) in
  x = entry s1 p -> inv (set_ram i x s1) (lru_ref a p).
Proof.
  intros Hold Hout s1 ->. pose proof states_sizes as Hs. pose proof (lru_tick s (iv_lru s a Hi) Hlim) as Ht. pose proof victim_ne as Hne.
  unfold s1. eapply (inv_replace s _ a p q m i j (set_memoria 2 (rd (ram s) i))); unfold enter; try done; try (by entries).
  - split; try (entries; done); try done; auto 12 with xv6.
    + eexists. split; [done|]. entries. split; [|done].
      by apply (occ_known s a p (fun x => set_lru (lru_index s) (set_memoria 1 (set_nro i x)))).
    + repeat (apply same_names_tick || apply same_names_ram || apply same_names_swap || apply same_names_entry); auto 12 with xv6.
  - intros r Hvr H1 H2. by entries.
Qed.
End states.
(** A reference to a page in RAM or in the swap area. *)
Lemma gestionar_spec s a p : inv s a -> valid p -> activo (rd (procesos s) (p.1 - 1)) = 1 ->
  lru_index s + 1 < 2147483648 ->
  wp (gestionarProcesoEnMemoria 108 p.1 p.2) s (fun r s' =>
    r = 0 /\ inv s' (lru_ref a p) /\ lru_index s' = lru_index s + 1 \/
    r = 1 /\ s' = s /\ p ∉ mru a ++ out a).
Proof.
  intros Hi Hv Ha Hlim. pose proof (iv_lru s a Hi) as Hpos. pose proof (iv_sizes s a Hi) as Hs.
  destruct p as [pid pag]. cbn [fst snd] in *. unfold gestionarProcesoEnMemoria.
  change (108 =? 108) with true. change (108 =? 102) with false. cbn [andb]. sim_step. sim_step.
  destruct (Z.eqb_spec (memoria (entry s (pid, pag))) 1) as [E1|E1].
  { destruct (memoria_1 s a Hi _ Hv E1) as (Hin & Hf & Ho).
    assert (nroEnMemoria (entry (set_entry (pid, pag) (set_lru (lru_index s)) s) (pid, pag)) = nroEnMemoria (entry s (pid, pag))) as En
      by by entries.
    do 6 sim_step. rewrite En. repeat sim_step. left. split_and!; [done | | exact (lru_tick s Hpos Hlim)].
    exact (hit_inv s a (pid, pag) Hi Hv Ha Hlim _ Hf Ho). }
  destruct (Z.eqb_spec (memoria (entry s (pid, pag))) 2) as [E2|E2].
  { destruct (memoria_2 s a Hi _ Hv E2) as (Hin & Hj & Ho). set (j := nroEnMemoria _) in *.
    assert (length (mru a) = 8%nat) as H8 by (apply (iv_full s a Hi); by intros E; rewrite E in Hin; apply elem_of_nil in Hin).
    destruct (victim_spec s a Hi H8) as (m & q & Em & Hr & Hq & Hvq).
    do 4 sim_step. set (i := (min_lru _ _ _ _ _).1) in *. destruct (occ_eq _ _ Hq) as [Eq _].
    rewrite Eq in Hvq. repeat sim_step. left. split_and!; [done | | exact (lru_tick s Hpos Hlim)].
    assert ((pid, pag) ∉ mru a) as Hn by (intros Hm; by apply (ram_not_swap s a Hi _ Hm)).
    rewrite <- Eq in *. exact (swap_in_inv s a (pid, pag) Hi Hv Ha Hlim m q i j Hn Em H8 Hr Hq Hvq Hj Ho). }
  sim_step. right. split_and!; [done | done | by apply (memoria_else s a Hi)].
Qed.

Lemma entra_en_ram_spec s pid pag i (Q : unit -> sim -> Prop) : valid (pid, pag) ->
  Q tt (tick (enter (pid, pag) i s)) -> wp (entra_en_ram pid pag i) s Q.
Proof. intros Hv HQ. unfold entra_en_ram. by repeat sim_step. Qed.

(** A reference to a page in no memory. *)
Lemma cargar_spec s a p : inv s a -> valid p -> activo (rd (procesos s) (p.1 - 1)) = 1 ->
  lru_index s + 1 < 2147483648 -> p ∉ mru a ++ out a -> is_Some (hueco 0 (memSecundaria s)) ->
  wp (cargar 108 p.1 p.2) s (fun _ s' => inv s' (lru_ref a p) /\ lru_index s' = lru_index s + 1).
Proof.
  intros Hi Hv Ha Hlim Hnot [j Ej]. pose proof (lru_tick s (iv_lru s a Hi) Hlim) as Ht. pose proof (iv_sizes s a Hi) as Hs.
  pose proof (hueco_spec 0 (memSecundaria s)) as Hsw. rewrite Ej, (sz_swap s Hs) in Hsw. destruct Hsw as (Hj & Hfree & _).
  rewrite Z.sub_0_r in Hfree. pose proof (Permutation_length (iv_ram_perm s a Hi)) as HP. pose proof (sz_ram s Hs) as H8. unfold lenZ in H8.
  destruct p as [pid pag]. cbn [fst snd] in *. unfold cargar. sim_step. sim_step.
  pose proof (hueco_spec 0 (ram s)) as Hra. destruct (hueco 0 (ram s)) as [i|].
  - rewrite (sz_ram s Hs), Z.sub_0_r in Hra. destruct Hra as (Hr & Ho & Hlt).
    sim_step. apply entra_en_ram_spec; [done|]. do 2 sim_step. apply ram_set_spec; [lia|]. split; [|done].
    apply (load_inv s a (pid, pag)); try done. lia.
  - destruct (victim_spec s a Hi ltac:(lia)) as (m & q & Em & Hr & Hq & Hvq). rewrite Ej.
    change (108 =? 102) with false. change (108 =? 108) with true. cbn [when].
    do 6 sim_step. set (i := (min_lru _ _ _ _ _).1) in *. destruct (occ_eq _ _ Hq) as [Eq _]. rewrite Eq in Hvq.
    sim_step. sim_step. apply entra_en_ram_spec; [done|]. repeat sim_step. split; [|done].
    change (ram (tick (enter (pid, pag) i s))) with (ram s). rewrite <- Eq in *. assert (length (mru a) = 8%nat) as Hm by lia.
    rewrite elem_of_app in Hnot. apply Decidable.not_or in Hnot as [Hn1 Hn2].
    exact (swap_out_inv s a (pid, pag) Hi Hv Ha Hlim m q i j Hn1 Em Hm Hr Hq Hvq Hj _ Hfree Hn2 eq_refl).
Qed.

(** A reference: the program stops only when the swap area is full. *)
Lemma referencia_spec s a p : inv s a -> valid p -> lru_index s + 1 < 2147483648 ->
  wp (referencia 108 p.1 p.2) s (fun ok s' =>
    if ok then inv s' (lru_ref a p) /\ lru_index s' = lru_index s + 1 /\ (length (out a) < 16)%nat
    else inv s' a /\ length (out a) = 16%nat).
Proof.
  intros Hi Hv Hlim. destruct (Hv) as [H1 H2]. unfold referencia, MAX_PROCESOS, VIRTUAL, verificarMemoriaSecundaria.
  rewrite !Z.gtb_ltb, (proj2 (Z.ltb_ge (100 - 1) p.1)), (proj2 (Z.ltb_ge (16 - 1) p.2)) by lia. cbn [orb].
  repeat sim_step. pose proof (hueco_spec 0 (memSecundaria s)) as Hf. pose proof (sz_swap s (iv_sizes s a Hi)) as H16.
  unfold lenZ in H16. pose proof (Permutation_length (iv_swap_perm s a Hi)) as HP.
  destruct (hueco 0 (memSecundaria s)) as [j|] eqn:Ej.
  2: { rewrite bool_decide_false by (by intros []). cbn [negb]. sim_step. split; [done | lia]. }
  rewrite bool_decide_true by done. assert (length (out a) < 16)%nat as Hlt by lia. cbn [negb].
  sim_step. eapply wp_mono; [by apply inicializar_spec|]. intros [] s1 (Hi1 & Ha1 & El & Es).
  sim_step. eapply wp_mono; [apply (gestionar_spec s1 a p); [done | done | done | lia]|]. rewrite <- El.
  intros r s2 [(-> & Hi2 & El2)|(-> & -> & Hnot)].
  - change (0 =? 1) with false. cbn [when]. by repeat sim_step.
  - change (1 =? 1) with true. cbn [when]. sim_step.
    eapply wp_mono; [apply (cargar_spec s1 a p); [done | done | done | lia | done | by rewrite Es, Ej]|].
    intros [] s3 []. by sim_step.
Qed.

(** ** The program *)

(** The reference policy on the references of the input, up to the one at which
    the swap area is full. *)
Fixpoint lru_run (a : lru) (refs : list page) : lru * Z :=
  match refs with
  | [] => (a, 0)
  | p :: refs => if bool_decide (length (out a) = 16%nat) then (a, 1) else lru_run (lru_ref a p) refs
  end.

Lemma main_loop_spec refs s a : inv s a -> Forall valid refs -> lru_index s + lenZ refs < 2147483648 ->
  wp (main_loop 108 refs) s (fun st s' => inv s' (lru_run a refs).1 /\ st = (lru_run a refs).2).
Proof.
  revert s a. induction refs as [|[pid pag] refs IH]; intros s a Hi Hv Hlim; cbn [main_loop lru_run]; [by sim_step|].
  inversion_clear Hv as [|? ? Hp Hv']. rewrite lenZ_cons in Hlim. pose proof (lenZ_nonneg refs).
  sim_step. eapply wp_mono; [apply (referencia_spec s a (pid, pag)); [done | done | lia]|].
  intros [] s1.
  - intros (Hi1 & El1 & H16). rewrite bool_decide_false by lia. apply IH; [done | done | lia].
  - intros [Hi1 H16]. rewrite bool_decide_true by done. by sim_step.
Qed.

(** What the arrays hold before [main] initialises them: anything, but for
    [memoria], which it never initialises and which must not look like a place. *)
Definition unplaced (s : sim) : Prop := forall p, valid p -> memoria (entry s p) <> 1 /\ memoria (entry s p) <> 2.

Lemma main_init_inv s : sizes s -> unplaced s -> inv (main_init s) (mkLru [] []).
Proof.
  intros Hs Hu. assert (forall i, 0 <= i < 100 -> rd (procesos (main_init s)) i = mkProceso (p_pid (rd (procesos s) i)) (paginas (rd (procesos s) i)) (-1)) as Hp.
  { intros i Hi. apply rd_lookup; [lia|]. cbn. rewrite list_lookup_fmap, rd_lookup_Some by (rewrite (sz_proc s Hs); lia). done. }
  assert (forall l : list pagina, omap occ (set_pid (-1) <$> l) = []) as Ho by (induction l; by cbn).
  assert (forall l i, 0 <= i < lenZ l -> occ (rd (set_pid (-1) <$> l) i) = None) as Hr.
  { intros l i Hi. rewrite (rd_lookup _ _ (set_pid (-1) (rd l i))); [done | lia|].
    by rewrite list_lookup_fmap, rd_lookup_Some. }
  assert (forall p, valid p -> entry (main_init s) p = entry s p) as He.
  { intros p [H1 H2]. unfold entry. by rewrite Hp by lia. }
  destruct (Hs) as [Hs1 Hs2 Hs3 Hs4].
  split; cbn [mru out app]; try done.
  - split; [cbn; unfold lenZ in *; by rewrite length_fmap | intros i Hi; rewrite Hp by done; by apply Hs2
      | cbn; unfold lenZ in *; by rewrite length_fmap | cbn; unfold lenZ in *; by rewrite length_fmap].
  - cbn. by rewrite Ho.
  - cbn. by rewrite Ho.
  - constructor.
  - intros i p Hi. cbn [ram main_init]. by rewrite Hr by lia.
  - intros i p Hi. cbn [memSecundaria main_init]. by rewrite Hr by lia.
  - intros p Hv _. rewrite He by done. by apply Hu.
  - intros pid Hpid. right. rewrite Hp by lia. split; [done|]. intros pag. apply not_elem_of_nil.
  - intros p [H1 H2]. by rewrite Hp by lia.
  - constructor.
  - by intros p ?%not_elem_of_nil.
Qed.

(** What the table shows of a page is where the page is. *)
Definition shown (s : sim) (a : lru) (p : page) : Prop :=
  match celda_de (entry s p) with
  | Some Libre => p ∉ mru a ++ out a
  | Some (EnRam i) => p ∈ mru a /\ 0 <= i < 8 /\ (imprimirMemorias s).1 !! Z.to_nat i = Some (Some p)
  | Some (EnSwap j) => p ∈ out a /\ 0 <= j < 16 /\ (imprimirMemorias s).2 !! Z.to_nat j = Some (Some p)
  | None => False
  end.

Lemma inv_shown s a p : inv s a -> valid p -> activo (rd (procesos s) (p.1 - 1)) = 1 -> shown s a p.
Proof.
  intros Hi Hv Ha. unfold shown, celda_de.
  destruct (Z.eqb_spec (memoria (entry s p)) 1) as [E1|E1]; [|destruct (Z.eqb_spec (memoria (entry s p)) 2) as [E2|E2]].
  - destruct (memoria_1 s a Hi p Hv E1) as (H1 & H2 & H3). rewrite (proj2 (Z.eqb_neq _ (-1))) by lia.
    split_and!; [done | lia | lia |]. cbn.
    rewrite list_lookup_fmap, rd_lookup_Some by (rewrite (sz_ram s (iv_sizes s a Hi)); lia). cbn. f_equal. exact H3.
  - destruct (memoria_2 s a Hi p Hv E2) as (H1 & H2 & H3). rewrite (proj2 (Z.eqb_neq _ (-1))) by lia.
    split_and!; [done | lia | lia |]. cbn.
    rewrite list_lookup_fmap, rd_lookup_Some by (rewrite (sz_swap s (iv_sizes s a Hi)); lia). cbn. f_equal. exact H3.
  - pose proof (memoria_else s a Hi p Hv E1 E2) as Hn. by rewrite (iv_absent s a Hi p Hv Ha Hn).
Qed.


(** ** Runs *)

(** Arrays that hold zeros. *)
Definition demo_sim : sim :=
  let z := mkPagina 0 0 0 0 0 in
  mkSim (replicate 100 (mkProceso 0 (replicate 16 z) 0)) (replicate 8 z) 0 (replicate 16 z) 0.
Lemma demo_sim_sizes : sizes demo_sim.
Proof. split; [done | | done | done]. intros i Hi. cbn [procesos demo_sim]. by rewrite rd_replicate by lia. Qed.
Lemma demo_sim_unplaced : unplaced demo_sim.
Proof.
  intros p [H1 H2]. unfold entry. cbn [procesos demo_sim]. rewrite rd_replicate by lia. cbn [paginas].
  by rewrite rd_replicate by lia.
Qed.

(** Pages 0 to 8 of process 1, then 1 again and 9: page 0 and page 2 leave. *)
Definition demo_refs : list page := ((fun k => (1, k)) <$> seqZ 0 9) ++ [(1, 1); (1, 9)].

Definition fin (x : res (Z * sim)) : sim := match x with Ok (_, s) => s | _ => demo_sim end.

(** With [-f] the table entry of a displaced page keeps the number of its RAM
    frame.  Here page 2 goes to slot 1 of the swap area while its entry says 2; the
    next reference to it loads slot 2, which is free, and the page table shows the
    page in a frame that holds none. *)
Definition fifo_refs : list page := ((fun k => (1, k)) <$> seqZ 0 9) ++ [(1, 0); (1, 9); (1, 2)].
Lemma fifo_table_wrong :
  let s := fin (main 102 fifo_refs demo_sim) in
  celda_de (entry s (1, 2)) = Some (EnRam 3) /\ (imprimirMemorias s).1 !! 3%nat = Some None /\
  (imprimirMemorias s).2 !! 1%nat = Some (Some (1, 2)).
Proof. by vm_compute. Qed.

(** When the stack holds a 1 in [memoria], the first reference to a page is taken for
    one to a page in RAM, and nothing is loaded. *)
Lemma uninitialised_memoria :
  let z := mkPagina 0 0 0 1 0 in
  let s := fin (main 102 [(1, 0)] (mkSim (replicate 100 (mkProceso 0 (replicate 16 z) 0)) (replicate 8 z) 0 (replicate 16 z) 0)) in
  omap id (imprimirMemorias s).1 = [].
Proof. by vm_compute. Qed.

(** The message says that processes go up to 100, but process 100 is refused. *)
Lemma process_100_refused : main 108 [(100, 0)] demo_sim = Ok (1, main_init demo_sim).
Proof. by vm_compute. Qed.
